(** * PPPoE discovery (rp-pppoe, [src/discovery.c]): a shallow embedding

    The C functions of [discovery.c] are embedded as Rocq functions with the
    same names.  Effects (clock, [select], packet I/O, logging, [exit]) are
    threaded through a small state-and-outcome monad over a [World]: the
    environment's answers are read from scripts, everything the program
    emits is appended to a trace.  Loops receive fuel.

    Representation choices:
    - bytes are [byte] of the standard library; a 16-bit field kept in network byte order is the
      pair of its two bytes in memory ([be16]), [htons]/[ntohs] convert;
    - host-order integers are [Z]; truncations to [uint16_t] are written out
      ([u16]); overflow of the signed [int timeout] is undefined behaviour
      and is an outcome of its own;
    - a C string (a non-null [char *]) is the list of its bytes before the
      terminating NUL, a null pointer is [None];
    - an array is the list of its leading bytes. *)

From Stdlib Require Import ZArith List Bool Lia String.
From Stdlib Require Import Strings.Byte.
Import ListNotations.
Open Scope Z_scope.

(* ------------------------------------------------------------------ *)
(** ** Bytes and 16-bit network-order fields *)

Definition Z_of_byte (b : byte) : Z := Z.of_N (Byte.to_N b).

Definition byte_of_Z (z : Z) : byte :=
  match Byte.of_N (Z.to_N (z mod 256)) with
  | Some b => b
  | None => Byte.x00
  end.

(** The two bytes of a 16-bit field, most significant first. *)
Definition be16 : Type := (byte * byte)%type.

(** Truncation to [uint16_t]. *)
Definition u16 (z : Z) : Z := z mod 65536.

Definition htons (x : Z) : be16 := (byte_of_Z (u16 x / 256), byte_of_Z (u16 x)).
Definition ntohs (f : be16) : Z := Z_of_byte (fst f) * 256 + Z_of_byte (snd f).

Definition be16_bytes (f : be16) : list byte := [fst f; snd f].

Definition be16_is_zero (f : be16) : bool :=
  Byte.eqb (fst f) Byte.x00 && Byte.eqb (snd f) Byte.x00.

Fixpoint bytes_eqb (a b : list byte) : bool :=
  match a, b with
  | [], [] => true
  | x :: a', y :: b' => Byte.eqb x y && bytes_eqb a' b'
  | _, _ => false
  end.

(** [n] bytes read from an array; positions past the modelled list read as
    zero. *)
Definition take_bytes (n : Z) (l : list byte) : list byte :=
  firstn (Z.to_nat n) (l ++ repeat Byte.x00 (Z.to_nat n)).

(** [memcpy(dst, src, n)]: the first [n] bytes of [dst] are replaced. *)
Definition memcpy (dst src : list byte) (n : Z) : list byte :=
  take_bytes n src ++ skipn (Z.to_nat n) dst.

(** [memcmp(a, b, n) == 0]. *)
Definition memcmp_eq (a b : list byte) (n : Z) : bool :=
  bytes_eqb (take_bytes n a) (take_bytes n b).

(** [strlen] of a C string held as the list of its bytes. *)
Definition strlen (s : list byte) : Z := Z.of_nat (List.length s).

(** [strncmp(data, s, n) == 0], used by the source only under the guard
    [n == strlen(s)], where it compares the [n] bytes of [data] with all of
    [s]. *)
Definition strncmp_eq (data s : list byte) (n : Z) : bool :=
  bytes_eqb (take_bytes n data) (take_bytes n s).

(* ------------------------------------------------------------------ *)
(** ** Constants of [pppoe.h] *)

(** Modelled from the spec: [pppoe.h] is not among the sources; the tag
    types, packet codes, header sizes and limits below are the values of the
    spec's data model (sections 3, 4.A and 6). *)
Definition TAG_SERVICE_NAME : Z := 0x0101.
Definition TAG_AC_NAME : Z := 0x0102.
Definition TAG_HOST_UNIQ : Z := 0x0103.
Definition TAG_AC_COOKIE : Z := 0x0104.
Definition TAG_VENDOR_SPECIFIC : Z := 0x0105.
Definition TAG_RELAY_SESSION_ID : Z := 0x0110.
Definition TAG_PPP_MAX_PAYLOAD : Z := 0x0120.
Definition TAG_SERVICE_NAME_ERROR : Z := 0x0201.
Definition TAG_AC_SYSTEM_ERROR : Z := 0x0202.
Definition TAG_GENERIC_ERROR : Z := 0x0203.

Definition CODE_PADI : byte := Byte.x09.
Definition CODE_PADO : byte := Byte.x07.
Definition CODE_PADR : byte := Byte.x19.
Definition CODE_PADS : byte := Byte.x65.
Definition CODE_PADT : byte := Byte.xa7.

Definition ETH_ALEN : Z := 6.
Definition Eth_PPPOE_Discovery : Z := 0x8863.
(** [PPPOE_VER_TYPE(1, 1)]. *)
Definition PPPOE_VER_TYPE_1_1 : byte := Byte.x11.
(** Ethernet header (14) plus PPPoE header (6). *)
Definition HDR_SIZE : Z := 20.
Definition TAG_HDR_SIZE : Z := 4.
(** The payload window of a frame. *)
Definition MAX_PPPOE_PAYLOAD : Z := 1484.
Definition ETH_PPPOE_MTU : Z := 1492.

(** Constants of the C library. *)
Definition EXIT_SUCCESS : Z := 0.
Definition EXIT_FAILURE : Z := 1.
Definition EINTR : Z := 4.
Definition INT_MAX : Z := 2147483647.
Definition INT_MIN : Z := -2147483648.

(** Modelled from the spec: the discovery states of the connection context
    (section 3); the enumeration is declared in [pppoe.h]. *)
Inductive DiscoveryState :=
| STATE_INITIAL
| STATE_SENT_PADI
| STATE_RECEIVED_PADO
| STATE_SENT_PADR
| STATE_SESSION.

Definition state_eqb (a b : DiscoveryState) : bool :=
  match a, b with
  | STATE_INITIAL, STATE_INITIAL
  | STATE_SENT_PADI, STATE_SENT_PADI
  | STATE_RECEIVED_PADO, STATE_RECEIVED_PADO
  | STATE_SENT_PADR, STATE_SENT_PADR
  | STATE_SESSION, STATE_SESSION => true
  | _, _ => false
  end.

(* ------------------------------------------------------------------ *)
(** ** C structures *)

Record timeval := mkTimeval { tv_sec : Z; tv_usec : Z }.

(** [PPPoETag]: type and length in network byte order, then the payload
    array. *)
Record PPPoETag := mkTag {
  tag_type : be16;
  tag_length : be16;
  tag_payload : list byte
}.

Record ethhdr := mkEthhdr {
  h_dest : list byte;
  h_source : list byte;
  h_proto : be16
}.

(** [PPPoEPacket]; [pkt_session] and [pkt_length] are the fields [session]
    and [length]. *)
Record PPPoEPacket := mkPacket {
  ethHdr : ethhdr;
  vertype : byte;
  code : byte;
  pkt_session : be16;
  pkt_length : be16;
  payload : list byte
}.

(** [PPPoEConnection], the fields [discovery.c] reads or writes. *)
Record PPPoEConnection := mkConn {
  discoveryState : DiscoveryState;
  myEth : list byte;
  peerEth : list byte;
  req_peer : bool;
  req_peer_mac : list byte;
  session : be16;
  serviceName : option (list byte);
  acName : option (list byte);
  hostUniq : option (list byte);
  printACNames : bool;
  skipDiscovery : bool;
  killSession : bool;
  discoveryTimeout : Z;
  numPADOs : Z;
  cookie : PPPoETag;
  relayId : PPPoETag;
  PADSHadError : bool;
  seenMaxPayload : bool
}.

Definition set_discoveryState (v : DiscoveryState) (c : PPPoEConnection) :=
  mkConn v (myEth c) (peerEth c) (req_peer c) (req_peer_mac c) (session c)
    (serviceName c) (acName c) (hostUniq c) (printACNames c) (skipDiscovery c)
    (killSession c) (discoveryTimeout c) (numPADOs c) (cookie c) (relayId c)
    (PADSHadError c) (seenMaxPayload c).

Definition set_peerEth (v : list byte) (c : PPPoEConnection) :=
  mkConn (discoveryState c) (myEth c) v (req_peer c) (req_peer_mac c) (session c)
    (serviceName c) (acName c) (hostUniq c) (printACNames c) (skipDiscovery c)
    (killSession c) (discoveryTimeout c) (numPADOs c) (cookie c) (relayId c)
    (PADSHadError c) (seenMaxPayload c).

Definition set_session (v : be16) (c : PPPoEConnection) :=
  mkConn (discoveryState c) (myEth c) (peerEth c) (req_peer c) (req_peer_mac c) v
    (serviceName c) (acName c) (hostUniq c) (printACNames c) (skipDiscovery c)
    (killSession c) (discoveryTimeout c) (numPADOs c) (cookie c) (relayId c)
    (PADSHadError c) (seenMaxPayload c).

Definition set_numPADOs (v : Z) (c : PPPoEConnection) :=
  mkConn (discoveryState c) (myEth c) (peerEth c) (req_peer c) (req_peer_mac c)
    (session c) (serviceName c) (acName c) (hostUniq c) (printACNames c)
    (skipDiscovery c) (killSession c) (discoveryTimeout c) v (cookie c) (relayId c)
    (PADSHadError c) (seenMaxPayload c).

Definition set_cookie (v : PPPoETag) (c : PPPoEConnection) :=
  mkConn (discoveryState c) (myEth c) (peerEth c) (req_peer c) (req_peer_mac c)
    (session c) (serviceName c) (acName c) (hostUniq c) (printACNames c)
    (skipDiscovery c) (killSession c) (discoveryTimeout c) (numPADOs c) v (relayId c)
    (PADSHadError c) (seenMaxPayload c).

Definition set_relayId (v : PPPoETag) (c : PPPoEConnection) :=
  mkConn (discoveryState c) (myEth c) (peerEth c) (req_peer c) (req_peer_mac c)
    (session c) (serviceName c) (acName c) (hostUniq c) (printACNames c)
    (skipDiscovery c) (killSession c) (discoveryTimeout c) (numPADOs c) (cookie c) v
    (PADSHadError c) (seenMaxPayload c).

Definition set_PADSHadError (v : bool) (c : PPPoEConnection) :=
  mkConn (discoveryState c) (myEth c) (peerEth c) (req_peer c) (req_peer_mac c)
    (session c) (serviceName c) (acName c) (hostUniq c) (printACNames c)
    (skipDiscovery c) (killSession c) (discoveryTimeout c) (numPADOs c) (cookie c)
    (relayId c) v (seenMaxPayload c).

Definition set_seenMaxPayload (v : bool) (c : PPPoEConnection) :=
  mkConn (discoveryState c) (myEth c) (peerEth c) (req_peer c) (req_peer_mac c)
    (session c) (serviceName c) (acName c) (hostUniq c) (printACNames c)
    (skipDiscovery c) (killSession c) (discoveryTimeout c) (numPADOs c) (cookie c)
    (relayId c) (PADSHadError c) v.

(** [struct HostUniqInfo]. *)
Record HostUniqInfo := mkHostUniqInfo {
  hi_hostUniq : option (list byte);
  forMe : Z
}.

(** [struct PacketCriteria] of [pppoe.h]; its [conn] pointer is modelled by
    pairing the criteria with the connection they point to. *)
Record PacketCriteria := mkCriteria {
  acNameOK : bool;
  serviceNameOK : bool;
  seenACName : bool;
  seenServiceName : bool;
  gotError : bool
}.

(* ------------------------------------------------------------------ *)
(** ** The world: environment scripts, global variables and the trace *)

(** What one call of [select] answers: its result, [errno], and the
    contents it leaves in [*timeout] (which [select] may modify). *)
Record SelectAnswer := mkSelectAnswer {
  sel_r : Z;
  sel_errno : Z;
  sel_tv : timeval
}.

(** Everything the program emits.  [EvWaitForPADO] and [EvWaitForPADS] log
    the calls of the two wait functions with their [timeout] argument. *)
Inductive Event :=
| EvSendPacket (pkt : PPPoEPacket) (size : Z)
| EvSelect (tv : timeval)
| EvSyslog (fmt : string) (args : list Z)
| EvPrintErr (msg : string)
| EvWarn (msg : string)
| EvPrintf (fmt : string) (data : list byte)
| EvPktLogErrs (pkt : string) (type len : Z) (data : list byte)
| EvSendPADT (msg : string)
| EvWaitForPADO (timeout : Z)
| EvWaitForPADS (timeout : Z).

(** [clock]: the successive answers of [gettimeofday] ([None]: it fails);
    [selects]: the answers of [select]; [inbox]: what [receivePacket]
    leaves in the packet buffer and in [len]; [trace]: the events emitted,
    newest first; [persist]: the global variable; [lcp_allow_mru] and
    [lcp_want_mru]: [lcp_allowoptions[0].mru] and [lcp_wantoptions[0].mru]
    of pppd. *)
Record World := mkWorld {
  clock : list (option timeval);
  selects : list SelectAnswer;
  inbox : list (PPPoEPacket * Z);
  trace : list Event;
  persist : bool;
  lcp_allow_mru : Z;
  lcp_want_mru : Z
}.

(** How a computation ends when it does not return to its caller. *)
Inductive Outcome :=
| Exited (status : Z)          (* exit(status) *)
| FatalError (msg : string)    (* fatalSys and the too-long-frame error *)
| Undefined (why : string)     (* undefined behaviour of the C program *)
| Blocked                      (* an environment script ran out *)
| OutOfFuel.

Inductive Result (A : Type) :=
| Ok (a : A)
| Stop (o : Outcome).
Arguments Ok {A} a.
Arguments Stop {A} o.

Definition M (A : Type) : Type := World -> Result A * World.

Definition ret {A} (a : A) : M A := fun w => (Ok a, w).

Definition bind {A B} (m : M A) (k : A -> M B) : M B :=
  fun w => match m w with
           | (Ok a, w') => k a w'
           | (Stop o, w') => (Stop o, w')
           end.

Notation "x <- m ;; k" := (bind m (fun x => k))
  (at level 61, m at next level, right associativity).
Notation "m ;;; k" := (bind m (fun _ => k))
  (at level 61, right associativity).

Definition stop {A} (o : Outcome) : M A := fun w => (Stop o, w).

Definition set_trace (t : list Event) (w : World) : World :=
  mkWorld (clock w) (selects w) (inbox w) t (persist w) (lcp_allow_mru w) (lcp_want_mru w).

Definition emit (e : Event) : M unit :=
  fun w => (Ok tt, set_trace (e :: trace w) w).

Definition emit_list (es : list Event) : M unit :=
  fun w => (Ok tt, set_trace (rev es ++ trace w) w).

Definition printf (fmt : string) (data : list byte) : M unit := emit (EvPrintf fmt data).
Definition printErr (msg : string) : M unit := emit (EvPrintErr msg).
Definition warn (msg : string) : M unit := emit (EvWarn msg).
Definition syslog (fmt : string) (args : list Z) : M unit := emit (EvSyslog fmt args).
Definition pktLogErrs (pkt : string) (type len : Z) (data : list byte) : M unit :=
  emit (EvPktLogErrs pkt type len data).
Definition sendPADT (msg : string) : M unit := emit (EvSendPADT msg).
Definition sendPacket (pkt : PPPoEPacket) (size : Z) : M unit :=
  emit (EvSendPacket pkt size).

Definition exit {A} (status : Z) : M A := stop (Exited status).
Definition fatalSys {A} (msg : string) : M A := stop (FatalError msg).

Definition get_persist : M bool := fun w => (Ok (persist w), w).

Definition gettimeofday : M (option timeval) :=
  fun w => match clock w with
           | [] => (Stop Blocked, w)
           | t :: rest =>
               (Ok t, mkWorld rest (selects w) (inbox w) (trace w) (persist w)
                        (lcp_allow_mru w) (lcp_want_mru w))
           end.

Definition select (tv : timeval) : M SelectAnswer :=
  fun w => match selects w with
           | [] => (Stop Blocked, set_trace (EvSelect tv :: trace w) w)
           | a :: rest =>
               (Ok a, mkWorld (clock w) rest (inbox w) (EvSelect tv :: trace w)
                        (persist w) (lcp_allow_mru w) (lcp_want_mru w))
           end.

Definition receivePacket : M (PPPoEPacket * Z) :=
  fun w => match inbox w with
           | [] => (Stop Blocked, w)
           | p :: rest =>
               (Ok p, mkWorld (clock w) (selects w) rest (trace w) (persist w)
                        (lcp_allow_mru w) (lcp_want_mru w))
           end.

(** The PLUGIN build's handling of a PPP-Max-Payload value: both pppd MRU
    options are lowered to [mru]. *)
Definition lower_mru (mru : Z) : M unit :=
  fun w =>
    (Ok tt,
     mkWorld (clock w) (selects w) (inbox w) (trace w) (persist w)
       (if mru <? lcp_allow_mru w then mru else lcp_allow_mru w)
       (if mru <? lcp_want_mru w then mru else lcp_want_mru w)).

(** The end of [discovery] in the PLUGIN build: both options are capped at
    [ETH_PPPOE_MTU]. *)
Definition cap_mru : M unit :=
  fun w =>
    (Ok tt,
     mkWorld (clock w) (selects w) (inbox w) (trace w) (persist w)
       (if ETH_PPPOE_MTU <? lcp_allow_mru w then ETH_PPPOE_MTU else lcp_allow_mru w)
       (if ETH_PPPOE_MTU <? lcp_want_mru w then ETH_PPPOE_MTU else lcp_want_mru w)).

Definition get_min_mru : M Z :=
  fun w => (Ok (Z.min (lcp_allow_mru w) (lcp_want_mru w)), w).

(* ------------------------------------------------------------------ *)
(** ** [time_left] *)

(** The arithmetic of [time_left] once [gettimeofday] has answered [now]:
    the value returned and what is left in [*tv]. *)
Definition time_left_at (now expire_at : timeval) : Z * timeval :=
  let sec := tv_sec expire_at - tv_sec now in
  let usec := tv_usec expire_at - tv_usec now in
  if usec <? 0 then
    let usec := usec + 1000000 in
    if negb (sec =? 0) then
      let sec := sec - 1 in
      if (sec <=? 0) && (usec <=? 0) then (0, mkTimeval sec usec)
      else (1, mkTimeval sec usec)
    else
      (* Timed out *)
      (0, mkTimeval sec usec)
  else
    if (sec <=? 0) && (usec <=? 0) then (0, mkTimeval sec usec)
    else (1, mkTimeval sec usec).

Definition time_left (expire_at : timeval) : M (Z * timeval) :=
  r <- gettimeofday ;;
  match r with
  | None => fatalSys "gettimeofday (time_left)"
  | Some now => ret (time_left_at now expire_at)
  end.

(** The interval a [timeval] denotes, in microseconds. *)
Definition usecs (tv : timeval) : Z := tv_sec tv * 1000000 + tv_usec tv.

(* ------------------------------------------------------------------ *)
(** ** [parsePacket] *)

(** A tag as the visitor receives it: type, length, value. *)
Definition TagView : Type := (Z * Z * list byte)%type.

(** Modelled from the spec: the TLV walk of [parsePacket] ([common.c] is not
    among the sources).  Section 4.A: walk TLVs strictly within the declared
    payload length; a TLV that would extend past the declared end is
    rejected and ends the walk. *)
Fixpoint tlv_walk (fuel : nat) (bytes : list byte) : list TagView :=
  match fuel with
  | O => []
  | S fuel' =>
      match bytes with
      | t1 :: t0 :: l1 :: l0 :: rest =>
          let tagType := ntohs (t1, t0) in
          let tagLen := ntohs (l1, l0) in
          if tagLen <=? Z.of_nat (List.length rest) then
            (tagType, tagLen, firstn (Z.to_nat tagLen) rest)
              :: tlv_walk fuel' (skipn (Z.to_nat tagLen) rest)
          else []
      | _ => []
      end
  end.

(** The bytes of the payload that the header's length field declares. *)
Definition declared_payload (packet : PPPoEPacket) : list byte :=
  take_bytes (ntohs (pkt_length packet)) (payload packet).

(** The TLV stream of a frame. *)
Definition tlv_stream (packet : PPPoEPacket) : list TagView :=
  tlv_walk (List.length (declared_payload packet)) (declared_payload packet).

(** The visitor type [ParseFunc]; [E] is what [extra] points to. *)
Definition ParseFunc (E : Type) : Type := Z -> Z -> list byte -> E -> M E.

Fixpoint visit_tags {E} (func : ParseFunc E) (tags : list TagView) (extra : E) : M E :=
  match tags with
  | [] => ret extra
  | (type, len, data) :: rest =>
      extra' <- func type len data extra ;;
      visit_tags func rest extra'
  end.

(** Modelled from the spec: [parsePacket] invokes the visitor for each
    (type, length, value) of the stream, in order.  Its [int] result is
    ignored by every caller in [discovery.c] and is not modelled. *)
Definition parsePacket {E} (packet : PPPoEPacket) (func : ParseFunc E) (extra : E) : M E :=
  visit_tags func (tlv_stream packet) extra.

(* ------------------------------------------------------------------ *)
(** ** Host-Uniq filtering *)

Definition parseForHostUniq : ParseFunc HostUniqInfo :=
  fun type len data hi =>
    match hi_hostUniq hi with
    | None => ret hi
    | Some hu =>
        if (type =? TAG_HOST_UNIQ) && (len =? strlen hu) && memcmp_eq data hu len
        then ret (mkHostUniqInfo (hi_hostUniq hi) 1)
        else ret hi
    end.

Definition packetIsForMe (conn : PPPoEConnection) (packet : PPPoEPacket) : M Z :=
  (* If packet is not directed to our MAC address, forget it *)
  if negb (memcmp_eq (h_dest (ethHdr packet)) (myEth conn) ETH_ALEN) then ret 0
  else
    (* If we're not using the Host-Unique tag, then accept the packet *)
    match hostUniq conn with
    | None => ret 1
    | Some _ =>
        hi <- parsePacket packet parseForHostUniq (mkHostUniqInfo (hostUniq conn) 0) ;;
        ret (forMe hi)
    end.

Notation "' pat <- m ;; k" :=
  (bind m (fun x => match x with pat => k end))
  (at level 61, pat pattern, m at next level, right associativity).

(* ------------------------------------------------------------------ *)
(** ** The functions of [discovery.c] *)

Section Discovery.

(** Whether the file is compiled with [-DPLUGIN] (the pppd plugin). *)
Variable PLUGIN : bool.
(** The macro [MAX_PADI_ATTEMPTS] of [pppoe.h] (3 in the spec). *)
Variable MAX_PADI_ATTEMPTS : Z.

(** The three identical branches of [parsePADOTags] for the error tags;
    [msg] is the branch's [printf] format. *)
Definition pado_error_tag (msg : string) (type len : Z) (data : list byte)
    (pc : PacketCriteria) (conn : PPPoEConnection)
    : M (PacketCriteria * PPPoEConnection) :=
  if printACNames conn then
    printf msg data ;;;
    ret (pc, conn)
  else
    pktLogErrs "PADO" type len data ;;;
    let pc := mkCriteria (acNameOK pc) (serviceNameOK pc) (seenACName pc)
                (seenServiceName pc) true in
    p <- get_persist ;;
    if negb p then exit EXIT_FAILURE else ret (pc, conn).

(** The loop printing the first 20 bytes of a cookie or relay id. *)
Definition print_first_20 (len : Z) (data : list byte) : M unit :=
  emit_list (map (fun b => EvPrintf " %02x" [b]) (take_bytes (Z.min len 20) data)) ;;;
  (if 20 <? len then printf "..." [] else ret tt) ;;;
  printf "\n" [].

(** The PLUGIN branch for [TAG_PPP_MAX_PAYLOAD], shared by both parsers. *)
Definition max_payload_tag (len : Z) (data : list byte) (conn : PPPoEConnection)
    : M PPPoEConnection :=
  if len =? 2 then
    let mru := ntohs (nth 0 data Byte.x00, nth 1 data Byte.x00) in
    if ETH_PPPOE_MTU <=? mru then
      lower_mru mru ;;;
      ret (set_seenMaxPayload true conn)
    else ret conn
  else ret conn.

Definition parsePADOTags : ParseFunc (PacketCriteria * PPPoEConnection) :=
  fun type len data extra =>
    let '(pc, conn) := extra in
    if type =? TAG_AC_NAME then
      let pc := mkCriteria (acNameOK pc) (serviceNameOK pc) true
                  (seenServiceName pc) (gotError pc) in
      (if printACNames conn then printf "Access-Concentrator: %.*s\n" data else ret tt) ;;;
      match acName conn with
      | Some name =>
          if (len =? strlen name) && strncmp_eq data name len then
            ret (mkCriteria true (serviceNameOK pc) (seenACName pc)
                   (seenServiceName pc) (gotError pc), conn)
          else ret (pc, conn)
      | None => ret (pc, conn)
      end
    else if type =? TAG_SERVICE_NAME then
      let pc := mkCriteria (acNameOK pc) (serviceNameOK pc) (seenACName pc)
                  true (gotError pc) in
      (if printACNames conn && (0 <? len)
       then printf "       Service-Name: %.*s\n" data else ret tt) ;;;
      match serviceName conn with
      | Some name =>
          if (len =? strlen name) && strncmp_eq data name len then
            ret (mkCriteria (acNameOK pc) true (seenACName pc)
                   (seenServiceName pc) (gotError pc), conn)
          else ret (pc, conn)
      | None => ret (pc, conn)
      end
    else if type =? TAG_AC_COOKIE then
      (if printACNames conn
       then printf "Got a cookie:" [] ;;; print_first_20 len data
       else ret tt) ;;;
      ret (pc, set_cookie (mkTag (htons type) (htons len)
                             (memcpy (tag_payload (cookie conn)) data len)) conn)
    else if type =? TAG_RELAY_SESSION_ID then
      (if printACNames conn
       then printf "Got a Relay-ID:" [] ;;; print_first_20 len data
       else ret tt) ;;;
      ret (pc, set_relayId (mkTag (htons type) (htons len)
                              (memcpy (tag_payload (relayId conn)) data len)) conn)
    else if type =? TAG_SERVICE_NAME_ERROR then
      pado_error_tag "Got a Service-Name-Error tag: %.*s\n" type len data pc conn
    else if type =? TAG_AC_SYSTEM_ERROR then
      pado_error_tag "Got a System-Error tag: %.*s\n" type len data pc conn
    else if type =? TAG_GENERIC_ERROR then
      pado_error_tag "Got a Generic-Error tag: %.*s\n" type len data pc conn
    else if PLUGIN && (type =? TAG_PPP_MAX_PAYLOAD) then
      conn <- max_payload_tag len data conn ;;
      ret (pc, conn)
    else ret (pc, conn).

Definition parsePADSTags : ParseFunc PPPoEConnection :=
  fun type len data conn =>
    if type =? TAG_SERVICE_NAME then
      syslog "PADS: Service-Name: '%.*s'" [len] ;;;
      ret conn
    else if (type =? TAG_GENERIC_ERROR) || (type =? TAG_AC_SYSTEM_ERROR)
            || (type =? TAG_SERVICE_NAME_ERROR) then
      pktLogErrs "PADS" type len data ;;;
      ret (set_PADSHadError true conn)
    else if type =? TAG_RELAY_SESSION_ID then
      ret (set_relayId (mkTag (htons type) (htons len)
                          (memcpy (tag_payload (relayId conn)) data len)) conn)
    else if PLUGIN && (type =? TAG_PPP_MAX_PAYLOAD) then
      max_payload_tag len data conn
    else ret conn.

(* ---------------- encoding ---------------- *)

(** The frame under construction: the bytes written to [packet.payload],
    the offset of [cursor] from [packet.payload], and [plen]. *)
Record Encoder := mkEnc {
  buf : list byte;
  cursor : Z;
  plen : Z
}.

(** Modelled from the spec: the macro [CHECK_ROOM(cursor, start, len)] of
    [pppoe.h].  Section 4.A: a TLV is rejected if cursor + length would
    exceed the payload window; on overflow the codec signals a fatal
    frame-too-large error. *)
Definition CHECK_ROOM (cursor len : Z) : M unit :=
  if MAX_PPPOE_PAYLOAD <? cursor + len
  then stop (FatalError "frame too large")
  else ret tt.

(** Bytes stored at offset [off] of an array. *)
Definition write_at (b : list byte) (off : Z) (bs : list byte) : list byte :=
  take_bytes off b ++ bs ++ skipn (Z.to_nat off + List.length bs) b.

(** [memcpy] of [n] bytes of [src] into [packet.payload] at offset [off].
    The array holds the payload window.  A copy that ends beyond it writes
    past the end of the array: that is undefined behaviour, but nothing in
    the code stops there.  The model writes the bytes all the same, so that
    its buffer grows beyond the window (see [overran]), and goes on. *)
Definition payload_memcpy (b : list byte) (off : Z) (src : list byte) (n : Z)
    : M (list byte) :=
  ret (write_at b off (take_bytes n src)).

(** More bytes have been written than [packet.payload] holds. *)
Definition overran (b : list byte) : bool := MAX_PPPOE_PAYLOAD <? strlen b.

(** The rest [m] of a function from a point on where its behaviour is
    undefined if [ub] holds.  The code runs on: what [m] does to the world
    is kept, whether [m] itself ends on an error or hands its frame to
    [sendPacket], and the run ends as undefined where [m] ends (what a
    real build does with the overwritten stack, and what exactly it sends,
    is not determined by the program). *)
Definition undefined_after {A} (ub : bool) (m : M A) : M A :=
  fun w =>
    if ub then (Stop (Undefined "write past the end of packet.payload"), snd (m w))
    else m w.

(** The first [n + TAG_HDR_SIZE] bytes of a [PPPoETag] structure. *)
Definition tag_bytes (tag : PPPoETag) (n : Z) : list byte :=
  be16_bytes (tag_type tag) ++ be16_bytes (tag_length tag)
    ++ take_bytes n (tag_payload tag).

(** The block that appends a tag held in a [PPPoETag] structure:
    [CHECK_ROOM(cursor, packet.payload, n + TAG_HDR_SIZE);
     memcpy(cursor, &tag, n + TAG_HDR_SIZE);
     cursor += n + TAG_HDR_SIZE; plen += n + TAG_HDR_SIZE;]. *)
Definition copy_tag (tag : PPPoETag) (n : Z) (e : Encoder) : M Encoder :=
  CHECK_ROOM (cursor e) (n + TAG_HDR_SIZE) ;;;
  b <- payload_memcpy (buf e) (cursor e) (tag_bytes tag n) (n + TAG_HDR_SIZE) ;;
  ret (mkEnc b (cursor e + (n + TAG_HDR_SIZE)) (u16 (plen e + (n + TAG_HDR_SIZE)))).

(** If we're using Host-Uniq, copy it over. *)
Definition add_hostUniq (conn : PPPoEConnection) (e : Encoder) : M Encoder :=
  match hostUniq conn with
  | Some hu =>
      let len := strlen hu in
      copy_tag (mkTag (htons TAG_HOST_UNIQ) (htons len) (memcpy [] hu len)) len e
  | None => ret e
  end.

(** PLUGIN: add our maximum MTU/MRU. *)
Definition add_maxPayload (e : Encoder) : M Encoder :=
  if PLUGIN then
    m <- get_min_mru ;;
    if ETH_PPPOE_MTU <? m then
      copy_tag (mkTag (htons TAG_PPP_MAX_PAYLOAD) (htons 2) (be16_bytes (htons m))) 2 e
    else ret e
  else ret e.

Definition NO_SERVICE_NAME : list byte :=
  list_byte_of_string "NO-SERVICE-NAME-NON-RFC-COMPLIANT".

Definition sendPADI (conn : PPPoEConnection) : M unit :=
  let namelen :=
    match serviceName conn with Some s => u16 (strlen s) | None => 0 end in
  let omit_service_name :=
    match serviceName conn with Some s => bytes_eqb s NO_SERVICE_NAME | None => false end in
  (* Set destination to Ethernet broadcast address *)
  let hdr := mkEthhdr (repeat Byte.xff 6) (take_bytes ETH_ALEN (myEth conn))
               (htons Eth_PPPOE_Discovery) in
  e <- (if negb omit_service_name then
          let plen0 := u16 (TAG_HDR_SIZE + namelen) in
          CHECK_ROOM 0 plen0 ;;;
          let b := be16_bytes (htons TAG_SERVICE_NAME) ++ be16_bytes (htons namelen) in
          b <- match serviceName conn with
               | Some s => payload_memcpy b TAG_HDR_SIZE s (strlen s)
               | None => ret b
               end ;;
          ret (mkEnc b (namelen + TAG_HDR_SIZE) plen0)
        else ret (mkEnc [] 0 0)) ;;
  (* the copy of a long service name has gone past the end of packet.payload *)
  undefined_after (overran (buf e))
    (e <- add_hostUniq conn e ;;
     e <- add_maxPayload e ;;
     sendPacket (mkPacket hdr PPPOE_VER_TYPE_1_1 CODE_PADI (htons 0) (htons (plen e)) (buf e))
       (plen e + HDR_SIZE)).

Definition sendPADR (conn : PPPoEConnection) : M unit :=
  let namelen :=
    match serviceName conn with Some s => u16 (strlen s) | None => 0 end in
  let plen0 := u16 (TAG_HDR_SIZE + namelen) in
  CHECK_ROOM 0 plen0 ;;;
  let hdr := mkEthhdr (take_bytes ETH_ALEN (peerEth conn)) (take_bytes ETH_ALEN (myEth conn))
               (htons Eth_PPPOE_Discovery) in
  let b := be16_bytes (htons TAG_SERVICE_NAME) ++ be16_bytes (htons namelen) in
  b <- match serviceName conn with
       | Some s => payload_memcpy b TAG_HDR_SIZE s namelen
       | None => ret b
       end ;;
  let e := mkEnc b (namelen + TAG_HDR_SIZE) plen0 in
  (* the copy of a long service name has gone past the end of packet.payload *)
  undefined_after (overran (buf e))
    (e <- add_hostUniq conn e ;;
     (* Copy cookie and relay-ID if needed *)
     e <- (if negb (be16_is_zero (tag_type (cookie conn)))
           then copy_tag (cookie conn) (ntohs (tag_length (cookie conn))) e
           else ret e) ;;
     e <- (if negb (be16_is_zero (tag_type (relayId conn)))
           then copy_tag (relayId conn) (ntohs (tag_length (relayId conn))) e
           else ret e) ;;
     e <- add_maxPayload e ;;
     sendPacket (mkPacket hdr PPPOE_VER_TYPE_1_1 CODE_PADR (htons 0) (htons (plen e)) (buf e))
       (plen e + HDR_SIZE)).

(* ---------------- waiting for PADO and PADS ---------------- *)

(** How an iteration of a [do ... while] body ends: at its end or by
    [continue] (both reach the loop condition), by [break], or by [return]. *)
Inductive LoopCtl := LContinue | LBreak | LReturn.

(** Modelled from the spec: the macro [BROADCAST(e)] of [pppoe.h], true of
    the broadcast address FF:FF:FF:FF:FF:FF. *)
Definition BROADCAST (e : list byte) : bool :=
  memcmp_eq e (repeat Byte.xff 6) ETH_ALEN.

(** [while(1) { r = select(..., &tv); if (r >= 0 || errno != EINTR) break; }]:
    the value of [r] after the loop.  Each retry passes the same [&tv], so
    it waits for whatever the previous call left there. *)
Fixpoint select_retry (fuel : nat) (tv : timeval) : M Z :=
  match fuel with
  | O => stop OutOfFuel
  | S fuel' =>
      a <- select tv ;;
      if (0 <=? sel_r a) || negb (sel_errno a =? EINTR) then ret (sel_r a)
      else select_retry fuel' (sel_tv a)
  end.

(** The body of the loop of [waitForPADO] from the length check on, for the
    packet just received. *)
Definition waitForPADO_frame (conn : PPPoEConnection) (packet : PPPoEPacket) (len : Z)
    : M (LoopCtl * PPPoEConnection) :=
  (* Check length *)
  if len <? ntohs (pkt_length packet) + HDR_SIZE then
    syslog "Bogus PPPoE length field (%u)" [ntohs (pkt_length packet)] ;;;
    ret (LContinue, conn)
  else
    (* If it's not for us, loop again *)
    isForMe <- packetIsForMe conn packet ;;
    if isForMe =? 0 then ret (LContinue, conn)
    else if Byte.eqb (code packet) CODE_PADO then
      if BROADCAST (h_source (ethHdr packet)) then
        printErr "Ignoring PADO packet from broadcast MAC address" ;;;
        ret (LContinue, conn)
      else if PLUGIN && req_peer conn
              && negb (memcmp_eq (h_source (ethHdr packet)) (req_peer_mac conn) ETH_ALEN) then
        warn "Ignoring PADO packet from wrong MAC address" ;;;
        ret (LContinue, conn)
      else
        let pc := mkCriteria
                    (match acName conn with Some _ => false | None => true end)
                    (match serviceName conn with Some _ => false | None => true end)
                    false false false in
        (if printACNames conn && (0 <? numPADOs conn) then printf "\n" [] else ret tt) ;;;
        ' (pc, conn) <- parsePacket packet parsePADOTags (pc, conn) ;;
        if gotError pc then
          printErr "Error in PADO packet" ;;;
          ret (LContinue, conn)
        else if negb (seenACName pc) then
          printErr "Ignoring PADO packet with no AC-Name tag" ;;;
          ret (LContinue, conn)
        else if negb (seenServiceName pc) then
          printErr "Ignoring PADO packet with no Service-Name tag" ;;;
          ret (LContinue, conn)
        else
          let conn := set_numPADOs (numPADOs conn + 1) conn in
          if acNameOK pc && serviceNameOK pc then
            let conn :=
              set_peerEth (memcpy (peerEth conn) (h_source (ethHdr packet)) ETH_ALEN) conn in
            if printACNames conn then
              printf "AC-Ethernet-Address: %02x:%02x:%02x:%02x:%02x:%02x\n"
                (take_bytes ETH_ALEN (peerEth conn)) ;;;
              ret (LContinue, conn)
            else ret (LBreak, set_discoveryState STATE_RECEIVED_PADO conn)
          else ret (LContinue, conn)
    else ret (LContinue, conn).

(** One iteration of the loop of [waitForPADO]. *)
Definition waitForPADO_body (fuel : nat) (expire_at : timeval) (conn : PPPoEConnection)
    : M (LoopCtl * PPPoEConnection) :=
  ' (remaining, tv) <- time_left expire_at ;;
  if remaining =? 0 then
    (* Timed out *)
    ret (LReturn, conn)
  else
    r <- select_retry fuel tv ;;
    if r <? 0 then fatalSys "select (waitForPADO)"
    else if r =? 0 then
      (* Timed out *)
      ret (LReturn, conn)
    else
      (* Get the packet *)
      ' (packet, len) <- receivePacket ;;
      waitForPADO_frame conn packet len.

Fixpoint waitForPADO_loop (fuel : nat) (expire_at : timeval) (conn : PPPoEConnection)
    : M PPPoEConnection :=
  match fuel with
  | O => stop OutOfFuel
  | S fuel' =>
      ' (ctl, conn) <- waitForPADO_body fuel' expire_at conn ;;
      match ctl with
      | LReturn | LBreak => ret conn
      | LContinue =>
          if negb (state_eqb (discoveryState conn) STATE_RECEIVED_PADO)
          then waitForPADO_loop fuel' expire_at conn
          else ret conn
      end
  end.

Definition waitForPADO (fuel : nat) (conn : PPPoEConnection) (timeout : Z)
    : M PPPoEConnection :=
  emit (EvWaitForPADO timeout) ;;;
  let conn := if PLUGIN then set_seenMaxPayload false conn else conn in
  r <- gettimeofday ;;
  match r with
  | None => fatalSys "gettimeofday (waitForPADO)"
  | Some now =>
      let expire_at := mkTimeval (tv_sec now + timeout) (tv_usec now) in
      waitForPADO_loop fuel expire_at conn
  end.

(** The body of the loop of [waitForPADS] from the length check on. *)
Definition waitForPADS_frame (conn : PPPoEConnection) (packet : PPPoEPacket) (len : Z)
    : M (LoopCtl * PPPoEConnection) :=
  (* Check length *)
  if len <? ntohs (pkt_length packet) + HDR_SIZE then
    syslog "Bogus PPPoE length field (%u)" [ntohs (pkt_length packet)] ;;;
    ret (LContinue, conn)
  else if negb (memcmp_eq (h_source (ethHdr packet)) (peerEth conn) ETH_ALEN) then
    (* If it's not from the AC, it's not for me *)
    ret (LContinue, conn)
  else
    (* If it's not for us, loop again *)
    isForMe <- packetIsForMe conn packet ;;
    if isForMe =? 0 then ret (LContinue, conn)
    else if Byte.eqb (code packet) CODE_PADS then
      (* Parse for goodies *)
      let conn := set_PADSHadError false conn in
      conn <- parsePacket packet parsePADSTags conn ;;
      if negb (PADSHadError conn)
      then ret (LBreak, set_discoveryState STATE_SESSION conn)
      else ret (LContinue, conn)
    else ret (LContinue, conn).

(** One iteration of the loop of [waitForPADS]; the packet buffer is
    returned with the verdict when a packet was read. *)
Definition waitForPADS_body (fuel : nat) (expire_at : timeval) (conn : PPPoEConnection)
    : M (LoopCtl * option PPPoEPacket * PPPoEConnection) :=
  ' (remaining, tv) <- time_left expire_at ;;
  if remaining =? 0 then ret (LReturn, None, conn)
  else
    r <- select_retry fuel tv ;;
    if r <? 0 then fatalSys "select (waitForPADS)"
    else if r =? 0 then ret (LReturn, None, conn)
    else
      ' (packet, len) <- receivePacket ;;
      ' (ctl, conn) <- waitForPADS_frame conn packet len ;;
      ret (ctl, Some packet, conn).

(** The loop of [waitForPADS]: [None] when the function returned from
    inside the loop (timed out), the packet buffer when the loop was left. *)
Fixpoint waitForPADS_loop (fuel : nat) (expire_at : timeval) (conn : PPPoEConnection)
    : M (option PPPoEPacket * PPPoEConnection) :=
  match fuel with
  | O => stop OutOfFuel
  | S fuel' =>
      ' (ctl, pkt, conn) <- waitForPADS_body fuel' expire_at conn ;;
      match ctl with
      | LReturn => ret (None, conn)
      | LBreak => ret (pkt, conn)
      | LContinue =>
          if negb (state_eqb (discoveryState conn) STATE_SESSION)
          then waitForPADS_loop fuel' expire_at conn
          else ret (pkt, conn)
      end
  end.

(** The statements of [waitForPADS] after its loop. *)
Definition waitForPADS_finish (conn : PPPoEConnection) (packet : PPPoEPacket)
    : M PPPoEConnection :=
  (* Don't bother with ntohs; we'll just end up converting it back... *)
  let conn := set_session (pkt_session packet) conn in
  syslog "PPP session is %d (0x%x)" [ntohs (session conn); ntohs (session conn)] ;;;
  (* RFC 2516 says session id MUST NOT be zero or 0xFFFF *)
  (if (ntohs (session conn) =? 0) || (ntohs (session conn) =? 0xFFFF) then
     syslog "Access concentrator used a session value of %x -- the AC is violating RFC 2516"
       [ntohs (session conn)]
   else ret tt) ;;;
  ret conn.

Definition waitForPADS (fuel : nat) (conn : PPPoEConnection) (timeout : Z)
    : M PPPoEConnection :=
  emit (EvWaitForPADS timeout) ;;;
  r <- gettimeofday ;;
  match r with
  | None => fatalSys "gettimeofday (waitForPADS)"
  | Some now =>
      let expire_at := mkTimeval (tv_sec now + timeout) (tv_usec now) in
      ' (pkt, conn) <- waitForPADS_loop fuel expire_at conn ;;
      match pkt with
      | None => ret conn
      | Some packet => waitForPADS_finish conn packet
      end
  end.

(* ---------------- discovery ---------------- *)

(** [timeout *= 2] on an [int]: signed overflow is undefined behaviour. *)
Definition double_timeout (timeout : Z) : M Z :=
  if (INT_MIN <=? timeout * 2) && (timeout * 2 <=? INT_MAX)
  then ret (timeout * 2)
  else stop (Undefined "signed overflow in timeout *= 2").

(** The control points of [discovery]: the label [SEND_PADI], the top of the
    body of each [do ... while] loop with the values of the attempt counter
    and of [timeout], the statement after each loop, and the return. *)
Inductive Label :=
| SEND_PADI (timeout : Z)
| PADI_LOOP (padiAttempts timeout : Z)
| PADI_DONE
| PADR_LOOP (padrAttempts timeout : Z)
| PADR_DONE
| RETURNED.

(** From one control point to the next. *)
Definition discovery_step (fuel : nat) (l : Label) (conn : PPPoEConnection)
    : M (Label * PPPoEConnection) :=
  match l with
  | SEND_PADI timeout => ret (PADI_LOOP 0 timeout, conn)
  | PADI_LOOP padiAttempts timeout =>
      let padiAttempts := padiAttempts + 1 in
      ' (go, padiAttempts, timeout) <-
        (if MAX_PADI_ATTEMPTS <? padiAttempts then
           printErr "Timeout waiting for PADO packets" ;;;
           p <- get_persist ;;
           if p then ret (true, 0, discoveryTimeout conn)
           else ret (false, padiAttempts, timeout)       (* break *)
         else ret (true, padiAttempts, timeout)) ;;
      if negb go then ret (PADI_DONE, conn)
      else
        sendPADI conn ;;;
        let conn := set_discoveryState STATE_SENT_PADI conn in
        conn <- waitForPADO fuel conn timeout ;;
        (* If we're just probing for access concentrators, don't do
           exponential backoff. *)
        timeout <- (if negb (printACNames conn) then double_timeout timeout
                    else ret timeout) ;;
        if printACNames conn && negb (numPADOs conn =? 0) then ret (PADI_DONE, conn)
        else if state_eqb (discoveryState conn) STATE_SENT_PADI
        then ret (PADI_LOOP padiAttempts timeout, conn)
        else ret (PADI_DONE, conn)
  | PADI_DONE =>
      (* If we're only printing access concentrator names, we're done *)
      if printACNames conn then
        if negb (numPADOs conn =? 0) then exit EXIT_SUCCESS else exit EXIT_FAILURE
      else ret (PADR_LOOP 0 (discoveryTimeout conn), conn)
  | PADR_LOOP padrAttempts timeout =>
      let padrAttempts := padrAttempts + 1 in
      if MAX_PADI_ATTEMPTS <? padrAttempts then
        printErr "Timeout waiting for PADS packets" ;;;
        p <- get_persist ;;
        if p then
          (* Go back to sending PADI again *)
          ret (SEND_PADI (discoveryTimeout conn), conn)
        else ret (RETURNED, conn)
      else
        sendPADR conn ;;;
        let conn := set_discoveryState STATE_SENT_PADR conn in
        conn <- waitForPADS fuel conn timeout ;;
        timeout <- double_timeout timeout ;;
        if state_eqb (discoveryState conn) STATE_SENT_PADR
        then ret (PADR_LOOP padrAttempts timeout, conn)
        else ret (PADR_DONE, conn)
  | PADR_DONE =>
      (if PLUGIN && negb (seenMaxPayload conn)
       then cap_mru   (* RFC 4638: MUST limit MTU/MRU to 1492 *)
       else ret tt) ;;;
      (* We're done. *)
      ret (RETURNED, set_discoveryState STATE_SESSION conn)
  | RETURNED => ret (RETURNED, conn)
  end.

Fixpoint discovery_from (fuel : nat) (l : Label) (conn : PPPoEConnection)
    : M PPPoEConnection :=
  match l with
  | RETURNED => ret conn
  | _ =>
      match fuel with
      | O => stop OutOfFuel
      | S fuel' =>
          ' (l', conn') <- discovery_step fuel' l conn ;;
          discovery_from fuel' l' conn'
      end
  end.

Definition discovery (fuel : nat) (conn : PPPoEConnection) : M PPPoEConnection :=
  (* Skip discovery? *)
  if skipDiscovery conn then
    let conn := set_discoveryState STATE_SESSION conn in
    if killSession conn then
      sendPADT "RP-PPPoE: Session killed manually" ;;;
      exit EXIT_SUCCESS
    else ret conn
  else discovery_from fuel (SEND_PADI (discoveryTimeout conn)) conn.

End Discovery.

(* ------------------------------------------------------------------ *)
(** ** Observations on traces and frames *)

(** The codes of the packets sent, newest first as in the trace. *)
Fixpoint sent_codes (tr : list Event) : list byte :=
  match tr with
  | [] => []
  | EvSendPacket pkt _ :: tr' => code pkt :: sent_codes tr'
  | _ :: tr' => sent_codes tr'
  end.

(** The packets sent with code [c], newest first. *)
Fixpoint sent_with_code (c : byte) (tr : list Event) : list PPPoEPacket :=
  match tr with
  | [] => []
  | EvSendPacket pkt _ :: tr' =>
      if Byte.eqb (code pkt) c then pkt :: sent_with_code c tr' else sent_with_code c tr'
  | _ :: tr' => sent_with_code c tr'
  end.

(** The intervals [select] was called with, newest first. *)
Fixpoint select_intervals (tr : list Event) : list timeval :=
  match tr with
  | [] => []
  | EvSelect tv :: tr' => tv :: select_intervals tr'
  | _ :: tr' => select_intervals tr'
  end.

(** The sum over the tags of a stream of [4 + tag.length]. *)
Definition tlv_bytes (tags : list TagView) : Z :=
  fold_right (fun v acc => TAG_HDR_SIZE + snd (fst v) + acc) 0 tags.

(** A stored [PPPoETag] as a tag of a stream: its type, its length, and the
    [length] bytes of its payload. *)
Definition stored_view (tag : PPPoETag) : TagView :=
  (ntohs (tag_type tag), ntohs (tag_length tag),
   take_bytes (ntohs (tag_length tag)) (tag_payload tag)).

(** The last tag of type [ty] in a stream. *)
Definition last_of_type (ty : Z) (tags : list TagView) : option TagView :=
  find (fun v => fst (fst v) =? ty) (rev tags).

(* ------------------------------------------------------------------ *)
(** ** Test vectors *)

(** The bytes of one TLV. *)
Definition tlv (type : Z) (value : list byte) : list byte :=
  be16_bytes (htons type) ++ be16_bytes (htons (strlen value)) ++ value.

(** A received frame with payload [pl], and its length on the wire. *)
Definition frame (dst src : list byte) (c : byte) (sid : Z) (pl : list byte)
    : PPPoEPacket * Z :=
  (mkPacket (mkEthhdr dst src (htons Eth_PPPOE_Discovery)) PPPOE_VER_TYPE_1_1 c
     (htons sid) (htons (strlen pl)) pl,
   HDR_SIZE + strlen pl).

(** The address 02:00:00:00:00:[n]. *)
Definition mac (n : Z) : list byte :=
  [Byte.x02; Byte.x00; Byte.x00; Byte.x00; Byte.x00; byte_of_Z n].

Definition no_tag : PPPoETag := mkTag (htons 0) (htons 0) [].

(** A zeroed connection with the defaults of the spec: address
    02:00:00:00:00:01, no filters, no Host-Uniq, timeout 5. *)
Definition conn0 : PPPoEConnection :=
  mkConn STATE_INITIAL (mac 1) (repeat Byte.x00 6) false [] (htons 0)
    None None None false false false 5 0 no_tag no_tag false false.

Definition with_hostUniq (hu : list byte) (c : PPPoEConnection) : PPPoEConnection :=
  mkConn (discoveryState c) (myEth c) (peerEth c) (req_peer c) (req_peer_mac c)
    (session c) (serviceName c) (acName c) (Some hu) (printACNames c)
    (skipDiscovery c) (killSession c) (discoveryTimeout c) (numPADOs c) (cookie c)
    (relayId c) (PADSHadError c) (seenMaxPayload c).

Definition with_acName (name : list byte) (c : PPPoEConnection) : PPPoEConnection :=
  mkConn (discoveryState c) (myEth c) (peerEth c) (req_peer c) (req_peer_mac c)
    (session c) (serviceName c) (Some name) (hostUniq c) (printACNames c)
    (skipDiscovery c) (killSession c) (discoveryTimeout c) (numPADOs c) (cookie c)
    (relayId c) (PADSHadError c) (seenMaxPayload c).

Definition with_printACNames (v : bool) (c : PPPoEConnection) : PPPoEConnection :=
  mkConn (discoveryState c) (myEth c) (peerEth c) (req_peer c) (req_peer_mac c)
    (session c) (serviceName c) (acName c) (hostUniq c) v
    (skipDiscovery c) (killSession c) (discoveryTimeout c) (numPADOs c) (cookie c)
    (relayId c) (PADSHadError c) (seenMaxPayload c).

(** [select] reports the socket readable. *)
Definition ready : SelectAnswer := mkSelectAnswer 1 0 (mkTimeval 0 0).

(** The clock reads [s] seconds, [us] microseconds. *)
Definition clock_at (s us : Z) : option timeval := Some (mkTimeval s us).

(** A world with the given scripts, an empty trace and both MRU options at
    1492. *)
Definition world (cl : list (option timeval)) (sel : list SelectAnswer)
    (inb : list (PPPoEPacket * Z)) (p : bool) : World :=
  mkWorld cl sel inb [] p 1492 1492.

(** [select] reports that the interval has elapsed. *)
Definition timed_out : SelectAnswer := mkSelectAnswer 0 0 (mkTimeval 0 0).

(** A network on which nothing is ever received: every [select] runs into
    its timeout.  Each wait reads the clock twice (on entry and in
    [time_left]) and is entered when the previous one ends: three PADI waits
    (5, 10, 20 seconds) and three PADR waits. *)
Definition silent_network : World :=
  world [clock_at 100 0; clock_at 100 0; clock_at 105 0; clock_at 105 0;
         clock_at 115 0; clock_at 115 0; clock_at 135 0; clock_at 135 0;
         clock_at 140 0; clock_at 140 0; clock_at 150 0; clock_at 150 0]
        [timed_out; timed_out; timed_out; timed_out; timed_out; timed_out] [] false.

(** A frame addressed to another station. *)
Definition stray_frame : PPPoEPacket * Z :=
  frame (mac 9) (mac 2) CODE_PADO 0 [].

(** A wait of 5 seconds entered at 100.999999, so that the deadline is
    105.999999: a stray frame arrives at 105.900000, and when the loop reads
    the clock again it is 106.000000, one microsecond past the deadline;
    [select], called again, fails with EINVAL (22). *)
Definition late_clock : World :=
  world [clock_at 100 999999; clock_at 105 900000; clock_at 106 0]
        [ready; mkSelectAnswer (-1) 22 (mkTimeval (-1) 999999)]
        [stray_frame] false.

(** A [timeval] whose microseconds are within a second. *)
Definition normal (tv : timeval) : Prop := 0 <= tv_usec tv < 1000000.

(** A tag of a stream as well formed as the TLV walk delivers it: type and
    length are 16-bit values and the value has the declared length. *)
Definition wf_view (v : TagView) : Prop :=
  0 <= fst (fst v) < 65536 /\ 0 <= snd (fst v) < 65536 /\ strlen (snd v) = snd (fst v).

(** A Host-Uniq tag whose length and bytes are those of [hu]. *)
Definition host_uniq_match (hu : list byte) (v : TagView) : Prop :=
  fst (fst v) = TAG_HOST_UNIQ /\ snd (fst v) = strlen hu /\ snd v = hu.

Definition abc : list byte := list_byte_of_string "abc".
Definition abd : list byte := list_byte_of_string "abd".

(** A PADO echoing the Host-Uniq "abd". *)
Definition pado_abd : PPPoEPacket * Z :=
  frame (mac 1) (mac 2) CODE_PADO 0
    (tlv TAG_AC_NAME (list_byte_of_string "isp") ++ tlv TAG_SERVICE_NAME []
       ++ tlv TAG_HOST_UNIQ abd).

(** The bytes of a tag of a stream on the wire. *)
Definition view_bytes (v : TagView) : list byte :=
  be16_bytes (htons (fst (fst v))) ++ be16_bytes (htons (snd (fst v))) ++ snd v.

(** What the encoder has achieved when it has written the tags [tags]:
    the buffer holds their bytes, [cursor] stands at the end of them, and
    [plen] agrees with [cursor]. *)
Definition enc_ok (e : Encoder) (tags : list TagView) : Prop :=
  buf e = flat_map view_bytes tags
  /\ cursor e = strlen (buf e)
  /\ plen e = cursor e
  /\ cursor e <= MAX_PPPOE_PAYLOAD
  /\ Forall wf_view tags.

(** The tags of a PADI, as section 4.D of the spec lists them: Service-Name
    unless the sentinel is configured, Host-Uniq if configured, and
    PPP-Max-Payload if the local MRU exceeds 1492 (PLUGIN build). *)
Definition service_tag_PADI (conn : PPPoEConnection) : list TagView :=
  match serviceName conn with
  | Some s => if bytes_eqb s NO_SERVICE_NAME then [] else [(TAG_SERVICE_NAME, strlen s, s)]
  | None => [(TAG_SERVICE_NAME, 0, [])]
  end.

Definition host_uniq_tag (conn : PPPoEConnection) : list TagView :=
  match hostUniq conn with
  | Some hu => [(TAG_HOST_UNIQ, strlen hu, hu)]
  | None => []
  end.

Definition max_payload_tags (PLUGIN : bool) (w : World) : list TagView :=
  if PLUGIN && (ETH_PPPOE_MTU <? Z.min (lcp_allow_mru w) (lcp_want_mru w))
  then [(TAG_PPP_MAX_PAYLOAD, 2, be16_bytes (htons (Z.min (lcp_allow_mru w) (lcp_want_mru w))))]
  else [].

Definition padi_tags (PLUGIN : bool) (conn : PPPoEConnection) (w : World) : list TagView :=
  service_tag_PADI conn ++ host_uniq_tag conn ++ max_payload_tags PLUGIN w.

(** The tags of a PADR: Service-Name (always), Host-Uniq if configured, the
    stored cookie and the stored relay id when their type field is not
    zero, and PPP-Max-Payload. *)
Definition service_tag_PADR (conn : PPPoEConnection) : list TagView :=
  match serviceName conn with
  | Some s => [(TAG_SERVICE_NAME, u16 (strlen s), take_bytes (u16 (strlen s)) s)]
  | None => [(TAG_SERVICE_NAME, 0, [])]
  end.

Definition stored_tag (tag : PPPoETag) : list TagView :=
  if be16_is_zero (tag_type tag) then [] else [stored_view tag].

Definition padr_tags (PLUGIN : bool) (conn : PPPoEConnection) (w : World) : list TagView :=
  service_tag_PADR conn ++ host_uniq_tag conn ++ stored_tag (cookie conn)
    ++ stored_tag (relayId conn) ++ max_payload_tags PLUGIN w.

(** The frame that carries the tags [tags]. *)
Definition frame_of (dst src : list byte) (c : byte) (tags : list TagView) : PPPoEPacket :=
  mkPacket (mkEthhdr dst src (htons Eth_PPPOE_Discovery)) PPPOE_VER_TYPE_1_1 c
    (htons 0) (htons (tlv_bytes tags)) (flat_map view_bytes tags).

Definition dead_beef : list byte := [Byte.xde; Byte.xad; Byte.xbe; Byte.xef].

(** A connection with Host-Uniq "abc" that has stored the cookie
    de ad be ef. *)
Definition conn_echo : PPPoEConnection :=
  set_cookie (mkTag (htons TAG_AC_COOKIE) (htons 4) dead_beef) (with_hostUniq abc conn0).

(** The two diagnostics that end a phase. *)
Definition TIMEOUT_PADO : string := "Timeout waiting for PADO packets".
Definition TIMEOUT_PADS : string := "Timeout waiting for PADS packets".

(** Events that say nothing about the retry schedule: everything but the
    calls of the wait functions and the two timeout diagnostics. *)
Definition neutral (e : Event) : bool :=
  match e with
  | EvWaitForPADO _ | EvWaitForPADS _ => false
  | EvPrintErr msg => negb (String.eqb msg TIMEOUT_PADO) && negb (String.eqb msg TIMEOUT_PADS)
  | _ => true
  end.

(** The configuration part of a connection: what [discovery.c] only reads. *)
Definition config (c : PPPoEConnection) :=
  (myEth c, req_peer c, req_peer_mac c, serviceName c, acName c, hostUniq c,
   printACNames c, skipDiscovery c, killSession c, discoveryTimeout c).

(** A computation that, however it ends, only appends neutral events to
    the trace and leaves [persist] alone, and whose result, when it
    returns one, satisfies [post]. *)
Definition quietly {A} (post : A -> Prop) (m : M A) : Prop :=
  forall w r w', m w = (r, w') ->
    (exists es, trace w' = es ++ trace w /\ forallb neutral es = true)
    /\ persist w' = persist w
    /\ (forall a, r = Ok a -> post a).

(** Storing a tag of type [ty] in a [PPPoETag] of the connection, as both
    parsers do for the cookie and the relay id. *)
Definition capture_tag (ty : Z) (stored : PPPoETag) (v : TagView) : PPPoETag :=
  if fst (fst v) =? ty
  then mkTag (htons (fst (fst v))) (htons (snd (fst v)))
         (memcpy (tag_payload stored) (snd v) (snd (fst v)))
  else stored.

Definition capture (ty : Z) (tags : list TagView) (stored : PPPoETag) : PPPoETag :=
  fold_left (capture_tag ty) tags stored.

(** The three error tags. *)
Definition is_error_tag (v : TagView) : bool :=
  (fst (fst v) =? TAG_SERVICE_NAME_ERROR) || (fst (fst v) =? TAG_AC_SYSTEM_ERROR)
  || (fst (fst v) =? TAG_GENERIC_ERROR).

(** The [printf] format [parsePADOTags] uses for an error tag in probe
    mode. *)
Definition error_format (type : Z) : string :=
  if type =? TAG_SERVICE_NAME_ERROR then "Got a Service-Name-Error tag: %.*s\n"
  else if type =? TAG_AC_SYSTEM_ERROR then "Got a System-Error tag: %.*s\n"
  else "Got a Generic-Error tag: %.*s\n".

(** [c'] differs from [c] at most in what the tag parsers write: the stored
    cookie and relay id, [PADSHadError] and [seenMaxPayload]. *)
Definition parsed_from (c c' : PPPoEConnection) : Prop :=
  config c' = config c
  /\ discoveryState c' = discoveryState c
  /\ peerEth c' = peerEth c
  /\ numPADOs c' = numPADOs c
  /\ session c' = session c.

(** The retry schedule read off a trace.  The monitor keeps the phase of the
    last wait and [waits], the number of waits made in the present phase
    since it began or since the last timeout diagnostic.  Wait number [k]
    (from 0) of a phase must carry the timeout T * 2^k; in probe mode a PADO
    wait must carry T.  A wait of the other phase, or a timeout diagnostic,
    starts the count again. *)
Record Backoff := mkBackoff { in_padr : bool; waits : nat }.

Definition backoff_step (T : Z) (probe : bool) (st : option Backoff) (e : Event)
    : option Backoff :=
  match st with
  | None => None
  | Some s =>
      match e with
      | EvWaitForPADO t =>
          let k := if in_padr s then O else waits s in
          if t =? (if probe then T else T * 2 ^ Z.of_nat k)
          then Some (mkBackoff false (S k)) else None
      | EvWaitForPADS t =>
          let k := if in_padr s then waits s else O in
          if t =? T * 2 ^ Z.of_nat k
          then Some (mkBackoff true (S k)) else None
      | EvPrintErr msg =>
          if String.eqb msg TIMEOUT_PADO || String.eqb msg TIMEOUT_PADS
          then Some (mkBackoff (in_padr s) O) else Some s
      | _ => Some s
      end
  end.

(** The monitor's state after a trace (newest event first); [None] when
    some wait did not carry the timeout the schedule prescribes. *)
Definition backoff_state (T : Z) (probe : bool) (tr : list Event) : option Backoff :=
  fold_right (fun e st => backoff_step T probe st e) (Some (mkBackoff false O)) tr.

Definition backoff_ok (T : Z) (probe : bool) (tr : list Event) : Prop :=
  backoff_state T probe tr <> None.

(** The timeout the schedule prescribes for the next PADO wait, and for the
    next PADS wait. *)
Definition next_pado (T : Z) (probe : bool) (s : Backoff) : Z :=
  if probe then T else T * 2 ^ Z.of_nat (if in_padr s then O else waits s).

Definition next_pads (T : Z) (s : Backoff) : Z :=
  T * 2 ^ Z.of_nat (if in_padr s then waits s else O).

(** What the monitor's state has to do with the variable [timeout] at each
    control point of [discovery]. *)
Definition backoff_inv (T : Z) (probe : bool) (l : Label) (s : Backoff) : Prop :=
  match l with
  | SEND_PADI t => t = T /\ next_pado T probe s = T
  | PADI_LOOP _ t => next_pado T probe s = t
  | PADI_DONE => next_pads T s = T
  | PADR_LOOP _ t => next_pads T s = t
  | PADR_DONE | RETURNED => True
  end.

(** The timeouts of the waits in a trace, oldest first, each with its
    phase ([true]: PADS). *)
Definition wait_timeouts (tr : list Event) : list (bool * Z) :=
  flat_map (fun e => match e with
                     | EvWaitForPADO t => [(false, t)]
                     | EvWaitForPADS t => [(true, t)]
                     | _ => []
                     end) (rev tr).

(** A stretch of trace within one phase ([padr]: the PADR phase): its waits
    are all of that phase and no timeout diagnostic is printed. *)
Definition one_phase (padr : bool) (tr : list Event) : bool :=
  forallb (fun e => match e with
                    | EvWaitForPADO _ => negb padr
                    | EvWaitForPADS _ => padr
                    | _ => neutral e
                    end) tr.

(** The timeout the schedule gives to wait number [k] of a phase. *)
Definition scheduled (T : Z) (probe padr : bool) (k : nat) : bool * Z :=
  (padr, if probe && negb padr then T else T * 2 ^ Z.of_nat k).

(** A connection in the PADR phase, and a world in persistent mode. *)
Definition conn_sent_padr : PPPoEConnection := set_discoveryState STATE_SENT_PADR conn0.
Definition persistent_world : World := world [] [] [] true.

(** Whether some tag of the stream is the configured Host-Uniq. *)
Definition hostuniq_found (hu : list byte) (tags : list TagView) : bool :=
  existsb (fun v => (fst (fst v) =? TAG_HOST_UNIQ) && (snd (fst v) =? strlen hu)
                    && memcmp_eq (snd v) hu (snd (fst v))) tags.

(** The value of [packetIsForMe]. *)
Definition for_me (conn : PPPoEConnection) (packet : PPPoEPacket) : Z :=
  if negb (memcmp_eq (h_dest (ethHdr packet)) (myEth conn) ETH_ALEN) then 0
  else match hostUniq conn with
       | None => 1
       | Some hu => if hostuniq_found hu (tlv_stream packet) then 1 else 0
       end.

(** The checks of [waitForPADS] that a frame passes before its tags are
    parsed: length, source address, [packetIsForMe], code. *)
Definition pads_guards (conn : PPPoEConnection) (packet : PPPoEPacket) (len : Z) : bool :=
  negb (len <? ntohs (pkt_length packet) + HDR_SIZE)
  && memcmp_eq (h_source (ethHdr packet)) (peerEth conn) ETH_ALEN
  && negb (for_me conn packet =? 0)
  && Byte.eqb (code packet) CODE_PADS.

(** The checks of [waitForPADO] that a frame passes before its tags are
    parsed: length, [packetIsForMe], code, no broadcast source, and (PLUGIN)
    the requested peer. *)
Definition pado_guards (PLUGIN : bool) (conn : PPPoEConnection) (packet : PPPoEPacket)
    (len : Z) : bool :=
  negb (len <? ntohs (pkt_length packet) + HDR_SIZE)
  && negb (for_me conn packet =? 0)
  && Byte.eqb (code packet) CODE_PADO
  && negb (BROADCAST (h_source (ethHdr packet)))
  && negb (PLUGIN && req_peer conn
           && negb (memcmp_eq (h_source (ethHdr packet)) (req_peer_mac conn) ETH_ALEN)).

(** The criteria [waitForPADO] starts a PADO with. *)
Definition initial_criteria (conn : PPPoEConnection) : PacketCriteria :=
  mkCriteria (match acName conn with Some _ => false | None => true end)
    (match serviceName conn with Some _ => false | None => true end)
    false false false.

(** A connection waiting for the PADS of the concentrator 02:00:00:00:00:02,
    with the relay id aa stored from its PADO. *)
Definition conn_waiting : PPPoEConnection :=
  set_relayId (mkTag (htons TAG_RELAY_SESSION_ID) (htons 1) [Byte.xaa])
    (set_peerEth (mac 2) conn_sent_padr).

(** A PADS with session id 0xFFFF. *)
Definition pads_ffff : PPPoEPacket * Z :=
  frame (mac 1) (mac 2) CODE_PADS 0xFFFF (tlv TAG_SERVICE_NAME []).

(** A PADS carrying the relay id bb. *)
Definition pads_relay : PPPoEPacket * Z :=
  frame (mac 1) (mac 2) CODE_PADS 0x42
    (tlv TAG_SERVICE_NAME [] ++ tlv TAG_RELAY_SESSION_ID [Byte.xbb]).

(** A PADO carrying the relay id aa. *)
Definition pado_relay : PPPoEPacket * Z :=
  frame (mac 1) (mac 2) CODE_PADO 0
    (tlv TAG_AC_NAME (list_byte_of_string "isp") ++ tlv TAG_SERVICE_NAME []
       ++ tlv TAG_RELAY_SESSION_ID [Byte.xaa]).

(** The concentrator offers with relay id aa and confirms with relay id
    bb. *)
Definition relay_network : World :=
  world [clock_at 100 0; clock_at 101 0; clock_at 102 0; clock_at 103 0]
        [ready; ready] [pado_relay; pads_relay] false.

(** Scenario S5 of the spec: the PADS carries session id 0xFFFF. *)
Definition ffff_network : World :=
  world [clock_at 100 0; clock_at 101 0; clock_at 102 0; clock_at 103 0]
        [ready; ready] [pado_relay; pads_ffff] false.



Definition RFC_VIOLATION : string :=
  "Access concentrator used a session value of %x -- the AC is violating RFC 2516".

(** The world after a PADS with an empty Service-Name tag has been accepted
    on the empty world. *)
Definition world_service_name_logged : World :=
  set_trace [EvSyslog "PADS: Service-Name: '%.*s'" [0]] (world [] [] [] false).

(** The connection after [pads_relay] has been accepted from
    [conn_waiting]. *)
Definition conn_relay_accepted : PPPoEConnection :=
  set_discoveryState STATE_SESSION
    (set_relayId (mkTag (htons TAG_RELAY_SESSION_ID) (htons 1) [Byte.xbb])
       (set_PADSHadError false conn_waiting)).

(** The body of the loop of [waitForPADO] after the checks of
    [pado_guards], as [waitForPADO_frame] has it. *)
Definition pado_after_guards (PLUGIN : bool) (conn : PPPoEConnection)
    (packet : PPPoEPacket) : M (LoopCtl * PPPoEConnection) :=
  (if printACNames conn && (0 <? numPADOs conn) then printf "\n" [] else ret tt) ;;;
  ' (pc, conn) <- parsePacket packet (parsePADOTags PLUGIN) (initial_criteria conn, conn) ;;
  if gotError pc then
    printErr "Error in PADO packet" ;;;
    ret (LContinue, conn)
  else if negb (seenACName pc) then
    printErr "Ignoring PADO packet with no AC-Name tag" ;;;
    ret (LContinue, conn)
  else if negb (seenServiceName pc) then
    printErr "Ignoring PADO packet with no Service-Name tag" ;;;
    ret (LContinue, conn)
  else
    let conn := set_numPADOs (numPADOs conn + 1) conn in
    if acNameOK pc && serviceNameOK pc then
      let conn :=
        set_peerEth (memcpy (peerEth conn) (h_source (ethHdr packet)) ETH_ALEN) conn in
      if printACNames conn then
        printf "AC-Ethernet-Address: %02x:%02x:%02x:%02x:%02x:%02x\n"
          (take_bytes ETH_ALEN (peerEth conn)) ;;;
        ret (LContinue, conn)
      else ret (LBreak, set_discoveryState STATE_RECEIVED_PADO conn)
    else ret (LContinue, conn).

Definition gold : list byte := list_byte_of_string "gold".
Definition silver : list byte := list_byte_of_string "silver".

(** A PADO of the concentrator "silver" (02:00:00:00:00:02) with the cookie
    de ad be ef, and one of the concentrator "gold" (02:00:00:00:00:03)
    with no cookie. *)
Definition pado_silver : PPPoEPacket * Z :=
  frame (mac 1) (mac 2) CODE_PADO 0
    (tlv TAG_AC_NAME silver ++ tlv TAG_SERVICE_NAME [] ++ tlv TAG_AC_COOKIE dead_beef).

Definition pado_gold : PPPoEPacket * Z :=
  frame (mac 1) (mac 3) CODE_PADO 0 (tlv TAG_AC_NAME gold ++ tlv TAG_SERVICE_NAME []).

Definition pads_gold : PPPoEPacket * Z :=
  frame (mac 1) (mac 3) CODE_PADS 0x42 (tlv TAG_SERVICE_NAME []).

(** Both concentrators answer the PADI, "silver" first; "gold" confirms
    the session. *)
Definition two_offers : World :=
  world [clock_at 100 0; clock_at 101 0; clock_at 102 0; clock_at 103 0; clock_at 104 0]
        [ready; ready; ready] [pado_silver; pado_gold; pads_gold] false.

Definition busy : list byte := list_byte_of_string "busy".

(** A PADO and a PADS carrying AC-System-Error "busy" (scenario S6 of the
    spec for the PADO). *)
Definition pado_busy : PPPoEPacket * Z :=
  frame (mac 1) (mac 2) CODE_PADO 0
    (tlv TAG_AC_NAME (list_byte_of_string "isp") ++ tlv TAG_SERVICE_NAME []
       ++ tlv TAG_AC_SYSTEM_ERROR busy).

Definition pads_busy : PPPoEPacket * Z :=
  frame (mac 1) (mac 2) CODE_PADS 0x42
    (tlv TAG_SERVICE_NAME [] ++ tlv TAG_AC_SYSTEM_ERROR busy).

Definition conn_sent_padi : PPPoEConnection := set_discoveryState STATE_SENT_PADI conn0.

(** The connection after [pado_silver] has been accepted from
    [conn_sent_padi] (no filter is configured there). *)
Definition conn_silver_accepted : PPPoEConnection :=
  set_discoveryState STATE_RECEIVED_PADO
    (set_peerEth (mac 2)
       (set_numPADOs 1
          (set_cookie (mkTag (htons TAG_AC_COOKIE) (htons 4) dead_beef) conn_sent_padi))).

(** Scenario S1 of the spec: the concentrator "isp" (02:00:00:00:00:02)
    offers with the cookie de ad be ef and confirms session 0x0042. *)
Definition pado_isp : PPPoEPacket * Z :=
  frame (mac 1) (mac 2) CODE_PADO 0
    (tlv TAG_AC_NAME (list_byte_of_string "isp") ++ tlv TAG_SERVICE_NAME []
       ++ tlv TAG_AC_COOKIE dead_beef).

Definition pads_isp : PPPoEPacket * Z :=
  frame (mac 1) (mac 2) CODE_PADS 0x42 (tlv TAG_SERVICE_NAME []).

Definition S1_network : World :=
  world [clock_at 100 0; clock_at 101 0; clock_at 102 0; clock_at 103 0]
        [ready; ready] [pado_isp; pads_isp] false.

(** Scenario S2 of the spec: a PADO without Host-Uniq, one echoing "abd",
    one echoing "abc". *)
Definition pado_abc : PPPoEPacket * Z :=
  frame (mac 1) (mac 2) CODE_PADO 0
    (tlv TAG_AC_NAME (list_byte_of_string "isp") ++ tlv TAG_SERVICE_NAME []
       ++ tlv TAG_HOST_UNIQ abc).

Definition S2_network : World :=
  world [clock_at 100 0; clock_at 101 0; clock_at 102 0; clock_at 103 0]
        [ready; ready; ready] [pado_isp; pado_abd; pado_abc] false.

(** Scenario S3 of the spec: only "silver" answers the first PADI, and the
    wait runs into its timeout; "gold" answers the second PADI and confirms
    the session. *)
Definition S3_network : World :=
  world [clock_at 100 0; clock_at 101 0; clock_at 102 0;
         clock_at 105 0; clock_at 106 0; clock_at 107 0; clock_at 108 0]
        [ready; timed_out; ready; ready] [pado_silver; pado_gold; pads_gold] false.

(** Scenario S4 of the spec: probe mode with a timeout of 2 seconds; two
    concentrators answer within the window, then the wait times out. *)
Definition conn_probe : PPPoEConnection :=
  mkConn STATE_INITIAL (mac 1) (repeat Byte.x00 6) false [] (htons 0)
    None None None true false false 2 0 no_tag no_tag false false.

Definition S4_network : World :=
  world [clock_at 100 0; clock_at 100 500000; clock_at 101 0; clock_at 101 500000]
        [ready; ready; timed_out] [pado_silver; pado_gold] false.

Definition AC_ETHERNET_ADDRESS : string :=
  "AC-Ethernet-Address: %02x:%02x:%02x:%02x:%02x:%02x\n".

(* ------------------------------------------------------------------ *)
(** ** What a run may do to the world *)

(** Frames and PADT notifications. *)
Definition is_send (e : Event) : bool :=
  match e with
  | EvSendPacket _ _ | EvSendPADT _ => true
  | _ => false
  end.

(** How the world may change in the course of a computation: events
    satisfying [ev] are appended to the trace, received frames are taken
    from the head of the inbox, [persist] is left alone, and the two MRU
    options are only lowered, never below 1492 (unless they were below), and
    only in the PLUGIN build. *)
Definition evolves (PLUGIN : bool) (ev : Event -> bool) (w w' : World) : Prop :=
  (exists es, trace w' = es ++ trace w /\ forallb ev es = true)
  /\ (exists taken, inbox w = taken ++ inbox w')
  /\ persist w' = persist w
  /\ Z.min (lcp_allow_mru w) ETH_PPPOE_MTU <= lcp_allow_mru w' <= lcp_allow_mru w
  /\ Z.min (lcp_want_mru w) ETH_PPPOE_MTU <= lcp_want_mru w' <= lcp_want_mru w
  /\ (PLUGIN = false ->
      lcp_allow_mru w' = lcp_allow_mru w /\ lcp_want_mru w' = lcp_want_mru w).

(** A computation that, however it ends, changes the world as [evolves]
    allows, returns only results satisfying [post], and stops only with
    outcomes satisfying [st]. *)
Definition within (PLUGIN : bool) (ev : Event -> bool) (st : Outcome -> bool)
    {A} (post : A -> Prop) (m : M A) : Prop :=
  forall w r w', m w = (r, w') ->
    evolves PLUGIN ev w w'
    /\ match r with Ok a => post a | Stop o => st o = true end.

Definition OVERFLOW : Outcome := Undefined "signed overflow in timeout *= 2".

Definition outcome_is_overflow (o : Outcome) : bool :=
  match o with
  | Undefined why => String.eqb why "signed overflow in timeout *= 2"
  | _ => false
  end.

Definition be16_eqb (a b : be16) : bool :=
  Byte.eqb (fst a) (fst b) && Byte.eqb (snd a) (snd b).

(** A discovery frame with code [c] from [src] to [dst]: PPPoE version 1,
    type 1, session id 0, Ethernet type 0x8863. *)
Definition discovery_frame (c : byte) (dst src : list byte) (pkt : PPPoEPacket) : bool :=
  bytes_eqb (h_dest (ethHdr pkt)) dst
  && bytes_eqb (h_source (ethHdr pkt)) src
  && be16_eqb (h_proto (ethHdr pkt)) (htons Eth_PPPOE_Discovery)
  && Byte.eqb (vertype pkt) PPPOE_VER_TYPE_1_1
  && Byte.eqb (code pkt) c
  && be16_is_zero (pkt_session pkt).

(** The Service-Name tag of the configured name, header included, fits
    the 16 bits in which [sendPADI] and [sendPADR] compute its length; a
    name of 65532 bytes or more does not. *)
Definition name_fits (conn : PPPoEConnection) : bool :=
  match serviceName conn with
  | Some s => strlen s + TAG_HDR_SIZE <=? 65535
  | None => true
  end.

(** The same for the length [sendPADR] copies, which is the length of the
    name truncated to 16 bits: it is below 65532. *)
Definition namelen_fits (conn : PPPoEConnection) : bool :=
  match serviceName conn with
  | Some s => u16 (strlen s) + TAG_HDR_SIZE <=? 65535
  | None => true
  end.

(** What the frames a connection sends depend on: its address, and
    whether its service name fits. *)
Definition sender (conn : PPPoEConnection) : list byte * bool :=
  (myEth conn, name_fits conn).

(** The rest of the body of the PADI loop of [discovery] once the attempt
    counter has been checked: send, wait, back off, and the loop condition;
    [a] is the counter and [t] the timeout of this attempt. *)
Definition padi_attempt (PLUGIN : bool) (fuel : nat) (a t : Z) (conn : PPPoEConnection)
    : M (Label * PPPoEConnection) :=
  sendPADI PLUGIN conn ;;;
  conn' <- waitForPADO PLUGIN fuel (set_discoveryState STATE_SENT_PADI conn) t ;;
  timeout <- (if negb (printACNames conn') then double_timeout t else ret t) ;;
  if printACNames conn' && negb (numPADOs conn' =? 0) then ret (PADI_DONE, conn')
  else if state_eqb (discoveryState conn') STATE_SENT_PADI
  then ret (PADI_LOOP a timeout, conn')
  else ret (PADI_DONE, conn').

(** The same for the PADR loop. *)
Definition padr_attempt (PLUGIN : bool) (fuel : nat) (a t : Z) (conn : PPPoEConnection)
    : M (Label * PPPoEConnection) :=
  sendPADR PLUGIN conn ;;;
  conn' <- waitForPADS PLUGIN fuel (set_discoveryState STATE_SENT_PADR conn) t ;;
  timeout <- double_timeout t ;;
  if state_eqb (discoveryState conn') STATE_SENT_PADR
  then ret (PADR_LOOP a timeout, conn')
  else ret (PADR_DONE, conn').

(** Every outcome but the signed overflow of [timeout *= 2]. *)
Definition no_overflow (o : Outcome) : bool := negb (outcome_is_overflow o).

(** A frame as it goes on the wire: the size handed to [sendPacket] is the
    header plus the payload length the header declares, that length is
    within the payload window, and it is the length of the payload written. *)
Definition wire_ok (pkt : PPPoEPacket) (size : Z) : bool :=
  (size =? HDR_SIZE + ntohs (pkt_length pkt))
  && (ntohs (pkt_length pkt) <=? MAX_PPPOE_PAYLOAD)
  && (strlen (payload pkt) =? ntohs (pkt_length pkt)).

(** What [discovery] may emit once it has decided not to skip: anything but
    a PADT, and of frames only a PADI to the broadcast address or a PADR,
    from the address [my], well formed on the wire. *)
Definition sent_ok (my : list byte) (e : Event) : bool :=
  match e with
  | EvSendPacket pkt size =>
      (discovery_frame CODE_PADI (repeat Byte.xff 6) (take_bytes ETH_ALEN my) pkt
       || discovery_frame CODE_PADR (h_dest (ethHdr pkt)) (take_bytes ETH_ALEN my) pkt)
      && wire_ok pkt size
  | EvSendPADT _ => false
  | _ => true
  end.

(** The same in probe mode: no PADR either. *)
Definition probe_ok (my : list byte) (e : Event) : bool :=
  match e with
  | EvSendPacket pkt size =>
      discovery_frame CODE_PADI (repeat Byte.xff 6) (take_bytes ETH_ALEN my) pkt
      && wire_ok pkt size
  | EvSendPADT _ => false
  | _ => true
  end.

(** What [discovery] may emit in probe mode whatever the service name:
    anything but a PADT, and of frames only a PADI to the broadcast address
    from the address [my]; nothing is said of the lengths of the frame. *)
Definition probe_frame (my : list byte) (e : Event) : bool :=
  match e with
  | EvSendPacket pkt size =>
      discovery_frame CODE_PADI (repeat Byte.xff 6) (take_bytes ETH_ALEN my) pkt
  | EvSendPADT _ => false
  | _ => true
  end.

(** Nothing is emitted at all. *)
Definition silent (e : Event) : bool := false.

(** Anything may be emitted. *)
Definition any_event (e : Event) : bool := true.

(** Every outcome. *)
Definition any_outcome (o : Outcome) : bool := true.

(** The control points of the PADI phase. *)
Definition padi_phase (l : Label) : bool :=
  match l with
  | SEND_PADI _ | PADI_LOOP _ _ | PADI_DONE => true
  | _ => false
  end.

(** A world whose MRU options are both 1500, otherwise as [world]. *)
Definition jumbo_world (cl : list (option timeval)) (sel : list SelectAnswer)
    (inb : list (PPPoEPacket * Z)) (p : bool) : World :=
  mkWorld cl sel inb [] p 1500 1500.

(** Scenario S1 in persistent mode. *)
Definition persistent_offer : World :=
  world [clock_at 100 0; clock_at 101 0; clock_at 102 0; clock_at 103 0]
        [ready; ready] [pado_isp; pads_isp] true.

(** Scenario S1 with both MRU options at 1500: the concentrator does not
    echo the PPP-Max-Payload tag. *)
Definition jumbo_offer : World :=
  jumbo_world [clock_at 100 0; clock_at 101 0; clock_at 102 0; clock_at 103 0]
              [ready; ready] [pado_isp; pads_isp] false.

(** Events other than frames and PADT notifications. *)
Definition passive (e : Event) : bool := negb (is_send e).

(** Whether a stream holds a tag of type [ty]. *)
Definition has_tag (ty : Z) (tags : list TagView) : bool :=
  existsb (fun v => fst (fst v) =? ty) tags.

(** A tag of type [ty] whose value is the string [name]: the test both name
    filters of [parsePADOTags] make. *)
Definition names (name : list byte) (ty : Z) (v : TagView) : bool :=
  (fst (fst v) =? ty) && (snd (fst v) =? strlen name)
  && strncmp_eq (snd v) name (snd (fst v)).

(** A name filter is passed when it is not configured, or when some tag of
    the stream names the configured string. *)
Definition filter_ok (name : option (list byte)) (ty : Z) (tags : list TagView) : bool :=
  match name with
  | None => true
  | Some n => existsb (names n ty) tags
  end.

(** A PADO that counts as an offer: it passes the checks, holds an AC-Name
    and a Service-Name tag, and, outside probe mode, no error tag. *)
Definition pado_counted (PLUGIN : bool) (conn : PPPoEConnection) (packet : PPPoEPacket)
    (len : Z) : bool :=
  pado_guards PLUGIN conn packet len
  && (printACNames conn || negb (existsb is_error_tag (tlv_stream packet)))
  && has_tag TAG_AC_NAME (tlv_stream packet)
  && has_tag TAG_SERVICE_NAME (tlv_stream packet).

(** A PADO that is accepted: it counts, passes both name filters, and the
    engine is not probing. *)
Definition pado_acceptable (PLUGIN : bool) (conn : PPPoEConnection) (packet : PPPoEPacket)
    (len : Z) : bool :=
  pado_counted PLUGIN conn packet len
  && negb (printACNames conn)
  && filter_ok (acName conn) TAG_AC_NAME (tlv_stream packet)
  && filter_ok (serviceName conn) TAG_SERVICE_NAME (tlv_stream packet).

Definition with_serviceName (name : list byte) (c : PPPoEConnection) : PPPoEConnection :=
  mkConn (discoveryState c) (myEth c) (peerEth c) (req_peer c) (req_peer_mac c)
    (session c) (Some name) (acName c) (hostUniq c) (printACNames c)
    (skipDiscovery c) (killSession c) (discoveryTimeout c) (numPADOs c) (cookie c)
    (relayId c) (PADSHadError c) (seenMaxPayload c).

(** A service name of 65533 bytes. *)
Definition name_65533 : list byte := repeat Byte.x61 (Z.to_nat 65533).

(** A service name of 65536 bytes. *)
Definition long_name : list byte := repeat Byte.x61 (Z.to_nat 65536).

(* ================================================================== *)
(** * Properties *)

(* ------------------------------------------------------------------ *)
(** ** Bytes *)

Lemma Z_of_byte_range (b : byte) : 0 <= Z_of_byte b < 256.
Proof.
  unfold Z_of_byte. pose proof (Byte.to_N_bounded b). lia.
Qed.

Lemma Z_of_byte_of_Z (z : Z) : Z_of_byte (byte_of_Z z) = z mod 256.
Proof.
  unfold Z_of_byte, byte_of_Z.
  assert (Hr : 0 <= z mod 256 < 256) by (apply Z.mod_pos_bound; lia).
  destruct (Byte.of_N (Z.to_N (z mod 256))) as [b|] eqn:E.
  - apply Byte.to_of_N in E. rewrite E. lia.
  - apply Byte.of_N_None_iff in E. lia.
Qed.

Lemma byte_of_Z_of_byte (b : byte) : byte_of_Z (Z_of_byte b) = b.
Proof.
  unfold byte_of_Z. pose proof (Z_of_byte_range b) as Hr.
  rewrite Z.mod_small by lia. unfold Z_of_byte. rewrite N2Z.id.
  now rewrite Byte.of_to_N.
Qed.

Lemma ntohs_range (f : be16) : 0 <= ntohs f < 65536.
Proof.
  unfold ntohs.
  pose proof (Z_of_byte_range (fst f)). pose proof (Z_of_byte_range (snd f)). lia.
Qed.

Lemma ntohs_htons (x : Z) : ntohs (htons x) = u16 x.
Proof.
  unfold ntohs, htons, u16. simpl. rewrite !Z_of_byte_of_Z.
  assert (Hr : 0 <= x mod 65536 < 65536) by (apply Z.mod_pos_bound; lia).
  rewrite (Z.mod_small (x mod 65536 / 256)).
  2:{ split. apply Z.div_pos; lia. apply Z.div_lt_upper_bound; lia. }
  pose proof (Z.div_mod (x mod 65536) 256). lia.
Qed.

Lemma ntohs_htons_small (x : Z) : 0 <= x < 65536 -> ntohs (htons x) = x.
Proof.
  intros H. rewrite ntohs_htons. unfold u16. now apply Z.mod_small.
Qed.

Lemma htons_ntohs (f : be16) : htons (ntohs f) = f.
Proof.
  destruct f as [a b]. unfold htons, ntohs, u16. simpl.
  pose proof (Z_of_byte_range a). pose proof (Z_of_byte_range b).
  rewrite (Z.mod_small (Z_of_byte a * 256 + Z_of_byte b)) by lia.
  replace ((Z_of_byte a * 256 + Z_of_byte b) / 256) with (Z_of_byte a).
  2:{ symmetry. rewrite Z.add_comm. rewrite Z.div_add by lia. rewrite Z.div_small; lia. }
  rewrite byte_of_Z_of_byte. f_equal.
  rewrite <- (byte_of_Z_of_byte b) at 2. unfold byte_of_Z.
  rewrite Z.add_comm, Z.mod_add by lia. reflexivity.
Qed.

(** [svc->type = TAG_SERVICE_NAME] stores the host-order constant without
    [htons]; both bytes of the constant are 01, so the field holds
    [htons TAG_SERVICE_NAME] on either byte order. *)
Lemma TAG_SERVICE_NAME_bytes :
  htons TAG_SERVICE_NAME = (Byte.x01, Byte.x01)
  /\ ntohs (snd (htons TAG_SERVICE_NAME), fst (htons TAG_SERVICE_NAME)) = TAG_SERVICE_NAME.
Proof. split; reflexivity. Qed.

Lemma bytes_eqb_eq (a b : list byte) : bytes_eqb a b = true <-> a = b.
Proof.
  revert b. induction a as [|x a IH]; intros [|y b]; simpl; split; intros H;
    try reflexivity; try discriminate.
  - apply andb_true_iff in H as [H1 H2]. apply Byte.byte_dec_bl in H1.
    apply IH in H2. now subst.
  - injection H as -> ->. apply andb_true_iff. split.
    + now apply Byte.byte_dec_lb.
    + now apply IH.
Qed.

Lemma take_bytes_length (n : Z) (l : list byte) :
  List.length (take_bytes n l) = Z.to_nat n.
Proof.
  unfold take_bytes. rewrite length_firstn, length_app, repeat_length. lia.
Qed.

Lemma take_bytes_all (n : Z) (l : list byte) :
  Z.to_nat n = List.length l -> take_bytes n l = l.
Proof.
  intros H. unfold take_bytes. rewrite H. rewrite firstn_app, Nat.sub_diag. simpl.
  rewrite firstn_all. apply app_nil_r.
Qed.

Lemma take_bytes_strlen (l : list byte) : take_bytes (strlen l) l = l.
Proof. apply take_bytes_all. unfold strlen. lia. Qed.

(* ------------------------------------------------------------------ *)
(** ** The timed receive loop *)

(** Before the deadline [time_left] is right: it returns 1 and leaves
    exactly deadline minus now, a positive interval. *)
Lemma time_left_at_before_deadline (now expire_at : timeval) :
  normal now -> normal expire_at -> usecs now < usecs expire_at ->
  fst (time_left_at now expire_at) = 1
  /\ usecs (snd (time_left_at now expire_at)) = usecs expire_at - usecs now
  /\ normal (snd (time_left_at now expire_at)).
Proof.
  unfold normal, usecs, time_left_at. destruct now as [ns nu], expire_at as [es eu]. simpl.
  intros Hn He Hlt.
  destruct (eu - nu <? 0) eqn:E1.
  - apply Z.ltb_lt in E1.
    destruct (es - ns =? 0) eqn:E2; simpl.
    + apply Z.eqb_eq in E2. lia.
    + apply Z.eqb_neq in E2.
      destruct ((es - ns - 1 <=? 0) && (eu - nu + 1000000 <=? 0)) eqn:E3; simpl.
      * apply andb_true_iff in E3 as [_ E3]. apply Z.leb_le in E3. lia.
      * repeat split; lia.
  - apply Z.ltb_ge in E1.
    destruct ((es - ns <=? 0) && (eu - nu <=? 0)) eqn:E3; simpl.
    + apply andb_true_iff in E3 as [E3 E4]. apply Z.leb_le in E3, E4. lia.
    + repeat split; lia.
Qed.

(** When [time_left] returns 0 the deadline has been reached. *)
Lemma time_left_at_zero (now expire_at : timeval) :
  normal now -> normal expire_at ->
  fst (time_left_at now expire_at) = 0 -> usecs expire_at <= usecs now.
Proof.
  intros Hn He H0.
  destruct (Z_lt_le_dec (usecs now) (usecs expire_at)) as [Hlt|Hge]; [|assumption].
  destruct (time_left_at_before_deadline now expire_at Hn He Hlt) as [H1 _].
  rewrite H1 in H0. discriminate.
Qed.

(** A [select] interrupted by a signal is called again with what the
    interrupted call left in [tv]; the clock is not read and [time_left] is
    not consulted. *)
Lemma select_retry_EINTR (fuel : nat) (tv tv' : timeval) (w : World) rest :
  selects w = mkSelectAnswer (-1) EINTR tv' :: rest ->
  select_retry (S fuel) tv w =
  select_retry fuel tv'
    (mkWorld (clock w) rest (inbox w) (EvSelect tv :: trace w) (persist w)
       (lcp_allow_mru w) (lcp_want_mru w)).
Proof.
  intros H. simpl. unfold bind, select. rewrite H. simpl. reflexivity.
Qed.

(** C6, at the failing input: the deadline is 105.999999 and the clock reads
    106.000000.  [time_left] returns 1 with the interval (-1 s, 999999 us),
    which is negative; the loop of [waitForPADO] does not report the timeout
    but calls [select] with that interval, and ends in [fatalSys] when
    [select] refuses it. *)
Theorem time_left_past_deadline_waits :
  time_left_at (mkTimeval 106 0) (mkTimeval 105 999999) = (1, mkTimeval (-1) 999999)
  /\ usecs (mkTimeval (-1) 999999) < 0
  /\ fst (waitForPADO false 3 (set_discoveryState STATE_SENT_PADI conn0) 5 late_clock)
     = Stop (FatalError "select (waitForPADO)")
  /\ select_intervals
       (trace (snd (waitForPADO false 3 (set_discoveryState STATE_SENT_PADI conn0) 5 late_clock)))
     = [mkTimeval (-1) 999999; mkTimeval 0 99999].
Proof.
  repeat split; vm_compute; reflexivity.
Qed.

(* ------------------------------------------------------------------ *)
(** ** Exhaustion of the PADI phase *)

(** C1, at the failing input: no persist, no probe, three attempts, and a
    network on which nothing is received.  After the third PADI times out
    the engine prints the PADO timeout diagnostic, leaves the first loop by
    [break], and goes on into the PADR loop: it sends three PADR packets
    (to the zero address) and returns in state [STATE_SENT_PADR]. *)
Theorem padi_exhaustion_sends_padr :
  fst (discovery false 3 20 conn0 silent_network)
    = Ok (set_discoveryState STATE_SENT_PADR conn0)
  /\ rev (sent_codes (trace (snd (discovery false 3 20 conn0 silent_network))))
    = [CODE_PADI; CODE_PADI; CODE_PADI; CODE_PADR; CODE_PADR; CODE_PADR]
  /\ In (EvPrintErr "Timeout waiting for PADO packets")
        (trace (snd (discovery false 3 20 conn0 silent_network))).
Proof.
  split; [vm_compute; reflexivity|].
  split; [vm_compute; reflexivity|].
  vm_compute. tauto.
Qed.

(* ------------------------------------------------------------------ *)
(** ** Host-Uniq demultiplexing *)

Lemma tlv_walk_wf (fuel : nat) : forall bytes v, In v (tlv_walk fuel bytes) -> wf_view v.
Proof.
  induction fuel as [|fuel IH]; intros bytes v Hin; simpl in Hin; [contradiction|].
  destruct bytes as [|t1 [|t0 [|l1 [|l0 rest]]]]; try contradiction.
  destruct (ntohs (l1, l0) <=? Z.of_nat (List.length rest)) eqn:E; [|contradiction].
  apply Z.leb_le in E.
  destruct Hin as [<-|Hin]; [|now apply (IH _ _ Hin)].
  unfold wf_view, strlen. simpl fst. simpl snd.
  pose proof (ntohs_range (t1, t0)). pose proof (ntohs_range (l1, l0)).
  repeat split; try lia.
  rewrite length_firstn. lia.
Qed.

Lemma tlv_stream_wf (packet : PPPoEPacket) v : In v (tlv_stream packet) -> wf_view v.
Proof. apply tlv_walk_wf. Qed.

Lemma memcmp_eq_exact (a b : list byte) (n : Z) :
  strlen a = n -> strlen b = n -> memcmp_eq a b n = true -> a = b.
Proof.
  unfold strlen, memcmp_eq. intros Ha Hb H.
  rewrite !take_bytes_all in H by lia. now apply bytes_eqb_eq.
Qed.

Lemma memcmp_eq_refl (a : list byte) (n : Z) : memcmp_eq a a n = true.
Proof. unfold memcmp_eq. now apply bytes_eqb_eq. Qed.

Lemma visit_parseForHostUniq_nomatch (hu : list byte) (tags : list TagView) :
  Forall wf_view tags ->
  (forall v, In v tags -> ~ host_uniq_match hu v) ->
  forall f w,
    visit_tags parseForHostUniq tags (mkHostUniqInfo (Some hu) f) w
    = (Ok (mkHostUniqInfo (Some hu) f), w).
Proof.
  induction tags as [|[[t l] d] tags IH]; intros Hwf Hno f w; simpl; [reflexivity|].
  inversion Hwf as [|? ? Hv Hrest]; subst.
  unfold bind, parseForHostUniq at 1. cbn [hi_hostUniq].
  destruct ((t =? TAG_HOST_UNIQ) && (l =? strlen hu) && memcmp_eq d hu l) eqn:E.
  - exfalso. apply andb_true_iff in E as [E E3]. apply andb_true_iff in E as [E1 E2].
    apply Z.eqb_eq in E1, E2. destruct Hv as (_ & _ & Hd). simpl in Hd.
    apply (Hno (t, l, d)); [now left|].
    repeat split; simpl; try assumption.
    apply (memcmp_eq_exact d hu l); auto.
  - simpl. apply IH; auto. intros v Hv'. apply Hno. now right.
Qed.

Lemma packetIsForMe_nomatch (conn : PPPoEConnection) (hu : list byte) (packet : PPPoEPacket) w :
  hostUniq conn = Some hu ->
  (forall v, In v (tlv_stream packet) -> ~ host_uniq_match hu v) ->
  packetIsForMe conn packet w = (Ok 0, w).
Proof.
  intros Hhu Hno. unfold packetIsForMe.
  destruct (negb (memcmp_eq (h_dest (ethHdr packet)) (myEth conn) ETH_ALEN)); [reflexivity|].
  rewrite Hhu. unfold bind, parsePacket.
  rewrite visit_parseForHostUniq_nomatch; auto.
  apply Forall_forall. intros v. apply tlv_stream_wf.
Qed.

(** C3: with a Host-Uniq configured, a frame whose TLV stream holds no
    Host-Uniq tag of the configured length and bytes is not for this
    engine ([packetIsForMe] answers 0), and both receive loops drop it: the
    frame handler ends in [continue] with the connection, and so its
    discovery state, unchanged. *)
Theorem hostuniq_mismatch_dropped (PLUGIN : bool) (conn : PPPoEConnection) (hu : list byte)
    (packet : PPPoEPacket) (len : Z) (w : World) :
  hostUniq conn = Some hu ->
  (forall v, In v (tlv_stream packet) -> ~ host_uniq_match hu v) ->
  packetIsForMe conn packet w = (Ok 0, w)
  /\ (exists w', waitForPADO_frame PLUGIN conn packet len w = (Ok (LContinue, conn), w'))
  /\ (exists w', waitForPADS_frame PLUGIN conn packet len w = (Ok (LContinue, conn), w')).
Proof.
  intros Hhu Hno.
  pose proof (packetIsForMe_nomatch conn hu packet w Hhu Hno) as Hme.
  split; [assumption|]. split.
  - unfold waitForPADO_frame.
    destruct (len <? ntohs (pkt_length packet) + HDR_SIZE).
    + eexists. reflexivity.
    + unfold bind. rewrite Hme. simpl. eexists. reflexivity.
  - unfold waitForPADS_frame.
    destruct (len <? ntohs (pkt_length packet) + HDR_SIZE).
    + eexists. reflexivity.
    + destruct (negb (memcmp_eq (h_source (ethHdr packet)) (peerEth conn) ETH_ALEN)).
      * eexists. reflexivity.
      * unfold bind. rewrite Hme. simpl. eexists. reflexivity.
Qed.

Lemma hostuniq_mismatch_dropped_witness :
  packetIsForMe (with_hostUniq abc conn0) (fst pado_abd) (world [] [] [] false)
    = (Ok 0, world [] [] [] false)
  /\ (exists w', waitForPADO_frame false (with_hostUniq abc conn0) (fst pado_abd) (snd pado_abd) (world [] [] [] false) = (Ok (LContinue, with_hostUniq abc conn0), w'))
  /\ (exists w', waitForPADS_frame false (with_hostUniq abc conn0) (fst pado_abd) (snd pado_abd) (world [] [] [] false) = (Ok (LContinue, with_hostUniq abc conn0), w')).
Proof.
  apply (hostuniq_mismatch_dropped false (with_hostUniq abc conn0) abc).
  - reflexivity.
  - intros v Hin. vm_compute in Hin.
    destruct Hin as [<-|[<-|[<-|[]]]]; intros (H1 & H2 & H3); vm_compute in H1, H2, H3; discriminate.
Defined.

(* ------------------------------------------------------------------ *)
(** ** Frame encoding *)

Lemma bind_Ok_eq {A B} (m : M A) (k : A -> M B) (w : World) a w1 :
  m w = (Ok a, w1) -> bind m k w = k a w1.
Proof. intros H. unfold bind. now rewrite H. Qed.

Lemma bind_Stop_eq {A B} (m : M A) (k : A -> M B) (w : World) o w1 :
  m w = (Stop o, w1) -> bind m k w = (Stop o, w1).
Proof. intros H. unfold bind. now rewrite H. Qed.

Lemma bind_Ok {A B} (m : M A) (k : A -> M B) (w : World) (b : B) (w' : World) :
  bind m k w = (Ok b, w') -> exists a w1, m w = (Ok a, w1) /\ k a w1 = (Ok b, w').
Proof.
  unfold bind. destruct (m w) as [[a|o] w1]; intros H; [|discriminate].
  now exists a, w1.
Qed.

Lemma strlen_nonneg (l : list byte) : 0 <= strlen l.
Proof. unfold strlen. lia. Qed.

Lemma strlen_app (a b : list byte) : strlen (a ++ b) = strlen a + strlen b.
Proof. unfold strlen. rewrite length_app. lia. Qed.

Lemma view_bytes_length (v : TagView) : strlen (view_bytes v) = TAG_HDR_SIZE + strlen (snd v).
Proof.
  unfold view_bytes, be16_bytes. rewrite !strlen_app. unfold strlen at 1 2, TAG_HDR_SIZE.
  simpl List.length. lia.
Qed.

Lemma tlv_bytes_app (a b : list TagView) : tlv_bytes (a ++ b) = tlv_bytes a + tlv_bytes b.
Proof.
  induction a as [|v a IH]; [reflexivity|].
  change (tlv_bytes ((v :: a) ++ b)) with (TAG_HDR_SIZE + snd (fst v) + tlv_bytes (a ++ b)).
  change (tlv_bytes (v :: a)) with (TAG_HDR_SIZE + snd (fst v) + tlv_bytes a).
  rewrite IH. lia.
Qed.

Lemma tlv_bytes_flat (tags : list TagView) :
  Forall wf_view tags -> strlen (flat_map view_bytes tags) = tlv_bytes tags.
Proof.
  induction 1 as [|v tags Hv _ IH]; [reflexivity|].
  cbn [flat_map]. rewrite strlen_app, view_bytes_length, IH.
  destruct Hv as (_ & _ & Hd).
  change (tlv_bytes (v :: tags)) with (TAG_HDR_SIZE + snd (fst v) + tlv_bytes tags). lia.
Qed.

Lemma write_at_end (b bs : list byte) : write_at b (strlen b) bs = b ++ bs.
Proof.
  unfold write_at. rewrite take_bytes_strlen. f_equal.
  rewrite skipn_all2; [apply app_nil_r|]. unfold strlen. lia.
Qed.

Lemma tlv_walk_roundtrip (tags : list TagView) :
  Forall wf_view tags ->
  forall fuel, (List.length tags <= fuel)%nat ->
  tlv_walk fuel (flat_map view_bytes tags) = tags.
Proof.
  induction 1 as [|[[t l] d] tags Hv _ IH]; intros fuel Hf.
  - destruct fuel; reflexivity.
  - destruct fuel as [|fuel]; [simpl in Hf; lia|].
    destruct Hv as (Ht & Hl & Hd). simpl in Ht, Hl, Hd.
    cbn [flat_map]. unfold view_bytes at 1. cbn [fst snd].
    unfold be16_bytes. cbn [app tlv_walk].
    replace (fst (htons t), snd (htons t)) with (htons t) by now destruct (htons t).
    replace (fst (htons l), snd (htons l)) with (htons l) by now destruct (htons l).
    rewrite !ntohs_htons_small by lia.
    assert (Hlen : Z.to_nat l = List.length d) by (unfold strlen in Hd; lia).
    destruct (l <=? Z.of_nat (List.length (d ++ flat_map view_bytes tags))) eqn:E.
    2:{ apply Z.leb_gt in E. rewrite length_app in E. lia. }
    rewrite Hlen, firstn_app, Nat.sub_diag, firstn_all, skipn_app, Nat.sub_diag, skipn_all.
    simpl. rewrite app_nil_r. apply (f_equal (cons (t, l, d))). apply IH. simpl in Hf. lia.
Qed.

Lemma flat_view_bytes_length_ge (tags : list TagView) :
  (List.length tags <= List.length (flat_map view_bytes tags))%nat.
Proof.
  induction tags as [|v tags IH]; [simpl; lia|].
  cbn [flat_map List.length]. rewrite length_app.
  pose proof (view_bytes_length v) as Hv. pose proof (strlen_nonneg (snd v)).
  unfold strlen, TAG_HDR_SIZE in Hv. lia.
Qed.

(** Decoding the frame that carries [tags] yields [tags]. *)
Lemma tlv_stream_frame_of dst src c (tags : list TagView) :
  Forall wf_view tags -> tlv_bytes tags < 65536 ->
  tlv_stream (frame_of dst src c tags) = tags.
Proof.
  intros Hwf Hsz. unfold tlv_stream, declared_payload, frame_of. simpl.
  assert (H0 : 0 <= tlv_bytes tags) by (rewrite <- tlv_bytes_flat by assumption; apply strlen_nonneg).
  rewrite ntohs_htons_small by lia.
  rewrite take_bytes_all.
  2:{ rewrite <- tlv_bytes_flat by assumption. unfold strlen. lia. }
  apply tlv_walk_roundtrip; [assumption|apply flat_view_bytes_length_ge].
Qed.

Lemma enc_ok_size (e : Encoder) (tags : list TagView) :
  enc_ok e tags -> plen e = tlv_bytes tags /\ 0 <= tlv_bytes tags <= MAX_PPPOE_PAYLOAD.
Proof.
  intros (Hb & Hc & Hp & Hm & Hwf).
  rewrite <- tlv_bytes_flat by assumption. rewrite <- Hb.
  pose proof (strlen_nonneg (buf e)). split; lia.
Qed.

Lemma copy_tag_ok (tag : PPPoETag) (n : Z) (e e' : Encoder) (tags : list TagView) (w w' : World) :
  enc_ok e tags -> 0 <= n -> tag_length tag = htons n ->
  copy_tag tag n e w = (Ok e', w') ->
  w' = w /\ enc_ok e' (tags ++ [(ntohs (tag_type tag), n, take_bytes n (tag_payload tag))]).
Proof.
  intros (Hb & Hc & Hp & Hm & Hwf) Hn Hlen H.
  unfold copy_tag, CHECK_ROOM, payload_memcpy, bind, ret, stop in H.
  destruct (MAX_PPPOE_PAYLOAD <? cursor e + (n + TAG_HDR_SIZE)) eqn:E; [discriminate|].
  injection H as <- <-.
  apply Z.ltb_ge in E. split; [reflexivity|].
  assert (Hbytes : take_bytes (n + TAG_HDR_SIZE) (tag_bytes tag n)
                   = view_bytes (ntohs (tag_type tag), n, take_bytes n (tag_payload tag))).
  { rewrite take_bytes_all.
    - unfold tag_bytes, view_bytes. cbn [fst snd]. now rewrite htons_ntohs, Hlen.
    - unfold tag_bytes, be16_bytes. rewrite !length_app, take_bytes_length.
      unfold TAG_HDR_SIZE. simpl. lia. }
  pose proof (strlen_nonneg (buf e)) as Hpos.
  assert (Htk : strlen (take_bytes n (tag_payload tag)) = n)
    by (unfold strlen; rewrite take_bytes_length; lia).
  unfold enc_ok. cbn [buf cursor plen]. rewrite Hbytes, Hc, write_at_end.
  repeat split.
  - rewrite flat_map_app. cbn [flat_map]. now rewrite app_nil_r, Hb.
  - rewrite strlen_app, view_bytes_length. cbn [snd]. lia.
  - rewrite Hp, Hc. unfold u16. rewrite Z.mod_small; [reflexivity|].
    rewrite Hc in E. unfold MAX_PPPOE_PAYLOAD, TAG_HDR_SIZE in *. lia.
  - rewrite Hc in E. lia.
  - apply Forall_app. split; [assumption|]. constructor; [|constructor].
    unfold wf_view. cbn [fst snd]. pose proof (ntohs_range (tag_type tag)).
    rewrite Hc in E. unfold MAX_PPPOE_PAYLOAD, TAG_HDR_SIZE in *. lia.
Qed.

Lemma Ok_inv {A} (a b : A) (w w' : World) :
  (Ok a, w) = (Ok b, w') -> b = a /\ w' = w.
Proof. intros H. injection H as H1 H2. now subst. Qed.

Lemma add_hostUniq_ok (conn : PPPoEConnection) (e e' : Encoder) (tags : list TagView)
    (w w' : World) :
  enc_ok e tags -> add_hostUniq conn e w = (Ok e', w') ->
  w' = w /\ enc_ok e' (tags ++ host_uniq_tag conn).
Proof.
  intros He H. unfold add_hostUniq, host_uniq_tag in *.
  destruct (hostUniq conn) as [hu|].
  - eapply copy_tag_ok in H; [|exact He|apply strlen_nonneg|reflexivity].
    destruct H as [-> H]. split; [reflexivity|].
    cbn [tag_type tag_payload] in H.
    rewrite ntohs_htons_small in H by (unfold TAG_HOST_UNIQ; lia).
    unfold memcpy in H. rewrite take_bytes_strlen in H.
    rewrite skipn_nil, app_nil_r, take_bytes_strlen in H. exact H.
  - apply Ok_inv in H as [-> ->]. rewrite app_nil_r. now split.
Qed.

Lemma add_maxPayload_ok (PLUGIN : bool) (e e' : Encoder) (tags : list TagView) (w w' : World) :
  enc_ok e tags -> add_maxPayload PLUGIN e w = (Ok e', w') ->
  w' = w /\ enc_ok e' (tags ++ max_payload_tags PLUGIN w).
Proof.
  intros He H. unfold add_maxPayload, max_payload_tags in *.
  destruct PLUGIN; cbn [andb].
  - unfold bind, get_min_mru in H.
    destruct (ETH_PPPOE_MTU <? Z.min (lcp_allow_mru w) (lcp_want_mru w)).
    + eapply copy_tag_ok in H; [|exact He|lia|reflexivity].
      destruct H as [-> H]. split; [reflexivity|].
      cbn [tag_type tag_payload] in H.
      rewrite ntohs_htons_small in H by (unfold TAG_PPP_MAX_PAYLOAD; lia).
      rewrite take_bytes_all in H by reflexivity. exact H.
    + apply Ok_inv in H as [-> ->]. rewrite app_nil_r. now split.
  - apply Ok_inv in H as [-> ->]. rewrite app_nil_r. now split.
Qed.

Lemma stored_tag_ok (tag : PPPoETag) (e e' : Encoder) (tags : list TagView) (w w' : World) :
  enc_ok e tags ->
  (if negb (be16_is_zero (tag_type tag))
   then copy_tag tag (ntohs (tag_length tag)) e else ret e) w = (Ok e', w') ->
  w' = w /\ enc_ok e' (tags ++ stored_tag tag).
Proof.
  intros He H. unfold stored_tag.
  destruct (be16_is_zero (tag_type tag)); cbn [negb] in H.
  - apply Ok_inv in H as [-> ->]. rewrite app_nil_r. now split.
  - pose proof (ntohs_range (tag_length tag)) as [Hr _].
    exact (copy_tag_ok _ _ _ _ tags _ _ He Hr (eq_sym (htons_ntohs _)) H).
Qed.

(** The first tag of a PADI. *)
Lemma service_tag_PADI_ok (conn : PPPoEConnection) (e : Encoder) (w w' : World) :
  (let namelen := match serviceName conn with Some s => u16 (strlen s) | None => 0 end in
   let omit_service_name :=
     match serviceName conn with Some s => bytes_eqb s NO_SERVICE_NAME | None => false end in
   if negb omit_service_name then
     let plen0 := u16 (TAG_HDR_SIZE + namelen) in
     CHECK_ROOM 0 plen0 ;;;
     let b := be16_bytes (htons TAG_SERVICE_NAME) ++ be16_bytes (htons namelen) in
     b <- match serviceName conn with
          | Some s => payload_memcpy b TAG_HDR_SIZE s (strlen s)
          | None => ret b
          end ;;
     ret (mkEnc b (namelen + TAG_HDR_SIZE) plen0)
   else ret (mkEnc [] 0 0)) w = (Ok e, w') ->
  w' = w /\ (overran (buf e) = false -> enc_ok e (service_tag_PADI conn)).
Proof.
  cbv zeta. unfold service_tag_PADI.
  destruct (serviceName conn) as [s|].
  - destruct (bytes_eqb s NO_SERVICE_NAME); cbn [negb].
    + intros H. apply Ok_inv in H as [-> ->]. split; [reflexivity|]. intros _.
      repeat split; try reflexivity; [unfold MAX_PPPOE_PAYLOAD; simpl; lia|constructor].
    + unfold CHECK_ROOM, payload_memcpy, bind, ret, stop.
      destruct (MAX_PPPOE_PAYLOAD <? 0 + u16 (TAG_HDR_SIZE + u16 (strlen s))); [discriminate|].
      intros H. apply Ok_inv in H as [-> ->]. split; [reflexivity|].
      unfold overran. cbn [buf]. intros E. apply Z.ltb_ge in E.
      change TAG_HDR_SIZE
        with (strlen (be16_bytes (htons TAG_SERVICE_NAME)
                        ++ be16_bytes (htons (u16 (strlen s))))) in E at 1.
      rewrite write_at_end, take_bytes_strlen, strlen_app in E.
      change (strlen (be16_bytes (htons TAG_SERVICE_NAME)
                        ++ be16_bytes (htons (u16 (strlen s))))) with 4 in E.
      pose proof (strlen_nonneg s) as Hs.
      unfold MAX_PPPOE_PAYLOAD, TAG_HDR_SIZE in *.
      assert (Hu : u16 (strlen s) = strlen s) by (unfold u16; apply Z.mod_small; lia).
      rewrite Hu.
      assert (Hu' : u16 (4 + strlen s) = 4 + strlen s) by (unfold u16; apply Z.mod_small; lia).
      rewrite Hu'.
      change 4 with (strlen (be16_bytes (htons TAG_SERVICE_NAME) ++ be16_bytes (htons (strlen s)))) at 1.
      rewrite write_at_end, take_bytes_strlen.
      unfold enc_ok. cbn [buf cursor plen flat_map]. rewrite app_nil_r.
      unfold view_bytes at 1. cbn [fst snd]. rewrite <- app_assoc.
      repeat split.
      * rewrite !strlen_app.
        change (strlen (be16_bytes (htons TAG_SERVICE_NAME))) with 2.
        change (strlen (be16_bytes (htons (strlen s)))) with 2. lia.
      * lia.
      * unfold MAX_PPPOE_PAYLOAD. lia.
      * constructor; [|constructor]. unfold wf_view, TAG_SERVICE_NAME. cbn [fst snd]. lia.
  - cbn [negb]. intros H. vm_compute in H. apply Ok_inv in H as [-> ->].
    split; [reflexivity|].
    unfold enc_ok. cbn [buf cursor plen]. repeat split; try reflexivity.
    + unfold MAX_PPPOE_PAYLOAD. lia.
    + constructor; [|constructor]. unfold wf_view, TAG_SERVICE_NAME, strlen.
      cbn [fst snd List.length]. lia.
Qed.

Lemma u16_range (z : Z) : 0 <= u16 z < 65536.
Proof. unfold u16. apply Z.mod_pos_bound. lia. Qed.

(** The first tag of a PADR. *)
Lemma service_tag_PADR_ok (conn : PPPoEConnection) (b : list byte) (w w0 w' : World) :
  let namelen := match serviceName conn with Some s => u16 (strlen s) | None => 0 end in
  CHECK_ROOM 0 (u16 (TAG_HDR_SIZE + namelen)) w = (Ok tt, w0) ->
  match serviceName conn with
  | Some s =>
      payload_memcpy (be16_bytes (htons TAG_SERVICE_NAME) ++ be16_bytes (htons namelen))
        TAG_HDR_SIZE s namelen
  | None => ret (be16_bytes (htons TAG_SERVICE_NAME) ++ be16_bytes (htons namelen))
  end w0 = (Ok b, w') ->
  w' = w
  /\ (overran b = false ->
      enc_ok (mkEnc b (namelen + TAG_HDR_SIZE) (u16 (TAG_HDR_SIZE + namelen)))
        (service_tag_PADR conn)).
Proof.
  cbv zeta. unfold service_tag_PADR, CHECK_ROOM.
  destruct (serviceName conn) as [s|].
  - destruct (MAX_PPPOE_PAYLOAD <? 0 + u16 (TAG_HDR_SIZE + u16 (strlen s))); [discriminate|].
    intros H0. apply Ok_inv in H0 as [_ ->].
    unfold payload_memcpy.
    intros H. apply Ok_inv in H as [-> ->]. split; [reflexivity|].
    pose proof (u16_range (strlen s)) as Hs.
    set (n := u16 (strlen s)) in *.
    assert (Htk : strlen (take_bytes n s) = n)
      by (unfold strlen; rewrite take_bytes_length; lia).
    unfold overran. intros E. apply Z.ltb_ge in E.
    change TAG_HDR_SIZE
      with (strlen (be16_bytes (htons TAG_SERVICE_NAME) ++ be16_bytes (htons n))) in E at 1.
    rewrite write_at_end, strlen_app, Htk in E.
    change (strlen (be16_bytes (htons TAG_SERVICE_NAME) ++ be16_bytes (htons n))) with 4 in E.
    clear Htk.
    unfold MAX_PPPOE_PAYLOAD, TAG_HDR_SIZE in *.
    assert (Hu' : u16 (4 + n) = 4 + n) by (unfold u16; apply Z.mod_small; lia).
    rewrite Hu'.
    assert (Htk : strlen (take_bytes n s) = n)
      by (unfold strlen; rewrite take_bytes_length; lia).
    change 4 with (strlen (be16_bytes (htons TAG_SERVICE_NAME) ++ be16_bytes (htons n))) at 1.
    rewrite write_at_end.
    unfold enc_ok. cbn [buf cursor plen flat_map]. rewrite app_nil_r.
    unfold view_bytes at 1. cbn [fst snd]. rewrite <- app_assoc.
    repeat split.
    + rewrite !strlen_app.
      change (strlen (be16_bytes (htons TAG_SERVICE_NAME))) with 2.
      change (strlen (be16_bytes (htons n))) with 2. lia.
    + lia.
    + unfold MAX_PPPOE_PAYLOAD. lia.
    + constructor; [|constructor]. unfold wf_view, TAG_SERVICE_NAME. cbn [fst snd]. lia.
  - intros H0 H. vm_compute in H0. apply Ok_inv in H0 as [_ ->].
    vm_compute in H. apply Ok_inv in H as [-> ->].
    split; [reflexivity|]. intros _.
    unfold enc_ok. cbn [buf cursor plen]. repeat split; try reflexivity.
    + unfold MAX_PPPOE_PAYLOAD. vm_compute. discriminate.
    + constructor; [|constructor]. unfold wf_view, TAG_SERVICE_NAME, strlen.
      cbn [fst snd List.length]. lia.
Qed.

Lemma enc_ok_frame (e : Encoder) (tags : list TagView) dst src c :
  enc_ok e tags ->
  mkPacket (mkEthhdr dst src (htons Eth_PPPOE_Discovery)) PPPOE_VER_TYPE_1_1 c (htons 0)
    (htons (plen e)) (buf e) = frame_of dst src c tags
  /\ plen e = tlv_bytes tags.
Proof.
  intros He. destruct (enc_ok_size e tags He) as [Hp _].
  destruct He as (Hb & _). unfold frame_of. now rewrite Hp, Hb.
Qed.

(** A function that returns has not run past the end of the payload. *)
Lemma undefined_after_Ok {A} (ub : bool) (m : M A) (w : World) a w' :
  undefined_after ub m w = (Ok a, w') -> ub = false /\ m w = (Ok a, w').
Proof. unfold undefined_after. destruct ub; [discriminate|]. now split. Qed.

Lemma undefined_after_defined {A} (m : M A) : undefined_after false m = m.
Proof. reflexivity. Qed.

(** What [sendPADI] sends when it returns. *)
Lemma sendPADI_sent (PLUGIN : bool) (conn : PPPoEConnection) (w w' : World) :
  sendPADI PLUGIN conn w = (Ok tt, w') ->
  w' = set_trace
         (EvSendPacket
            (frame_of (repeat Byte.xff 6) (take_bytes ETH_ALEN (myEth conn)) CODE_PADI
               (padi_tags PLUGIN conn w))
            (tlv_bytes (padi_tags PLUGIN conn w) + HDR_SIZE) :: trace w) w
  /\ Forall wf_view (padi_tags PLUGIN conn w)
  /\ 0 <= tlv_bytes (padi_tags PLUGIN conn w) <= MAX_PPPOE_PAYLOAD.
Proof.
  intros H. unfold sendPADI in H. cbv zeta in H.
  apply bind_Ok in H as (e1 & w1 & H1 & H).
  apply service_tag_PADI_ok in H1 as [-> He1].
  apply undefined_after_Ok in H as [Hov H]. specialize (He1 Hov).
  apply bind_Ok in H as (e2 & w2 & H2 & H).
  apply (add_hostUniq_ok _ _ _ _ _ _ He1) in H2 as [-> He2].
  apply bind_Ok in H as (e3 & w3 & H3 & H).
  apply (add_maxPayload_ok _ _ _ _ _ _ He2) in H3 as [-> He3].
  rewrite <- app_assoc in He3. fold (padi_tags PLUGIN conn w) in He3.
  destruct (enc_ok_frame e3 _ (repeat Byte.xff 6) (take_bytes ETH_ALEN (myEth conn)) CODE_PADI He3)
    as [Hf Hp].
  unfold sendPacket, emit in H. rewrite Hf, Hp in H. apply Ok_inv in H as [_ ->].
  split; [reflexivity|]. split; [apply He3|apply (enc_ok_size _ _ He3)].
Qed.

(** What [sendPADR] sends when it returns. *)
Lemma sendPADR_sent (PLUGIN : bool) (conn : PPPoEConnection) (w w' : World) :
  sendPADR PLUGIN conn w = (Ok tt, w') ->
  w' = set_trace
         (EvSendPacket
            (frame_of (take_bytes ETH_ALEN (peerEth conn)) (take_bytes ETH_ALEN (myEth conn))
               CODE_PADR (padr_tags PLUGIN conn w))
            (tlv_bytes (padr_tags PLUGIN conn w) + HDR_SIZE) :: trace w) w
  /\ Forall wf_view (padr_tags PLUGIN conn w)
  /\ 0 <= tlv_bytes (padr_tags PLUGIN conn w) <= MAX_PPPOE_PAYLOAD.
Proof.
  intros H. unfold sendPADR in H. cbv zeta in H.
  apply bind_Ok in H as ([] & w0 & H0 & H).
  apply bind_Ok in H as (b & w1 & H1 & H).
  destruct (service_tag_PADR_ok conn b w w0 w1 H0 H1) as [-> He1].
  apply undefined_after_Ok in H as [Hov H]. cbn [buf] in Hov. specialize (He1 Hov).
  apply bind_Ok in H as (e2 & w2 & H2 & H).
  apply (add_hostUniq_ok _ _ _ _ _ _ He1) in H2 as [-> He2].
  apply bind_Ok in H as (e3 & w3 & H3 & H).
  apply (stored_tag_ok _ _ _ _ _ _ He2) in H3 as [-> He3].
  apply bind_Ok in H as (e4 & w4 & H4 & H).
  apply (stored_tag_ok _ _ _ _ _ _ He3) in H4 as [-> He4].
  apply bind_Ok in H as (e5 & w5 & H5 & H).
  apply (add_maxPayload_ok _ _ _ _ _ _ He4) in H5 as [-> He5].
  rewrite <- !app_assoc in He5. fold (padr_tags PLUGIN conn w) in He5.
  destruct (enc_ok_frame e5 _ (take_bytes ETH_ALEN (peerEth conn))
              (take_bytes ETH_ALEN (myEth conn)) CODE_PADR He5) as [Hf Hp].
  unfold sendPacket, emit in H. rewrite Hf, Hp in H. apply Ok_inv in H as [_ ->].
  split; [reflexivity|]. split; [apply He5|apply (enc_ok_size _ _ He5)].
Qed.

(** The frame of a call of [sendPADI] or [sendPADR] that returns is sent
    with a total length of 14 + 6 + the sum over its tags of
    (4 + tag.length), and the payload-length field of its PPPoE header holds
    that same sum (big endian).  The tags are those of the frame's TLV
    stream.  A call that overruns [packet.payload] does not return in the
    model; what it sends is shown further down, for a name of 65533 bytes. *)
Lemma returned_frame_lengths (PLUGIN : bool) (conn : PPPoEConnection) (w w' : World) :
  sendPADI PLUGIN conn w = (Ok tt, w') \/ sendPADR PLUGIN conn w = (Ok tt, w') ->
  exists pkt size,
    trace w' = EvSendPacket pkt size :: trace w
    /\ size = 14 + 6 + tlv_bytes (tlv_stream pkt)
    /\ ntohs (pkt_length pkt) = tlv_bytes (tlv_stream pkt)
    /\ pkt_length pkt = htons (tlv_bytes (tlv_stream pkt))
    /\ strlen (declared_payload pkt) = tlv_bytes (tlv_stream pkt).
Proof.
  intros [H|H].
  - apply sendPADI_sent in H as (-> & Hwf & Hsz).
    unfold MAX_PPPOE_PAYLOAD in Hsz.
    eexists _, _. split; [reflexivity|].
    rewrite tlv_stream_frame_of by (assumption || lia).
    cbn [pkt_length frame_of]. rewrite ntohs_htons_small by lia.
    repeat split; try reflexivity; [unfold HDR_SIZE; lia|].
    unfold declared_payload. cbn [pkt_length payload frame_of].
    rewrite ntohs_htons_small by lia. unfold strlen. rewrite take_bytes_length. lia.
  - apply sendPADR_sent in H as (-> & Hwf & Hsz).
    unfold MAX_PPPOE_PAYLOAD in Hsz.
    eexists _, _. split; [reflexivity|].
    rewrite tlv_stream_frame_of by (assumption || lia).
    cbn [pkt_length frame_of]. rewrite ntohs_htons_small by lia.
    repeat split; try reflexivity; [unfold HDR_SIZE; lia|].
    unfold declared_payload. cbn [pkt_length payload frame_of].
    rewrite ntohs_htons_small by lia. unfold strlen. rewrite take_bytes_length. lia.
Qed.

Lemma returned_frame_lengths_conn_echo :
  exists pkt size,
    trace (snd (sendPADR false conn_echo (world [] [] [] false)))
      = EvSendPacket pkt size :: trace (world [] [] [] false)
    /\ size = 14 + 6 + tlv_bytes (tlv_stream pkt)
    /\ ntohs (pkt_length pkt) = tlv_bytes (tlv_stream pkt)
    /\ pkt_length pkt = htons (tlv_bytes (tlv_stream pkt))
    /\ strlen (declared_payload pkt) = tlv_bytes (tlv_stream pkt).
Proof.
  apply (returned_frame_lengths false conn_echo (world [] [] [] false)).
  right. vm_compute. reflexivity.
Qed.

(* ------------------------------------------------------------------ *)
(** ** What the functions leave in the trace and in the connection *)

Section Quietly.
Context {A : Type}.

Lemma quietly_ret (post : A -> Prop) (a : A) : post a -> quietly post (ret a).
Proof.
  intros Hp w r w' H. apply pair_equal_spec in H as [<- <-].
  split; [exists []; now split|]. split; [reflexivity|].
  intros a' Ha. injection Ha as <-. exact Hp.
Qed.

Lemma quietly_stop (post : A -> Prop) (o : Outcome) : quietly post (stop o).
Proof.
  intros w r w' H. apply pair_equal_spec in H as [<- <-].
  split; [exists []; now split|]. split; [reflexivity|]. intros a' Ha. discriminate.
Qed.

Lemma quietly_weaken (post post' : A -> Prop) (m : M A) :
  quietly post m -> (forall a, post a -> post' a) -> quietly post' m.
Proof.
  intros Hm Himp w r w' H. destruct (Hm w r w' H) as (He & Hp & Hr).
  repeat split; auto.
Qed.

Lemma quietly_bind {B} (postA : A -> Prop) (post : B -> Prop) (m : M A) (k : A -> M B) :
  quietly postA m -> (forall a, postA a -> quietly post (k a)) -> quietly post (bind m k).
Proof.
  intros Hm Hk w r w' H. unfold bind in H.
  destruct (m w) as [[a|o] w1] eqn:Em.
  - destruct (Hm w _ _ Em) as ((es1 & Ht1 & Hn1) & Hp1 & Hr1).
    destruct (Hk a (Hr1 a eq_refl) w1 r w' H) as ((es2 & Ht2 & Hn2) & Hp2 & Hr2).
    split; [|split; [congruence|assumption]].
    exists (es2 ++ es1). rewrite Ht2, Ht1, app_assoc. split; [reflexivity|].
    rewrite forallb_app. now rewrite Hn2, Hn1.
  - apply pair_equal_spec in H as [<- <-].
    destruct (Hm w _ _ Em) as (He & Hp & _).
    repeat split; auto. intros a Ha. discriminate.
Qed.

End Quietly.

Lemma quietly_emit (post : unit -> Prop) (e : Event) :
  neutral e = true -> post tt -> quietly post (emit e).
Proof.
  intros Hn Hp w r w' H. apply pair_equal_spec in H as [<- <-].
  split; [exists [e]; split; [reflexivity|simpl; now rewrite Hn]|].
  split; [reflexivity|]. intros [] _. exact Hp.
Qed.

Lemma quietly_emit_list (post : unit -> Prop) (es : list Event) :
  forallb neutral es = true -> post tt -> quietly post (emit_list es).
Proof.
  intros Hn Hp w r w' H. apply pair_equal_spec in H as [<- <-].
  split.
  - exists (rev es). split; [reflexivity|].
    apply forallb_forall. intros e He. apply in_rev in He.
    rewrite forallb_forall in Hn. now apply Hn.
  - split; [reflexivity|]. intros [] _. exact Hp.
Qed.

Lemma quietly_get_persist : quietly (fun _ => True) get_persist.
Proof.
  intros w r w' H. apply pair_equal_spec in H as [<- <-].
  split; [exists []; now split|]. now split.
Qed.

Lemma quietly_gettimeofday : quietly (fun _ => True) gettimeofday.
Proof.
  intros w r w' H. unfold gettimeofday in H.
  destruct (clock w); apply pair_equal_spec in H as [<- <-];
    (split; [exists []; now split|]; now split).
Qed.

Lemma quietly_select (tv : timeval) : quietly (fun _ => True) (select tv).
Proof.
  intros w r w' H. unfold select in H.
  destruct (selects w); apply pair_equal_spec in H as [<- <-];
    (split; [exists [EvSelect tv]; now split|]; now split).
Qed.

Lemma quietly_receivePacket : quietly (fun _ => True) receivePacket.
Proof.
  intros w r w' H. unfold receivePacket in H.
  destruct (inbox w); apply pair_equal_spec in H as [<- <-];
    (split; [exists []; now split|]; now split).
Qed.

Lemma quietly_lower_mru (mru : Z) : quietly (fun _ => True) (lower_mru mru).
Proof.
  intros w r w' H. apply pair_equal_spec in H as [<- <-].
  split; [exists []; now split|]. now split.
Qed.

Lemma quietly_cap_mru : quietly (fun _ => True) cap_mru.
Proof.
  intros w r w' H. apply pair_equal_spec in H as [<- <-].
  split; [exists []; now split|]. now split.
Qed.

Lemma quietly_get_min_mru : quietly (fun _ => True) get_min_mru.
Proof.
  intros w r w' H. apply pair_equal_spec in H as [<- <-].
  split; [exists []; now split|]. now split.
Qed.

(** Steps through a computation built from the primitives above. *)
Ltac quiet_step :=
  match goal with
  | |- quietly _ (ret _) => apply quietly_ret
  | |- quietly _ (stop _) => apply quietly_stop
  | |- quietly _ (exit _) => apply quietly_stop
  | |- quietly _ (fatalSys _) => apply quietly_stop
  | |- quietly _ (emit _) => apply quietly_emit; [reflexivity|]
  | |- quietly _ (printf _ _) => apply quietly_emit; [reflexivity|]
  | |- quietly _ (printErr _) => apply quietly_emit; [reflexivity|]
  | |- quietly _ (warn _) => apply quietly_emit; [reflexivity|]
  | |- quietly _ (syslog _ _) => apply quietly_emit; [reflexivity|]
  | |- quietly _ (pktLogErrs _ _ _ _) => apply quietly_emit; [reflexivity|]
  | |- quietly _ (sendPacket _ _) => apply quietly_emit; [reflexivity|]
  | |- quietly _ (sendPADT _) => apply quietly_emit; [reflexivity|]
  | |- quietly _ get_persist => apply (quietly_weaken _ _ _ quietly_get_persist); intros
  | |- quietly _ gettimeofday => apply (quietly_weaken _ _ _ quietly_gettimeofday); intros
  | |- quietly _ (select _) => apply (quietly_weaken _ _ _ (quietly_select _)); intros
  | |- quietly _ receivePacket => apply (quietly_weaken _ _ _ quietly_receivePacket); intros
  | |- quietly _ (lower_mru _) => apply (quietly_weaken _ _ _ (quietly_lower_mru _)); intros
  | |- quietly _ cap_mru => apply (quietly_weaken _ _ _ quietly_cap_mru); intros
  | |- quietly _ get_min_mru => apply (quietly_weaken _ _ _ quietly_get_min_mru); intros
  | |- quietly _ (bind _ _) => eapply (quietly_bind (fun _ => True)); [|intros ? _]
  | |- quietly _ (if ?c then _ else _) => destruct c eqn:?
  | |- quietly _ (match ?x with _ => _ end) => destruct x
  | |- quietly _ (let '(_, _) := ?x in _) => destruct x
  end.

Lemma quietly_print_first_20 (len : Z) (data : list byte) :
  quietly (fun _ => True) (print_first_20 len data).
Proof.
  unfold print_first_20.
  eapply (quietly_bind (fun _ => True)); [apply quietly_emit_list|intros ? _].
  - apply forallb_forall. intros e He. apply in_map_iff in He as (b & <- & _). reflexivity.
  - exact I.
  - repeat quiet_step; exact I.
Qed.

Lemma parsed_from_refl (c : PPPoEConnection) : parsed_from c c.
Proof. repeat split. Qed.

Lemma parsed_from_trans (a b c : PPPoEConnection) :
  parsed_from a b -> parsed_from b c -> parsed_from a c.
Proof.
  unfold parsed_from. intros (H1 & H2 & H3 & H4 & H5) (G1 & G2 & G3 & G4 & G5).
  repeat split; congruence.
Qed.

Lemma quietly_max_payload_tag (len : Z) (data : list byte) (conn : PPPoEConnection) :
  quietly (parsed_from conn) (max_payload_tag len data conn).
Proof.
  unfold max_payload_tag. repeat quiet_step; try exact I; repeat split.
Qed.

Lemma quietly_parsePADOTags (PLUGIN : bool) (type len : Z) (data : list byte)
    (pc : PacketCriteria) (conn : PPPoEConnection) :
  quietly (fun x => parsed_from conn (snd x)) (parsePADOTags PLUGIN type len data (pc, conn)).
Proof.
  unfold parsePADOTags, pado_error_tag. cbv beta iota.
  repeat first
    [ apply (quietly_weaken _ _ _ (quietly_print_first_20 _ _)); intros
    | eapply quietly_bind; [apply quietly_max_payload_tag|intros ? ?]
    | quiet_step ];
    try exact I; cbn [snd]; try assumption; repeat split.
Qed.

Lemma quietly_parsePADSTags (PLUGIN : bool) (type len : Z) (data : list byte)
    (conn : PPPoEConnection) :
  quietly (parsed_from conn) (parsePADSTags PLUGIN type len data conn).
Proof.
  unfold parsePADSTags.
  repeat first
    [ apply quietly_max_payload_tag
    | quiet_step ];
    try exact I; repeat split.
Qed.

Lemma quietly_visit_PADO (PLUGIN : bool) (tags : list TagView) :
  forall pc conn,
    quietly (fun x => parsed_from conn (snd x))
      (visit_tags (parsePADOTags PLUGIN) tags (pc, conn)).
Proof.
  induction tags as [|[[t l] d] tags IH]; intros pc conn; cbn [visit_tags].
  - apply quietly_ret. apply parsed_from_refl.
  - eapply quietly_bind; [apply quietly_parsePADOTags|].
    intros [pc1 conn1] H1. cbn [snd] in H1.
    eapply quietly_weaken; [apply IH|].
    intros [pc2 conn2] H2. cbn [snd] in *. eapply parsed_from_trans; eassumption.
Qed.

Lemma quietly_visit_PADS (PLUGIN : bool) (tags : list TagView) :
  forall conn,
    quietly (parsed_from conn) (visit_tags (parsePADSTags PLUGIN) tags conn).
Proof.
  induction tags as [|[[t l] d] tags IH]; intros conn; cbn [visit_tags].
  - apply quietly_ret. apply parsed_from_refl.
  - eapply quietly_bind; [apply quietly_parsePADSTags|].
    intros conn1 H1. eapply quietly_weaken; [apply IH|].
    intros conn2 H2. eapply parsed_from_trans; eassumption.
Qed.

Lemma quietly_visit_HostUniq (tags : list TagView) :
  forall hi, quietly (fun _ => True) (visit_tags parseForHostUniq tags hi).
Proof.
  induction tags as [|[[t l] d] tags IH]; intros hi; cbn [visit_tags].
  - now apply quietly_ret.
  - eapply (quietly_bind (fun _ => True)); [|intros ? _; apply IH].
    unfold parseForHostUniq. repeat quiet_step; exact I.
Qed.

Lemma quietly_packetIsForMe (conn : PPPoEConnection) (packet : PPPoEPacket) :
  quietly (fun _ => True) (packetIsForMe conn packet).
Proof.
  unfold packetIsForMe, parsePacket.
  repeat first [ apply quietly_visit_HostUniq | quiet_step ]; exact I.
Qed.

(** A frame handler changes what the parsers write and, on acceptance,
    [numPADOs], [peerEth] and the discovery state; never the configuration. *)
Lemma quietly_waitForPADO_frame (PLUGIN : bool) (conn : PPPoEConnection)
    (packet : PPPoEPacket) (len : Z) :
  quietly (fun x => config (snd x) = config conn)
    (waitForPADO_frame PLUGIN conn packet len).
Proof.
  unfold waitForPADO_frame, parsePacket.
  repeat first
    [ apply (quietly_weaken _ _ _ (quietly_packetIsForMe _ _)); intros
    | eapply quietly_bind; [apply quietly_visit_PADO|intros [? ?] (? & _)]
    | quiet_step ];
    try exact I; cbn [snd] in *; try assumption; try reflexivity.
Qed.

Lemma quietly_waitForPADS_frame (PLUGIN : bool) (conn : PPPoEConnection)
    (packet : PPPoEPacket) (len : Z) :
  quietly (fun x => config (snd x) = config conn)
    (waitForPADS_frame PLUGIN conn packet len).
Proof.
  unfold waitForPADS_frame, parsePacket.
  repeat first
    [ apply (quietly_weaken _ _ _ (quietly_packetIsForMe _ _)); intros
    | eapply quietly_bind; [apply quietly_visit_PADS|intros ? (? & _)]
    | quiet_step ];
    try exact I; cbn [snd] in *; try assumption; try reflexivity.
Qed.

Lemma quietly_select_retry (fuel : nat) :
  forall tv, quietly (fun _ => True) (select_retry fuel tv).
Proof.
  induction fuel as [|fuel IH]; intros tv; cbn [select_retry].
  - apply quietly_stop.
  - eapply (quietly_bind (fun _ => True)); [apply quietly_select|intros a _].
    destruct ((0 <=? sel_r a) || negb (sel_errno a =? EINTR)); [now apply quietly_ret|apply IH].
Qed.

Lemma quietly_time_left (expire_at : timeval) : quietly (fun _ => True) (time_left expire_at).
Proof. unfold time_left. repeat quiet_step; exact I. Qed.

Lemma quietly_waitForPADO_body (PLUGIN : bool) (fuel : nat) (expire_at : timeval)
    (conn : PPPoEConnection) :
  quietly (fun x => config (snd x) = config conn)
    (waitForPADO_body PLUGIN fuel expire_at conn).
Proof.
  unfold waitForPADO_body.
  repeat first
    [ apply (quietly_weaken _ _ _ (quietly_time_left _)); intros
    | apply (quietly_weaken _ _ _ (quietly_select_retry _ _)); intros
    | apply quietly_waitForPADO_frame
    | quiet_step ];
    try exact I; reflexivity.
Qed.

Lemma quietly_waitForPADO_loop (PLUGIN : bool) (fuel : nat) (expire_at : timeval) :
  forall conn,
    quietly (fun c => config c = config conn) (waitForPADO_loop PLUGIN fuel expire_at conn).
Proof.
  induction fuel as [|fuel IH]; intros conn; cbn [waitForPADO_loop].
  - apply quietly_stop.
  - eapply quietly_bind; [apply quietly_waitForPADO_body|].
    intros [ctl c1] H1. cbn [snd] in H1.
    destruct ctl; try (now apply quietly_ret).
    destruct (negb (state_eqb (discoveryState c1) STATE_RECEIVED_PADO));
      [|now apply quietly_ret].
    eapply quietly_weaken; [apply IH|]. intros c2 H2. congruence.
Qed.

Lemma quietly_waitForPADS_body (PLUGIN : bool) (fuel : nat) (expire_at : timeval)
    (conn : PPPoEConnection) :
  quietly (fun x => config (snd x) = config conn)
    (waitForPADS_body PLUGIN fuel expire_at conn).
Proof.
  unfold waitForPADS_body.
  repeat first
    [ apply (quietly_weaken _ _ _ (quietly_time_left _)); intros
    | apply (quietly_weaken _ _ _ (quietly_select_retry _ _)); intros
    | eapply quietly_bind; [apply quietly_waitForPADS_frame|intros [? ?] ?]
    | quiet_step ];
    try exact I; cbn [snd] in *; try assumption; reflexivity.
Qed.

Lemma quietly_waitForPADS_loop (PLUGIN : bool) (fuel : nat) (expire_at : timeval) :
  forall conn,
    quietly (fun x => config (snd x) = config conn)
      (waitForPADS_loop PLUGIN fuel expire_at conn).
Proof.
  induction fuel as [|fuel IH]; intros conn; cbn [waitForPADS_loop].
  - apply quietly_stop.
  - eapply quietly_bind; [apply quietly_waitForPADS_body|].
    intros [[ctl pkt] c1] H1. cbn [snd] in H1.
    destruct ctl; try (now apply quietly_ret).
    destruct (negb (state_eqb (discoveryState c1) STATE_SESSION));
      [|now apply quietly_ret].
    eapply quietly_weaken; [apply IH|]. intros [p2 c2] H2. cbn [snd] in *. congruence.
Qed.

Lemma quietly_waitForPADS_finish (conn : PPPoEConnection) (packet : PPPoEPacket) :
  quietly (fun c => config c = config conn) (waitForPADS_finish conn packet).
Proof.
  unfold waitForPADS_finish. repeat quiet_step; try exact I; reflexivity.
Qed.

Lemma quietly_undefined_after {A} (post : A -> Prop) (ub : bool) (m : M A) :
  quietly post m -> quietly post (undefined_after ub m).
Proof.
  intros Hm w r w' H. unfold undefined_after in H. destruct ub; [|exact (Hm _ _ _ H)].
  destruct (m w) as [r0 w0] eqn:E. destruct (Hm _ _ _ E) as (Ht & Hp & _).
  apply pair_equal_spec in H as [<- <-]. cbn [snd].
  split; [assumption|]. split; [assumption|]. intros a Ha. discriminate.
Qed.

Lemma quietly_copy_tag (tag : PPPoETag) (n : Z) (e : Encoder) :
  quietly (fun _ => True) (copy_tag tag n e).
Proof.
  unfold copy_tag, CHECK_ROOM, payload_memcpy. repeat quiet_step; exact I.
Qed.

Lemma quietly_sendPADI (PLUGIN : bool) (conn : PPPoEConnection) :
  quietly (fun _ => True) (sendPADI PLUGIN conn).
Proof.
  unfold sendPADI, add_hostUniq, add_maxPayload, CHECK_ROOM, payload_memcpy. cbv zeta.
  repeat first
    [ apply (quietly_weaken _ _ _ (quietly_copy_tag _ _ _)); intros
    | apply quietly_undefined_after
    | quiet_step ]; exact I.
Qed.

Lemma quietly_sendPADR (PLUGIN : bool) (conn : PPPoEConnection) :
  quietly (fun _ => True) (sendPADR PLUGIN conn).
Proof.
  unfold sendPADR, add_hostUniq, add_maxPayload, CHECK_ROOM, payload_memcpy. cbv zeta.
  repeat first
    [ apply (quietly_weaken _ _ _ (quietly_copy_tag _ _ _)); intros
    | apply quietly_undefined_after
    | quiet_step ]; exact I.
Qed.

(* ------------------------------------------------------------------ *)
(** ** The retry schedule *)

Lemma backoff_step_neutral (T : Z) (probe : bool) (st : option Backoff) (e : Event) :
  neutral e = true -> backoff_step T probe st e = st.
Proof.
  intros Hn. destruct st as [s|]; [|reflexivity].
  destruct e; try reflexivity; try discriminate.
  cbn [neutral] in Hn. apply andb_true_iff in Hn as [H1 H2].
  apply negb_true_iff in H1, H2. cbn [backoff_step]. now rewrite H1, H2.
Qed.

Lemma backoff_state_neutral (T : Z) (probe : bool) (es tr : list Event) :
  forallb neutral es = true ->
  backoff_state T probe (es ++ tr) = backoff_state T probe tr.
Proof.
  induction es as [|e es IH]; intros Hn; [reflexivity|].
  cbn [forallb] in Hn. apply andb_true_iff in Hn as [He Hes].
  change (backoff_state T probe ((e :: es) ++ tr))
    with (backoff_step T probe (backoff_state T probe (es ++ tr)) e).
  now rewrite backoff_step_neutral, IH.
Qed.

Lemma backoff_state_cons (T : Z) (probe : bool) (e : Event) (tr : list Event) :
  backoff_state T probe (e :: tr) = backoff_step T probe (backoff_state T probe tr) e.
Proof. reflexivity. Qed.

(** A quiet computation leaves the monitor where it was. *)
Lemma quietly_backoff {A} (post : A -> Prop) (m : M A) (T : Z) (probe : bool) w r w' :
  quietly post m -> m w = (r, w') ->
  backoff_state T probe (trace w') = backoff_state T probe (trace w)
  /\ persist w' = persist w
  /\ (forall a, r = Ok a -> post a).
Proof.
  intros Hq H. destruct (Hq w r w' H) as ((es & Ht & Hn) & Hp & Hr).
  rewrite Ht, backoff_state_neutral by assumption. auto.
Qed.

(** [waitForPADO] logs its call and is quiet from then on. *)
Lemma waitForPADO_backoff (PLUGIN : bool) (fuel : nat) (conn : PPPoEConnection) (t : Z)
    (T : Z) (probe : bool) w r w' :
  waitForPADO PLUGIN fuel conn t w = (r, w') ->
  backoff_state T probe (trace w')
    = backoff_step T probe (backoff_state T probe (trace w)) (EvWaitForPADO t)
  /\ persist w' = persist w
  /\ (forall c, r = Ok c -> config c = config conn).
Proof.
  unfold waitForPADO. unfold bind at 1. unfold emit at 1. intros H.
  eapply quietly_backoff in H.
  - rewrite <- backoff_state_cons. exact H.
  - repeat first
      [ eapply quietly_weaken; [apply quietly_waitForPADO_loop|intros c Hc; rewrite Hc]
      | quiet_step ]; try exact I.
    now destruct PLUGIN.
Qed.

Lemma waitForPADS_backoff (PLUGIN : bool) (fuel : nat) (conn : PPPoEConnection) (t : Z)
    (T : Z) (probe : bool) w r w' :
  waitForPADS PLUGIN fuel conn t w = (r, w') ->
  backoff_state T probe (trace w')
    = backoff_step T probe (backoff_state T probe (trace w)) (EvWaitForPADS t)
  /\ persist w' = persist w
  /\ (forall c, r = Ok c -> config c = config conn).
Proof.
  unfold waitForPADS. unfold bind at 1. unfold emit at 1. intros H.
  eapply quietly_backoff in H.
  - rewrite <- backoff_state_cons. exact H.
  - repeat first
      [ eapply quietly_bind; [apply quietly_waitForPADS_loop|intros [? ?] ?]
      | eapply quietly_weaken; [apply quietly_waitForPADS_finish|intros ? ?]
      | quiet_step ]; try exact I; cbn [snd] in *; congruence.
Qed.

Lemma config_fields (c c' : PPPoEConnection) :
  config c' = config c ->
  discoveryTimeout c' = discoveryTimeout c /\ printACNames c' = printACNames c.
Proof. unfold config. intros H. injection H. auto. Qed.

Lemma Stop_inv {A} (o : Outcome) (r : Result A) (w w' : World) :
  (Stop o, w) = (r, w') -> r = Stop o /\ w' = w.
Proof. intros H. injection H as H1 H2. now subst. Qed.

Lemma pow2_succ (T : Z) (k : nat) : T * 2 ^ Z.of_nat (S k) = (T * 2 ^ Z.of_nat k) * 2.
Proof. rewrite Nat2Z.inj_succ, Z.pow_succ_r by lia. lia. Qed.

(** One PADI attempt: send, wait, back off. *)
Lemma padi_attempt_backoff (PLUGIN : bool) (fuel : nat) (a t : Z) (conn : PPPoEConnection)
    (T : Z) (probe : bool) (w : World) r w' (s : Backoff) :
  discoveryTimeout conn = T -> printACNames conn = probe ->
  backoff_state T probe (trace w) = Some s -> next_pado T probe s = t ->
  (sendPADI PLUGIN conn ;;;
   conn' <- waitForPADO PLUGIN fuel (set_discoveryState STATE_SENT_PADI conn) t ;;
   timeout <- (if negb (printACNames conn') then double_timeout t else ret t) ;;
   if printACNames conn' && negb (numPADOs conn' =? 0) then ret (PADI_DONE, conn')
   else if state_eqb (discoveryState conn') STATE_SENT_PADI
   then ret (PADI_LOOP a timeout, conn')
   else ret (PADI_DONE, conn')) w = (r, w') ->
  exists s', backoff_state T probe (trace w') = Some s'
             /\ forall l' c', r = Ok (l', c') ->
                              backoff_inv T probe l' s' /\ config c' = config conn.
Proof.
  intros HT Hprobe Hst Hnext H.
  unfold bind at 1 in H.
  destruct (sendPADI PLUGIN conn w) as [[[]|o] w1] eqn:E1.
  2:{ apply Stop_inv in H as [-> ->].
      destruct (quietly_backoff _ _ T probe _ _ _ (quietly_sendPADI PLUGIN conn) E1) as (Hs1 & _).
      exists s. split; [congruence|]. discriminate. }
  destruct (quietly_backoff _ _ T probe _ _ _ (quietly_sendPADI PLUGIN conn) E1) as (Hs1 & _).
  unfold bind at 1 in H.
  destruct (waitForPADO PLUGIN fuel (set_discoveryState STATE_SENT_PADI conn) t w1)
    as [[c1|o] w2] eqn:E2;
    destruct (waitForPADO_backoff _ _ _ _ T probe _ _ _ E2) as (Hs2 & _ & Hc);
    rewrite Hs1, Hst in Hs2; cbn [backoff_step] in Hs2;
    fold (next_pado T probe s) in Hs2; rewrite Hnext, Z.eqb_refl in Hs2.
  2:{ apply Stop_inv in H as [-> ->]. eexists. split; [exact Hs2|]. discriminate. }
  specialize (Hc c1 eq_refl).
  change (config (set_discoveryState STATE_SENT_PADI conn)) with (config conn) in Hc.
  destruct (config_fields _ _ Hc) as [_ Hp]. rewrite Hprobe in Hp.
  set (s2 := mkBackoff false (S (if in_padr s then O else waits s))) in *.
  assert (Hdone : backoff_inv T probe PADI_DONE s2).
  { unfold backoff_inv, next_pads. cbn [in_padr s2]. simpl. lia. }
  unfold bind at 1 in H. rewrite Hp in H.
  destruct probe; cbn [negb] in H.
  - (* probing: the timeout is not doubled *)
    unfold ret at 1 in H.
    assert (Hloop : backoff_inv T true (PADI_LOOP a t) s2).
    { unfold backoff_inv, next_pado in *. exact Hnext. }
    destruct (true && negb (numPADOs c1 =? 0));
      [|destruct (state_eqb (discoveryState c1) STATE_SENT_PADI)];
      apply pair_equal_spec in H as [<- <-]; exists s2; (split; [exact Hs2|]);
      intros l' c' Hr; injection Hr as <- <-; auto.
  - unfold double_timeout in H.
    destruct ((INT_MIN <=? t * 2) && (t * 2 <=? INT_MAX)).
    2:{ apply Stop_inv in H as [-> ->]. exists s2. split; [exact Hs2|]. discriminate. }
    unfold ret at 1 in H.
    assert (Hloop : backoff_inv T false (PADI_LOOP a (t * 2)) s2).
    { unfold backoff_inv, next_pado in *. cbn [in_padr waits s2]. rewrite pow2_succ. lia. }
    destruct (false && negb (numPADOs c1 =? 0));
      [|destruct (state_eqb (discoveryState c1) STATE_SENT_PADI)];
      apply pair_equal_spec in H as [<- <-]; exists s2; (split; [exact Hs2|]);
      intros l' c' Hr; injection Hr as <- <-; auto.
Qed.

(** One PADR attempt. *)
Lemma padr_attempt_backoff (PLUGIN : bool) (fuel : nat) (a t : Z) (conn : PPPoEConnection)
    (T : Z) (probe : bool) (w : World) r w' (s : Backoff) :
  backoff_state T probe (trace w) = Some s -> next_pads T s = t ->
  (sendPADR PLUGIN conn ;;;
   conn' <- waitForPADS PLUGIN fuel (set_discoveryState STATE_SENT_PADR conn) t ;;
   timeout <- double_timeout t ;;
   if state_eqb (discoveryState conn') STATE_SENT_PADR
   then ret (PADR_LOOP a timeout, conn')
   else ret (PADR_DONE, conn')) w = (r, w') ->
  exists s', backoff_state T probe (trace w') = Some s'
             /\ forall l' c', r = Ok (l', c') ->
                              backoff_inv T probe l' s' /\ config c' = config conn.
Proof.
  intros Hst Hnext H.
  unfold bind at 1 in H.
  destruct (sendPADR PLUGIN conn w) as [[[]|o] w1] eqn:E1.
  2:{ apply Stop_inv in H as [-> ->].
      destruct (quietly_backoff _ _ T probe _ _ _ (quietly_sendPADR PLUGIN conn) E1) as (Hs1 & _).
      exists s. split; [congruence|]. discriminate. }
  destruct (quietly_backoff _ _ T probe _ _ _ (quietly_sendPADR PLUGIN conn) E1) as (Hs1 & _).
  unfold bind at 1 in H.
  destruct (waitForPADS PLUGIN fuel (set_discoveryState STATE_SENT_PADR conn) t w1)
    as [[c1|o] w2] eqn:E2;
    destruct (waitForPADS_backoff _ _ _ _ T probe _ _ _ E2) as (Hs2 & _ & Hc);
    rewrite Hs1, Hst in Hs2; cbn [backoff_step] in Hs2;
    fold (next_pads T s) in Hs2; rewrite Hnext, Z.eqb_refl in Hs2.
  2:{ apply Stop_inv in H as [-> ->]. eexists. split; [exact Hs2|]. discriminate. }
  specialize (Hc c1 eq_refl).
  change (config (set_discoveryState STATE_SENT_PADR conn)) with (config conn) in Hc.
  set (s2 := mkBackoff true (S (if in_padr s then waits s else O))) in *.
  unfold bind at 1 in H. unfold double_timeout in H.
  destruct ((INT_MIN <=? t * 2) && (t * 2 <=? INT_MAX)).
  2:{ apply Stop_inv in H as [-> ->]. exists s2. split; [exact Hs2|]. discriminate. }
  unfold ret at 1 in H.
  assert (Hloop : backoff_inv T probe (PADR_LOOP a (t * 2)) s2).
  { unfold backoff_inv, next_pads in *. cbn [in_padr waits s2]. rewrite pow2_succ. lia. }
  destruct (state_eqb (discoveryState c1) STATE_SENT_PADR);
    apply pair_equal_spec in H as [<- <-]; exists s2; (split; [exact Hs2|]);
    intros l' c' Hr; injection Hr as <- <-; auto.
  split; [exact I|assumption].
Qed.

Lemma backoff_state_timeout_diag (T : Z) (probe : bool) (msg : string) (tr : list Event) s :
  backoff_state T probe tr = Some s ->
  (String.eqb msg TIMEOUT_PADO || String.eqb msg TIMEOUT_PADS) = true ->
  backoff_state T probe (EvPrintErr msg :: tr) = Some (mkBackoff (in_padr s) O).
Proof.
  intros Hs Hm. rewrite backoff_state_cons, Hs. cbn [backoff_step]. now rewrite Hm.
Qed.

Lemma next_after_diag (T : Z) (probe : bool) (b : bool) :
  next_pado T probe (mkBackoff b O) = T /\ next_pads T (mkBackoff b O) = T.
Proof.
  unfold next_pado, next_pads. cbn [in_padr waits].
  destruct probe, b; simpl; lia.
Qed.

(** Every step of [discovery] keeps the schedule. *)
Lemma discovery_step_backoff (PLUGIN : bool) (MAX : Z) (fuel : nat) (l : Label)
    (conn : PPPoEConnection) (T : Z) (probe : bool) (w : World) r w' (s : Backoff) :
  discoveryTimeout conn = T -> printACNames conn = probe ->
  backoff_state T probe (trace w) = Some s -> backoff_inv T probe l s ->
  discovery_step PLUGIN MAX fuel l conn w = (r, w') ->
  exists s', backoff_state T probe (trace w') = Some s'
             /\ forall l' c', r = Ok (l', c') ->
                              backoff_inv T probe l' s' /\ config c' = config conn.
Proof.
  intros HT Hprobe Hst Hinv H.
  destruct l as [t|a t| |a t| | ]; cbn [discovery_step] in H.
  - (* SEND_PADI *)
    apply pair_equal_spec in H as [<- <-]. exists s. split; [assumption|].
    intros l' c' Hr. injection Hr as <- <-. destruct Hinv as [-> Hn]. now split.
  - (* PADI_LOOP *)
    cbn [backoff_inv] in Hinv. cbv zeta in H. unfold bind at 1 in H.
    destruct (MAX <? a + 1).
    + unfold bind at 1 in H. unfold printErr, emit in H. unfold bind at 1 in H.
      unfold get_persist at 1 in H. cbn [persist set_trace] in H.
      pose proof (backoff_state_timeout_diag T probe TIMEOUT_PADO (trace w) s Hst eq_refl) as Hd.
      destruct (next_after_diag T probe (in_padr s)) as [Hno Hns].
      destruct (persist w); unfold ret at 1 in H; cbv beta iota in H; cbn [negb] in H.
      * rewrite HT in H.
        eapply padi_attempt_backoff in H; eauto.
      * apply pair_equal_spec in H as [<- <-]. eexists. split; [exact Hd|].
        intros l' c' Hr. injection Hr as <- <-. now split.
    + unfold ret at 1 in H. cbv beta iota in H. cbn [negb] in H.
      eapply padi_attempt_backoff in H; eauto.
  - (* PADI_DONE *)
    cbn [backoff_inv] in Hinv.
    destruct (printACNames conn).
    + destruct (negb (numPADOs conn =? 0)); apply Stop_inv in H as [-> ->];
        (exists s; split; [assumption|discriminate]).
    + apply pair_equal_spec in H as [<- <-]. exists s. split; [assumption|].
      intros l' c' Hr. injection Hr as <- <-. split; [|reflexivity].
      cbn [backoff_inv]. congruence.
  - (* PADR_LOOP *)
    cbn [backoff_inv] in Hinv. cbv zeta in H.
    destruct (MAX <? a + 1).
    + unfold bind at 1 in H. unfold printErr, emit in H. unfold bind at 1 in H.
      unfold get_persist at 1 in H. cbn [persist set_trace] in H.
      pose proof (backoff_state_timeout_diag T probe TIMEOUT_PADS (trace w) s Hst eq_refl) as Hd.
      destruct (next_after_diag T probe (in_padr s)) as [Hno Hns].
      destruct (persist w); apply pair_equal_spec in H as [<- <-];
        (eexists; split; [exact Hd|]); intros l' c' Hr; injection Hr as <- <-.
      * split; [|reflexivity]. cbn [backoff_inv]. now split.
      * now split.
    + eapply padr_attempt_backoff in H; eauto.
  - (* PADR_DONE *)
    unfold bind at 1 in H.
    destruct (PLUGIN && negb (seenMaxPayload conn)); cbv beta iota delta [cap_mru ret] in H;
      apply pair_equal_spec in H as [<- <-]; (exists s; split; [assumption|]);
      intros l' c' Hr; injection Hr as <- <-; now split.
  - (* RETURNED *)
    apply pair_equal_spec in H as [<- <-]. exists s. split; [assumption|].
    intros l' c' Hr. injection Hr as <- <-. now split.
Qed.

Lemma discovery_from_S (PLUGIN : bool) (MAX : Z) (fuel : nat) (l : Label)
    (conn : PPPoEConnection) (w : World) :
  l <> RETURNED ->
  discovery_from PLUGIN MAX (S fuel) l conn w
  = (let (r1, w1) := discovery_step PLUGIN MAX fuel l conn w in
     match r1 with
     | Ok (l', c') => discovery_from PLUGIN MAX fuel l' c' w1
     | Stop o => (Stop o, w1)
     end).
Proof.
  intros Hl. destruct l; try congruence; cbn [discovery_from]; unfold bind;
    match goal with
    | |- context [discovery_step ?P ?M ?f ?l ?c ?w] =>
        destruct (discovery_step P M f l c w) as [[[? ?]|?] ?]; reflexivity
    end.
Qed.

Lemma discovery_from_backoff (PLUGIN : bool) (MAX : Z) (T : Z) (probe : bool) (fuel : nat) :
  forall (l : Label) (conn : PPPoEConnection) (w : World) r w' (s : Backoff),
    discoveryTimeout conn = T -> printACNames conn = probe ->
    backoff_state T probe (trace w) = Some s -> backoff_inv T probe l s ->
    discovery_from PLUGIN MAX fuel l conn w = (r, w') ->
    backoff_ok T probe (trace w').
Proof.
  induction fuel as [|fuel IH]; intros l conn w r w' s HT Hprobe Hst Hinv H.
  - destruct l; cbn [discovery_from] in H; apply pair_equal_spec in H as [<- <-];
      unfold backoff_ok; congruence.
  - assert (Hgo : forall r1 w1,
               discovery_step PLUGIN MAX fuel l conn w = (r1, w1) ->
               match r1 with
               | Ok (l', c') => discovery_from PLUGIN MAX fuel l' c' w1 = (r, w')
               | Stop o => (Stop o, w1) = (r, w')
               end -> backoff_ok T probe (trace w')).
    { intros r1 w1 E1 H2.
      destruct (discovery_step_backoff _ _ _ _ _ T probe _ _ _ s HT Hprobe Hst Hinv E1)
        as (s1 & Hs1 & Hnext).
      destruct r1 as [[l' c']|o].
      - destruct (Hnext l' c' eq_refl) as [Hinv' Hc].
        destruct (config_fields _ _ Hc) as [HT' Hp'].
        eapply (IH l' c' w1); eauto; congruence.
      - apply Stop_inv in H2 as [_ ->]. unfold backoff_ok. congruence. }
    assert (Hl : l = RETURNED \/ l <> RETURNED) by (destruct l; auto; right; discriminate).
    destruct Hl as [->|Hl].
    + apply pair_equal_spec in H as [<- <-]. unfold backoff_ok. congruence.
    + rewrite discovery_from_S in H by assumption.
      destruct (discovery_step PLUGIN MAX fuel l conn w) as [r1 w1].
      apply (Hgo r1 w1 eq_refl). destruct r1 as [[l' c']|o]; exact H.
Qed.

(** On every run of [discovery], however it ends, the trace passes the
    monitor of the retry schedule. *)
Lemma discovery_backoff_ok (PLUGIN : bool) (MAX : Z) (fuel : nat) (conn : PPPoEConnection)
    (w : World) :
  backoff_ok (discoveryTimeout conn) (printACNames conn)
    (trace (snd (discovery PLUGIN MAX fuel conn (set_trace [] w)))).
Proof.
  unfold discovery.
  destruct (skipDiscovery conn).
  - destruct (killSession (set_discoveryState STATE_SESSION conn)); cbn; discriminate.
  - destruct (discovery_from PLUGIN MAX fuel (SEND_PADI (discoveryTimeout conn)) conn
                (set_trace [] w)) as [r w'] eqn:E.
    cbn [snd].
    eapply (discovery_from_backoff PLUGIN MAX _ _ fuel _ conn (set_trace [] w) r w'
              (mkBackoff false O)); eauto.
    cbn [backoff_inv]. split; [reflexivity|].
    unfold next_pado. cbn [in_padr waits]. destruct (printACNames conn); simpl; lia.
Qed.

Lemma wait_timeouts_cons (e : Event) (tr : list Event) :
  wait_timeouts (e :: tr)
  = wait_timeouts tr ++ match e with
                        | EvWaitForPADO t => [(false, t)]
                        | EvWaitForPADS t => [(true, t)]
                        | _ => []
                        end.
Proof.
  unfold wait_timeouts. cbn [rev]. rewrite flat_map_app. cbn [flat_map].
  now rewrite app_nil_r.
Qed.

(** What the monitor accepts within one phase is the geometric sequence. *)
Lemma backoff_one_phase (T : Z) (probe padr : bool) (tr : list Event) :
  one_phase padr tr = true ->
  forall s, backoff_state T probe tr = Some s ->
    wait_timeouts tr
      = map (scheduled T probe padr) (seq 0 (List.length (wait_timeouts tr)))
    /\ waits s = List.length (wait_timeouts tr)
    /\ in_padr s = (padr && negb (Nat.eqb (waits s) 0)).
Proof.
  induction tr as [|e tr IH]; intros Hp s Hs.
  - injection Hs as <-. cbn. now rewrite andb_false_r.
  - cbn [one_phase forallb] in Hp. apply andb_true_iff in Hp as [He Hp].
    rewrite backoff_state_cons in Hs.
    destruct (backoff_state T probe tr) as [s0|] eqn:E0; [|discriminate].
    destruct (IH Hp s0 eq_refl) as (Hseq & Hw & Hin).
    rewrite wait_timeouts_cons.
    assert (Hsame : neutral e = true -> s = s0).
    { intros Hn. rewrite backoff_step_neutral in Hs by assumption. congruence. }
    set (n := List.length (wait_timeouts tr)) in *.
    destruct e; try solve [rewrite !app_nil_r, (Hsame He); repeat split; assumption].
    + (* a PADO wait *)
      apply negb_true_iff in He. subst padr. rewrite andb_false_l in Hin.
      cbn [backoff_step] in Hs. rewrite Hin in Hs.
      destruct (timeout =? (if probe then T else T * 2 ^ Z.of_nat (waits s0))) eqn:Et;
        [|discriminate].
      apply Z.eqb_eq in Et. injection Hs as <-. cbn [waits in_padr].
      rewrite length_app. cbn [List.length]. fold n.
      replace (n + 1)%nat with (S n) by lia. rewrite seq_S, map_app. cbn [map Nat.add].
      repeat split; try lia.
      rewrite <- Hseq. f_equal. unfold scheduled. rewrite andb_true_r.
      rewrite Et, Hw. now destruct probe.
    + (* a PADS wait *)
      subst padr. rewrite andb_true_l in Hin.
      cbn [backoff_step] in Hs.
      assert (Hk : (if in_padr s0 then waits s0 else O) = n).
      { rewrite Hin, Hw. destruct (Nat.eqb n 0) eqn:En; cbn [negb]; [|reflexivity].
        apply Nat.eqb_eq in En. lia. }
      rewrite Hk in Hs.
      destruct (timeout =? T * 2 ^ Z.of_nat n) eqn:Et; [|discriminate].
      apply Z.eqb_eq in Et. injection Hs as <-. cbn [waits in_padr].
      rewrite length_app. cbn [List.length]. fold n.
      replace (n + 1)%nat with (S n) by lia. rewrite seq_S, map_app. cbn [map Nat.add].
      repeat split; try lia.
      rewrite <- Hseq. f_equal. unfold scheduled. rewrite andb_false_r. now rewrite Et.
Qed.

(** The schedule on the silent network of C1: 5, 10, 20 seconds for the
    PADO waits, then again 5, 10, 20 for the PADS waits. *)
Lemma backoff_on_silent_network :
  wait_timeouts (trace (snd (discovery false 3 20 conn0 silent_network)))
  = [(false, 5); (false, 10); (false, 20); (true, 5); (true, 10); (true, 20)].
Proof. vm_compute. reflexivity. Qed.

(* ------------------------------------------------------------------ *)
(** ** Exhaustion of the PADR phase in persistent mode *)

(** C5 as stated, refuted: in persistent mode with the PADR attempts
    exhausted, the engine goes back to [SEND_PADI] with the connection as
    it is, in state [STATE_SENT_PADR]; the state is not reverted to
    [STATE_INITIAL]. *)
Lemma pads_exhaustion_state_not_initial :
  ~ (exists c w',
        discovery_step false 3 20 (PADR_LOOP 3 40) conn_sent_padr persistent_world
          = (Ok (SEND_PADI 5, c), w')
        /\ discoveryState c = STATE_INITIAL).
Proof.
  intros (c & w' & H & Hs). vm_compute in H. injection H as <- _. discriminate.
Qed.

(** The monitor of the retry schedule does reject: a second PADO wait with
    the timeout not doubled, a doubled one in probe mode, and a first PADS
    wait that does not start at T again. *)
Lemma backoff_monitor_rejects :
  backoff_state 5 false [EvWaitForPADO 5; EvWaitForPADO 5] = None
  /\ backoff_state 5 true [EvWaitForPADO 10; EvWaitForPADO 5] = None
  /\ backoff_state 5 false [EvWaitForPADS 10; EvWaitForPADO 5] = None.
Proof.
  repeat split.
Qed.

(** C5, amended: in persistent mode, when the PADR attempt counter exceeds
    [MAX_PADI_ATTEMPTS] the engine does not fail.  It prints the PADS
    timeout diagnostic and jumps to [SEND_PADI] with [timeout] reset to
    [discoveryTimeout]; there [padiAttempts] starts again from 0, and the
    run continues exactly as a fresh call of [discovery] on the connection.
    The connection is untouched by the jump: its discovery state stays
    [STATE_SENT_PADR] (until the next PADI is sent). *)
Theorem pads_exhaustion_restarts_padi (PLUGIN : bool) (MAX : Z) (fuel : nat) (a t : Z)
    (conn : PPPoEConnection) (w : World) :
  persist w = true -> MAX < a + 1 -> skipDiscovery conn = false ->
  let w1 := set_trace (EvPrintErr TIMEOUT_PADS :: trace w) w in
  discovery_step PLUGIN MAX fuel (PADR_LOOP a t) conn w
    = (Ok (SEND_PADI (discoveryTimeout conn), conn), w1)
  /\ discovery_step PLUGIN MAX fuel (SEND_PADI (discoveryTimeout conn)) conn w1
     = (Ok (PADI_LOOP 0 (discoveryTimeout conn), conn), w1)
  /\ discovery_from PLUGIN MAX (S fuel) (PADR_LOOP a t) conn w
     = discovery PLUGIN MAX fuel conn w1.
Proof.
  intros Hp Hmax Hskip w1.
  assert (Hstep : discovery_step PLUGIN MAX fuel (PADR_LOOP a t) conn w
                  = (Ok (SEND_PADI (discoveryTimeout conn), conn), w1)).
  { cbn [discovery_step]. cbv zeta. apply Z.ltb_lt in Hmax. rewrite Hmax.
    unfold bind, printErr, emit, get_persist. cbn [persist set_trace]. now rewrite Hp. }
  split; [exact Hstep|]. split; [reflexivity|].
  rewrite discovery_from_S by discriminate. rewrite Hstep.
  unfold discovery. now rewrite Hskip.
Qed.

Lemma pads_exhaustion_restarts_padi_witness :
  let w1 := set_trace (EvPrintErr TIMEOUT_PADS :: trace persistent_world) persistent_world in
  discovery_step false 3 20 (PADR_LOOP 3 40) conn_sent_padr persistent_world
    = (Ok (SEND_PADI (discoveryTimeout conn_sent_padr), conn_sent_padr), w1)
  /\ discovery_step false 3 20 (SEND_PADI (discoveryTimeout conn_sent_padr)) conn_sent_padr w1
     = (Ok (PADI_LOOP 0 (discoveryTimeout conn_sent_padr), conn_sent_padr), w1)
  /\ discovery_from false 3 21 (PADR_LOOP 3 40) conn_sent_padr persistent_world
     = discovery false 3 20 conn_sent_padr w1.
Proof.
  apply (pads_exhaustion_restarts_padi false 3 20 3 40 conn_sent_padr persistent_world).
  - reflexivity.
  - lia.
  - reflexivity.
Defined.

(* ---- packetIsForMe is a function of the connection and the packet ---- *)

Lemma visit_parseForHostUniq (hu : list byte) (tags : list TagView) :
  forall f w,
    visit_tags parseForHostUniq tags (mkHostUniqInfo (Some hu) f) w
    = (Ok (mkHostUniqInfo (Some hu) (if hostuniq_found hu tags then 1 else f)), w).
Proof.
  induction tags as [|[[t l] d] tags IH]; intros f w; [reflexivity|].
  change (hostuniq_found hu ((t, l, d) :: tags))
    with ((t =? TAG_HOST_UNIQ) && (l =? strlen hu) && memcmp_eq d hu l
          || hostuniq_found hu tags).
  cbn [visit_tags].
  unfold bind, parseForHostUniq at 1. cbn [hi_hostUniq].
  destruct ((t =? TAG_HOST_UNIQ) && (l =? strlen hu) && memcmp_eq d hu l);
    unfold ret at 1; rewrite IH; cbn [orb]; [|reflexivity].
  now destruct (hostuniq_found hu tags).
Qed.

Lemma packetIsForMe_eq (conn : PPPoEConnection) (packet : PPPoEPacket) (w : World) :
  packetIsForMe conn packet w = (Ok (for_me conn packet), w).
Proof.
  unfold packetIsForMe, for_me.
  destruct (negb (memcmp_eq (h_dest (ethHdr packet)) (myEth conn) ETH_ALEN)); [reflexivity|].
  destruct (hostUniq conn) as [hu|]; [|reflexivity].
  unfold bind, parsePacket. rewrite visit_parseForHostUniq. reflexivity.
Qed.

(* ------------------------------------------------------------------ *)
(** ** Acceptance of a PADS *)

(** Unfolds the monad and its primitives. *)
Ltac run_M :=
  unfold bind, ret, stop, exit, fatalSys, emit, emit_list, printf, printErr, warn, syslog,
    pktLogErrs, get_persist, lower_mru;
  cbv beta iota.

Ltac split_ifs :=
  repeat match goal with
         | |- context [if ?c then _ else _] => destruct c eqn:?; cbv beta iota
         end.

(** Turns the tests on the tag type that are known to hold into values. *)
Ltac know_type :=
  repeat match goal with
         | H : (?t =? _) = true |- _ => apply Z.eqb_eq in H; subst t
         end.

Lemma is_error_tag_PADS (t l : Z) (d : list byte) :
  (t =? TAG_GENERIC_ERROR) || (t =? TAG_AC_SYSTEM_ERROR) || (t =? TAG_SERVICE_NAME_ERROR)
  = is_error_tag (t, l, d).
Proof.
  unfold is_error_tag. cbn [fst snd].
  destruct (t =? TAG_GENERIC_ERROR), (t =? TAG_AC_SYSTEM_ERROR), (t =? TAG_SERVICE_NAME_ERROR);
    reflexivity.
Qed.

(** [parsePADSTags] always returns; what it stores. *)
Lemma parsePADSTags_step (PLUGIN : bool) (t l : Z) (d : list byte) (conn : PPPoEConnection)
    (w : World) :
  exists conn' w',
    parsePADSTags PLUGIN t l d conn w = (Ok conn', w')
    /\ relayId conn' = capture_tag TAG_RELAY_SESSION_ID (relayId conn) (t, l, d)
    /\ PADSHadError conn' = PADSHadError conn || is_error_tag (t, l, d)
    /\ (is_error_tag (t, l, d) = true -> In (EvPktLogErrs "PADS" t l d) (trace w')).
Proof.
  unfold parsePADSTags. rewrite (is_error_tag_PADS t l d).
  unfold capture_tag. cbn [fst snd].
  destruct (t =? TAG_SERVICE_NAME) eqn:E1.
  { know_type. run_M. eexists _, _. split; [reflexivity|]. cbn.
    rewrite orb_false_r. repeat split. discriminate. }
  destruct (is_error_tag (t, l, d)) eqn:E2.
  { run_M. eexists _, _. split; [reflexivity|]. cbn [relayId PADSHadError set_PADSHadError].
    assert (Hr : (t =? TAG_RELAY_SESSION_ID) = false).
    { unfold is_error_tag in E2. cbn [fst snd] in E2.
      destruct (t =? TAG_RELAY_SESSION_ID) eqn:E3; [|reflexivity].
      know_type. discriminate. }
    rewrite Hr, orb_true_r. repeat split. intros _. cbn. now left. }
  rewrite orb_false_r.
  destruct (t =? TAG_RELAY_SESSION_ID) eqn:E3.
  { run_M. eexists _, _. split; [reflexivity|]. repeat split. discriminate. }
  destruct (PLUGIN && (t =? TAG_PPP_MAX_PAYLOAD)).
  - unfold max_payload_tag. run_M. split_ifs;
      (eexists _, _; split; [reflexivity|]; repeat split; discriminate).
  - run_M. eexists _, _. split; [reflexivity|]. repeat split. discriminate.
Qed.

(** The walk of [parsePADSTags] over a stream always returns; the relay
    id it leaves is the last Relay-Session-Id of the stream, and
    [PADSHadError] is raised exactly when an error tag was met. *)
Lemma visit_PADS_result (PLUGIN : bool) (tags : list TagView) :
  forall conn w,
  exists conn' w',
    visit_tags (parsePADSTags PLUGIN) tags conn w = (Ok conn', w')
    /\ relayId conn' = capture TAG_RELAY_SESSION_ID tags (relayId conn)
    /\ PADSHadError conn' = PADSHadError conn || existsb is_error_tag tags
    /\ (forall v, In v tags -> is_error_tag v = true ->
          In (EvPktLogErrs "PADS" (fst (fst v)) (snd (fst v)) (snd v)) (trace w')).
Proof.
  induction tags as [|[[t l] d] tags IH]; intros conn w.
  - exists conn, w. cbn. rewrite orb_false_r. repeat split. intros v [].
  - destruct (parsePADSTags_step PLUGIN t l d conn w) as (c1 & w1 & H1 & Hr1 & He1 & Hl1).
    destruct (IH c1 w1) as (c2 & w2 & H2 & Hr2 & He2 & Hl2).
    exists c2, w2. cbn [visit_tags]. unfold bind. rewrite H1.
    split; [exact H2|]. split; [|split].
    + rewrite Hr2, Hr1. reflexivity.
    + rewrite He2, He1. cbn [existsb]. now rewrite orb_assoc.
    + intros v [<-|Hin] Hv; [|now apply Hl2].
      cbn [fst snd].
      destruct (quietly_visit_PADS PLUGIN tags c1 w1 _ _ H2) as ((es & Ht & _) & _).
      rewrite Ht. apply in_or_app. right. now apply Hl1.
Qed.

Lemma take_bytes_app_exact (n : Z) (a b : list byte) :
  Z.to_nat n = List.length a -> take_bytes n (a ++ b) = a.
Proof.
  intros H. unfold take_bytes. rewrite H, <- app_assoc, firstn_app, Nat.sub_diag.
  cbn [firstn]. rewrite firstn_all. apply app_nil_r.
Qed.

Lemma stored_view_capture_tag (ty : Z) (st : PPPoETag) (v : TagView) :
  wf_view v -> fst (fst v) = ty -> stored_view (capture_tag ty st v) = v.
Proof.
  destruct v as [[t l] d]. unfold wf_view, capture_tag, stored_view. cbn [fst snd].
  intros (Ht & Hl & Hd) <-. rewrite Z.eqb_refl. cbn [tag_type tag_length tag_payload].
  rewrite !ntohs_htons_small by lia.
  unfold memcpy. unfold strlen in Hd.
  rewrite (take_bytes_all l d) by lia.
  rewrite take_bytes_app_exact by lia. reflexivity.
Qed.

(** The stored tag is the last tag of its type in the stream; with no such
    tag the stored tag is kept. *)
Lemma capture_last (ty : Z) (tags : list TagView) (st : PPPoETag) :
  Forall wf_view tags ->
  match last_of_type ty tags with
  | Some v => stored_view (capture ty tags st) = v
  | None => capture ty tags st = st
  end.
Proof.
  revert st. induction tags as [|x tags IH] using rev_ind; intros st Hwf; [reflexivity|].
  apply Forall_app in Hwf as [Hwf Hx]. inversion Hx as [|? ? Hvx _]; subst.
  unfold last_of_type, capture. rewrite rev_app_distr, fold_left_app.
  cbn [rev app find fold_left].
  destruct (fst (fst x) =? ty) eqn:E.
  - apply Z.eqb_eq in E. now apply stored_view_capture_tag.
  - assert (Hc : capture_tag ty (fold_left (capture_tag ty) tags st) x
                 = fold_left (capture_tag ty) tags st)
      by (unfold capture_tag at 1; now rewrite E).
    rewrite Hc. apply (IH st Hwf).
Qed.

(** [waitForPADS_frame], by its guards. *)
Lemma waitForPADS_frame_eq (PLUGIN : bool) (conn : PPPoEConnection) (packet : PPPoEPacket)
    (len : Z) (w : World) :
  waitForPADS_frame PLUGIN conn packet len w
  = if pads_guards conn packet len then
      bind (parsePacket packet (parsePADSTags PLUGIN) (set_PADSHadError false conn))
        (fun c => if negb (PADSHadError c)
                  then ret (LBreak, set_discoveryState STATE_SESSION c)
                  else ret (LContinue, c)) w
    else if len <? ntohs (pkt_length packet) + HDR_SIZE then
      (Ok (LContinue, conn),
       set_trace (EvSyslog "Bogus PPPoE length field (%u)" [ntohs (pkt_length packet)]
                    :: trace w) w)
    else (Ok (LContinue, conn), w).
Proof.
  unfold waitForPADS_frame, pads_guards.
  destruct (len <? ntohs (pkt_length packet) + HDR_SIZE); [reflexivity|].
  cbn [negb andb].
  destruct (memcmp_eq (h_source (ethHdr packet)) (peerEth conn) ETH_ALEN); [|reflexivity].
  cbn [negb andb]. unfold bind at 1. rewrite packetIsForMe_eq.
  destruct (for_me conn packet =? 0); [reflexivity|]. cbn [negb andb].
  destruct (Byte.eqb (code packet) CODE_PADS); reflexivity.
Qed.

(** What it takes for a PADS to be accepted, and what acceptance leaves
    in the connection. *)
Lemma waitForPADS_frame_accepted (PLUGIN : bool) (conn : PPPoEConnection)
    (packet : PPPoEPacket) (len : Z) (w : World) (c1 : PPPoEConnection) (w1 : World) :
  waitForPADS_frame PLUGIN conn packet len w = (Ok (LBreak, c1), w1) ->
  pads_guards conn packet len = true
  /\ existsb is_error_tag (tlv_stream packet) = false
  /\ discoveryState c1 = STATE_SESSION
  /\ relayId c1 = capture TAG_RELAY_SESSION_ID (tlv_stream packet) (relayId conn)
  /\ config c1 = config conn.
Proof.
  rewrite waitForPADS_frame_eq.
  destruct (pads_guards conn packet len).
  2:{ destruct (len <? ntohs (pkt_length packet) + HDR_SIZE); intros H;
        apply Ok_inv in H as [H _]; discriminate. }
  unfold bind, parsePacket. intros H.
  destruct (visit_PADS_result PLUGIN (tlv_stream packet) (set_PADSHadError false conn) w)
    as (c & w' & Hv & Hr & He & _).
  pose proof (quietly_visit_PADS PLUGIN _ _ _ _ _ Hv) as (_ & _ & Hp).
  destruct (Hp c eq_refl) as (Hcfg & _).
  rewrite Hv in H. rewrite He in H. cbn [PADSHadError set_PADSHadError orb] in H.
  destruct (existsb is_error_tag (tlv_stream packet)); cbn [negb] in H;
    apply Ok_inv in H as [H ->]; [discriminate|].
  injection H as ->. repeat split; assumption.
Qed.

(** Conversely to [waitForPADS_frame_accepted]: a PADS that passes the
    guards and holds no error tag is accepted. *)
Lemma waitForPADS_frame_accepts (PLUGIN : bool) (conn : PPPoEConnection)
    (packet : PPPoEPacket) (len : Z) (w : World) :
  pads_guards conn packet len = true ->
  existsb is_error_tag (tlv_stream packet) = false ->
  exists c1 w1, waitForPADS_frame PLUGIN conn packet len w = (Ok (LBreak, c1), w1).
Proof.
  intros Hg He. rewrite waitForPADS_frame_eq, Hg.
  unfold bind, parsePacket.
  destruct (visit_PADS_result PLUGIN (tlv_stream packet) (set_PADSHadError false conn) w)
    as (c & w' & Hv & _ & Herr & _).
  rewrite Hv, Herr, He. cbn [PADSHadError set_PADSHadError orb negb].
  eexists _, _. reflexivity.
Qed.



(** Scenario S5 of the spec, run from start to end: the engine logs the
    violation and returns in state [STATE_SESSION] with session id 0xFFFF. *)
Lemma scenario_S5 :
  option_map (fun c => (discoveryState c, ntohs (session c)))
    (match fst (discovery false 3 20 conn0 ffff_network) with
     | Ok c => Some c
     | Stop _ => None
     end) = Some (STATE_SESSION, 0xFFFF)
  /\ In (EvSyslog RFC_VIOLATION [0xFFFF]) (trace (snd (discovery false 3 20 conn0 ffff_network))).
Proof.
  split; [vm_compute; reflexivity|]. vm_compute. tauto.
Qed.

(** C10: when the PADS that is accepted holds a Relay-Session-Id tag, the
    relay id stored in the connection (type, length and payload, whatever
    the PADO phase had left there) is overwritten with the last such tag of
    the PADS, and that is the relay id the connection holds when
    [discovery] returns.  It may differ from the relay id the PADR echoed:
    on [relay_network] the PADR carries aa and the connection ends with
    bb. *)
Theorem pads_relay_id_overwrites (PLUGIN : bool) (conn : PPPoEConnection)
    (packet : PPPoEPacket) (len : Z) (w : World) (c1 : PPPoEConnection) (w1 : World)
    (v : TagView) :
  waitForPADS_frame PLUGIN conn packet len w = (Ok (LBreak, c1), w1) ->
  last_of_type TAG_RELAY_SESSION_ID (tlv_stream packet) = Some v ->
  stored_view (relayId c1) = v
  /\ (exists c2 w2,
        waitForPADS_finish c1 packet w1 = (Ok c2, w2)
        /\ stored_view (relayId c2) = v
        /\ forall MAX fuel, exists c3 w3,
             discovery_step PLUGIN MAX fuel PADR_DONE c2 w2 = (Ok (RETURNED, c3), w3)
             /\ stored_view (relayId c3) = v)
  /\ (exists padr final,
        sent_with_code CODE_PADR (trace (snd (discovery false 3 20 conn0 relay_network)))
          = [padr]
        /\ fst (discovery false 3 20 conn0 relay_network) = Ok final
        /\ last_of_type TAG_RELAY_SESSION_ID (tlv_stream padr)
           = Some (TAG_RELAY_SESSION_ID, 1, [Byte.xaa])
        /\ stored_view (relayId final) = (TAG_RELAY_SESSION_ID, 1, [Byte.xbb])).
Proof.
  intros Hacc Hlast.
  apply waitForPADS_frame_accepted in Hacc as (_ & _ & _ & Hrelay & _).
  assert (Hv : stored_view (relayId c1) = v).
  { rewrite Hrelay.
    pose proof (capture_last TAG_RELAY_SESSION_ID (tlv_stream packet) (relayId conn)) as Hc.
    rewrite Hlast in Hc. apply Hc. apply Forall_forall. intros x. apply tlv_stream_wf. }
  split; [exact Hv|]. split.
  - unfold waitForPADS_finish. cbv zeta.
    destruct ((ntohs (session (set_session (pkt_session packet) c1)) =? 0)
              || (ntohs (session (set_session (pkt_session packet) c1)) =? 65535));
      run_M; eexists _, _; (split; [reflexivity|]); (split; [exact Hv|]);
      intros MAX fuel; cbn [discovery_step];
      destruct (PLUGIN && negb (seenMaxPayload (set_session (pkt_session packet) c1)));
      run_M; eexists _, _; (split; [reflexivity|]); exact Hv.
  - eexists _, _.
    split; [vm_compute; reflexivity|]. split; [vm_compute; reflexivity|].
    split; vm_compute; reflexivity.
Qed.

Lemma pads_relay_id_overwrites_witness :
  stored_view (relayId conn_relay_accepted) = (TAG_RELAY_SESSION_ID, 1, [Byte.xbb])
  /\ (exists c2 w2,
        waitForPADS_finish conn_relay_accepted (fst pads_relay) world_service_name_logged
        = (Ok c2, w2)
        /\ stored_view (relayId c2) = (TAG_RELAY_SESSION_ID, 1, [Byte.xbb])
        /\ forall MAX fuel, exists c3 w3,
             discovery_step false MAX fuel PADR_DONE c2 w2 = (Ok (RETURNED, c3), w3)
             /\ stored_view (relayId c3) = (TAG_RELAY_SESSION_ID, 1, [Byte.xbb]))
  /\ (exists padr final,
        sent_with_code CODE_PADR (trace (snd (discovery false 3 20 conn0 relay_network)))
          = [padr]
        /\ fst (discovery false 3 20 conn0 relay_network) = Ok final
        /\ last_of_type TAG_RELAY_SESSION_ID (tlv_stream padr)
           = Some (TAG_RELAY_SESSION_ID, 1, [Byte.xaa])
        /\ stored_view (relayId final) = (TAG_RELAY_SESSION_ID, 1, [Byte.xbb])).
Proof.
  apply (pads_relay_id_overwrites false conn_waiting (fst pads_relay) (snd pads_relay)
           (world [] [] [] false) conn_relay_accepted world_service_name_logged).
  - vm_compute. reflexivity.
  - vm_compute. reflexivity.
Defined.

(* ------------------------------------------------------------------ *)
(** ** The tags of a PADO *)

Ltac run_M2 :=
  unfold printf, printErr, warn, syslog, pktLogErrs, sendPacket, sendPADT, exit, fatalSys;
  unfold bind, ret, stop, emit, emit_list, get_persist, lower_mru;
  cbv beta iota.

Ltac split_cases :=
  repeat match goal with
         | |- context [if ?c then _ else _] => destruct c eqn:?; cbv beta iota
         | |- context [match ?x with Some _ => _ | None => _ end] =>
             destruct x eqn:?; cbv beta iota
         end.

Ltac stored :=
  unfold capture_tag; cbn [fst snd];
  repeat match goal with
         | H : (?a =? ?b) = false |- context [?a =? ?b] => rewrite H
         end;
  reflexivity.

(** [parsePADOTags] on a tag that is no error tag: it returns, leaves
    [gotError] alone, and stores a cookie or a relay id. *)
Lemma parsePADOTags_plain (PLUGIN : bool) (t l : Z) (d : list byte) (pc : PacketCriteria)
    (conn : PPPoEConnection) (w : World) :
  is_error_tag (t, l, d) = false ->
  exists pc' conn' w',
    parsePADOTags PLUGIN t l d (pc, conn) w = (Ok (pc', conn'), w')
    /\ gotError pc' = gotError pc
    /\ cookie conn' = capture_tag TAG_AC_COOKIE (cookie conn) (t, l, d)
    /\ relayId conn' = capture_tag TAG_RELAY_SESSION_ID (relayId conn) (t, l, d).
Proof.
  unfold is_error_tag. cbn [fst snd]. intros He.
  apply orb_false_iff in He as [He E3]. apply orb_false_iff in He as [E1 E2].
  unfold parsePADOTags. cbv beta iota.
  destruct (t =? TAG_AC_NAME) eqn:T1.
  { know_type. unfold print_first_20. run_M2. split_cases;
      (eexists _, _, _; split; [reflexivity|]; repeat split). }
  destruct (t =? TAG_SERVICE_NAME) eqn:T2.
  { know_type. run_M2. split_cases;
      (eexists _, _, _; split; [reflexivity|]; repeat split). }
  destruct (t =? TAG_AC_COOKIE) eqn:T3.
  { know_type. unfold print_first_20. run_M2. split_cases;
      (eexists _, _, _; split; [reflexivity|]; repeat split). }
  destruct (t =? TAG_RELAY_SESSION_ID) eqn:T4.
  { know_type. unfold print_first_20. run_M2. split_cases;
      (eexists _, _, _; split; [reflexivity|]; repeat split). }
  rewrite E1, E2, E3.
  destruct (PLUGIN && (t =? TAG_PPP_MAX_PAYLOAD)).
  - unfold max_payload_tag. run_M2. split_cases;
      (eexists _, _, _; split; [reflexivity|]; split; [reflexivity|]; split; stored).
  - run_M2. eexists _, _, _. split; [reflexivity|]. split; [reflexivity|]. split; stored.
Qed.

(** [parsePADOTags] on an error tag is the error branch with the format of
    that tag. *)
Lemma parsePADOTags_error (PLUGIN : bool) (t l : Z) (d : list byte) (pc : PacketCriteria)
    (conn : PPPoEConnection) (w : World) :
  is_error_tag (t, l, d) = true ->
  parsePADOTags PLUGIN t l d (pc, conn) w
  = pado_error_tag (error_format t) t l d pc conn w
  /\ capture_tag TAG_AC_COOKIE (cookie conn) (t, l, d) = cookie conn
  /\ capture_tag TAG_RELAY_SESSION_ID (relayId conn) (t, l, d) = relayId conn.
Proof.
  unfold is_error_tag, error_format, capture_tag. cbn [fst snd]. intros He.
  unfold parsePADOTags. cbv beta iota.
  destruct (t =? TAG_SERVICE_NAME_ERROR) eqn:E1; [know_type; repeat split|].
  destruct (t =? TAG_AC_SYSTEM_ERROR) eqn:E2; [know_type; repeat split|].
  destruct (t =? TAG_GENERIC_ERROR) eqn:E3; [know_type; repeat split|].
  discriminate.
Qed.

(** What the walk of [parsePADOTags] stores when it returns: the last
    cookie and the last relay id of the stream, whether or not the PADO is
    then accepted. *)
Lemma visit_PADO_stores (PLUGIN : bool) (tags : list TagView) :
  forall pc conn w pc' conn' w',
    visit_tags (parsePADOTags PLUGIN) tags (pc, conn) w = (Ok (pc', conn'), w') ->
    cookie conn' = capture TAG_AC_COOKIE tags (cookie conn)
    /\ relayId conn' = capture TAG_RELAY_SESSION_ID tags (relayId conn).
Proof.
  induction tags as [|[[t l] d] tags IH]; intros pc conn w pc' conn' w' H.
  - apply Ok_inv in H as [H _]. injection H as -> ->. now split.
  - cbn [visit_tags] in H. apply bind_Ok in H as ([pc1 c1] & w1 & H1 & H2).
    apply IH in H2 as [Hc Hr]. rewrite Hc, Hr. unfold capture. cbn [fold_left].
    destruct (is_error_tag (t, l, d)) eqn:E.
    + destruct (parsePADOTags_error PLUGIN t l d pc conn w E) as (He & Hc1 & Hr1).
      rewrite He in H1. rewrite Hc1, Hr1.
      unfold pado_error_tag in H1. revert H1. run_M2. split_cases; intros H1;
        try discriminate; apply Ok_inv in H1 as [H1 _]; injection H1 as _ ->; now split.
    + destruct (parsePADOTags_plain PLUGIN t l d pc conn w E)
        as (pc2 & c2 & w2 & H & _ & Hc1 & Hr1).
      rewrite H in H1. apply Ok_inv in H1 as [H1 _]. injection H1 as _ ->.
      now rewrite Hc1, Hr1.
Qed.

(** Probe mode: the walk returns, and every error tag is printed. *)
Lemma visit_PADO_probe (PLUGIN : bool) (tags : list TagView) :
  forall pc conn w,
    printACNames conn = true ->
    exists pc' conn' w',
      visit_tags (parsePADOTags PLUGIN) tags (pc, conn) w = (Ok (pc', conn'), w')
      /\ gotError pc' = gotError pc
      /\ forall v, In v tags -> is_error_tag v = true ->
           In (EvPrintf (error_format (fst (fst v))) (snd v)) (trace w').
Proof.
  induction tags as [|[[t l] d] tags IH]; intros pc conn w Hprobe.
  - exists pc, conn, w. repeat split. intros v [].
  - assert (Hstep : exists pc1 c1 w1,
               parsePADOTags PLUGIN t l d (pc, conn) w = (Ok (pc1, c1), w1)
               /\ gotError pc1 = gotError pc
               /\ (is_error_tag (t, l, d) = true ->
                   In (EvPrintf (error_format t) d) (trace w1))).
    { destruct (is_error_tag (t, l, d)) eqn:E.
      - destruct (parsePADOTags_error PLUGIN t l d pc conn w E) as (He & _).
        rewrite He. unfold pado_error_tag. rewrite Hprobe. run_M2.
        eexists _, _, _. split; [reflexivity|]. split; [reflexivity|].
        intros _. cbn. now left.
      - destruct (parsePADOTags_plain PLUGIN t l d pc conn w E)
          as (pc2 & c2 & w2 & H & Hg & _).
        exists pc2, c2, w2. repeat split; try assumption. discriminate. }
    destruct Hstep as (pc1 & c1 & w1 & H1 & Hg1 & Hl1).
    pose proof (quietly_parsePADOTags PLUGIN t l d pc conn w _ _ H1) as (_ & _ & Hp).
    destruct (Hp (pc1, c1) eq_refl) as (Hcfg & _). cbn [snd] in Hcfg.
    destruct (config_fields _ _ Hcfg) as [_ Hpr]. rewrite Hprobe in Hpr.
    destruct (IH pc1 c1 w1 Hpr) as (pc2 & c2 & w2 & H2 & Hg2 & Hl2).
    exists pc2, c2, w2. cbn [visit_tags]. unfold bind. rewrite H1.
    split; [exact H2|]. split; [congruence|].
    intros v [<-|Hin] Hv; [|now apply Hl2]. cbn [fst snd].
    destruct (quietly_visit_PADO PLUGIN tags pc1 c1 w1 _ _ H2) as ((es & Ht & _) & _).
    rewrite Ht. apply in_or_app. right. now apply Hl1.
Qed.

(** Normal mode without persist: the first error tag ends the process with
    [exit(EXIT_FAILURE)]. *)
Lemma visit_PADO_fatal (PLUGIN : bool) (tags : list TagView) :
  forall pc conn w,
    printACNames conn = false -> persist w = false ->
    existsb is_error_tag tags = true ->
    exists w', visit_tags (parsePADOTags PLUGIN) tags (pc, conn) w
               = (Stop (Exited EXIT_FAILURE), w').
Proof.
  induction tags as [|[[t l] d] tags IH]; intros pc conn w Hprobe Hper Hex;
    [discriminate|].
  cbn [existsb] in Hex. cbn [visit_tags]. unfold bind.
  destruct (is_error_tag (t, l, d)) eqn:E.
  - destruct (parsePADOTags_error PLUGIN t l d pc conn w E) as (He & _).
    rewrite He. unfold pado_error_tag. rewrite Hprobe. run_M2. cbn [persist set_trace].
    rewrite Hper. cbn [negb]. eexists. reflexivity.
  - cbn [orb] in Hex.
    destruct (parsePADOTags_plain PLUGIN t l d pc conn w E) as (pc1 & c1 & w1 & H1 & _).
    rewrite H1.
    pose proof (quietly_parsePADOTags PLUGIN t l d pc conn w _ _ H1) as (_ & Hper1 & Hp).
    destruct (Hp (pc1, c1) eq_refl) as (Hcfg & _). cbn [snd] in Hcfg.
    destruct (config_fields _ _ Hcfg) as [_ Hpr].
    apply IH; congruence.
Qed.

(** Normal mode with persist: the walk returns, with [gotError] raised when
    an error tag was met. *)
Lemma visit_PADO_persist (PLUGIN : bool) (tags : list TagView) :
  forall pc conn w,
    printACNames conn = false -> persist w = true ->
    exists pc' conn' w',
      visit_tags (parsePADOTags PLUGIN) tags (pc, conn) w = (Ok (pc', conn'), w')
      /\ gotError pc' = gotError pc || existsb is_error_tag tags.
Proof.
  induction tags as [|[[t l] d] tags IH]; intros pc conn w Hprobe Hper.
  - exists pc, conn, w. split; [reflexivity|]. cbn. now rewrite orb_false_r.
  - assert (Hstep : exists pc1 c1 w1,
               parsePADOTags PLUGIN t l d (pc, conn) w = (Ok (pc1, c1), w1)
               /\ gotError pc1 = gotError pc || is_error_tag (t, l, d)).
    { destruct (is_error_tag (t, l, d)) eqn:E.
      - destruct (parsePADOTags_error PLUGIN t l d pc conn w E) as (He & _).
        rewrite He. unfold pado_error_tag. rewrite Hprobe. run_M2. cbn [persist set_trace].
        rewrite Hper. cbn [negb]. eexists _, _, _. split; [reflexivity|].
        cbn. now rewrite orb_true_r.
      - destruct (parsePADOTags_plain PLUGIN t l d pc conn w E)
          as (pc2 & c2 & w2 & H & Hg & _).
        exists pc2, c2, w2. split; [assumption|]. now rewrite orb_false_r. }
    destruct Hstep as (pc1 & c1 & w1 & H1 & Hg1).
    pose proof (quietly_parsePADOTags PLUGIN t l d pc conn w _ _ H1) as (_ & Hper1 & Hp).
    destruct (Hp (pc1, c1) eq_refl) as (Hcfg & _). cbn [snd] in Hcfg.
    destruct (config_fields _ _ Hcfg) as [_ Hpr].
    destruct (IH pc1 c1 w1) as (pc2 & c2 & w2 & H2 & Hg2); try congruence.
    exists pc2, c2, w2. cbn [visit_tags]. unfold bind. rewrite H1.
    split; [exact H2|]. rewrite Hg2, Hg1. cbn [existsb]. now rewrite orb_assoc.
Qed.

(* ------------------------------------------------------------------ *)
(** ** Acceptance of a PADO, echoed tags and error tags *)

(** A PADO that passes the checks goes on to the tag walk. *)
Lemma waitForPADO_frame_guarded (PLUGIN : bool) (conn : PPPoEConnection)
    (packet : PPPoEPacket) (len : Z) (w : World) :
  pado_guards PLUGIN conn packet len = true ->
  waitForPADO_frame PLUGIN conn packet len w = pado_after_guards PLUGIN conn packet w.
Proof.
  unfold pado_guards, waitForPADO_frame. intros H.
  apply andb_true_iff in H as [H H5]. apply andb_true_iff in H as [H H4].
  apply andb_true_iff in H as [H H3]. apply andb_true_iff in H as [H1 H2].
  apply negb_true_iff in H1, H2, H4, H5.
  rewrite H1. unfold bind at 1. rewrite packetIsForMe_eq, H2, H3, H4, H5. reflexivity.
Qed.

(** A frame that fails one of the checks is dropped. *)
Lemma waitForPADO_frame_unguarded (PLUGIN : bool) (conn : PPPoEConnection)
    (packet : PPPoEPacket) (len : Z) (w : World) :
  pado_guards PLUGIN conn packet len = false ->
  exists w', waitForPADO_frame PLUGIN conn packet len w = (Ok (LContinue, conn), w').
Proof.
  unfold pado_guards, waitForPADO_frame. intros H.
  destruct (len <? ntohs (pkt_length packet) + HDR_SIZE); [eexists; reflexivity|].
  unfold bind at 1. rewrite packetIsForMe_eq.
  destruct (for_me conn packet =? 0); [eexists; reflexivity|].
  destruct (Byte.eqb (code packet) CODE_PADO); [|eexists; reflexivity].
  destruct (BROADCAST (h_source (ethHdr packet))); [eexists; reflexivity|].
  destruct (PLUGIN && req_peer conn
            && negb (memcmp_eq (h_source (ethHdr packet)) (req_peer_mac conn) ETH_ALEN));
    [eexists; reflexivity|discriminate].
Qed.

(** What it takes for a PADO to be accepted, and what acceptance leaves in
    the connection. *)
Lemma waitForPADO_frame_accepted (PLUGIN : bool) (conn : PPPoEConnection)
    (packet : PPPoEPacket) (len : Z) (w : World) (c1 : PPPoEConnection) (w1 : World) :
  waitForPADO_frame PLUGIN conn packet len w = (Ok (LBreak, c1), w1) ->
  pado_guards PLUGIN conn packet len = true
  /\ printACNames conn = false
  /\ discoveryState c1 = STATE_RECEIVED_PADO
  /\ peerEth c1 = memcpy (peerEth conn) (h_source (ethHdr packet)) ETH_ALEN
  /\ cookie c1 = capture TAG_AC_COOKIE (tlv_stream packet) (cookie conn)
  /\ relayId c1 = capture TAG_RELAY_SESSION_ID (tlv_stream packet) (relayId conn)
  /\ config c1 = config conn.
Proof.
  intros H.
  destruct (pado_guards PLUGIN conn packet len) eqn:G.
  2:{ destruct (waitForPADO_frame_unguarded PLUGIN conn packet len w G) as (w' & H').
      rewrite H' in H. apply Ok_inv in H as [H _]. discriminate. }
  rewrite waitForPADO_frame_guarded in H by assumption.
  unfold pado_after_guards in H.
  apply bind_Ok in H as ([] & w0 & H0 & H).
  apply bind_Ok in H as ([pc c] & w2 & Hv & H).
  unfold parsePacket in Hv.
  destruct (visit_PADO_stores PLUGIN _ _ _ _ _ _ _ Hv) as [Hc Hr].
  pose proof (quietly_visit_PADO PLUGIN _ _ _ _ _ _ Hv) as (_ & _ & Hp).
  destruct (Hp (pc, c) eq_refl) as (Hcfg & _ & Hpeer & _). cbn [snd] in Hcfg, Hpeer.
  destruct (config_fields _ _ Hcfg) as [_ Hprobe].
  revert H. cbv zeta. cbn [printACNames set_peerEth set_numPADOs]. run_M2. split_cases;
    intros H; apply Ok_inv in H as [H _]; try discriminate.
  injection H as ->. cbn. rewrite <- Hprobe, Hpeer. repeat split; assumption.
Qed.

(** C2 as stated, refuted: with the AC-Name filter "gold", the PADO of
    "silver" is parsed but not accepted, and its cookie stays stored; the
    PADO of "gold", which is accepted (its source becomes the peer), has no
    cookie; yet the PADR sent to "gold" carries the cookie of "silver". *)
Lemma padr_echoes_cookie_of_rejected_pado :
  exists padr final,
    sent_with_code CODE_PADR (trace (snd (discovery false 3 20 (with_acName gold conn0) two_offers)))
      = [padr]
    /\ fst (discovery false 3 20 (with_acName gold conn0) two_offers) = Ok final
    /\ peerEth final = h_source (ethHdr (fst pado_gold))
    /\ h_dest (ethHdr padr) = h_source (ethHdr (fst pado_gold))
    /\ last_of_type TAG_AC_COOKIE (tlv_stream (fst pado_gold)) = None
    /\ last_of_type TAG_AC_COOKIE (tlv_stream padr) = Some (TAG_AC_COOKIE, 4, dead_beef).
Proof.
  eexists _, _.
  split; [vm_compute; reflexivity|]. split; [vm_compute; reflexivity|].
  repeat split; vm_compute; reflexivity.
Qed.

(** C2, amended: a PADR carries the cookie and the relay id that the
    connection has stored, each verbatim (type, length and value bytes), if
    and only if the type field of the stored tag is not zero: its tags are
    exactly [padr_tags].  When a PADO is accepted the stored cookie (relay
    id) is the last AC-Cookie (Relay-Session-Id) tag of that PADO if it has
    one; if it has none, what was stored before is kept, so a tag taken
    from an earlier PADO that was parsed and not accepted is still echoed. *)
Theorem padr_echoes_stored_tags (PLUGIN : bool) (conn : PPPoEConnection)
    (packet : PPPoEPacket) (len : Z) (w : World) (c1 : PPPoEConnection) (w1 : World) :
  waitForPADO_frame PLUGIN conn packet len w = (Ok (LBreak, c1), w1) ->
  peerEth c1 = memcpy (peerEth conn) (h_source (ethHdr packet)) ETH_ALEN
  /\ match last_of_type TAG_AC_COOKIE (tlv_stream packet) with
     | Some v => stored_view (cookie c1) = v
     | None => cookie c1 = cookie conn
     end
  /\ match last_of_type TAG_RELAY_SESSION_ID (tlv_stream packet) with
     | Some v => stored_view (relayId c1) = v
     | None => relayId c1 = relayId conn
     end
  /\ forall w2 w3,
       sendPADR PLUGIN c1 w2 = (Ok tt, w3) ->
       exists padr size,
         trace w3 = EvSendPacket padr size :: trace w2
         /\ code padr = CODE_PADR
         /\ h_dest (ethHdr padr) = take_bytes ETH_ALEN (peerEth c1)
         /\ tlv_stream padr
            = service_tag_PADR c1 ++ host_uniq_tag c1
                ++ (if be16_is_zero (tag_type (cookie c1)) then []
                    else [stored_view (cookie c1)])
                ++ (if be16_is_zero (tag_type (relayId c1)) then []
                    else [stored_view (relayId c1)])
                ++ max_payload_tags PLUGIN w2.
Proof.
  intros Hacc.
  apply waitForPADO_frame_accepted in Hacc as (_ & _ & _ & Hpeer & Hc & Hr & _).
  assert (Hwf : Forall wf_view (tlv_stream packet))
    by (apply Forall_forall; intros x; apply tlv_stream_wf).
  split; [exact Hpeer|]. split; [|split].
  - rewrite Hc. now apply capture_last.
  - rewrite Hr. now apply capture_last.
  - intros w2 w3 Hsend.
    apply sendPADR_sent in Hsend as (-> & Hwf' & Hsz).
    eexists _, _. split; [reflexivity|]. split; [reflexivity|]. split; [reflexivity|].
    rewrite tlv_stream_frame_of; [reflexivity|assumption|].
    unfold MAX_PPPOE_PAYLOAD in Hsz. lia.
Qed.

Lemma padr_echoes_stored_tags_witness :
  peerEth conn_silver_accepted
    = memcpy (peerEth conn_sent_padi) (h_source (ethHdr (fst pado_silver))) ETH_ALEN
  /\ match last_of_type TAG_AC_COOKIE (tlv_stream (fst pado_silver)) with
     | Some v => stored_view (cookie conn_silver_accepted) = v
     | None => cookie conn_silver_accepted = cookie conn_sent_padi
     end
  /\ match last_of_type TAG_RELAY_SESSION_ID (tlv_stream (fst pado_silver)) with
     | Some v => stored_view (relayId conn_silver_accepted) = v
     | None => relayId conn_silver_accepted = relayId conn_sent_padi
     end
  /\ forall w2 w3,
       sendPADR false conn_silver_accepted w2 = (Ok tt, w3) ->
       exists padr size,
         trace w3 = EvSendPacket padr size :: trace w2
         /\ code padr = CODE_PADR
         /\ h_dest (ethHdr padr) = take_bytes ETH_ALEN (peerEth conn_silver_accepted)
         /\ tlv_stream padr
            = service_tag_PADR conn_silver_accepted ++ host_uniq_tag conn_silver_accepted
                ++ (if be16_is_zero (tag_type (cookie conn_silver_accepted)) then []
                    else [stored_view (cookie conn_silver_accepted)])
                ++ (if be16_is_zero (tag_type (relayId conn_silver_accepted)) then []
                    else [stored_view (relayId conn_silver_accepted)])
                ++ max_payload_tags false w2.
Proof.
  apply (padr_echoes_stored_tags false conn_sent_padi (fst pado_silver) (snd pado_silver)
           (world [] [] [] false) conn_silver_accepted (world [] [] [] false)).
  vm_compute. reflexivity.
Defined.

(** C4 as stated, refuted: a PADS carrying AC-System-Error, received in
    normal mode without persist, does not end the process; the frame
    handler logs the error and returns to the loop. *)
Lemma pads_error_does_not_exit :
  persist (world [] [] [] false) = false
  /\ printACNames conn_waiting = false
  /\ existsb is_error_tag (tlv_stream (fst pads_busy)) = true
  /\ waitForPADS_frame false conn_waiting (fst pads_busy) (snd pads_busy) (world [] [] [] false)
     = (Ok (LContinue, set_PADSHadError true conn_waiting),
        set_trace [EvPktLogErrs "PADS" TAG_AC_SYSTEM_ERROR 4 busy;
                   EvSyslog "PADS: Service-Name: '%.*s'" [0]] (world [] [] [] false))
  /\ ~ (exists w',
          waitForPADS_frame false conn_waiting (fst pads_busy) (snd pads_busy)
            (world [] [] [] false) = (Stop (Exited EXIT_FAILURE), w')).
Proof.
  split; [reflexivity|]. split; [reflexivity|]. split; [vm_compute; reflexivity|].
  split; [vm_compute; reflexivity|].
  intros (w' & H). vm_compute in H. discriminate.
Qed.

(** C4, amended: for a PADO that passes the checks of [waitForPADO] and
    carries a Service-Name-Error, AC-System-Error or Generic-Error tag: in
    probe mode the error is printed and the frame handler returns; in
    normal mode the process exits with failure unless [persist] is set, in
    which case the frame is dropped ("Error in PADO packet") and the loop
    continues with the discovery state unchanged.  A PADS that passes the
    checks of [waitForPADS] and carries such a tag never ends the process,
    with or without [persist]: the error is logged, the PADS is not
    accepted and the loop continues with the discovery state unchanged. *)
Theorem error_tag_handling (PLUGIN : bool) (conn : PPPoEConnection) (packet : PPPoEPacket)
    (len : Z) (w : World) (v : TagView) :
  In v (tlv_stream packet) -> is_error_tag v = true ->
  (pado_guards PLUGIN conn packet len = true ->
     (printACNames conn = true ->
        exists r w',
          waitForPADO_frame PLUGIN conn packet len w = (Ok r, w')
          /\ In (EvPrintf (error_format (fst (fst v))) (snd v)) (trace w'))
     /\ (printACNames conn = false -> persist w = false ->
           exists w',
             waitForPADO_frame PLUGIN conn packet len w = (Stop (Exited EXIT_FAILURE), w'))
     /\ (printACNames conn = false -> persist w = true ->
           exists c' w',
             waitForPADO_frame PLUGIN conn packet len w = (Ok (LContinue, c'), w')
             /\ discoveryState c' = discoveryState conn
             /\ In (EvPrintErr "Error in PADO packet") (trace w')))
  /\ (pads_guards conn packet len = true ->
        exists c' w',
          waitForPADS_frame PLUGIN conn packet len w = (Ok (LContinue, c'), w')
          /\ discoveryState c' = discoveryState conn
          /\ In (EvPktLogErrs "PADS" (fst (fst v)) (snd (fst v)) (snd v)) (trace w')).
Proof.
  intros Hin Herr.
  assert (Hex : existsb is_error_tag (tlv_stream packet) = true)
    by (apply existsb_exists; now exists v).
  split.
  - intros G. split; [|split].
    + (* probe mode *)
      intros Hprobe. rewrite waitForPADO_frame_guarded by assumption.
      unfold pado_after_guards. rewrite Hprobe. cbn [andb].
      set (w0 := snd ((if 0 <? numPADOs conn then printf "\n" [] else ret tt) w)).
      assert (H0 : (if 0 <? numPADOs conn then printf "\n" [] else ret tt) w = (Ok tt, w0))
        by (unfold w0; destruct (0 <? numPADOs conn); reflexivity).
      unfold bind at 1. rewrite H0. unfold bind at 1. unfold parsePacket.
      destruct (visit_PADO_probe PLUGIN (tlv_stream packet) (initial_criteria conn) conn w0
                  Hprobe) as (pc & c & w2 & Hv & Hg & Hl).
      rewrite Hv. specialize (Hl v Hin Herr).
      pose proof (quietly_visit_PADO PLUGIN _ _ _ _ _ _ Hv) as (_ & _ & Hp).
      destruct (Hp (pc, c) eq_refl) as (Hcfg & _). cbn [snd] in Hcfg.
      destruct (config_fields _ _ Hcfg) as [_ Hpr]. rewrite Hprobe in Hpr.
      cbv zeta. cbn [printACNames set_peerEth set_numPADOs]. rewrite Hpr.
      run_M2. split_cases; eexists _, _; (split; [reflexivity|]);
        cbn [trace set_trace]; auto using in_cons.
    + (* normal mode, no persist *)
      intros Hprobe Hper. rewrite waitForPADO_frame_guarded by assumption.
      unfold pado_after_guards. rewrite Hprobe. cbn [andb]. unfold bind at 1.
      unfold ret at 1. unfold bind at 1. unfold parsePacket.
      destruct (visit_PADO_fatal PLUGIN (tlv_stream packet) (initial_criteria conn) conn w
                  Hprobe Hper Hex) as (w' & Hv).
      rewrite Hv. eexists. reflexivity.
    + (* normal mode, persist *)
      intros Hprobe Hper. rewrite waitForPADO_frame_guarded by assumption.
      unfold pado_after_guards. rewrite Hprobe. cbn [andb]. unfold bind at 1.
      unfold ret at 1. unfold bind at 1. unfold parsePacket.
      destruct (visit_PADO_persist PLUGIN (tlv_stream packet) (initial_criteria conn) conn w
                  Hprobe Hper) as (pc & c & w2 & Hv & Hg).
      rewrite Hv. rewrite Hex in Hg. rewrite orb_true_r in Hg. rewrite Hg.
      pose proof (quietly_visit_PADO PLUGIN _ _ _ _ _ _ Hv) as (_ & _ & Hp).
      destruct (Hp (pc, c) eq_refl) as (_ & Hst & _). cbn [snd] in Hst.
      run_M2. eexists _, _. split; [reflexivity|]. split; [exact Hst|].
      cbn [trace set_trace]. now left.
  - intros G. rewrite waitForPADS_frame_eq, G. unfold bind, parsePacket.
    destruct (visit_PADS_result PLUGIN (tlv_stream packet) (set_PADSHadError false conn) w)
      as (c & w' & Hv & _ & He & Hl).
    rewrite Hv. rewrite He, Hex, orb_true_r. cbn [negb].
    pose proof (quietly_visit_PADS PLUGIN _ _ _ _ _ Hv) as (_ & _ & Hp).
    destruct (Hp c eq_refl) as (_ & Hst & _).
    eexists _, _. split; [reflexivity|]. split; [exact Hst|]. now apply Hl.
Qed.

Lemma error_tag_handling_witness :
  (pado_guards false conn_sent_padi (fst pado_busy) (snd pado_busy) = true ->
     (printACNames conn_sent_padi = true ->
        exists r w',
          waitForPADO_frame false conn_sent_padi (fst pado_busy) (snd pado_busy)
            (world [] [] [] false) = (Ok r, w')
          /\ In (EvPrintf (error_format (fst (fst (TAG_AC_SYSTEM_ERROR, 4, busy))))
                   (snd (TAG_AC_SYSTEM_ERROR, 4, busy))) (trace w'))
     /\ (printACNames conn_sent_padi = false -> persist (world [] [] [] false) = false ->
           exists w',
             waitForPADO_frame false conn_sent_padi (fst pado_busy) (snd pado_busy)
               (world [] [] [] false) = (Stop (Exited EXIT_FAILURE), w'))
     /\ (printACNames conn_sent_padi = false -> persist (world [] [] [] false) = true ->
           exists c' w',
             waitForPADO_frame false conn_sent_padi (fst pado_busy) (snd pado_busy)
               (world [] [] [] false) = (Ok (LContinue, c'), w')
             /\ discoveryState c' = discoveryState conn_sent_padi
             /\ In (EvPrintErr "Error in PADO packet") (trace w')))
  /\ (pads_guards conn_sent_padi (fst pado_busy) (snd pado_busy) = true ->
        exists c' w',
          waitForPADS_frame false conn_sent_padi (fst pado_busy) (snd pado_busy)
            (world [] [] [] false) = (Ok (LContinue, c'), w')
          /\ discoveryState c' = discoveryState conn_sent_padi
          /\ In (EvPktLogErrs "PADS" (fst (fst (TAG_AC_SYSTEM_ERROR, 4, busy)))
                   (snd (fst (TAG_AC_SYSTEM_ERROR, 4, busy)))
                   (snd (TAG_AC_SYSTEM_ERROR, 4, busy))) (trace w')).
Proof.
  apply (error_tag_handling false conn_sent_padi (fst pado_busy) (snd pado_busy)
           (world [] [] [] false) (TAG_AC_SYSTEM_ERROR, 4, busy)).
  - vm_compute. tauto.
  - reflexivity.
Defined.

(** Scenario S6 of the spec, run from start to end: the PADO carries
    AC-System-Error "busy", persist is off, and the process exits with
    failure after the diagnostic. *)
Lemma scenario_S6 :
  fst (discovery false 3 20 conn0
         (world [clock_at 100 0; clock_at 101 0] [ready] [pado_busy] false))
    = Stop (Exited EXIT_FAILURE)
  /\ In (EvPktLogErrs "PADO" TAG_AC_SYSTEM_ERROR 4 busy)
        (trace (snd (discovery false 3 20 conn0
                       (world [clock_at 100 0; clock_at 101 0] [ready] [pado_busy] false)))).
Proof.
  split; [vm_compute; reflexivity|]. vm_compute. tauto.
Qed.

(* ------------------------------------------------------------------ *)
(** ** The scenarios of the spec, run on the model *)

(** S1: discovery succeeds; the PADR goes to the concentrator with an empty
    Service-Name and the cookie verbatim, and the connection ends in state
    [STATE_SESSION] with session 0x0042. *)
Lemma scenario_S1 :
  (exists c, fst (discovery false 3 20 conn0 S1_network) = Ok c
     /\ discoveryState c = STATE_SESSION
     /\ ntohs (session c) = 0x42
     /\ peerEth c = mac 2)
  /\ sent_with_code CODE_PADR (trace (snd (discovery false 3 20 conn0 S1_network)))
     = [frame_of (mac 2) (mac 1) CODE_PADR
          [(TAG_SERVICE_NAME, 0, []); (TAG_AC_COOKIE, 4, dead_beef)]].
Proof.
  split; [|vm_compute; reflexivity].
  eexists. split; [vm_compute; reflexivity|]. repeat split; vm_compute; reflexivity.
Qed.

(** S2: the first two PADOs are dropped, the third is accepted. *)
Lemma scenario_S2 :
  exists c w,
    waitForPADO false 5 (with_hostUniq abc conn_sent_padi) 5 S2_network = (Ok c, w)
    /\ discoveryState c = STATE_RECEIVED_PADO
    /\ numPADOs c = 1
    /\ inbox w = [].
Proof.
  eexists _, _. split; [vm_compute; reflexivity|]. repeat split.
Qed.

(** S3: the PADO of "silver" is not accepted; after the deadline the PADI
    is sent again and the wait is twice as long. *)
Lemma scenario_S3 :
  (exists c, fst (discovery false 3 20 (with_acName gold conn0) S3_network) = Ok c
     /\ discoveryState c = STATE_SESSION
     /\ peerEth c = mac 3)
  /\ rev (sent_codes (trace (snd (discovery false 3 20 (with_acName gold conn0) S3_network))))
     = [CODE_PADI; CODE_PADI; CODE_PADR]
  /\ wait_timeouts (trace (snd (discovery false 3 20 (with_acName gold conn0) S3_network)))
     = [(false, 5); (false, 10); (true, 5)].
Proof.
  split; [|split; vm_compute; reflexivity].
  eexists. split; [vm_compute; reflexivity|]. repeat split; vm_compute; reflexivity.
Qed.

(** S4: both concentrators are printed, one wait of 2 seconds is made, and
    the process exits with success. *)
Lemma scenario_S4 :
  fst (discovery false 3 20 conn_probe S4_network) = Stop (Exited EXIT_SUCCESS)
  /\ wait_timeouts (trace (snd (discovery false 3 20 conn_probe S4_network))) = [(false, 2)]
  /\ In (EvPrintf AC_ETHERNET_ADDRESS (mac 2))
        (trace (snd (discovery false 3 20 conn_probe S4_network)))
  /\ In (EvPrintf AC_ETHERNET_ADDRESS (mac 3))
        (trace (snd (discovery false 3 20 conn_probe S4_network))).
Proof.
  split; [vm_compute; reflexivity|]. split; [vm_compute; reflexivity|].
  split; vm_compute; tauto.
Qed.

(* ================================================================== *)
(** * Further properties *)

(* ------------------------------------------------------------------ *)
(** ** What a computation may do to the world: a calculus *)

Lemma evolves_refl (P : bool) (ev : Event -> bool) (w : World) : evolves P ev w w.
Proof.
  unfold evolves. split; [exists []; now split|]. split; [exists []; reflexivity|].
  repeat split; lia.
Qed.

Lemma evolves_trans (P : bool) (ev : Event -> bool) (a b c : World) :
  evolves P ev a b -> evolves P ev b c -> evolves P ev a c.
Proof.
  intros ((es1 & Ht1 & He1) & (tk1 & Hi1) & Hp1 & Ha1 & Hw1 & Hn1)
         ((es2 & Ht2 & He2) & (tk2 & Hi2) & Hp2 & Ha2 & Hw2 & Hn2).
  split; [|split; [|split; [|split; [|split]]]].
  - exists (es2 ++ es1). rewrite Ht2, Ht1, app_assoc. split; [reflexivity|].
    rewrite forallb_app. now rewrite He2, He1.
  - exists (tk1 ++ tk2). rewrite Hi1, Hi2, app_assoc. reflexivity.
  - congruence.
  - lia.
  - lia.
  - intros HP. destruct (Hn1 HP), (Hn2 HP). split; congruence.
Qed.

Section Within.
Variable PLUGIN : bool.
Variable ev : Event -> bool.
Variable st : Outcome -> bool.

Lemma within_ret {A} (post : A -> Prop) (a : A) : post a -> within PLUGIN ev st post (ret a).
Proof.
  intros Hp w r w' H. apply pair_equal_spec in H as [<- <-].
  split; [apply evolves_refl|exact Hp].
Qed.

Lemma within_stop {A} (post : A -> Prop) (o : Outcome) :
  st o = true -> within PLUGIN ev st post (stop o).
Proof.
  intros Hs w r w' H. apply pair_equal_spec in H as [<- <-].
  split; [apply evolves_refl|exact Hs].
Qed.

Lemma within_weaken {A} (post post' : A -> Prop) (m : M A) :
  within PLUGIN ev st post m -> (forall a, post a -> post' a) -> within PLUGIN ev st post' m.
Proof.
  intros Hm Himp w r w' H. destruct (Hm w r w' H) as (He & Hr).
  split; [assumption|]. destruct r; auto.
Qed.

Lemma within_bind {A B} (postA : A -> Prop) (post : B -> Prop) (m : M A) (k : A -> M B) :
  within PLUGIN ev st postA m -> (forall a, postA a -> within PLUGIN ev st post (k a)) ->
  within PLUGIN ev st post (bind m k).
Proof.
  intros Hm Hk w r w' H. unfold bind in H.
  destruct (m w) as [[a|o] w1] eqn:Em; destruct (Hm w _ _ Em) as (He1 & Hr1).
  - destruct (Hk a Hr1 w1 r w' H) as (He2 & Hr2).
    split; [eapply evolves_trans; eassumption|assumption].
  - apply pair_equal_spec in H as [<- <-]. now split.
Qed.

Lemma evolves_emit (e : Event) (w : World) :
  ev e = true -> evolves PLUGIN ev w (set_trace (e :: trace w) w).
Proof.
  intros He. split; [exists [e]; split; [reflexivity|cbn; now rewrite He]|].
  split; [exists []; reflexivity|]. cbn. repeat split; lia.
Qed.

Lemma within_emit (post : unit -> Prop) (e : Event) :
  ev e = true -> post tt -> within PLUGIN ev st post (emit e).
Proof.
  intros He Hp w r w' H. apply pair_equal_spec in H as [<- <-].
  split; [now apply evolves_emit|exact Hp].
Qed.

Lemma within_emit_list (post : unit -> Prop) (es : list Event) :
  forallb ev es = true -> post tt -> within PLUGIN ev st post (emit_list es).
Proof.
  intros He Hp w r w' H. apply pair_equal_spec in H as [<- <-].
  split; [|exact Hp].
  split.
  - exists (rev es). split; [reflexivity|].
    apply forallb_forall. intros e Hin. apply in_rev in Hin.
    rewrite forallb_forall in He. now apply He.
  - split; [exists []; reflexivity|]. cbn. repeat split; lia.
Qed.

Lemma within_get_persist : within PLUGIN ev st (fun _ => True) get_persist.
Proof.
  intros w r w' H. apply pair_equal_spec in H as [<- <-].
  split; [apply evolves_refl|exact I].
Qed.

Lemma within_get_min_mru : within PLUGIN ev st (fun _ => True) get_min_mru.
Proof.
  intros w r w' H. apply pair_equal_spec in H as [<- <-].
  split; [apply evolves_refl|exact I].
Qed.

Hypothesis st_other : forall o, outcome_is_overflow o = false -> st o = true.

Lemma within_gettimeofday : within PLUGIN ev st (fun _ => True) gettimeofday.
Proof.
  intros w r w' H. unfold gettimeofday in H.
  destruct (clock w); apply pair_equal_spec in H as [<- <-].
  - split; [apply evolves_refl|now apply st_other].
  - split; [|exact I]. split; [exists []; now split|].
    split; [exists []; reflexivity|]. cbn. repeat split; lia.
Qed.

Hypothesis ev_other : forall e, is_send e = false -> ev e = true.

Lemma within_select (tv : timeval) : within PLUGIN ev st (fun _ => True) (select tv).
Proof.
  intros w r w' H. unfold select in H.
  destruct (selects w); apply pair_equal_spec in H as [<- <-].
  - split; [apply evolves_emit; now apply ev_other|now apply st_other].
  - split; [|exact I].
    split; [exists [EvSelect tv]; split; [reflexivity|cbn; now rewrite ev_other]|].
    split; [exists []; reflexivity|]. cbn. repeat split; lia.
Qed.

Lemma within_receivePacket : within PLUGIN ev st (fun _ => True) receivePacket.
Proof.
  intros w r w' H. unfold receivePacket in H.
  destruct (inbox w) as [|p rest] eqn:E; apply pair_equal_spec in H as [<- <-].
  - split; [apply evolves_refl|now apply st_other].
  - split; [|exact I]. split; [exists []; now split|].
    split; [exists [p]; cbn; now rewrite E|]. cbn. repeat split; lia.
Qed.

Lemma within_lower_mru (mru : Z) :
  PLUGIN = true -> ETH_PPPOE_MTU <= mru ->
  within PLUGIN ev st (fun _ => True) (lower_mru mru).
Proof.
  intros HP Hm w r w' H. apply pair_equal_spec in H as [<- <-].
  split; [|exact I]. split; [exists []; now split|].
  split; [exists []; reflexivity|]. cbn.
  destruct (mru <? lcp_allow_mru w) eqn:E1, (mru <? lcp_want_mru w) eqn:E2;
    try apply Z.ltb_lt in E1; try apply Z.ltb_lt in E2;
    try apply Z.ltb_ge in E1; try apply Z.ltb_ge in E2;
    repeat split; try lia; try congruence.
Qed.

Lemma within_cap_mru :
  PLUGIN = true -> within PLUGIN ev st (fun _ => True) cap_mru.
Proof.
  intros HP w r w' H. apply pair_equal_spec in H as [<- <-].
  split; [|exact I]. split; [exists []; now split|].
  split; [exists []; reflexivity|]. cbn.
  destruct (ETH_PPPOE_MTU <? lcp_allow_mru w) eqn:E1, (ETH_PPPOE_MTU <? lcp_want_mru w) eqn:E2;
    try apply Z.ltb_lt in E1; try apply Z.ltb_lt in E2;
    try apply Z.ltb_ge in E1; try apply Z.ltb_ge in E2;
    repeat split; try lia; try congruence.
Qed.


(** Steps through a computation built from the primitives. *)
Ltac within_step :=
  match goal with
  | |- within _ _ _ _ (ret _) => apply within_ret
  | |- within _ _ _ _ (stop _) => apply within_stop; [apply st_other; reflexivity]
  | |- within _ _ _ _ (exit _) => apply within_stop; [apply st_other; reflexivity]
  | |- within _ _ _ _ (fatalSys _) => apply within_stop; [apply st_other; reflexivity]
  | |- within _ _ _ _ (emit _) => apply within_emit; [apply ev_other; reflexivity|]
  | |- within _ _ _ _ (printf _ _) => apply within_emit; [apply ev_other; reflexivity|]
  | |- within _ _ _ _ (printErr _) => apply within_emit; [apply ev_other; reflexivity|]
  | |- within _ _ _ _ (warn _) => apply within_emit; [apply ev_other; reflexivity|]
  | |- within _ _ _ _ (syslog _ _) => apply within_emit; [apply ev_other; reflexivity|]
  | |- within _ _ _ _ (pktLogErrs _ _ _ _) => apply within_emit; [apply ev_other; reflexivity|]
  | |- within _ _ _ _ get_persist => apply (within_weaken _ _ _ within_get_persist); intros
  | |- within _ _ _ _ gettimeofday => apply (within_weaken _ _ _ within_gettimeofday); intros
  | |- within _ _ _ _ (select _) => apply (within_weaken _ _ _ (within_select _)); intros
  | |- within _ _ _ _ receivePacket => apply (within_weaken _ _ _ within_receivePacket); intros
  | |- within _ _ _ _ get_min_mru => apply (within_weaken _ _ _ within_get_min_mru); intros
  | |- within _ _ _ _ (bind _ _) => eapply (within_bind (fun _ => True)); [|intros ? _]
  | |- within _ _ _ _ (if ?c then _ else _) => destruct c eqn:?
  | |- within _ _ _ _ (match ?x with _ => _ end) => destruct x
  | |- within _ _ _ _ (let '(_, _) := ?x in _) => destruct x
  end.

Lemma within_print_first_20 (len : Z) (data : list byte) :
  within PLUGIN ev st (fun _ => True) (print_first_20 len data).
Proof.
  unfold print_first_20.
  eapply (within_bind (fun _ => True)); [apply within_emit_list|intros ? _].
  - apply forallb_forall. intros e He. apply in_map_iff in He as (b & <- & _).
    now apply ev_other.
  - exact I.
  - repeat within_step; exact I.
Qed.

Lemma within_max_payload_tag (len : Z) (data : list byte) (conn : PPPoEConnection) :
  PLUGIN = true ->
  within PLUGIN ev st (parsed_from conn) (max_payload_tag len data conn).
Proof.
  intros HP. unfold max_payload_tag.
  repeat first
    [ eapply (within_bind (fun _ => True));
      [apply within_lower_mru;
       [assumption|match goal with H : (_ <=? _) = true |- _ => now apply Z.leb_le in H end]
      |intros ? _]
    | within_step ]; repeat split.
Qed.

Lemma within_parsePADOTags (type len : Z) (data : list byte)
    (pc : PacketCriteria) (conn : PPPoEConnection) :
  within PLUGIN ev st (fun x => parsed_from conn (snd x))
    (parsePADOTags PLUGIN type len data (pc, conn)).
Proof.
  unfold parsePADOTags, pado_error_tag. cbv beta iota.
  repeat first
    [ apply (within_weaken _ _ _ (within_print_first_20 _ _)); intros
    | eapply within_bind;
      [apply within_max_payload_tag;
       match goal with H : _ && _ = true |- _ => now apply andb_true_iff in H end
      |intros ? ?]
    | within_step ];
    try exact I; cbn [snd]; try assumption; repeat split.
Qed.

Lemma within_parsePADSTags (type len : Z) (data : list byte) (conn : PPPoEConnection) :
  within PLUGIN ev st (parsed_from conn) (parsePADSTags PLUGIN type len data conn).
Proof.
  unfold parsePADSTags.
  repeat first
    [ apply within_max_payload_tag;
      match goal with H : _ && _ = true |- _ => now apply andb_true_iff in H end
    | within_step ];
    try exact I; repeat split.
Qed.

Lemma within_visit_PADO (tags : list TagView) :
  forall pc conn,
    within PLUGIN ev st (fun x => parsed_from conn (snd x))
      (visit_tags (parsePADOTags PLUGIN) tags (pc, conn)).
Proof.
  induction tags as [|[[t l] d] tags IH]; intros pc conn; cbn [visit_tags].
  - apply within_ret. apply parsed_from_refl.
  - eapply within_bind; [apply within_parsePADOTags|].
    intros [pc1 conn1] H1. cbn [snd] in H1.
    eapply within_weaken; [apply IH|].
    intros [pc2 conn2] H2. cbn [snd] in *. eapply parsed_from_trans; eassumption.
Qed.

Lemma within_visit_PADS (tags : list TagView) :
  forall conn,
    within PLUGIN ev st (parsed_from conn) (visit_tags (parsePADSTags PLUGIN) tags conn).
Proof.
  induction tags as [|[[t l] d] tags IH]; intros conn; cbn [visit_tags].
  - apply within_ret. apply parsed_from_refl.
  - eapply within_bind; [apply within_parsePADSTags|].
    intros conn1 H1. eapply within_weaken; [apply IH|].
    intros conn2 H2. eapply parsed_from_trans; eassumption.
Qed.

Lemma within_packetIsForMe (conn : PPPoEConnection) (packet : PPPoEPacket) :
  within PLUGIN ev st (fun _ => True) (packetIsForMe conn packet).
Proof.
  intros w r w' H. rewrite packetIsForMe_eq in H. apply pair_equal_spec in H as [<- <-].
  split; [apply evolves_refl|exact I].
Qed.

Lemma within_waitForPADO_frame (conn : PPPoEConnection) (packet : PPPoEPacket) (len : Z) :
  within PLUGIN ev st (fun x => config (snd x) = config conn)
    (waitForPADO_frame PLUGIN conn packet len).
Proof.
  unfold waitForPADO_frame, parsePacket.
  repeat first
    [ apply (within_weaken _ _ _ (within_packetIsForMe _ _)); intros
    | eapply within_bind; [apply within_visit_PADO|intros [? ?] (? & _)]
    | within_step ];
    try exact I; cbn [snd] in *; try assumption; try reflexivity.
Qed.

Lemma within_waitForPADS_frame (conn : PPPoEConnection) (packet : PPPoEPacket) (len : Z) :
  within PLUGIN ev st (fun x => config (snd x) = config conn)
    (waitForPADS_frame PLUGIN conn packet len).
Proof.
  unfold waitForPADS_frame, parsePacket.
  repeat first
    [ apply (within_weaken _ _ _ (within_packetIsForMe _ _)); intros
    | eapply within_bind; [apply within_visit_PADS|intros ? (? & _)]
    | within_step ];
    try exact I; cbn [snd] in *; try assumption; try reflexivity.
Qed.

Lemma within_select_retry (fuel : nat) :
  forall tv, within PLUGIN ev st (fun _ => True) (select_retry fuel tv).
Proof.
  induction fuel as [|fuel IH]; intros tv; cbn [select_retry].
  - apply within_stop. now apply st_other.
  - eapply (within_bind (fun _ => True)); [apply within_select|intros a _].
    destruct ((0 <=? sel_r a) || negb (sel_errno a =? EINTR)); [now apply within_ret|apply IH].
Qed.

Lemma within_time_left (expire_at : timeval) :
  within PLUGIN ev st (fun _ => True) (time_left expire_at).
Proof. unfold time_left. repeat within_step; exact I. Qed.

Lemma within_waitForPADO_body (fuel : nat) (expire_at : timeval) (conn : PPPoEConnection) :
  within PLUGIN ev st (fun x => config (snd x) = config conn)
    (waitForPADO_body PLUGIN fuel expire_at conn).
Proof.
  unfold waitForPADO_body.
  repeat first
    [ apply (within_weaken _ _ _ (within_time_left _)); intros
    | apply (within_weaken _ _ _ (within_select_retry _ _)); intros
    | apply within_waitForPADO_frame
    | within_step ];
    try exact I; reflexivity.
Qed.

Lemma within_waitForPADO_loop (fuel : nat) (expire_at : timeval) :
  forall conn,
    within PLUGIN ev st (fun c => config c = config conn)
      (waitForPADO_loop PLUGIN fuel expire_at conn).
Proof.
  induction fuel as [|fuel IH]; intros conn; cbn [waitForPADO_loop].
  - apply within_stop. now apply st_other.
  - eapply within_bind; [apply within_waitForPADO_body|].
    intros [ctl c1] H1. cbn [snd] in H1.
    destruct ctl; try (now apply within_ret).
    destruct (negb (state_eqb (discoveryState c1) STATE_RECEIVED_PADO));
      [|now apply within_ret].
    eapply within_weaken; [apply IH|]. intros c2 H2. congruence.
Qed.

Lemma within_waitForPADS_body (fuel : nat) (expire_at : timeval) (conn : PPPoEConnection) :
  within PLUGIN ev st (fun x => config (snd x) = config conn)
    (waitForPADS_body PLUGIN fuel expire_at conn).
Proof.
  unfold waitForPADS_body.
  repeat first
    [ apply (within_weaken _ _ _ (within_time_left _)); intros
    | apply (within_weaken _ _ _ (within_select_retry _ _)); intros
    | eapply within_bind; [apply within_waitForPADS_frame|intros [? ?] ?]
    | within_step ];
    try exact I; cbn [snd] in *; try assumption; reflexivity.
Qed.

Lemma within_waitForPADS_loop (fuel : nat) (expire_at : timeval) :
  forall conn,
    within PLUGIN ev st (fun x => config (snd x) = config conn)
      (waitForPADS_loop PLUGIN fuel expire_at conn).
Proof.
  induction fuel as [|fuel IH]; intros conn; cbn [waitForPADS_loop].
  - apply within_stop. now apply st_other.
  - eapply within_bind; [apply within_waitForPADS_body|].
    intros [[ctl pkt] c1] H1. cbn [snd] in H1.
    destruct ctl; try (now apply within_ret).
    destruct (negb (state_eqb (discoveryState c1) STATE_SESSION));
      [|now apply within_ret].
    eapply within_weaken; [apply IH|]. intros [p2 c2] H2. cbn [snd] in *. congruence.
Qed.

Lemma within_waitForPADS_finish (conn : PPPoEConnection) (packet : PPPoEPacket) :
  within PLUGIN ev st (fun c => config c = config conn) (waitForPADS_finish conn packet).
Proof.
  unfold waitForPADS_finish. repeat within_step; try exact I; reflexivity.
Qed.

Lemma within_waitForPADO (fuel : nat) (conn : PPPoEConnection) (t : Z) :
  within PLUGIN ev st (fun c => config c = config conn) (waitForPADO PLUGIN fuel conn t).
Proof.
  unfold waitForPADO.
  repeat first
    [ eapply within_weaken; [apply within_waitForPADO_loop|intros c Hc; rewrite Hc]
    | within_step ]; try exact I.
  now destruct PLUGIN.
Qed.

Lemma within_waitForPADS (fuel : nat) (conn : PPPoEConnection) (t : Z) :
  within PLUGIN ev st (fun c => config c = config conn) (waitForPADS PLUGIN fuel conn t).
Proof.
  unfold waitForPADS.
  repeat first
    [ eapply within_bind; [apply within_waitForPADS_loop|intros [? ?] ?]
    | eapply within_weaken; [apply within_waitForPADS_finish|intros ? ?]
    | within_step ]; try exact I; cbn [snd] in *; congruence.
Qed.

Lemma within_copy_tag (tag : PPPoETag) (n : Z) (e : Encoder) :
  within PLUGIN ev st (fun _ => True) (copy_tag tag n e).
Proof.
  unfold copy_tag, CHECK_ROOM, payload_memcpy. repeat within_step; exact I.
Qed.

End Within.

Lemma bytes_eqb_refl (a : list byte) : bytes_eqb a a = true.
Proof. now apply bytes_eqb_eq. Qed.

Lemma state_eqb_eq (a b : DiscoveryState) : state_eqb a b = true <-> a = b.
Proof. destruct a, b; cbn; split; intros H; try reflexivity; discriminate. Qed.

Lemma no_overflow_other (o : Outcome) : outcome_is_overflow o = false -> no_overflow o = true.
Proof. unfold no_overflow. now intros ->. Qed.

Lemma evolves_mono (P : bool) (ev1 ev2 : Event -> bool) (w w' : World) :
  (forall e, ev1 e = true -> ev2 e = true) -> evolves P ev1 w w' -> evolves P ev2 w w'.
Proof.
  intros Himp ((es & Ht & He) & Hrest). split; [|exact Hrest].
  exists es. split; [assumption|]. rewrite forallb_forall in *. auto.
Qed.

Lemma bind_cases {A B} (m : M A) (k : A -> M B) (w : World) r w' :
  bind m k w = (r, w') ->
  (exists o, r = Stop o /\ m w = (Stop o, w'))
  \/ (exists a w1, m w = (Ok a, w1) /\ k a w1 = (r, w')).
Proof.
  unfold bind. destruct (m w) as [[a|o] w1]; intros H.
  - right. now exists a, w1.
  - left. apply pair_equal_spec in H as [<- <-]. now exists o.
Qed.

Lemma wire_ok_frame_of dst src c (tags : list TagView) :
  Forall wf_view tags -> 0 <= tlv_bytes tags <= MAX_PPPOE_PAYLOAD ->
  wire_ok (frame_of dst src c tags) (tlv_bytes tags + HDR_SIZE) = true.
Proof.
  intros Hwf Hsz. unfold wire_ok, frame_of. cbn [pkt_length payload].
  unfold MAX_PPPOE_PAYLOAD in *.
  rewrite ntohs_htons_small by lia. rewrite tlv_bytes_flat by assumption.
  rewrite Z.eqb_refl, andb_true_r. apply andb_true_iff. split.
  - apply Z.eqb_eq. lia.
  - apply Z.leb_le. lia.
Qed.

Section Stops.
Variable PLUGIN : bool.

Lemma silent_add_hostUniq (conn : PPPoEConnection) (e : Encoder) :
  within PLUGIN silent no_overflow (fun _ => True) (add_hostUniq conn e).
Proof.
  unfold add_hostUniq. destruct (hostUniq conn); [|now apply within_ret].
  apply (within_copy_tag _ _ no_overflow no_overflow_other).
Qed.

Lemma silent_add_maxPayload (e : Encoder) :
  within PLUGIN silent no_overflow (fun _ => True) (add_maxPayload PLUGIN e).
Proof.
  unfold add_maxPayload. destruct PLUGIN; [|now apply within_ret].
  eapply (within_bind _ _ _ (fun _ => True)); [apply within_get_min_mru|intros m _].
  destruct (ETH_PPPOE_MTU <? m); [|now apply within_ret].
  apply (within_copy_tag _ _ no_overflow no_overflow_other).
Qed.

Lemma silent_stored (tag : PPPoETag) (e : Encoder) :
  within PLUGIN silent no_overflow (fun _ => True)
    (if negb (be16_is_zero (tag_type tag))
     then copy_tag tag (ntohs (tag_length tag)) e else ret e).
Proof.
  destruct (negb (be16_is_zero (tag_type tag))); [|now apply within_ret].
  apply (within_copy_tag _ _ no_overflow no_overflow_other).
Qed.

(** The encoding of the first tag of a PADI leaves the world alone and
    stops only for want of room; when the name fits the 16 bits of its
    length, nothing is written past the end of the payload. *)
Lemma service_tag_PADI_run (conn : PPPoEConnection) (w : World) r w' :
  (let namelen := match serviceName conn with Some s => u16 (strlen s) | None => 0 end in
   let omit_service_name :=
     match serviceName conn with Some s => bytes_eqb s NO_SERVICE_NAME | None => false end in
   if negb omit_service_name then
     let plen0 := u16 (TAG_HDR_SIZE + namelen) in
     CHECK_ROOM 0 plen0 ;;;
     let b := be16_bytes (htons TAG_SERVICE_NAME) ++ be16_bytes (htons namelen) in
     b <- match serviceName conn with
          | Some s => payload_memcpy b TAG_HDR_SIZE s (strlen s)
          | None => ret b
          end ;;
     ret (mkEnc b (namelen + TAG_HDR_SIZE) plen0)
   else ret (mkEnc [] 0 0)) w = (r, w') ->
  w' = w
  /\ match r with
     | Ok e => name_fits conn = true -> overran (buf e) = false
     | Stop o => no_overflow o = true
     end.
Proof.
  cbv zeta. unfold name_fits.
  destruct (serviceName conn) as [s|].
  - destruct (bytes_eqb s NO_SERVICE_NAME); cbn [negb].
    + intros H. apply pair_equal_spec in H as [<- <-]. split; [reflexivity|].
      intros _. reflexivity.
    + unfold CHECK_ROOM, payload_memcpy, bind, ret, stop.
      destruct (MAX_PPPOE_PAYLOAD <? 0 + u16 (TAG_HDR_SIZE + u16 (strlen s))) eqn:E0;
        intros H; apply pair_equal_spec in H as [<- <-]; (split; [reflexivity|]);
        [reflexivity|].
      intros Hf. apply Z.leb_le in Hf. apply Z.ltb_ge in E0.
      unfold overran. cbn [buf]. apply Z.ltb_ge.
      change TAG_HDR_SIZE
        with (strlen (be16_bytes (htons TAG_SERVICE_NAME)
                        ++ be16_bytes (htons (u16 (strlen s))))) at 1.
      rewrite write_at_end, take_bytes_strlen, strlen_app.
      change (strlen (be16_bytes (htons TAG_SERVICE_NAME)
                        ++ be16_bytes (htons (u16 (strlen s))))) with 4.
      pose proof (strlen_nonneg s) as Hs.
      unfold MAX_PPPOE_PAYLOAD, TAG_HDR_SIZE in *.
      assert (Hu : u16 (strlen s) = strlen s) by (unfold u16; apply Z.mod_small; lia).
      rewrite Hu in E0.
      assert (Hu' : u16 (4 + strlen s) = 4 + strlen s) by (unfold u16; apply Z.mod_small; lia).
      rewrite Hu' in E0. lia.
  - cbn [negb]. intros H. vm_compute in H. apply pair_equal_spec in H as [<- <-].
    split; [reflexivity|]. intros _. reflexivity.
Qed.

Lemma name_fits_namelen (conn : PPPoEConnection) :
  name_fits conn = true -> namelen_fits conn = true.
Proof.
  unfold name_fits, namelen_fits. destruct (serviceName conn) as [s|]; [|reflexivity].
  intros H. apply Z.leb_le in H. apply Z.leb_le.
  pose proof (strlen_nonneg s). unfold u16, TAG_HDR_SIZE in *.
  rewrite Z.mod_small by lia. lia.
Qed.

(** The same for the first tag of a PADR, which copies the truncated
    length. *)
Lemma service_tag_PADR_run (conn : PPPoEConnection) (w w0 : World) r w' :
  let namelen := match serviceName conn with Some s => u16 (strlen s) | None => 0 end in
  CHECK_ROOM 0 (u16 (TAG_HDR_SIZE + namelen)) w = (Ok tt, w0) ->
  match serviceName conn with
  | Some s =>
      payload_memcpy (be16_bytes (htons TAG_SERVICE_NAME) ++ be16_bytes (htons namelen))
        TAG_HDR_SIZE s namelen
  | None => ret (be16_bytes (htons TAG_SERVICE_NAME) ++ be16_bytes (htons namelen))
  end w0 = (r, w') ->
  w' = w
  /\ exists b, r = Ok b /\ (namelen_fits conn = true -> overran b = false).
Proof.
  cbv zeta. unfold namelen_fits, CHECK_ROOM.
  destruct (serviceName conn) as [s|].
  - destruct (MAX_PPPOE_PAYLOAD <? 0 + u16 (TAG_HDR_SIZE + u16 (strlen s))) eqn:E0;
      [discriminate|].
    intros H0. apply Ok_inv in H0 as [_ ->].
    unfold payload_memcpy, ret. intros H. apply pair_equal_spec in H as [<- <-].
    split; [reflexivity|]. eexists. split; [reflexivity|].
    intros Hf. apply Z.leb_le in Hf. apply Z.ltb_ge in E0.
    pose proof (u16_range (strlen s)) as Hs.
    set (n := u16 (strlen s)) in *.
    assert (Htk : strlen (take_bytes n s) = n)
      by (unfold strlen; rewrite take_bytes_length; lia).
    unfold overran. apply Z.ltb_ge.
    change TAG_HDR_SIZE
      with (strlen (be16_bytes (htons TAG_SERVICE_NAME) ++ be16_bytes (htons n))) at 1.
    rewrite write_at_end, strlen_app, Htk.
    change (strlen (be16_bytes (htons TAG_SERVICE_NAME) ++ be16_bytes (htons n))) with 4.
    unfold MAX_PPPOE_PAYLOAD, TAG_HDR_SIZE in *.
    assert (Hu' : u16 (4 + n) = 4 + n) by (unfold u16; apply Z.mod_small; lia).
    rewrite Hu' in E0. lia.
  - intros H0 H. vm_compute in H0. apply Ok_inv in H0 as [_ ->].
    vm_compute in H. apply pair_equal_spec in H as [<- <-].
    split; [reflexivity|]. eexists. split; [reflexivity|]. intros _. reflexivity.
Qed.

(** How the rest of [sendPADI] ends, once the first tag is written: on an
    error with nothing sent, or with one frame handed to [sendPacket]. *)
Lemma sendPADI_rest (conn : PPPoEConnection) (e1 : Encoder)
    (pk : Encoder -> PPPoEPacket) (sz : Encoder -> Z) (w : World) r w' :
  (e <- add_hostUniq conn e1 ;;
   e <- add_maxPayload PLUGIN e ;;
   sendPacket (pk e) (sz e)) w = (r, w') ->
  match r with
  | Stop o => evolves PLUGIN silent w w' /\ no_overflow o = true
  | Ok _ =>
      exists e3 w2,
        evolves PLUGIN silent w w2
        /\ w' = set_trace (EvSendPacket (pk e3) (sz e3) :: trace w2) w2
  end.
Proof.
  intros H.
  apply bind_cases in H as [(o2 & -> & H)|(e2 & w2 & H2 & H)].
  { exact (silent_add_hostUniq _ _ _ _ _ H). }
  pose proof (proj1 (silent_add_hostUniq _ _ _ _ _ H2)) as He2.
  apply bind_cases in H as [(o3 & -> & H)|(e3 & w3 & H3 & H)].
  { destruct (silent_add_maxPayload _ _ _ _ H) as [He3 Hs3].
    split; [eapply evolves_trans; eassumption|assumption]. }
  pose proof (evolves_trans _ _ _ _ _ He2 (proj1 (silent_add_maxPayload _ _ _ _ H3))) as He3.
  unfold sendPacket, emit in H. apply pair_equal_spec in H as [<- <-].
  now exists e3, w3.
Qed.

(** The same for [sendPADR]. *)
Lemma sendPADR_rest (conn : PPPoEConnection) (e1 : Encoder)
    (pk : Encoder -> PPPoEPacket) (sz : Encoder -> Z) (w : World) r w' :
  (e <- add_hostUniq conn e1 ;;
   e <- (if negb (be16_is_zero (tag_type (cookie conn)))
         then copy_tag (cookie conn) (ntohs (tag_length (cookie conn))) e
         else ret e) ;;
   e <- (if negb (be16_is_zero (tag_type (relayId conn)))
         then copy_tag (relayId conn) (ntohs (tag_length (relayId conn))) e
         else ret e) ;;
   e <- add_maxPayload PLUGIN e ;;
   sendPacket (pk e) (sz e)) w = (r, w') ->
  match r with
  | Stop o => evolves PLUGIN silent w w' /\ no_overflow o = true
  | Ok _ =>
      exists e5 w2,
        evolves PLUGIN silent w w2
        /\ w' = set_trace (EvSendPacket (pk e5) (sz e5) :: trace w2) w2
  end.
Proof.
  intros H.
  apply bind_cases in H as [(o2 & -> & H)|(e2 & w2 & H2 & H)].
  { exact (silent_add_hostUniq _ _ _ _ _ H). }
  pose proof (proj1 (silent_add_hostUniq _ _ _ _ _ H2)) as He2.
  apply bind_cases in H as [(o3 & -> & H)|(e3 & w3 & H3 & H)].
  { destruct (silent_stored _ _ _ _ _ H) as [He3 Hs3].
    split; [eapply evolves_trans; eassumption|assumption]. }
  pose proof (evolves_trans _ _ _ _ _ He2 (proj1 (silent_stored _ _ _ _ _ H3))) as He3.
  apply bind_cases in H as [(o4 & -> & H)|(e4 & w4 & H4 & H)].
  { destruct (silent_stored _ _ _ _ _ H) as [He4 Hs4].
    split; [eapply evolves_trans; eassumption|assumption]. }
  pose proof (evolves_trans _ _ _ _ _ He3 (proj1 (silent_stored _ _ _ _ _ H4))) as He4.
  apply bind_cases in H as [(o5 & -> & H)|(e5 & w5 & H5 & H)].
  { destruct (silent_add_maxPayload _ _ _ _ H) as [He5 Hs5].
    split; [eapply evolves_trans; eassumption|assumption]. }
  pose proof (evolves_trans _ _ _ _ _ He4 (proj1 (silent_add_maxPayload _ _ _ _ H5))) as He5.
  unfold sendPacket, emit in H. apply pair_equal_spec in H as [<- <-].
  now exists e5, w5.
Qed.

End Stops.

Lemma config_sender (c c' : PPPoEConnection) :
  config c' = config c -> sender c' = sender c.
Proof.
  unfold config, sender, name_fits. intros H.
  injection H as H1 _ _ H4 _ _ _ _ _ _. now rewrite H1, H4.
Qed.

Section Attempts.
Variable PLUGIN : bool.
Variable ev : Event -> bool.
Variable my : list byte * bool.

Hypothesis ev_other : forall e, is_send e = false -> ev e = true.

Hypothesis ev_padi : forall pkt size,
  discovery_frame CODE_PADI (repeat Byte.xff 6) (take_bytes ETH_ALEN (fst my)) pkt = true ->
  (snd my = true -> wire_ok pkt size = true) ->
  ev (EvSendPacket pkt size) = true.

Lemma within_sendPADI (conn : PPPoEConnection) :
  sender conn = my ->
  within PLUGIN ev no_overflow (fun _ => True) (sendPADI PLUGIN conn).
Proof.
  intros Hmy w r w' H.
  assert (Hsilent : forall w1 w2, evolves PLUGIN silent w1 w2 -> evolves PLUGIN ev w1 w2)
    by (intros w1 w2; apply evolves_mono; discriminate).
  assert (Hhdr : forall len b,
            discovery_frame CODE_PADI (repeat Byte.xff 6) (take_bytes ETH_ALEN (fst my))
              (mkPacket
                 (mkEthhdr (repeat Byte.xff 6) (take_bytes ETH_ALEN (myEth conn))
                    (htons Eth_PPPOE_Discovery))
                 PPPOE_VER_TYPE_1_1 CODE_PADI (htons 0) len b) = true).
  { intros len b. unfold discovery_frame.
    cbn [ethHdr h_dest h_source h_proto vertype code pkt_session].
    rewrite <- Hmy. cbn [fst sender]. rewrite !bytes_eqb_refl. reflexivity. }
  destruct r as [[]|o].
  - apply sendPADI_sent in H as (-> & Hwf & Hsz). split; [|exact I].
    apply evolves_emit. apply ev_padi; [apply Hhdr|].
    intros _. now apply wire_ok_frame_of.
  - unfold sendPADI in H. cbv zeta in H.
    apply bind_cases in H as [(o1 & Ho & H)|(e1 & w1 & H1 & H)].
    { injection Ho as <-. destruct (service_tag_PADI_run _ _ _ _ H) as [-> Hst].
      split; [apply evolves_refl|assumption]. }
    destruct (service_tag_PADI_run _ _ _ _ H1) as [-> Hfit].
    unfold undefined_after in H.
    destruct (overran (buf e1)) eqn:Eov.
    + match type of H with
      | (_, snd (?m w)) = _ => destruct (m w) as [r0 w0] eqn:Er
      end.
      cbn [snd] in H. apply pair_equal_spec in H as [Ho <-]. injection Ho as <-.
      split; [|reflexivity].
      apply (sendPADI_rest PLUGIN conn e1
               (fun e => mkPacket
                           (mkEthhdr (repeat Byte.xff 6) (take_bytes ETH_ALEN (myEth conn))
                              (htons Eth_PPPOE_Discovery))
                           PPPOE_VER_TYPE_1_1 CODE_PADI (htons 0) (htons (plen e)) (buf e))
               (fun e => plen e + HDR_SIZE)) in Er.
      destruct r0 as [[]|o0].
      * destruct Er as (e3 & w2 & Hs & ->).
        eapply evolves_trans; [apply Hsilent; exact Hs|].
        apply evolves_emit. apply ev_padi; [apply Hhdr|].
        intros Hf. rewrite <- Hmy in Hf. cbn [snd sender] in Hf.
        specialize (Hfit Hf). congruence.
      * apply Hsilent. apply Er.
    + apply (sendPADI_rest PLUGIN conn e1
               (fun e => mkPacket
                           (mkEthhdr (repeat Byte.xff 6) (take_bytes ETH_ALEN (myEth conn))
                              (htons Eth_PPPOE_Discovery))
                           PPPOE_VER_TYPE_1_1 CODE_PADI (htons 0) (htons (plen e)) (buf e))
               (fun e => plen e + HDR_SIZE)) in H.
      destruct H as [Hs Ho]. split; [now apply Hsilent|assumption].
Qed.

Hypothesis ev_padr : forall dst pkt size,
  discovery_frame CODE_PADR dst (take_bytes ETH_ALEN (fst my)) pkt = true ->
  (snd my = true -> wire_ok pkt size = true) ->
  ev (EvSendPacket pkt size) = true.

Lemma within_sendPADR (conn : PPPoEConnection) :
  sender conn = my ->
  within PLUGIN ev no_overflow (fun _ => True) (sendPADR PLUGIN conn).
Proof.
  intros Hmy w r w' H.
  assert (Hsilent : forall w1 w2, evolves PLUGIN silent w1 w2 -> evolves PLUGIN ev w1 w2)
    by (intros w1 w2; apply evolves_mono; discriminate).
  assert (Hhdr : forall len b,
            discovery_frame CODE_PADR (take_bytes ETH_ALEN (peerEth conn))
              (take_bytes ETH_ALEN (fst my))
              (mkPacket
                 (mkEthhdr (take_bytes ETH_ALEN (peerEth conn))
                    (take_bytes ETH_ALEN (myEth conn)) (htons Eth_PPPOE_Discovery))
                 PPPOE_VER_TYPE_1_1 CODE_PADR (htons 0) len b) = true).
  { intros len b. unfold discovery_frame.
    cbn [ethHdr h_dest h_source h_proto vertype code pkt_session].
    rewrite <- Hmy. cbn [fst sender]. rewrite !bytes_eqb_refl. reflexivity. }
  destruct r as [[]|o].
  - apply sendPADR_sent in H as (-> & Hwf & Hsz). split; [|exact I].
    apply evolves_emit. eapply ev_padr; [apply Hhdr|].
    intros _. now apply wire_ok_frame_of.
  - unfold sendPADR in H. cbv zeta in H.
    apply bind_cases in H as [(o0 & Ho & H)|([] & w0 & H0 & H)].
    { injection Ho as <-. unfold CHECK_ROOM in H.
      destruct (MAX_PPPOE_PAYLOAD <? _); apply pair_equal_spec in H as [H <-];
        [|discriminate].
      injection H as <-. split; [apply evolves_refl|reflexivity]. }
    apply bind_cases in H as [(o1 & Ho & H)|(b1 & w1 & H1 & H)].
    { destruct (service_tag_PADR_run _ _ _ _ _ H0 H) as (_ & b & Hb & _).
      discriminate Hb. }
    destruct (service_tag_PADR_run _ _ _ _ _ H0 H1) as (-> & b & Hb & Hfit).
    injection Hb as <-.
    unfold undefined_after in H. cbn [buf] in H.
    destruct (overran b1) eqn:Eov.
    + match type of H with
      | (_, snd (?m w)) = _ => destruct (m w) as [r0 w3] eqn:Er
      end.
      cbn [snd] in H. apply pair_equal_spec in H as [Ho <-]. injection Ho as <-.
      split; [|reflexivity].
      apply (sendPADR_rest PLUGIN conn _
               (fun e => mkPacket
                           (mkEthhdr (take_bytes ETH_ALEN (peerEth conn))
                              (take_bytes ETH_ALEN (myEth conn)) (htons Eth_PPPOE_Discovery))
                           PPPOE_VER_TYPE_1_1 CODE_PADR (htons 0) (htons (plen e)) (buf e))
               (fun e => plen e + HDR_SIZE)) in Er.
      destruct r0 as [[]|o0].
      * destruct Er as (e5 & w2 & Hs & ->).
        eapply evolves_trans; [apply Hsilent; exact Hs|].
        apply evolves_emit. eapply ev_padr; [apply Hhdr|].
        intros Hf. rewrite <- Hmy in Hf. cbn [snd sender] in Hf.
        specialize (Hfit (name_fits_namelen _ Hf)). congruence.
      * apply Hsilent. apply Er.
    + apply (sendPADR_rest PLUGIN conn _
               (fun e => mkPacket
                           (mkEthhdr (take_bytes ETH_ALEN (peerEth conn))
                              (take_bytes ETH_ALEN (myEth conn)) (htons Eth_PPPOE_Discovery))
                           PPPOE_VER_TYPE_1_1 CODE_PADR (htons 0) (htons (plen e)) (buf e))
               (fun e => plen e + HDR_SIZE)) in H.
      destruct H as [Hs Ho]. split; [now apply Hsilent|assumption].
Qed.

Lemma overflow_not_allowed (o : Outcome) :
  no_overflow o = true -> outcome_is_overflow o = true -> False.
Proof. unfold no_overflow. intros H1 H2. rewrite H2 in H1. discriminate. Qed.

Lemma double_timeout_spec (t : Z) (w : World) r w' :
  double_timeout t w = (r, w') ->
  w' = w
  /\ match r with
     | Ok t' => t' = t * 2 /\ INT_MIN <= t * 2 <= INT_MAX
     | Stop o => ~ (INT_MIN <= t * 2 <= INT_MAX)
     end.
Proof.
  unfold double_timeout.
  destruct ((INT_MIN <=? t * 2) && (t * 2 <=? INT_MAX)) eqn:E; intros H;
    apply pair_equal_spec in H as [<- <-]; (split; [reflexivity|]).
  - apply andb_true_iff in E as [E1 E2]. apply Z.leb_le in E1, E2. lia.
  - intros [H1 H2]. apply Z.leb_le in H1, H2. rewrite H1, H2 in E. discriminate.
Qed.

(** One PADI attempt. *)
Lemma padi_attempt_spec (fuel : nat) (a t : Z) (conn : PPPoEConnection) (w : World) r w' :
  sender conn = my ->
  padi_attempt PLUGIN fuel a t conn w = (r, w') ->
  evolves PLUGIN ev w w'
  /\ match r with
     | Ok (l', c') =>
         config c' = config conn
         /\ (printACNames conn = false -> INT_MIN <= t * 2 <= INT_MAX)
         /\ (l' = PADI_DONE
             \/ l' = PADI_LOOP a (if printACNames conn then t else t * 2)
                /\ discoveryState c' = STATE_SENT_PADI)
     | Stop o =>
         outcome_is_overflow o = true ->
         printACNames conn = false /\ ~ (INT_MIN <= t * 2 <= INT_MAX)
     end.
Proof.
  intros Hmy H. unfold padi_attempt in H. unfold bind at 1 in H.
  destruct (sendPADI PLUGIN conn w) as [[[]|o] w1] eqn:E1;
    destruct (within_sendPADI conn Hmy _ _ _ E1) as (Hev1 & Hst1).
  2:{ apply Stop_inv in H as [-> ->]. split; [assumption|].
      intros Ho. destruct (overflow_not_allowed _ Hst1 Ho). }
  unfold bind at 1 in H.
  destruct (waitForPADO PLUGIN fuel (set_discoveryState STATE_SENT_PADI conn) t w1)
    as [[c1|o] w2] eqn:E2;
    destruct (within_waitForPADO PLUGIN ev no_overflow no_overflow_other ev_other
                _ _ _ _ _ _ E2) as (Hev2 & Hst2);
    pose proof (evolves_trans _ _ _ _ _ Hev1 Hev2) as Hev.
  2:{ apply Stop_inv in H as [-> ->]. split; [assumption|].
      intros Ho. destruct (overflow_not_allowed _ Hst2 Ho). }
  change (config (set_discoveryState STATE_SENT_PADI conn)) with (config conn) in Hst2.
  destruct (config_fields _ _ Hst2) as [_ Hp].
  unfold bind at 1 in H. rewrite Hp in H.
  destruct (printACNames conn) eqn:Eprobe; cbn [negb andb] in H.
  - unfold ret at 1 in H.
    destruct (negb (numPADOs c1 =? 0));
      [|destruct (state_eqb (discoveryState c1) STATE_SENT_PADI) eqn:Es];
      apply pair_equal_spec in H as [<- <-]; (split; [assumption|]);
      (split; [assumption|]); (split; [discriminate|]); auto.
    right. split; [reflexivity|]. now apply state_eqb_eq.
  - destruct (double_timeout t w2) as [[t'|o] w3] eqn:E3;
      destruct (double_timeout_spec _ _ _ _ E3) as (-> & Hd).
    2:{ apply Stop_inv in H as [-> ->]. split; [assumption|]. intros _. now split. }
    destruct Hd as [-> Hrange].
    destruct (state_eqb (discoveryState c1) STATE_SENT_PADI) eqn:Es;
      apply pair_equal_spec in H as [<- <-]; (split; [assumption|]);
      (split; [assumption|]); (split; [intros _; assumption|]); auto.
    right. split; [reflexivity|]. now apply state_eqb_eq.
Qed.

(** One PADR attempt. *)
Lemma padr_attempt_spec (fuel : nat) (a t : Z) (conn : PPPoEConnection) (w : World) r w' :
  sender conn = my ->
  padr_attempt PLUGIN fuel a t conn w = (r, w') ->
  evolves PLUGIN ev w w'
  /\ match r with
     | Ok (l', c') =>
         config c' = config conn
         /\ INT_MIN <= t * 2 <= INT_MAX
         /\ (l' = PADR_DONE /\ discoveryState c' <> STATE_SENT_PADR
             \/ l' = PADR_LOOP a (t * 2) /\ discoveryState c' = STATE_SENT_PADR)
     | Stop o =>
         outcome_is_overflow o = true -> ~ (INT_MIN <= t * 2 <= INT_MAX)
     end.
Proof.
  intros Hmy H. unfold padr_attempt in H. unfold bind at 1 in H.
  destruct (sendPADR PLUGIN conn w) as [[[]|o] w1] eqn:E1;
    destruct (within_sendPADR conn Hmy _ _ _ E1) as (Hev1 & Hst1).
  2:{ apply Stop_inv in H as [-> ->]. split; [assumption|].
      intros Ho. destruct (overflow_not_allowed _ Hst1 Ho). }
  unfold bind at 1 in H.
  destruct (waitForPADS PLUGIN fuel (set_discoveryState STATE_SENT_PADR conn) t w1)
    as [[c1|o] w2] eqn:E2;
    destruct (within_waitForPADS PLUGIN ev no_overflow no_overflow_other ev_other
                _ _ _ _ _ _ E2) as (Hev2 & Hst2);
    pose proof (evolves_trans _ _ _ _ _ Hev1 Hev2) as Hev.
  2:{ apply Stop_inv in H as [-> ->]. split; [assumption|].
      intros Ho. destruct (overflow_not_allowed _ Hst2 Ho). }
  change (config (set_discoveryState STATE_SENT_PADR conn)) with (config conn) in Hst2.
  unfold bind at 1 in H.
  destruct (double_timeout t w2) as [[t'|o] w3] eqn:E3;
    destruct (double_timeout_spec _ _ _ _ E3) as (-> & Hd).
  2:{ apply Stop_inv in H as [-> ->]. split; [assumption|]. intros _. assumption. }
  destruct Hd as [-> Hrange].
  destruct (state_eqb (discoveryState c1) STATE_SENT_PADR) eqn:Es;
    apply pair_equal_spec in H as [<- <-]; (split; [assumption|]);
    (split; [assumption|]); (split; [assumption|]).
  - right. split; [reflexivity|]. now apply state_eqb_eq.
  - left. split; [reflexivity|]. intros Hs. apply state_eqb_eq in Hs. congruence.
Qed.


Variable MAX : Z.

(** The step from the top of the body of the PADI loop. *)
Lemma step_PADI_LOOP_spec (fuel : nat) (a t : Z) (conn : PPPoEConnection) (w : World) r w' :
  sender conn = my ->
  discovery_step PLUGIN MAX fuel (PADI_LOOP a t) conn w = (r, w') ->
  evolves PLUGIN ev w w'
  /\ exists t0 a',
       ((MAX <? a + 1) = false /\ t0 = t /\ a' = a + 1
        \/ (MAX <? a + 1) = true /\ t0 = discoveryTimeout conn /\ a' = 0)
       /\ match r with
          | Ok (l', c') =>
              config c' = config conn
              /\ (l' = PADI_DONE
                  \/ l' = PADI_LOOP a' (if printACNames conn then t0 else t0 * 2)
                     /\ discoveryState c' = STATE_SENT_PADI)
          | Stop o =>
              outcome_is_overflow o = true ->
              printACNames conn = false /\ ~ (INT_MIN <= t0 * 2 <= INT_MAX)
          end.
Proof.
  intros Hmy H. cbn [discovery_step] in H. cbv zeta in H. unfold bind at 1 in H.
  destruct (MAX <? a + 1) eqn:Emax.
  - unfold bind at 1 in H. unfold printErr, emit in H. unfold bind at 1 in H.
    unfold get_persist at 1 in H. cbn [persist set_trace] in H.
    assert (Hdiag : evolves PLUGIN ev w
                      (set_trace (EvPrintErr "Timeout waiting for PADO packets" :: trace w) w))
      by (apply evolves_emit; now apply ev_other).
    destruct (persist w); unfold ret at 1 in H; cbv beta iota in H; cbn [negb] in H.
    + fold (padi_attempt PLUGIN fuel 0 (discoveryTimeout conn) conn) in H.
      destruct (padi_attempt_spec _ _ _ _ _ _ _ Hmy H) as (Hev & Hr).
      split; [eapply evolves_trans; eassumption|].
      exists (discoveryTimeout conn), 0. split; [right; auto|].
      destruct r as [[l' c']|o]; [|exact Hr].
      destruct Hr as (Hc & _ & Hl). now split.
    + apply pair_equal_spec in H as [<- <-]. split; [assumption|].
      exists (discoveryTimeout conn), 0. split; [right; auto|]. split; [reflexivity|now left].
  - unfold ret at 1 in H. cbv beta iota in H. cbn [negb] in H.
    fold (padi_attempt PLUGIN fuel (a + 1) t conn) in H.
    destruct (padi_attempt_spec _ _ _ _ _ _ _ Hmy H) as (Hev & Hr).
    split; [assumption|].
    exists t, (a + 1). split; [left; auto|].
    destruct r as [[l' c']|o]; [|exact Hr].
    destruct Hr as (Hc & _ & Hl). now split.
Qed.

(** The step from the top of the body of the PADR loop. *)
Lemma step_PADR_LOOP_spec (fuel : nat) (a t : Z) (conn : PPPoEConnection) (w : World) r w' :
  sender conn = my ->
  discovery_step PLUGIN MAX fuel (PADR_LOOP a t) conn w = (r, w') ->
  evolves PLUGIN ev w w'
  /\ match r with
     | Ok (l', c') =>
         config c' = config conn
         /\ ((MAX <? a + 1) = true /\ c' = conn
             /\ trace w' = EvPrintErr "Timeout waiting for PADS packets" :: trace w
             /\ (persist w = true /\ l' = SEND_PADI (discoveryTimeout conn)
                 \/ persist w = false /\ l' = RETURNED)
             \/ (MAX <? a + 1) = false
                /\ (l' = PADR_DONE /\ discoveryState c' <> STATE_SENT_PADR
                    \/ l' = PADR_LOOP (a + 1) (t * 2)
                       /\ discoveryState c' = STATE_SENT_PADR))
     | Stop o =>
         outcome_is_overflow o = true ->
         (MAX <? a + 1) = false /\ ~ (INT_MIN <= t * 2 <= INT_MAX)
     end.
Proof.
  intros Hmy H. cbn [discovery_step] in H. cbv zeta in H.
  destruct (MAX <? a + 1) eqn:Emax.
  - unfold bind at 1 in H. unfold printErr, emit in H. unfold bind at 1 in H.
    unfold get_persist at 1 in H. cbn [persist set_trace] in H.
    assert (Hdiag : evolves PLUGIN ev w
                      (set_trace (EvPrintErr "Timeout waiting for PADS packets" :: trace w) w))
      by (apply evolves_emit; now apply ev_other).
    destruct (persist w) eqn:Ep; apply pair_equal_spec in H as [<- <-];
      (split; [assumption|]); (split; [reflexivity|]); left;
      (split; [reflexivity|]); (split; [reflexivity|]); (split; [reflexivity|]); auto.
  - fold (padr_attempt PLUGIN fuel (a + 1) t conn) in H.
    destruct (padr_attempt_spec _ _ _ _ _ _ _ Hmy H) as (Hev & Hr).
    split; [assumption|].
    destruct r as [[l' c']|o].
    + destruct Hr as (Hc & _ & Hl). split; [assumption|]. right. now split.
    + intros Ho. split; [reflexivity|]. now apply Hr.
Qed.

End Attempts.

(** Induction along the control points of [discovery]: an invariant kept by
    every step holds when the run ends, however it ends. *)
Lemma discovery_from_inv (PLUGIN : bool) (MAX : Z)
    (Inv : Label -> PPPoEConnection -> World -> Prop)
    (Q : Result PPPoEConnection -> World -> Prop) :
  (forall fuel l c w r w',
      l <> RETURNED -> Inv l c w ->
      discovery_step PLUGIN MAX fuel l c w = (r, w') ->
      match r with
      | Ok (l', c') => Inv l' c' w'
      | Stop o => Q (Stop o) w'
      end) ->
  (forall c w, Inv RETURNED c w -> Q (Ok c) w) ->
  (forall l c w, Inv l c w -> Q (Stop OutOfFuel) w) ->
  forall fuel l c w r w',
    Inv l c w -> discovery_from PLUGIN MAX fuel l c w = (r, w') -> Q r w'.
Proof.
  intros Hstep Hret Hfuel.
  induction fuel as [|fuel IH]; intros l c w r w' Hinv H.
  - destruct l; cbn [discovery_from] in H; apply pair_equal_spec in H as [<- <-];
      solve [now apply Hret | eapply Hfuel; eassumption].
  - assert (Hl : l = RETURNED \/ l <> RETURNED) by (destruct l; auto; right; discriminate).
    destruct Hl as [->|Hl].
    + apply pair_equal_spec in H as [<- <-]. now apply Hret.
    + rewrite discovery_from_S in H by assumption.
      destruct (discovery_step PLUGIN MAX fuel l c w) as [r1 w1] eqn:E1.
      pose proof (Hstep fuel l c w r1 w1 Hl Hinv E1) as H1.
      destruct r1 as [[l' c']|o].
      * eapply IH; eassumption.
      * apply pair_equal_spec in H as [<- <-]. exact H1.
Qed.

(* ------------------------------------------------------------------ *)
(** ** Whole runs of [discovery] *)

Lemma config_parts (c c' : PPPoEConnection) :
  config c' = config c ->
  myEth c' = myEth c /\ printACNames c' = printACNames c
  /\ discoveryTimeout c' = discoveryTimeout c.
Proof. unfold config. intros H. injection H. auto. Qed.

Lemma step_PADR_DONE_spec (PLUGIN : bool) (MAX : Z) (ev : Event -> bool) (fuel : nat)
    (conn : PPPoEConnection) (w : World) r w' :
  discovery_step PLUGIN MAX fuel PADR_DONE conn w = (r, w') ->
  r = Ok (RETURNED, set_discoveryState STATE_SESSION conn)
  /\ evolves PLUGIN ev w w'
  /\ (PLUGIN = true ->
      seenMaxPayload conn = true
      \/ lcp_allow_mru w' <= ETH_PPPOE_MTU /\ lcp_want_mru w' <= ETH_PPPOE_MTU).
Proof.
  cbn [discovery_step]. unfold bind.
  destruct PLUGIN; cbn [andb].
  - destruct (seenMaxPayload conn); cbn [negb].
    + intros H. apply pair_equal_spec in H as [<- <-].
      split; [reflexivity|]. split; [apply evolves_refl|]. now left.
    + destruct (cap_mru w) as [[[]|o] w1] eqn:E; [|discriminate].
      intros H. apply pair_equal_spec in H as [<- <-].
      split; [reflexivity|].
      split; [exact (proj1 (within_cap_mru true ev any_outcome eq_refl _ _ _ E))|].
      intros _. right. unfold cap_mru in E. apply pair_equal_spec in E as [_ <-].
      cbn [lcp_allow_mru lcp_want_mru].
      destruct (ETH_PPPOE_MTU <? lcp_allow_mru w) eqn:E1,
               (ETH_PPPOE_MTU <? lcp_want_mru w) eqn:E2;
        try apply Z.ltb_ge in E1; try apply Z.ltb_ge in E2; lia.
  - intros H. apply pair_equal_spec in H as [<- <-].
    split; [reflexivity|]. split; [apply evolves_refl|discriminate].
Qed.

Section Run.
Variable PLUGIN : bool.
Variable MAX : Z.
Variable ev : Event -> bool.
Variable my : list byte * bool.

Hypothesis ev_other : forall e, is_send e = false -> ev e = true.
Hypothesis ev_padi : forall pkt size,
  discovery_frame CODE_PADI (repeat Byte.xff 6) (take_bytes ETH_ALEN (fst my)) pkt = true ->
  (snd my = true -> wire_ok pkt size = true) ->
  ev (EvSendPacket pkt size) = true.
Hypothesis ev_padr : forall dst pkt size,
  discovery_frame CODE_PADR dst (take_bytes ETH_ALEN (fst my)) pkt = true ->
  (snd my = true -> wire_ok pkt size = true) ->
  ev (EvSendPacket pkt size) = true.

(** Every step of [discovery] changes the world as [evolves] allows and
    keeps the configuration. *)
Lemma discovery_step_evolves (fuel : nat) (l : Label) (conn : PPPoEConnection)
    (w : World) r w' :
  sender conn = my ->
  discovery_step PLUGIN MAX fuel l conn w = (r, w') ->
  evolves PLUGIN ev w w'
  /\ match r with Ok (l', c') => config c' = config conn | Stop _ => True end.
Proof.
  intros Hmy H. destruct l as [t|a t| |a t| | ].
  - apply pair_equal_spec in H as [<- <-]. split; [apply evolves_refl|reflexivity].
  - destruct (step_PADI_LOOP_spec PLUGIN ev my ev_other ev_padi MAX _ _ _ _ _ _ _ Hmy H)
      as (Hev & t0 & a' & _ & Hr).
    split; [assumption|]. destruct r as [[l' c']|o]; [apply Hr|exact I].
  - cbn [discovery_step] in H.
    destruct (printACNames conn); [destruct (negb (numPADOs conn =? 0))|];
      apply pair_equal_spec in H as [<- <-]; (split; [apply evolves_refl|]);
      try exact I; reflexivity.
  - destruct (step_PADR_LOOP_spec PLUGIN ev my ev_other ev_padr MAX _ _ _ _ _ _ _ Hmy H)
      as (Hev & Hr).
    split; [assumption|]. destruct r as [[l' c']|o]; [apply Hr|exact I].
  - destruct (step_PADR_DONE_spec PLUGIN MAX ev _ _ _ _ _ H) as (-> & Hev & _).
    split; [assumption|reflexivity].
  - apply pair_equal_spec in H as [<- <-]. split; [apply evolves_refl|reflexivity].
Qed.

(** However a run of [discovery] that was not skipped ends, the world has
    changed as [evolves] allows. *)
Lemma discovery_from_evolves (fuel : nat) (l : Label) (conn : PPPoEConnection)
    (w : World) r w' :
  sender conn = my ->
  discovery_from PLUGIN MAX fuel l conn w = (r, w') ->
  evolves PLUGIN ev w w'.
Proof.
  intros Hmy H.
  refine (discovery_from_inv PLUGIN MAX
            (fun _ c w1 => evolves PLUGIN ev w w1 /\ sender c = my)
            (fun _ w1 => evolves PLUGIN ev w w1) _ _ _ fuel l conn w r w' _ H).
  - intros f l0 c w0 r0 w1 _ [Hev Hc] Hs.
    destruct (discovery_step_evolves _ _ _ _ _ _ Hc Hs) as (Hev1 & Hr).
    pose proof (evolves_trans _ _ _ _ _ Hev Hev1) as Hev2.
    destruct r0 as [[l' c']|o]; [|assumption].
    split; [assumption|]. rewrite (config_sender _ _ Hr). assumption.
  - now intros c w0 [Hev _].
  - now intros l0 c w0 [Hev _].
  - split; [apply evolves_refl|assumption].
Qed.

End Run.

Lemma sent_ok_other (my : list byte) (e : Event) : is_send e = false -> sent_ok my e = true.
Proof. destruct e; cbn; intros H; try reflexivity; discriminate. Qed.

Lemma sent_ok_padi (my : list byte) pkt size :
  discovery_frame CODE_PADI (repeat Byte.xff 6) (take_bytes ETH_ALEN (fst (my, true))) pkt
  = true ->
  (snd (my, true) = true -> wire_ok pkt size = true) ->
  sent_ok my (EvSendPacket pkt size) = true.
Proof. intros H1 H2. cbn [fst] in H1. cbn [sent_ok]. now rewrite H1, (H2 eq_refl). Qed.

Lemma sent_ok_padr (my : list byte) dst pkt size :
  discovery_frame CODE_PADR dst (take_bytes ETH_ALEN (fst (my, true))) pkt = true ->
  (snd (my, true) = true -> wire_ok pkt size = true) ->
  sent_ok my (EvSendPacket pkt size) = true.
Proof.
  intros H1 H2. cbn [fst] in H1. cbn [sent_ok]. rewrite (H2 eq_refl), andb_true_r.
  assert (Hd : h_dest (ethHdr pkt) = dst).
  { unfold discovery_frame in H1. repeat (apply andb_true_iff in H1 as [H1 _]).
    now apply bytes_eqb_eq. }
  rewrite Hd, H1. apply orb_true_r.
Qed.

Lemma any_event_other (e : Event) : is_send e = false -> any_event e = true.
Proof. reflexivity. Qed.

Lemma any_event_frame (c : byte) (my : list byte * bool) (dst : list byte) pkt (size : Z) :
  discovery_frame c dst (take_bytes ETH_ALEN (fst my)) pkt = true ->
  (snd my = true -> wire_ok pkt size = true) -> any_event (EvSendPacket pkt size) = true.
Proof. reflexivity. Qed.

(** X15: when the service name fits the 16 bits of its tag length (it is
    shorter than 65532 bytes), every frame [discovery] sends is a PADI to
    the broadcast address or a PADR, sent from the connection's own address
    with PPPoE version 1, type 1, session id 0 and Ethernet type 0x8863;
    its size is the header plus the declared payload length, which is
    within the payload window and is the length of the tags written; no
    PADT is sent. *)
Theorem discovery_sends_well_formed_frames (PLUGIN : bool) (MAX : Z) (fuel : nat)
    (conn : PPPoEConnection) (w : World) :
  skipDiscovery conn = false -> name_fits conn = true ->
  forallb (sent_ok (myEth conn))
    (trace (snd (discovery PLUGIN MAX fuel conn (set_trace [] w)))) = true.
Proof.
  intros Hskip Hfits. unfold discovery. rewrite Hskip.
  destruct (discovery_from PLUGIN MAX fuel (SEND_PADI (discoveryTimeout conn)) conn
              (set_trace [] w)) as [r w'] eqn:E.
  cbn [snd].
  assert (Hmy : sender conn = (myEth conn, true)) by (unfold sender; now rewrite Hfits).
  destruct (discovery_from_evolves PLUGIN MAX (sent_ok (myEth conn)) (myEth conn, true)
              (sent_ok_other _) (sent_ok_padi _) (sent_ok_padr _) _ _ _ _ _ _ Hmy E)
    as ((es & Ht & He) & _).
  cbn [trace set_trace] in Ht. rewrite app_nil_r in Ht. now rewrite Ht.
Qed.

Lemma discovery_sends_well_formed_frames_witness :
  forallb (sent_ok (myEth conn0))
    (trace (snd (discovery false 3 20 conn0 (set_trace [] S1_network)))) = true.
Proof.
  apply (discovery_sends_well_formed_frames false 3 20 conn0 S1_network); reflexivity.
Defined.

Lemma discovery_mru (PLUGIN : bool) (MAX : Z) (fuel : nat) (conn : PPPoEConnection)
    (w : World) r w' :
  discovery PLUGIN MAX fuel conn w = (r, w') -> evolves PLUGIN any_event w w'.
Proof.
  unfold discovery. destruct (skipDiscovery conn).
  - destruct (killSession (set_discoveryState STATE_SESSION conn)); intros H.
    + apply pair_equal_spec in H as [<- <-]. now apply evolves_emit.
    + apply pair_equal_spec in H as [<- <-]. apply evolves_refl.
  - intros H.
    exact (discovery_from_evolves PLUGIN MAX any_event (sender conn) any_event_other
             (any_event_frame _ _ _) (fun dst => any_event_frame _ _ dst) _ _ _ _ _ _ eq_refl H).
Qed.

(** X16: however a run of [discovery] ends, each MRU option of pppd is at most
    what it was and at least the smaller of what it was and 1492; without
    PLUGIN both are left as they were. *)
Theorem discovery_only_lowers_mru (PLUGIN : bool) (MAX : Z) (fuel : nat)
    (conn : PPPoEConnection) (w : World) :
  Z.min (lcp_allow_mru w) ETH_PPPOE_MTU
    <= lcp_allow_mru (snd (discovery PLUGIN MAX fuel conn w)) <= lcp_allow_mru w
  /\ Z.min (lcp_want_mru w) ETH_PPPOE_MTU
     <= lcp_want_mru (snd (discovery PLUGIN MAX fuel conn w)) <= lcp_want_mru w
  /\ lcp_allow_mru (snd (discovery false MAX fuel conn w)) = lcp_allow_mru w
  /\ lcp_want_mru (snd (discovery false MAX fuel conn w)) = lcp_want_mru w.
Proof.
  destruct (discovery PLUGIN MAX fuel conn w) as [r w'] eqn:E.
  destruct (discovery false MAX fuel conn w) as [r0 w0] eqn:E0.
  destruct (discovery_mru _ _ _ _ _ _ _ E) as (_ & _ & _ & Ha & Hw & _).
  destruct (discovery_mru _ _ _ _ _ _ _ E0) as (_ & _ & _ & _ & _ & Heq).
  destruct (Heq eq_refl). cbn [snd]. auto.
Qed.

Lemma probe_frame_other (my : list byte) (e : Event) :
  is_send e = false -> probe_frame my e = true.
Proof. destruct e; cbn; intros H; try reflexivity; discriminate. Qed.

Lemma probe_frame_padi (conn : PPPoEConnection) pkt size :
  discovery_frame CODE_PADI (repeat Byte.xff 6) (take_bytes ETH_ALEN (fst (sender conn))) pkt
  = true ->
  (snd (sender conn) = true -> wire_ok pkt size = true) ->
  probe_frame (myEth conn) (EvSendPacket pkt size) = true.
Proof. intros H1 _. exact H1. Qed.

Lemma probe_ok_other (my : list byte) (e : Event) : is_send e = false -> probe_ok my e = true.
Proof. destruct e; cbn; intros H; try reflexivity; discriminate. Qed.

Lemma probe_ok_padi (my : list byte) pkt size :
  discovery_frame CODE_PADI (repeat Byte.xff 6) (take_bytes ETH_ALEN (fst (my, true))) pkt
  = true ->
  (snd (my, true) = true -> wire_ok pkt size = true) ->
  probe_ok my (EvSendPacket pkt size) = true.
Proof. intros H1 H2. cbn [probe_ok]. cbn [fst] in H1. now rewrite H1, (H2 eq_refl). Qed.

(** A probe never leaves the PADI phase: it sends what [sendPADI] sends and
    does not return. *)
Lemma probe_run (PLUGIN : bool) (MAX : Z) (fuel : nat) (conn : PPPoEConnection) (w : World)
    (ev : Event -> bool) (my : list byte * bool) :
  (forall e, is_send e = false -> ev e = true) ->
  (forall pkt size,
      discovery_frame CODE_PADI (repeat Byte.xff 6) (take_bytes ETH_ALEN (fst my)) pkt = true ->
      (snd my = true -> wire_ok pkt size = true) ->
      ev (EvSendPacket pkt size) = true) ->
  sender conn = my ->
  printACNames conn = true -> skipDiscovery conn = false ->
  (forall c, fst (discovery PLUGIN MAX fuel conn (set_trace [] w)) <> Ok c)
  /\ forallb ev (trace (snd (discovery PLUGIN MAX fuel conn (set_trace [] w)))) = true.
Proof.
  intros Hother Hpadi Hsender Hprobe Hskip. unfold discovery. rewrite Hskip.
  destruct (discovery_from PLUGIN MAX fuel (SEND_PADI (discoveryTimeout conn)) conn
              (set_trace [] w)) as [r w'] eqn:E.
  cbn [fst snd].
  assert (H : evolves PLUGIN ev (set_trace [] w) w' /\ forall c, r <> Ok c).
  { refine (discovery_from_inv PLUGIN MAX
              (fun l c w1 => evolves PLUGIN ev (set_trace [] w) w1
                             /\ config c = config conn /\ padi_phase l = true)
              (fun r w1 => evolves PLUGIN ev (set_trace [] w) w1 /\ forall c, r <> Ok c)
              _ _ _ fuel _ conn _ r w' _ E).
    - intros f l c w0 r0 w1 _ (Hev & Hc & Hl) Hs.
      destruct (config_parts _ _ Hc) as (_ & Hp & _).
      pose proof (config_sender _ _ Hc) as Hmy. rewrite Hsender in Hmy.
      destruct l as [t|a t| |a t| | ]; try discriminate.
      + apply pair_equal_spec in Hs as [<- <-]. auto.
      + destruct (step_PADI_LOOP_spec PLUGIN ev my Hother Hpadi MAX _ _ _ _ _ _ _ Hmy Hs)
          as (Hev1 & t0 & a' & _ & Hr).
        pose proof (evolves_trans _ _ _ _ _ Hev Hev1) as Hev2.
        destruct r0 as [[l' c']|o]; [|split; [assumption|discriminate]].
        destruct Hr as (Hc' & [->|[-> _]]); (split; [assumption|]);
          (split; [congruence|reflexivity]).
      + cbn [discovery_step] in Hs. rewrite Hp, Hprobe in Hs.
        destruct (negb (numPADOs c =? 0)); apply pair_equal_spec in Hs as [<- <-];
          (split; [assumption|discriminate]).
    - intros c w0 (_ & _ & Hl). discriminate.
    - intros l c w0 (Hev & _). split; [assumption|discriminate].
    - split; [apply evolves_refl|]. split; reflexivity. }
  destruct H as [((es & Ht & He) & _) Hr]. split; [assumption|].
  cbn [trace set_trace] in Ht. rewrite app_nil_r in Ht. now rewrite Ht.
Qed.

(** X17: in probe mode [discovery] never returns to its caller and never sends
    a PADR: the only frames sent are PADI broadcasts, and they are well
    formed when the service name fits the 16 bits of its tag length (it is
    shorter than 65532 bytes). *)
Theorem probe_never_returns (PLUGIN : bool) (MAX : Z) (fuel : nat)
    (conn : PPPoEConnection) (w : World) :
  printACNames conn = true -> skipDiscovery conn = false ->
  (forall c, fst (discovery PLUGIN MAX fuel conn (set_trace [] w)) <> Ok c)
  /\ forallb (probe_frame (myEth conn))
       (trace (snd (discovery PLUGIN MAX fuel conn (set_trace [] w)))) = true
  /\ (name_fits conn = true ->
      forallb (probe_ok (myEth conn))
        (trace (snd (discovery PLUGIN MAX fuel conn (set_trace [] w)))) = true).
Proof.
  intros Hprobe Hskip.
  destruct (probe_run PLUGIN MAX fuel conn w (probe_frame (myEth conn)) (sender conn)
              (probe_frame_other _) (probe_frame_padi _) eq_refl Hprobe Hskip) as [Hr Hf].
  split; [exact Hr|]. split; [exact Hf|]. intros Hfits.
  apply (probe_run PLUGIN MAX fuel conn w (probe_ok (myEth conn)) (myEth conn, true)
           (probe_ok_other _) (probe_ok_padi _)); try assumption.
  unfold sender. now rewrite Hfits.
Qed.

Lemma probe_never_returns_witness :
  (forall c, fst (discovery false 3 20 conn_probe (set_trace [] S4_network)) <> Ok c)
  /\ forallb (probe_frame (myEth conn_probe))
       (trace (snd (discovery false 3 20 conn_probe (set_trace [] S4_network)))) = true
  /\ forallb (probe_ok (myEth conn_probe))
       (trace (snd (discovery false 3 20 conn_probe (set_trace [] S4_network)))) = true.
Proof.
  destruct (probe_never_returns false 3 20 conn_probe S4_network eq_refl eq_refl)
    as (Hr & Hf & Hok).
  split; [exact Hr|]. split; [exact Hf|]. apply Hok. reflexivity.
Defined.

Lemma pow2_mono (T x y : Z) : 0 <= T -> 0 <= x <= y -> T * 2 ^ x <= T * 2 ^ y.
Proof.
  intros HT Hxy. apply Z.mul_le_mono_nonneg_l; [assumption|].
  apply Z.pow_le_mono_r; lia.
Qed.

Lemma pow2_double (T x : Z) : 0 <= x -> T * 2 ^ (x + 1) = T * 2 ^ x * 2.
Proof. intros Hx. rewrite Z.pow_add_r by lia. lia. Qed.

Lemma overflow_is_overflow {A} (r : Result A) :
  (forall o, r = Stop o -> outcome_is_overflow o = false) -> r <> Stop OVERFLOW.
Proof. intros H Hr. specialize (H _ Hr). discriminate. Qed.

(** A timeout that cannot overflow is never doubled beyond [INT_MAX]. *)
Lemma discovery_no_overflow (PLUGIN : bool) (MAX : Z) (fuel : nat)
    (conn : PPPoEConnection) (w : World) :
  0 <= discoveryTimeout conn -> 0 <= MAX ->
  discoveryTimeout conn * 2 ^ (MAX + 1) <= INT_MAX ->
  fst (discovery PLUGIN MAX fuel conn w) <> Stop OVERFLOW.
Proof.
  intros HT HM Hmax. unfold discovery.
  destruct (skipDiscovery conn).
  { destruct (killSession (set_discoveryState STATE_SESSION conn)); discriminate. }
  destruct (discovery_from PLUGIN MAX fuel (SEND_PADI (discoveryTimeout conn)) conn w)
    as [r w'] eqn:E.
  cbn [fst]. set (T := discoveryTimeout conn) in *.
  assert (Hmin : INT_MIN <= 0) by (unfold INT_MIN; lia).
  refine (discovery_from_inv PLUGIN MAX
            (fun l c _ =>
               discoveryTimeout c = T
               /\ match l with
                  | SEND_PADI t => t = T
                  | PADI_LOOP a t => 0 <= a /\ 0 <= t <= T * 2 ^ (a + 1)
                  | PADR_LOOP a t => 0 <= a /\ 0 <= t <= T * 2 ^ a
                  | _ => True
                  end)
            (fun r _ => r <> Stop OVERFLOW) _ _ _ fuel _ conn w r w' _ E).
  - intros f l c w0 r0 w1 _ (Hc & Hl) Hs.
    destruct l as [t|a t| |a t| | ].
    + apply pair_equal_spec in Hs as [<- <-]. split; [assumption|].
      subst t. split; [lia|]. split; [assumption|]. rewrite <- (Z.mul_1_r T) at 1.
      apply Z.mul_le_mono_nonneg_l; [assumption|]. simpl. lia.
    + destruct Hl as (Ha & Ht0 & Ht).
      destruct (step_PADI_LOOP_spec PLUGIN any_event (sender c) any_event_other
                  (any_event_frame _ _ _) MAX _ _ _ _ _ _ _ eq_refl Hs)
        as (_ & t0 & a' & Hcase & Hr).
      assert (Hrange : 0 <= a' /\ 0 <= t0 /\ t0 * 2 <= T * 2 ^ (a' + 1)
                       /\ T * 2 ^ (a' + 1) <= INT_MAX).
      { destruct Hcase as [(Hlt & -> & ->)|(Hlt & -> & ->)].
        - apply Z.ltb_ge in Hlt.
          pose proof (pow2_double T (a + 1)) as H1.
          pose proof (pow2_mono T (a + 1 + 1) (MAX + 1) HT) as H2.
          repeat split; lia.
        - rewrite Hc.
          pose proof (pow2_mono T (0 + 1) (MAX + 1) HT) as H2.
          change (T * 2 ^ (0 + 1)) with (T * 2) in *. repeat split; lia. }
      destruct Hrange as (Ha' & Ht0' & Hd & Hb).
      destruct r0 as [[l' c']|o].
      * destruct Hr as (Hc' & Hl'). destruct (config_parts _ _ Hc') as (_ & _ & HT').
        split; [congruence|].
        destruct Hl' as [->|[-> _]]; [exact I|].
        split; [assumption|]. destruct (printACNames c); lia.
      * apply overflow_is_overflow. intros o' Ho. injection Ho as <-.
        destruct (outcome_is_overflow o) eqn:Eo; [|reflexivity].
        destruct (Hr eq_refl) as [_ Hn]. exfalso. apply Hn. lia.
    + cbn [discovery_step] in Hs.
      destruct (printACNames c); [destruct (negb (numPADOs c =? 0))|];
        apply pair_equal_spec in Hs as [<- <-]; try discriminate.
      split; [assumption|]. rewrite Hc. split; [lia|]. simpl. lia.
    + destruct Hl as (Ha & Ht0 & Ht).
      destruct (step_PADR_LOOP_spec PLUGIN any_event (sender c) any_event_other
                  (fun dst => any_event_frame _ _ dst) MAX _ _ _ _ _ _ _ eq_refl Hs)
        as (_ & Hr).
      destruct r0 as [[l' c']|o].
      * destruct Hr as (Hc' & Hl'). destruct (config_parts _ _ Hc') as (_ & _ & HT').
        split; [congruence|].
        destruct Hl' as [(_ & -> & _ & [[_ ->]|[_ ->]])|(Hlt & [[-> _]|[-> _]])];
          try exact I; [congruence|].
        pose proof (pow2_double T a) as H1. split; lia.
      * apply overflow_is_overflow. intros o' Ho. injection Ho as <-.
        destruct (outcome_is_overflow o) eqn:Eo; [|reflexivity].
        destruct (Hr eq_refl) as [Hlt Hn]. exfalso. apply Hn.
        apply Z.ltb_ge in Hlt.
        pose proof (pow2_mono T (a + 1) (MAX + 1) HT) as H2.
        pose proof (pow2_double T a) as H1. lia.
    + destruct (step_PADR_DONE_spec PLUGIN MAX any_event _ _ _ _ _ Hs) as (-> & _).
      split; [assumption|exact I].
    + apply pair_equal_spec in Hs as [<- <-]. split; [assumption|exact I].
  - intros c w0 _. discriminate.
  - intros l c w0 _. discriminate.
  - split; reflexivity.
Qed.

(** X18: when the configured timeout T is not negative and T * 2^(MAX+1) fits
    in an [int], no run of [discovery] reaches the signed overflow of
    [timeout *= 2]. *)
Theorem discovery_timeout_never_overflows (PLUGIN : bool) (MAX : Z) (fuel : nat)
    (conn : PPPoEConnection) (w : World) :
  0 <= discoveryTimeout conn -> 0 <= MAX ->
  discoveryTimeout conn * 2 ^ (MAX + 1) <= INT_MAX ->
  fst (discovery PLUGIN MAX fuel conn w) <> Stop OVERFLOW.
Proof. apply discovery_no_overflow. Qed.

Lemma discovery_timeout_never_overflows_witness :
  fst (discovery false 3 20 conn0 silent_network) <> Stop OVERFLOW.
Proof.
  apply (discovery_timeout_never_overflows false 3 20 conn0 silent_network);
    vm_compute; discriminate.
Defined.

(** C7: with T = [discoveryTimeout], the timeouts of the successive waits
    of [discovery] follow the schedule.  On every run, however it ends,
    wait number k of a phase carries T * 2^k, that is T, 2T, 4T, ..., in
    the PADI phase when not probing and in the PADR phase, and every PADO
    wait of a probe carries T.  When T * 2^(MAX + 1) fits an int, no run
    ends on the overflow of a doubling.  On the silent network the waits
    are there: with T = 5 the PADO waits carry 5, 10, 20 and the PADS waits
    5, 10, 20 again, and the three PADO waits of a probe with T = 2 carry
    2, 2, 2. *)
Theorem backoff_schedule (PLUGIN : bool) (MAX : Z) (fuel : nat) (conn : PPPoEConnection)
    (w : World) :
  backoff_ok (discoveryTimeout conn) (printACNames conn)
    (trace (snd (discovery PLUGIN MAX fuel conn (set_trace [] w))))
  /\ (0 <= discoveryTimeout conn -> 0 <= MAX ->
      discoveryTimeout conn * 2 ^ (MAX + 1) <= INT_MAX ->
      fst (discovery PLUGIN MAX fuel conn (set_trace [] w)) <> Stop OVERFLOW)
  /\ (discoveryTimeout conn0 = 5
      /\ printACNames conn0 = false
      /\ wait_timeouts (trace (snd (discovery false 3 20 conn0 silent_network)))
         = [(false, 5); (false, 10); (false, 20); (true, 5); (true, 10); (true, 20)])
  /\ (discoveryTimeout conn_probe = 2
      /\ printACNames conn_probe = true
      /\ wait_timeouts (trace (snd (discovery false 3 20 conn_probe silent_network)))
         = [(false, 2); (false, 2); (false, 2)]).
Proof.
  split; [apply discovery_backoff_ok|].
  split; [apply discovery_no_overflow|].
  split; (split; [reflexivity|]; split; [reflexivity|]; vm_compute; reflexivity).
Qed.

Lemma backoff_schedule_witness :
  backoff_ok 5 false (trace (snd (discovery false 3 20 conn0 (set_trace [] silent_network))))
  /\ fst (discovery false 3 20 conn0 (set_trace [] silent_network)) <> Stop OVERFLOW
  /\ wait_timeouts (trace (snd (discovery false 3 20 conn0 silent_network)))
     = [(false, 5); (false, 10); (false, 20); (true, 5); (true, 10); (true, 20)]
  /\ wait_timeouts (trace (snd (discovery false 3 20 conn_probe silent_network)))
     = [(false, 2); (false, 2); (false, 2)].
Proof.
  destruct (backoff_schedule false 3 20 conn0 silent_network)
    as (Hok & Hno & (_ & _ & Hsilent) & (_ & _ & Hprobe)).
  split; [exact Hok|]. split; [|split; [exact Hsilent|exact Hprobe]].
  apply Hno; [vm_compute; discriminate|lia|vm_compute; discriminate].
Defined.

(* ------------------------------------------------------------------ *)
(** ** A session id that violates RFC 2516 *)




(** How a run of [discovery] that was not skipped can return: with a
    session (and, in the PLUGIN build, with the MRU options capped unless a
    PPP-Max-Payload tag was seen), or after the PADS timeout diagnostic,
    which is only possible when [persist] is off. *)
Lemma discovery_from_returns (PLUGIN : bool) (MAX : Z) (fuel : nat)
    (conn : PPPoEConnection) (w : World) c' w' :
  discovery_from PLUGIN MAX fuel (SEND_PADI (discoveryTimeout conn)) conn w = (Ok c', w') ->
  discoveryState c' = STATE_SESSION
  /\ (PLUGIN = true ->
      seenMaxPayload c' = true
      \/ lcp_allow_mru w' <= ETH_PPPOE_MTU /\ lcp_want_mru w' <= ETH_PPPOE_MTU)
  \/ persist w = false
     /\ (exists tr, trace w' = EvPrintErr "Timeout waiting for PADS packets" :: tr)
     /\ (1 <= MAX -> discoveryState c' = STATE_SENT_PADR).
Proof.
  intros H.
  set (Ret := fun (c : PPPoEConnection) (w1 : World) =>
         discoveryState c = STATE_SESSION
         /\ (PLUGIN = true ->
             seenMaxPayload c = true
             \/ lcp_allow_mru w1 <= ETH_PPPOE_MTU /\ lcp_want_mru w1 <= ETH_PPPOE_MTU)
         \/ persist w = false
            /\ (exists tr, trace w1 = EvPrintErr "Timeout waiting for PADS packets" :: tr)
            /\ (1 <= MAX -> discoveryState c = STATE_SENT_PADR)).
  refine (discovery_from_inv PLUGIN MAX
            (fun l c w1 =>
               persist w1 = persist w
               /\ match l with
                  | PADR_LOOP a _ => a = 0 \/ 1 <= a /\ discoveryState c = STATE_SENT_PADR
                  | RETURNED => Ret c w1
                  | _ => True
                  end)
            (fun r w1 => match r with Ok c => Ret c w1 | Stop _ => True end)
            _ _ _ fuel _ conn w (Ok c') w' _ H).
  - intros f l c w0 r0 w1 Hl (Hp & Hinv) Hs.
    destruct l as [t|a t| |a t| | ]; try congruence.
    + apply pair_equal_spec in Hs as [<- <-]. now split.
    + destruct (step_PADI_LOOP_spec PLUGIN any_event (sender c) any_event_other
                  (any_event_frame _ _ _) MAX _ _ _ _ _ _ _ eq_refl Hs)
        as ((_ & _ & Hp1 & _) & t0 & a' & _ & Hr).
      destruct r0 as [[l' c1]|o]; [|exact I].
      split; [congruence|]. destruct Hr as (_ & [->|[-> _]]); exact I.
    + cbn [discovery_step] in Hs.
      destruct (printACNames c); [destruct (negb (numPADOs c =? 0))|];
        apply pair_equal_spec in Hs as [<- <-]; try exact I.
      split; [assumption|now left].
    + destruct (step_PADR_LOOP_spec PLUGIN any_event (sender c) any_event_other
                  (fun dst => any_event_frame _ _ dst) MAX _ _ _ _ _ _ _ eq_refl Hs)
        as ((_ & _ & Hp1 & _) & Hr).
      destruct r0 as [[l' c1]|o]; [|exact I].
      split; [congruence|].
      destruct Hr as (_ & [(Hlt & -> & Ht & [[_ ->]|[Hper ->]])|(Hlt & [[-> _]|[-> Hst]])]);
        try exact I.
      * right. split; [congruence|]. split; [eexists; exact Ht|].
        intros HM. apply Z.ltb_lt in Hlt. destruct Hinv as [->|[_ Hst]]; [lia|assumption].
      * right. split; [|assumption]. destruct Hinv as [->|[Ha _]]; lia.
    + destruct (step_PADR_DONE_spec PLUGIN MAX any_event _ _ _ _ _ Hs) as (-> & (_ & _ & Hp1 & _) & Hcap).
      split; [congruence|]. left. split; [reflexivity|]. exact Hcap.
  - intros c w0 [_ Hr]. exact Hr.
  - intros l c w0 _. exact I.
  - split; [reflexivity|exact I].
Qed.

(** X19: in persistent mode [discovery] returns to its caller only with the
    connection in state [STATE_SESSION]; it never gives up. *)
Theorem persist_discovery_returns_with_session (PLUGIN : bool) (MAX : Z) (fuel : nat)
    (conn : PPPoEConnection) (w : World) c' w' :
  persist w = true ->
  discovery PLUGIN MAX fuel conn w = (Ok c', w') ->
  discoveryState c' = STATE_SESSION.
Proof.
  intros Hp. unfold discovery. destruct (skipDiscovery conn).
  - destruct (killSession (set_discoveryState STATE_SESSION conn)); intros H;
      [discriminate|]. apply Ok_inv in H as [-> _]. reflexivity.
  - intros H. apply discovery_from_returns in H as [[Hs _]|(Hper & _)]; congruence.
Qed.

Lemma persist_discovery_returns_with_session_witness :
  exists c w',
    discovery false 3 20 conn0 persistent_offer = (Ok c, w')
    /\ discoveryState c = STATE_SESSION.
Proof.
  eexists _, _. split; [vm_compute; reflexivity|].
  eapply (persist_discovery_returns_with_session false 3 20 conn0 persistent_offer).
  - reflexivity.
  - vm_compute. reflexivity.
Defined.

(** X20: when [discovery] (not skipped, at least one attempt allowed) returns
    without a session, the connection is in state [STATE_SENT_PADR],
    [persist] is off, and the last thing emitted is the diagnostic
    "Timeout waiting for PADS packets". *)
Theorem discovery_gives_up_after_pads_timeout (PLUGIN : bool) (MAX : Z) (fuel : nat)
    (conn : PPPoEConnection) (w : World) c' w' :
  skipDiscovery conn = false -> 1 <= MAX ->
  discovery PLUGIN MAX fuel conn w = (Ok c', w') ->
  discoveryState c' <> STATE_SESSION ->
  discoveryState c' = STATE_SENT_PADR
  /\ persist w = false
  /\ exists tr, trace w' = EvPrintErr "Timeout waiting for PADS packets" :: tr.
Proof.
  intros Hskip HM H Hns. unfold discovery in H. rewrite Hskip in H.
  apply discovery_from_returns in H as [[Hs _]|(Hper & Htr & Hst)]; [congruence|].
  auto.
Qed.

Lemma discovery_gives_up_after_pads_timeout_witness :
  discoveryState (set_discoveryState STATE_SENT_PADR conn0) = STATE_SENT_PADR
  /\ persist silent_network = false
  /\ exists tr, trace (snd (discovery false 3 20 conn0 silent_network))
                = EvPrintErr "Timeout waiting for PADS packets" :: tr.
Proof.
  apply (discovery_gives_up_after_pads_timeout false 3 20 conn0 silent_network).
  - reflexivity.
  - lia.
  - vm_compute. reflexivity.
  - discriminate.
Defined.

(** X21 (PLUGIN build, RFC 4638): when [discovery] returns with a session and
    the connection has recorded no PPP-Max-Payload tag, both MRU options of
    pppd are at most 1492. *)
Theorem session_without_max_payload_caps_mru (MAX : Z) (fuel : nat)
    (conn : PPPoEConnection) (w : World) c' w' :
  skipDiscovery conn = false -> 1 <= MAX ->
  discovery true MAX fuel conn w = (Ok c', w') ->
  discoveryState c' = STATE_SESSION ->
  seenMaxPayload c' = false ->
  lcp_allow_mru w' <= ETH_PPPOE_MTU /\ lcp_want_mru w' <= ETH_PPPOE_MTU.
Proof.
  intros Hskip HM H Hs Hseen. unfold discovery in H. rewrite Hskip in H.
  apply discovery_from_returns in H as [[_ Hcap]|(_ & _ & Hst)].
  - destruct (Hcap eq_refl) as [Hs'|Hc]; [congruence|assumption].
  - rewrite (Hst HM) in Hs. discriminate.
Qed.

Lemma session_without_max_payload_caps_mru_witness :
  lcp_allow_mru (snd (discovery true 3 20 conn0 jumbo_offer)) <= ETH_PPPOE_MTU
  /\ lcp_want_mru (snd (discovery true 3 20 conn0 jumbo_offer)) <= ETH_PPPOE_MTU.
Proof.
  apply (session_without_max_payload_caps_mru 3 20 conn0 jumbo_offer
           (set_session (htons 0x42) (set_discoveryState STATE_SESSION
              (set_peerEth (mac 2) (set_numPADOs 1
                 (set_cookie (mkTag (htons TAG_AC_COOKIE) (htons 4) dead_beef) conn0)))))).
  - reflexivity.
  - lia.
  - vm_compute. reflexivity.
  - reflexivity.
  - reflexivity.
Defined.

(* ------------------------------------------------------------------ *)
(** ** More on the timed receive loop *)

(** X1: before the deadline, [time_left] reads the clock once, returns 1 and
    leaves in [tv] exactly the time remaining, a normalised interval that is
    not negative. *)
Theorem time_left_before_deadline (now expire_at : timeval) (w : World)
    (rest : list (option timeval)) :
  clock w = Some now :: rest ->
  normal now -> normal expire_at -> usecs now < usecs expire_at ->
  exists tv w',
    time_left expire_at w = (Ok (1, tv), w')
    /\ clock w' = rest /\ trace w' = trace w
    /\ usecs tv = usecs expire_at - usecs now
    /\ 0 <= tv_sec tv /\ normal tv.
Proof.
  intros Hc Hn He Hlt.
  destruct (time_left_at_before_deadline now expire_at Hn He Hlt) as (H1 & H2 & H3).
  exists (snd (time_left_at now expire_at)). eexists.
  unfold time_left, bind, gettimeofday. rewrite Hc. unfold ret.
  split; [rewrite <- H1; now destruct (time_left_at now expire_at)|].
  cbn [clock trace]. repeat split; try assumption; try apply H3.
  unfold usecs, normal in *. destruct (snd (time_left_at now expire_at)) as [s u].
  cbn [tv_sec tv_usec] in *. lia.
Qed.

Lemma time_left_before_deadline_witness :
  exists tv w',
    time_left (mkTimeval 105 0) (world [clock_at 100 250000] [] [] false)
    = (Ok (1, tv), w')
    /\ clock w' = [] /\ trace w' = trace (world [clock_at 100 250000] [] [] false)
    /\ usecs tv = usecs (mkTimeval 105 0) - usecs (mkTimeval 100 250000)
    /\ 0 <= tv_sec tv /\ normal tv.
Proof.
  apply (time_left_before_deadline (mkTimeval 100 250000) (mkTimeval 105 0)
           (world [clock_at 100 250000] [] [] false) []).
  - reflexivity.
  - unfold normal; simpl; lia.
  - unfold normal; simpl; lia.
  - unfold usecs; simpl; lia.
Defined.

(** X2: for normalised times, [time_left] reports the timeout (returns 0)
    exactly when the deadline has been reached and either falls in the
    same second as the clock reading or has the same microseconds field. *)
Theorem time_left_zero_iff (now expire_at : timeval) :
  normal now -> normal expire_at ->
  (fst (time_left_at now expire_at) = 0
   <-> usecs expire_at <= usecs now
       /\ (tv_sec expire_at = tv_sec now \/ tv_usec expire_at = tv_usec now)).
Proof.
  unfold normal, usecs, time_left_at. destruct now as [ns nu], expire_at as [es eu].
  cbn [tv_sec tv_usec]. intros Hn He.
  destruct (eu - nu <? 0) eqn:E1.
  - apply Z.ltb_lt in E1.
    destruct (es - ns =? 0) eqn:E2; cbn [negb].
    + apply Z.eqb_eq in E2. cbn [fst]. split; [intros _; lia|reflexivity].
    + apply Z.eqb_neq in E2.
      destruct ((es - ns - 1 <=? 0) && (eu - nu + 1000000 <=? 0)) eqn:E3; cbn [fst].
      * apply andb_true_iff in E3 as [_ E3]. apply Z.leb_le in E3. lia.
      * split; [discriminate|]. intros [_ [H|H]]; lia.
  - apply Z.ltb_ge in E1.
    destruct ((es - ns <=? 0) && (eu - nu <=? 0)) eqn:E3; cbn [fst].
    + apply andb_true_iff in E3 as [E3 E4]. apply Z.leb_le in E3, E4.
      split; [intros _; split; [nia|lia]|reflexivity].
    + split; [discriminate|]. intros [Hle Hor]. exfalso.
      apply andb_false_iff in E3 as [E3|E3]; apply Z.leb_gt in E3; destruct Hor; nia.
Qed.

Lemma time_left_zero_iff_witness :
  fst (time_left_at (mkTimeval 106 0) (mkTimeval 105 0)) = 0
  <-> usecs (mkTimeval 105 0) <= usecs (mkTimeval 106 0)
      /\ (tv_sec (mkTimeval 105 0) = tv_sec (mkTimeval 106 0)
          \/ tv_usec (mkTimeval 105 0) = tv_usec (mkTimeval 106 0)).
Proof.
  apply (time_left_zero_iff (mkTimeval 106 0) (mkTimeval 105 0));
    unfold normal; simpl; lia.
Defined.

(** X7: a [select] interrupted by signals is called again, each time with the
    interval the interrupted call left in [tv]; the first answer that is no
    EINTR failure is the result.  The clock is not read in between. *)
Theorem select_retry_interrupted (pre : list SelectAnswer) :
  forall (a : SelectAnswer) (rest : list SelectAnswer) (fuel : nat) (tv : timeval) (w : World),
    selects w = pre ++ a :: rest ->
    Forall (fun i => sel_r i < 0 /\ sel_errno i = EINTR) pre ->
    0 <= sel_r a \/ sel_errno a <> EINTR ->
    (List.length pre < fuel)%nat ->
    exists w',
      select_retry fuel tv w = (Ok (sel_r a), w')
      /\ selects w' = rest /\ clock w' = clock w /\ inbox w' = inbox w
      /\ trace w' = map EvSelect (rev (tv :: map sel_tv pre)) ++ trace w.
Proof.
  induction pre as [|i pre IH]; intros a rest fuel tv w Hs Hpre Ha Hf.
  - destruct fuel as [|fuel]; [simpl in Hf; lia|].
    cbn [select_retry]. unfold bind, select. cbn [app] in Hs. rewrite Hs.
    assert (Hstop : (0 <=? sel_r a) || negb (sel_errno a =? EINTR) = true).
    { destruct Ha as [Ha|Ha].
      - apply orb_true_iff. left. now apply Z.leb_le.
      - apply orb_true_iff. right. apply negb_true_iff. now apply Z.eqb_neq. }
    rewrite Hstop. eexists. split; [reflexivity|]. cbn. repeat split.
  - destruct fuel as [|fuel]; [simpl in Hf; lia|].
    cbn [select_retry]. unfold bind at 1, select at 1. cbn [app] in Hs. rewrite Hs.
    inversion Hpre as [|? ? [Hr He] Hpre']; subst.
    assert (Hgo : (0 <=? sel_r i) || negb (sel_errno i =? EINTR) = false).
    { apply orb_false_iff. split; [apply Z.leb_gt; lia|].
      apply negb_false_iff. now apply Z.eqb_eq. }
    rewrite Hgo.
    destruct (IH a rest fuel (sel_tv i)
                (mkWorld (clock w) (pre ++ a :: rest) (inbox w) (EvSelect tv :: trace w)
                   (persist w) (lcp_allow_mru w) (lcp_want_mru w)))
      as (w' & H & Hs' & Hc' & Hi' & Ht'); try assumption; try reflexivity.
    { simpl in Hf. lia. }
    exists w'. split; [exact H|]. cbn [clock inbox trace] in *.
    repeat split; try assumption.
    rewrite Ht'. cbn [map rev]. rewrite !map_app, <- !app_assoc. reflexivity.
Qed.

Lemma select_retry_interrupted_witness :
  exists w',
    select_retry 3 (mkTimeval 5 0)
      (world [] [mkSelectAnswer (-1) EINTR (mkTimeval 3 0); ready] [] false)
    = (Ok (sel_r ready), w')
    /\ selects w' = []
    /\ clock w' = clock (world [] [mkSelectAnswer (-1) EINTR (mkTimeval 3 0); ready] [] false)
    /\ inbox w' = inbox (world [] [mkSelectAnswer (-1) EINTR (mkTimeval 3 0); ready] [] false)
    /\ trace w' = map EvSelect (rev (mkTimeval 5 0
                                       :: map sel_tv [mkSelectAnswer (-1) EINTR (mkTimeval 3 0)]))
                  ++ trace (world [] [mkSelectAnswer (-1) EINTR (mkTimeval 3 0); ready] [] false).
Proof.
  apply (select_retry_interrupted [mkSelectAnswer (-1) EINTR (mkTimeval 3 0)] ready []
           3 (mkTimeval 5 0)
           (world [] [mkSelectAnswer (-1) EINTR (mkTimeval 3 0); ready] [] false)).
  - reflexivity.
  - repeat constructor; simpl; lia.
  - left. simpl. lia.
  - simpl. lia.
Defined.

(* ------------------------------------------------------------------ *)
(** ** Which frames are for this engine, and which are accepted *)

Lemma hostuniq_found_iff (hu : list byte) (tags : list TagView) :
  Forall wf_view tags ->
  (hostuniq_found hu tags = true <-> exists v, In v tags /\ host_uniq_match hu v).
Proof.
  intros Hwf. unfold hostuniq_found. rewrite existsb_exists. split.
  - intros (v & Hin & H). exists v. split; [assumption|].
    apply andb_true_iff in H as [H H3]. apply andb_true_iff in H as [H1 H2].
    apply Z.eqb_eq in H1, H2. rewrite Forall_forall in Hwf.
    destruct (Hwf v Hin) as (_ & _ & Hd).
    repeat split; try assumption. apply (memcmp_eq_exact _ _ (snd (fst v))); congruence.
  - intros (v & Hin & H1 & H2 & H3). exists v. split; [assumption|].
    rewrite H1, H2, H3, !Z.eqb_refl. apply memcmp_eq_refl.
Qed.

(** X3: [packetIsForMe] always returns 0 or 1 and leaves the world alone; it
    returns 1 exactly when the first six bytes of the destination address
    are those of [myEth] and, if a Host-Uniq is configured, some tag of the
    frame is a Host-Uniq tag with exactly the configured bytes. *)
Theorem packetIsForMe_decides (conn : PPPoEConnection) (packet : PPPoEPacket) (w : World) :
  exists z,
    packetIsForMe conn packet w = (Ok z, w)
    /\ (z = 0 \/ z = 1)
    /\ (z = 1 <->
        take_bytes ETH_ALEN (h_dest (ethHdr packet)) = take_bytes ETH_ALEN (myEth conn)
        /\ match hostUniq conn with
           | None => True
           | Some hu => exists v, In v (tlv_stream packet) /\ host_uniq_match hu v
           end).
Proof.
  exists (for_me conn packet). split; [apply packetIsForMe_eq|].
  unfold for_me, memcmp_eq.
  destruct (bytes_eqb (take_bytes ETH_ALEN (h_dest (ethHdr packet)))
              (take_bytes ETH_ALEN (myEth conn))) eqn:Ed; cbn [negb].
  - apply bytes_eqb_eq in Ed.
    destruct (hostUniq conn) as [hu|].
    + pose proof (hostuniq_found_iff hu (tlv_stream packet)) as Hf.
      assert (Hwf : Forall wf_view (tlv_stream packet))
        by (apply Forall_forall; intros v; apply tlv_stream_wf).
      specialize (Hf Hwf).
      destruct (hostuniq_found hu (tlv_stream packet)).
      * split; [now right|]. split; [intros _|reflexivity]. split; [assumption|now apply Hf].
      * split; [now left|]. split; [discriminate|]. intros [_ He]. apply Hf in He. discriminate.
    + split; [now right|]. now split.
  - split; [now left|]. split; [discriminate|]. intros [He _].
    apply bytes_eqb_eq in He. congruence.
Qed.

(** X8: a frame that fails one of the checks of [waitForPADO] (declared
    length beyond what was received, not for this engine, code other than
    PADO, broadcast source, or in the PLUGIN build a source other than the
    requested peer) is dropped: the loop continues with the connection
    untouched, nothing is sent and no frame is read. *)
Theorem pado_failing_checks_is_dropped (PLUGIN : bool) (conn : PPPoEConnection)
    (packet : PPPoEPacket) (len : Z) (w : World) :
  pado_guards PLUGIN conn packet len = false ->
  exists w',
    waitForPADO_frame PLUGIN conn packet len w = (Ok (LContinue, conn), w')
    /\ evolves PLUGIN passive w w'
    /\ inbox w' = inbox w.
Proof.
  intros H. unfold pado_guards in H. unfold waitForPADO_frame.
  assert (Hemit : forall e, is_send e = false ->
            evolves PLUGIN passive w (set_trace (e :: trace w) w))
    by (intros e He; apply evolves_emit; unfold passive; now rewrite He).
  destruct (len <? ntohs (pkt_length packet) + HDR_SIZE).
  { eexists. split; [reflexivity|]. split; [now apply Hemit|reflexivity]. }
  unfold bind at 1. rewrite packetIsForMe_eq.
  destruct (for_me conn packet =? 0).
  { eexists. split; [reflexivity|]. split; [apply evolves_refl|reflexivity]. }
  destruct (Byte.eqb (code packet) CODE_PADO).
  2:{ eexists. split; [reflexivity|]. split; [apply evolves_refl|reflexivity]. }
  destruct (BROADCAST (h_source (ethHdr packet))).
  { eexists. split; [reflexivity|]. split; [now apply Hemit|reflexivity]. }
  destruct (PLUGIN && req_peer conn
            && negb (memcmp_eq (h_source (ethHdr packet)) (req_peer_mac conn) ETH_ALEN));
    [|discriminate].
  eexists. split; [reflexivity|]. split; [now apply Hemit|reflexivity].
Qed.

Lemma pado_failing_checks_is_dropped_witness :
  exists w',
    waitForPADO_frame false conn_sent_padi (fst stray_frame) (snd stray_frame)
      (world [] [] [] false) = (Ok (LContinue, conn_sent_padi), w')
    /\ evolves false passive (world [] [] [] false) w'
    /\ inbox w' = inbox (world [] [] [] false).
Proof.
  apply (pado_failing_checks_is_dropped false conn_sent_padi (fst stray_frame)
           (snd stray_frame) (world [] [] [] false)).
  vm_compute. reflexivity.
Defined.

(** X12: [waitForPADS] accepts a frame (leaves its loop by [break]) exactly
    when the frame passes the checks (declared length within what was
    received, source equal to the peer, for this engine, code PADS) and
    holds none of the three error tags; then the state is
    [STATE_SESSION]. *)
Theorem pads_accepted_iff (PLUGIN : bool) (conn : PPPoEConnection)
    (packet : PPPoEPacket) (len : Z) (w : World) :
  (exists c1 w1,
      waitForPADS_frame PLUGIN conn packet len w = (Ok (LBreak, c1), w1)
      /\ discoveryState c1 = STATE_SESSION)
  <-> pads_guards conn packet len = true
      /\ existsb is_error_tag (tlv_stream packet) = false.
Proof.
  split.
  - intros (c1 & w1 & H & _).
    destruct (waitForPADS_frame_accepted _ _ _ _ _ _ _ H) as (Hg & He & _). now split.
  - intros [Hg He].
    destruct (waitForPADS_frame_accepts PLUGIN conn packet len w Hg He) as (c1 & w1 & H).
    exists c1, w1. split; [assumption|].
    now destruct (waitForPADS_frame_accepted _ _ _ _ _ _ _ H) as (_ & _ & Hs & _).
Qed.

(* ------------------------------------------------------------------ *)
(** ** The criteria of a PADO *)

Lemma config_names (c c' : PPPoEConnection) :
  config c' = config c ->
  acName c' = acName c /\ serviceName c' = serviceName c /\ printACNames c' = printACNames c.
Proof. unfold config. intros H. injection H. auto. Qed.

(** What one call of [parsePADOTags] does to the criteria when it returns. *)
Lemma parsePADOTags_criteria (PLUGIN : bool) (t l : Z) (d : list byte) (pc : PacketCriteria)
    (conn : PPPoEConnection) (w : World) pc' conn' w' :
  parsePADOTags PLUGIN t l d (pc, conn) w = (Ok (pc', conn'), w') ->
  seenACName pc' = seenACName pc || (t =? TAG_AC_NAME)
  /\ seenServiceName pc' = seenServiceName pc || (t =? TAG_SERVICE_NAME)
  /\ acNameOK pc'
     = acNameOK pc || match acName conn with
                      | Some n => names n TAG_AC_NAME (t, l, d)
                      | None => false
                      end
  /\ serviceNameOK pc'
     = serviceNameOK pc || match serviceName conn with
                           | Some n => names n TAG_SERVICE_NAME (t, l, d)
                           | None => false
                           end
  /\ gotError pc' = gotError pc || (negb (printACNames conn) && is_error_tag (t, l, d)).
Proof.
  unfold names, is_error_tag. cbn [fst snd].
  unfold parsePADOTags, pado_error_tag, max_payload_tag, print_first_20. cbv beta iota.
  destruct (t =? TAG_AC_NAME) eqn:T1.
  { know_type. cbn [Z.eqb TAG_AC_NAME TAG_SERVICE_NAME TAG_SERVICE_NAME_ERROR
                      TAG_AC_SYSTEM_ERROR TAG_GENERIC_ERROR Pos.eqb orb andb].
    run_M2. split_cases; intros H; apply Ok_inv in H as [H _]; injection H as -> ->;
      cbn [seenACName seenServiceName acNameOK serviceNameOK gotError];
      rewrite ?orb_true_r, ?orb_false_r, ?andb_false_r; repeat split;
      rewrite ?orb_true_r, ?orb_false_r, ?andb_false_r; try reflexivity;
      try (now destruct (serviceName conn)). }
  destruct (t =? TAG_SERVICE_NAME) eqn:T2.
  { know_type. cbn [Z.eqb TAG_AC_NAME TAG_SERVICE_NAME TAG_SERVICE_NAME_ERROR
                      TAG_AC_SYSTEM_ERROR TAG_GENERIC_ERROR Pos.eqb orb andb].
    run_M2. split_cases; intros H; apply Ok_inv in H as [H _]; injection H as -> ->;
      cbn [seenACName seenServiceName acNameOK serviceNameOK gotError];
      rewrite ?orb_true_r, ?orb_false_r, ?andb_false_r; repeat split;
      rewrite ?orb_true_r, ?orb_false_r, ?andb_false_r; try reflexivity;
      try (now destruct (acName conn)). }
  cbn [andb].
  assert (Hnames :
            match acName conn with Some _ => false | None => false end = false
            /\ match serviceName conn with Some _ => false | None => false end = false)
    by (split; [now destruct (acName conn)|now destruct (serviceName conn)]).
  destruct Hnames as [Hn1 Hn2]. rewrite Hn1, Hn2, !orb_false_r.
  destruct (t =? TAG_AC_COOKIE) eqn:T3.
  { know_type. cbn [Z.eqb TAG_AC_COOKIE TAG_SERVICE_NAME_ERROR
                      TAG_AC_SYSTEM_ERROR TAG_GENERIC_ERROR Pos.eqb orb andb].
    run_M2. split_cases; intros H; apply Ok_inv in H as [H _]; injection H as -> ->;
      rewrite ?andb_false_r, ?orb_false_r; repeat split;
      rewrite ?orb_true_r, ?orb_false_r, ?andb_false_r; reflexivity. }
  destruct (t =? TAG_RELAY_SESSION_ID) eqn:T4.
  { know_type. cbn [Z.eqb TAG_RELAY_SESSION_ID TAG_SERVICE_NAME_ERROR
                      TAG_AC_SYSTEM_ERROR TAG_GENERIC_ERROR Pos.eqb orb andb].
    run_M2. split_cases; intros H; apply Ok_inv in H as [H _]; injection H as -> ->;
      rewrite ?andb_false_r, ?orb_false_r; repeat split;
      rewrite ?orb_true_r, ?orb_false_r, ?andb_false_r; reflexivity. }
  destruct (t =? TAG_SERVICE_NAME_ERROR) eqn:T5.
  { cbn [orb]. run_M2. split_cases; intros H; try discriminate;
      apply Ok_inv in H as [H _]; injection H as -> ->; cbn [gotError negb andb];
      rewrite ?orb_true_r, ?orb_false_r; repeat split;
      rewrite ?orb_true_r, ?orb_false_r, ?andb_false_r; reflexivity. }
  destruct (t =? TAG_AC_SYSTEM_ERROR) eqn:T6.
  { cbn [orb]. run_M2. split_cases; intros H; try discriminate;
      apply Ok_inv in H as [H _]; injection H as -> ->; cbn [gotError negb andb];
      rewrite ?orb_true_r, ?orb_false_r; repeat split;
      rewrite ?orb_true_r, ?orb_false_r, ?andb_false_r; reflexivity. }
  destruct (t =? TAG_GENERIC_ERROR) eqn:T7.
  { cbn [orb]. run_M2. split_cases; intros H; try discriminate;
      apply Ok_inv in H as [H _]; injection H as -> ->; cbn [gotError negb andb];
      rewrite ?orb_true_r, ?orb_false_r; repeat split;
      rewrite ?orb_true_r, ?orb_false_r, ?andb_false_r; reflexivity. }
  cbn [orb]. rewrite andb_false_r, orb_false_r.
  run_M2. split_cases; intros H; apply Ok_inv in H as [H _]; injection H as -> ->;
    repeat split.
Qed.

(** What the walk of [parsePADOTags] leaves in the criteria when it
    returns. *)
Lemma visit_PADO_criteria (PLUGIN : bool) (tags : list TagView) :
  forall pc conn w pc' conn' w',
    visit_tags (parsePADOTags PLUGIN) tags (pc, conn) w = (Ok (pc', conn'), w') ->
    seenACName pc' = seenACName pc || has_tag TAG_AC_NAME tags
    /\ seenServiceName pc' = seenServiceName pc || has_tag TAG_SERVICE_NAME tags
    /\ acNameOK pc'
       = acNameOK pc || match acName conn with
                        | Some n => existsb (names n TAG_AC_NAME) tags
                        | None => false
                        end
    /\ serviceNameOK pc'
       = serviceNameOK pc || match serviceName conn with
                             | Some n => existsb (names n TAG_SERVICE_NAME) tags
                             | None => false
                             end
    /\ gotError pc' = gotError pc || (negb (printACNames conn) && existsb is_error_tag tags).
Proof.
  induction tags as [|[[t l] d] tags IH]; intros pc conn w pc' conn' w' H.
  - apply Ok_inv in H as [H _]. injection H as -> ->. unfold has_tag. cbn [existsb].
    rewrite andb_false_r.
    repeat split; rewrite ?orb_false_r; try reflexivity;
      [destruct (acName conn)|destruct (serviceName conn)]; now rewrite orb_false_r.
  - cbn [visit_tags] in H. apply bind_Ok in H as ([pc1 c1] & w1 & H1 & H2).
    pose proof (quietly_parsePADOTags PLUGIN t l d pc conn w _ _ H1) as (_ & _ & Hp).
    destruct (Hp (pc1, c1) eq_refl) as (Hcfg & _). cbn [snd] in Hcfg.
    destruct (config_names _ _ Hcfg) as (Hac & Hsn & Hpr).
    destruct (parsePADOTags_criteria _ _ _ _ _ _ _ _ _ _ H1) as (A1 & A2 & A3 & A4 & A5).
    destruct (IH _ _ _ _ _ _ H2) as (B1 & B2 & B3 & B4 & B5).
    rewrite Hac, Hsn, Hpr in *.
    rewrite B1, B2, B3, B4, B5, A1, A2, A3, A4, A5.
    unfold has_tag. cbn [existsb fst snd].
    repeat split; rewrite <- ?orb_assoc; try reflexivity.
    + now destruct (acName conn).
    + now destruct (serviceName conn).
    + f_equal. now destruct (printACNames conn).
Qed.

(** A stream without error tags is walked to its end. *)
Lemma visit_PADO_plain (PLUGIN : bool) (tags : list TagView) :
  forall pc conn w,
    existsb is_error_tag tags = false ->
    exists pc' conn' w', visit_tags (parsePADOTags PLUGIN) tags (pc, conn) w
                         = (Ok (pc', conn'), w').
Proof.
  induction tags as [|[[t l] d] tags IH]; intros pc conn w He.
  - eexists _, _, _. reflexivity.
  - cbn [existsb] in He. apply orb_false_iff in He as [He1 He2].
    destruct (parsePADOTags_plain PLUGIN t l d pc conn w He1) as (pc1 & c1 & w1 & H1 & _).
    destruct (IH pc1 c1 w1 He2) as (pc2 & c2 & w2 & H2).
    exists pc2, c2, w2. cbn [visit_tags]. unfold bind. now rewrite H1.
Qed.

(** The verdict of [waitForPADO] on a PADO that passed the checks, from the
    criteria the walk returned. *)
Lemma pado_after_guards_verdict (PLUGIN : bool) (conn : PPPoEConnection)
    (packet : PPPoEPacket) (w : World) ctl c1 w1 :
  pado_after_guards PLUGIN conn packet w = (Ok (ctl, c1), w1) ->
  exists pc c w2,
    visit_tags (parsePADOTags PLUGIN) (tlv_stream packet) (initial_criteria conn, conn)
      (snd ((if printACNames conn && (0 <? numPADOs conn) then printf "\n" [] else ret tt) w))
    = (Ok (pc, c), w2)
    /\ parsed_from conn c
    /\ (if gotError pc || negb (seenACName pc) || negb (seenServiceName pc)
        then ctl = LContinue /\ c1 = c
        else if acNameOK pc && serviceNameOK pc
             then if printACNames conn
                  then ctl = LContinue
                       /\ c1 = set_peerEth (memcpy (peerEth c) (h_source (ethHdr packet)) ETH_ALEN)
                                 (set_numPADOs (numPADOs c + 1) c)
                  else ctl = LBreak
                       /\ c1 = set_discoveryState STATE_RECEIVED_PADO
                                 (set_peerEth (memcpy (peerEth c) (h_source (ethHdr packet)) ETH_ALEN)
                                    (set_numPADOs (numPADOs c + 1) c))
             else ctl = LContinue /\ c1 = set_numPADOs (numPADOs c + 1) c).
Proof.
  unfold pado_after_guards. intros H.
  apply bind_Ok in H as ([] & w0 & H0 & H).
  apply bind_Ok in H as ([pc c] & w2 & Hv & H).
  unfold parsePacket in Hv.
  exists pc, c, w2.
  pose proof (quietly_visit_PADO PLUGIN _ _ _ _ _ _ Hv) as (_ & _ & Hp).
  specialize (Hp (pc, c) eq_refl). cbn [snd] in Hp.
  destruct Hp as (Hcfg & Hrest). destruct (config_names _ _ Hcfg) as (_ & _ & Hpr).
  split; [now rewrite H0|]. split; [now split|].
  revert H. cbv zeta. cbn [printACNames set_peerEth set_numPADOs]. rewrite Hpr.
  run_M2.
  destruct (gotError pc); cbn [orb].
  { intros H. apply Ok_inv in H as [H _]. injection H as -> ->. now split. }
  destruct (seenACName pc); cbn [negb orb].
  2:{ intros H. apply Ok_inv in H as [H _]. injection H as -> ->. now split. }
  destruct (seenServiceName pc); cbn [negb orb].
  2:{ intros H. apply Ok_inv in H as [H _]. injection H as -> ->. now split. }
  destruct (acNameOK pc && serviceNameOK pc).
  2:{ intros H. apply Ok_inv in H as [H _]. injection H as -> ->. now split. }
  destruct (printACNames conn);
    intros H; apply Ok_inv in H as [H _]; injection H as -> ->; now split.
Qed.

Lemma filter_ok_initial (name : option (list byte)) (ty : Z) (tags : list TagView) :
  (match name with Some _ => false | None => true end)
  || match name with Some n => existsb (names n ty) tags | None => false end
  = filter_ok name ty tags.
Proof. now destruct name. Qed.

Lemma waitForPADO_frame_numPADOs (PLUGIN : bool) (conn : PPPoEConnection)
    (packet : PPPoEPacket) (len : Z) (w : World) ctl c1 w1 :
  waitForPADO_frame PLUGIN conn packet len w = (Ok (ctl, c1), w1) ->
  numPADOs c1
  = numPADOs conn + (if pado_counted PLUGIN conn packet len then 1 else 0).
Proof.
  intros H. unfold pado_counted.
  destruct (pado_guards PLUGIN conn packet len) eqn:G; cbn [andb].
  2:{ destruct (waitForPADO_frame_unguarded PLUGIN conn packet len w G) as (w' & H').
      rewrite H' in H. apply Ok_inv in H as [H _]. injection H as -> ->. lia. }
  rewrite waitForPADO_frame_guarded in H by assumption.
  destruct (pado_after_guards_verdict _ _ _ _ _ _ _ H) as (pc & c & w2 & Hv & Hp & Hverdict).
  destruct (visit_PADO_criteria _ _ _ _ _ _ _ _ Hv) as (S1 & S2 & _ & _ & S5).
  cbn [initial_criteria seenACName seenServiceName gotError orb] in S1, S2, S5.
  destruct Hp as (_ & _ & _ & Hn & _).
  rewrite S1, S2, S5 in Hverdict.
  destruct (printACNames conn); cbn [negb andb orb] in *;
    destruct (existsb is_error_tag (tlv_stream packet)); cbn [negb andb orb] in *;
    destruct (has_tag TAG_AC_NAME (tlv_stream packet)); cbn [negb andb orb] in *;
    destruct (has_tag TAG_SERVICE_NAME (tlv_stream packet)); cbn [negb andb orb] in *;
    try (destruct Hverdict as [_ ->]; lia);
    destruct (acNameOK pc && serviceNameOK pc);
    destruct Hverdict as [_ ->]; cbn [numPADOs set_discoveryState set_peerEth set_numPADOs]; lia.
Qed.

(** X9: a PADO counts as an offer ([numPADOs] is incremented, by one) exactly
    when it passes the checks of [waitForPADO], holds an AC-Name tag and a
    Service-Name tag and, outside probe mode, no error tag; whether the
    name filters match does not matter.  Any other frame leaves [numPADOs]
    as it was. *)
Theorem numPADOs_counts_offers (PLUGIN : bool) (conn : PPPoEConnection)
    (packet : PPPoEPacket) (len : Z) (w : World) ctl c1 w1 :
  waitForPADO_frame PLUGIN conn packet len w = (Ok (ctl, c1), w1) ->
  numPADOs c1
  = numPADOs conn + (if pado_counted PLUGIN conn packet len then 1 else 0).
Proof. apply waitForPADO_frame_numPADOs. Qed.

Lemma numPADOs_counts_offers_witness :
  exists ctl c1 w1,
    waitForPADO_frame false (with_acName gold conn_sent_padi) (fst pado_silver)
      (snd pado_silver) (world [] [] [] false) = (Ok (ctl, c1), w1)
    /\ numPADOs c1
       = numPADOs (with_acName gold conn_sent_padi)
         + (if pado_counted false (with_acName gold conn_sent_padi) (fst pado_silver)
                 (snd pado_silver)
            then 1 else 0).
Proof.
  eexists _, _, _. split; [vm_compute; reflexivity|].
  eapply (numPADOs_counts_offers false (with_acName gold conn_sent_padi) (fst pado_silver)
            (snd pado_silver) (world [] [] [] false)).
  vm_compute. reflexivity.
Defined.

Lemma waitForPADO_frame_break (PLUGIN : bool) (conn : PPPoEConnection)
    (packet : PPPoEPacket) (len : Z) (w : World) :
  (exists c1 w1,
      waitForPADO_frame PLUGIN conn packet len w = (Ok (LBreak, c1), w1)
      /\ discoveryState c1 = STATE_RECEIVED_PADO
      /\ peerEth c1 = memcpy (peerEth conn) (h_source (ethHdr packet)) ETH_ALEN
      /\ numPADOs c1 = numPADOs conn + 1)
  <-> pado_acceptable PLUGIN conn packet len = true.
Proof.
  unfold pado_acceptable, pado_counted. split.
  - intros (c1 & w1 & H & _).
    destruct (waitForPADO_frame_accepted _ _ _ _ _ _ _ H) as (G & Hprobe & _).
    rewrite waitForPADO_frame_guarded in H by assumption.
    destruct (pado_after_guards_verdict _ _ _ _ _ _ _ H) as (pc & c & w2 & Hv & Hp & Hverdict).
    destruct (visit_PADO_criteria _ _ _ _ _ _ _ _ Hv) as (S1 & S2 & S3 & S4 & S5).
    cbn [initial_criteria seenACName seenServiceName gotError acNameOK serviceNameOK orb]
      in S1, S2, S3, S4, S5.
    rewrite filter_ok_initial in S3, S4.
    rewrite G, Hprobe. rewrite Hprobe in S5. cbn [negb andb orb] in *.
    rewrite S1, S2, S3, S4, S5 in Hverdict.
    destruct (existsb is_error_tag (tlv_stream packet)); cbn [negb andb orb] in *;
      [destruct Hverdict; discriminate|].
    destruct (has_tag TAG_AC_NAME (tlv_stream packet)); cbn [negb andb orb] in *;
      [|destruct Hverdict; discriminate].
    destruct (has_tag TAG_SERVICE_NAME (tlv_stream packet)); cbn [negb andb orb] in *;
      [|destruct Hverdict; discriminate].
    destruct (filter_ok (acName conn) TAG_AC_NAME (tlv_stream packet)); cbn [andb] in *;
      [|destruct Hverdict; discriminate].
    destruct (filter_ok (serviceName conn) TAG_SERVICE_NAME (tlv_stream packet));
      [reflexivity|destruct Hverdict; discriminate].
  - intros H.
    apply andb_true_iff in H as [H F2]. apply andb_true_iff in H as [H F1].
    apply andb_true_iff in H as [H Hprobe]. apply negb_true_iff in Hprobe.
    apply andb_true_iff in H as [H T2]. apply andb_true_iff in H as [H T1].
    apply andb_true_iff in H as [G He]. rewrite Hprobe in He. cbn [orb] in He.
    apply negb_true_iff in He.
    assert (Hex : exists c1 w1, waitForPADO_frame PLUGIN conn packet len w
                                = (Ok (LBreak, c1), w1)).
    { rewrite waitForPADO_frame_guarded by assumption.
      unfold pado_after_guards. rewrite Hprobe. cbn [andb]. unfold bind at 1, ret at 1.
      unfold parsePacket.
      destruct (visit_PADO_plain PLUGIN (tlv_stream packet) (initial_criteria conn) conn w He)
        as (pc & c & w2 & Hv).
      unfold bind at 1. rewrite Hv.
      destruct (visit_PADO_criteria _ _ _ _ _ _ _ _ Hv) as (S1 & S2 & S3 & S4 & S5).
      cbn [initial_criteria seenACName seenServiceName gotError acNameOK serviceNameOK orb]
        in S1, S2, S3, S4, S5.
      rewrite filter_ok_initial in S3, S4.
      rewrite He, andb_false_r in S5. rewrite T1 in S1. rewrite T2 in S2.
      rewrite F1 in S3. rewrite F2 in S4.
      pose proof (quietly_visit_PADO PLUGIN _ _ _ _ _ _ Hv) as (_ & _ & Hp).
      specialize (Hp (pc, c) eq_refl). cbn [snd] in Hp. destruct Hp as (Hcfg & _).
      destruct (config_names _ _ Hcfg) as (_ & _ & Hpr).
      cbv zeta. cbn [printACNames set_peerEth set_numPADOs].
      rewrite S1, S2, S3, S4, S5, Hpr, Hprobe. cbn [negb andb].
      eexists _, _. reflexivity. }
    destruct Hex as (c1 & w1 & Hc1). exists c1, w1. split; [assumption|].
    destruct (waitForPADO_frame_accepted _ _ _ _ _ _ _ Hc1) as (_ & _ & Hs & Hpe & _).
    split; [assumption|]. split; [assumption|].
    rewrite (waitForPADO_frame_numPADOs _ _ _ _ _ _ _ _ Hc1).
    unfold pado_counted. rewrite G, Hprobe, He, T1, T2. reflexivity.
Qed.

(** X10: [waitForPADO] accepts a frame (leaves its loop by [break]) exactly
    when the engine is not probing and the frame passes the checks, holds
    an AC-Name and a Service-Name tag and no error tag, and passes each
    configured name filter; acceptance makes the frame's source the peer,
    counts the offer and sets the state to [STATE_RECEIVED_PADO]. *)
Theorem pado_accepted_iff (PLUGIN : bool) (conn : PPPoEConnection)
    (packet : PPPoEPacket) (len : Z) (w : World) :
  (exists c1 w1,
      waitForPADO_frame PLUGIN conn packet len w = (Ok (LBreak, c1), w1)
      /\ discoveryState c1 = STATE_RECEIVED_PADO
      /\ peerEth c1 = memcpy (peerEth conn) (h_source (ethHdr packet)) ETH_ALEN
      /\ numPADOs c1 = numPADOs conn + 1)
  <-> pado_acceptable PLUGIN conn packet len = true.
Proof. apply waitForPADO_frame_break. Qed.

(* ------------------------------------------------------------------ *)
(** ** The receive loops, end to end *)

Lemma evolves_inbox (P : bool) (ev : Event -> bool) (w w' : World) x :
  evolves P ev w w' -> In x (inbox w') -> In x (inbox w).
Proof.
  intros (_ & (taken & Hi) & _) Hin. rewrite Hi. apply in_or_app. now right.
Qed.

Lemma any_outcome_other (o : Outcome) : outcome_is_overflow o = false -> any_outcome o = true.
Proof. reflexivity. Qed.

(** The checks of both loops read the connection's configuration and, for
    a PADS, the peer address; the tag parsers change neither. *)
Lemma pads_guards_parsed (c c' : PPPoEConnection) (packet : PPPoEPacket) (len : Z) :
  config c' = config c -> peerEth c' = peerEth c ->
  pads_guards c' packet len = pads_guards c packet len.
Proof.
  intros Hcfg Hpeer. unfold pads_guards, for_me. rewrite Hpeer.
  unfold config in Hcfg. injection Hcfg as -> _ _ _ _ -> _ _ _ _. reflexivity.
Qed.

Lemma pado_acceptable_config (PLUGIN : bool) (c c' : PPPoEConnection)
    (packet : PPPoEPacket) (len : Z) :
  config c' = config c ->
  pado_acceptable PLUGIN c' packet len = pado_acceptable PLUGIN c packet len.
Proof.
  intros Hcfg. unfold pado_acceptable, pado_counted, pado_guards, for_me.
  unfold config in Hcfg. injection Hcfg as -> -> -> -> -> -> -> _ _ _. reflexivity.
Qed.

(** The verdict of [waitForPADS] on a frame. *)
Lemma waitForPADS_frame_verdict (PLUGIN : bool) (conn : PPPoEConnection)
    (packet : PPPoEPacket) (len : Z) (w : World) ctl c1 w1 :
  waitForPADS_frame PLUGIN conn packet len w = (Ok (ctl, c1), w1) ->
  config c1 = config conn /\ peerEth c1 = peerEth conn /\ session c1 = session conn
  /\ (ctl = LBreak /\ discoveryState c1 = STATE_SESSION
      /\ pads_guards conn packet len = true
      /\ existsb is_error_tag (tlv_stream packet) = false
      \/ ctl = LContinue /\ discoveryState c1 = discoveryState conn).
Proof.
  rewrite waitForPADS_frame_eq.
  destruct (pads_guards conn packet len) eqn:G.
  2:{ destruct (len <? ntohs (pkt_length packet) + HDR_SIZE); intros H;
        apply Ok_inv in H as [H _]; injection H as -> ->; repeat split; now right. }
  unfold parsePacket. intros H. apply bind_Ok in H as (c & w2 & Hv & H).
  pose proof (quietly_visit_PADS PLUGIN _ _ _ _ _ Hv) as (_ & _ & Hp).
  destruct (Hp c eq_refl) as (Hcfg & Hs & Hpeer & _ & Hsess).
  destruct (visit_PADS_result PLUGIN (tlv_stream packet) (set_PADSHadError false conn) w)
    as (c0 & w0 & Hv0 & _ & He & _).
  rewrite Hv in Hv0. apply Ok_inv in Hv0 as [<- _].
  cbn [PADSHadError set_PADSHadError orb] in He. rewrite He in H.
  destruct (existsb is_error_tag (tlv_stream packet)); cbn [negb] in H;
    apply Ok_inv in H as [H _]; injection H as -> ->;
    (split; [exact Hcfg|]); (split; [exact Hpeer|]); (split; [exact Hsess|]).
  - right. split; [reflexivity|exact Hs].
  - left. repeat split.
Qed.

(** One iteration of the loop of [waitForPADS]. *)
Lemma waitForPADS_body_verdict (PLUGIN : bool) (fuel : nat) (expire_at : timeval)
    (conn : PPPoEConnection) (w : World) ctl pkt c1 w1 :
  waitForPADS_body PLUGIN fuel expire_at conn w = (Ok (ctl, pkt, c1), w1) ->
  (forall x, In x (inbox w1) -> In x (inbox w))
  /\ config c1 = config conn /\ peerEth c1 = peerEth conn /\ session c1 = session conn
  /\ (ctl = LReturn /\ pkt = None /\ c1 = conn
      \/ exists packet len,
           pkt = Some packet /\ In (packet, len) (inbox w)
           /\ (ctl = LBreak /\ discoveryState c1 = STATE_SESSION
               /\ pads_guards conn packet len = true
               /\ existsb is_error_tag (tlv_stream packet) = false
               \/ ctl = LContinue /\ discoveryState c1 = discoveryState conn)).
Proof.
  intros H.
  assert (Hin : forall x, In x (inbox w1) -> In x (inbox w)).
  { intros x. eapply evolves_inbox.
    exact (proj1 (within_waitForPADS_body PLUGIN any_event any_outcome any_outcome_other
                    any_event_other _ _ _ _ _ _ H)). }
  split; [exact Hin|].
  unfold waitForPADS_body in H.
  apply bind_Ok in H as ([remaining tv] & w2 & H2 & H).
  destruct (remaining =? 0).
  { apply Ok_inv in H as [H _]. injection H as -> -> ->. repeat split. now left. }
  apply bind_Ok in H as (r & w3 & H3 & H).
  destruct (r <? 0); [discriminate|].
  destruct (r =? 0).
  { apply Ok_inv in H as [H _]. injection H as -> -> ->. repeat split. now left. }
  apply bind_Ok in H as ([packet len] & w4 & H4 & H).
  apply bind_Ok in H as ([ctl' c'] & w5 & H5 & H).
  apply Ok_inv in H as [H ->]. injection H as -> -> ->.
  destruct (waitForPADS_frame_verdict _ _ _ _ _ _ _ _ H5) as (Hcfg & Hpeer & Hsess & Hv).
  repeat split; try assumption. right. exists packet, len.
  split; [reflexivity|]. split; [|exact Hv].
  assert (Hhead : In (packet, len) (inbox w3)).
  { unfold receivePacket in H4. destruct (inbox w3) as [|p rest]; [discriminate|].
    apply Ok_inv in H4 as [-> _]. now left. }
  eapply evolves_inbox;
    [exact (proj1 (within_time_left PLUGIN any_event any_outcome any_outcome_other _ _ _ _ H2))|].
  eapply evolves_inbox;
    [exact (proj1 (within_select_retry PLUGIN any_event any_outcome any_outcome_other
                     any_event_other _ _ _ _ _ H3))|].
  exact Hhead.
Qed.

(** The loop of [waitForPADS], entered in a state other than
    [STATE_SESSION]. *)
Lemma waitForPADS_loop_verdict (PLUGIN : bool) (expire_at : timeval) (fuel : nat) :
  forall (conn : PPPoEConnection) (w : World) pkt c' w',
    waitForPADS_loop PLUGIN fuel expire_at conn w = (Ok (pkt, c'), w') ->
    discoveryState conn <> STATE_SESSION ->
    config c' = config conn /\ peerEth c' = peerEth conn /\ session c' = session conn
    /\ (pkt = None /\ discoveryState c' = discoveryState conn
        \/ exists packet len,
             pkt = Some packet /\ In (packet, len) (inbox w)
             /\ discoveryState c' = STATE_SESSION
             /\ pads_guards conn packet len = true
             /\ existsb is_error_tag (tlv_stream packet) = false).
Proof.
  induction fuel as [|fuel IH]; intros conn w pkt c' w' H Hns; [discriminate|].
  cbn [waitForPADS_loop] in H.
  apply bind_Ok in H as ([[ctl p1] c1] & w1 & H1 & H).
  destruct (waitForPADS_body_verdict _ _ _ _ _ _ _ _ _ H1)
    as (Hin & Hcfg & Hpeer & Hsess & Hv).
  destruct Hv as [(-> & -> & ->)|(packet & len & -> & Hpk & [(-> & Hs & Hg & He)|(-> & Hs)])].
  - apply Ok_inv in H as [H _]. injection H as -> ->. repeat split. now left.
  - apply Ok_inv in H as [H _]. injection H as -> ->.
    repeat split; try assumption. right. now exists packet, len.
  - assert (Hns1 : discoveryState c1 <> STATE_SESSION) by congruence.
    destruct (state_eqb (discoveryState c1) STATE_SESSION) eqn:E;
      [apply state_eqb_eq in E; contradiction|].
    cbn [negb] in H.
    destruct (IH _ _ _ _ _ H Hns1) as (Hcfg2 & Hpeer2 & Hsess2 & Hv2).
    split; [congruence|]. split; [congruence|]. split; [congruence|].
    destruct Hv2 as [(-> & Hs2)|(packet2 & len2 & -> & Hpk2 & Hs2 & Hg2 & He2)].
    + left. split; [reflexivity|congruence].
    + right. exists packet2, len2. split; [reflexivity|]. split; [now apply Hin|].
      split; [assumption|]. split; [|assumption].
      now rewrite <- (pads_guards_parsed conn c1 packet2 len2 Hcfg Hpeer).
Qed.

Lemma waitForPADS_verdict (PLUGIN : bool) (fuel : nat) (conn : PPPoEConnection)
    (timeout : Z) (w : World) c' w' :
  discoveryState conn <> STATE_SESSION ->
  waitForPADS PLUGIN fuel conn timeout w = (Ok c', w') ->
  config c' = config conn /\ peerEth c' = peerEth conn
  /\ (discoveryState c' = discoveryState conn /\ session c' = session conn
      \/ discoveryState c' = STATE_SESSION
         /\ exists packet len,
              In (packet, len) (inbox w)
              /\ pads_guards conn packet len = true
              /\ existsb is_error_tag (tlv_stream packet) = false
              /\ session c' = pkt_session packet).
Proof.
  intros Hns H. unfold waitForPADS in H.
  apply bind_Ok in H as ([] & w0 & H0 & H).
  apply Ok_inv in H0 as [_ ->].
  apply bind_Ok in H as (r & w1 & H1 & H).
  assert (Hi1 : inbox w1 = inbox w).
  { unfold gettimeofday in H1. cbn [clock set_trace] in H1.
    destruct (clock w); [discriminate|]. apply Ok_inv in H1 as [_ ->]. reflexivity. }
  destruct r as [now|]; [|discriminate].
  apply bind_Ok in H as ([pkt c1] & w2 & H2 & H).
  destruct (waitForPADS_loop_verdict _ _ _ _ _ _ _ _ H2 Hns) as (Hcfg & Hpeer & Hsess & Hv).
  destruct Hv as [(-> & Hs)|(packet & len & -> & Hpk & Hs & Hg & He)].
  - apply Ok_inv in H as [-> _]. repeat split; try assumption. now left.
  - unfold waitForPADS_finish in H. revert H. run_M2.
    destruct ((ntohs (session (set_session (pkt_session packet) c1)) =? 0)
              || (ntohs (session (set_session (pkt_session packet) c1)) =? 65535));
      intros H; apply Ok_inv in H as [-> _]; cbn;
      (split; [exact Hcfg|]); (split; [exact Hpeer|]); right;
      (split; [exact Hs|]); exists packet, len; rewrite <- Hi1; repeat split; assumption.
Qed.

(** X14: [waitForPADS], entered in a state other than [STATE_SESSION], either
    returns with state and session id as they were, or with state
    [STATE_SESSION] and the session id of a frame it received, which passed
    the checks (in particular: it came from the peer and has code PADS) and
    held no error tag.  The peer address is not changed. *)
Theorem waitForPADS_takes_session_from_peer (PLUGIN : bool) (fuel : nat)
    (conn : PPPoEConnection) (timeout : Z) (w : World) c' w' :
  discoveryState conn <> STATE_SESSION ->
  waitForPADS PLUGIN fuel conn timeout w = (Ok c', w') ->
  peerEth c' = peerEth conn
  /\ (discoveryState c' = discoveryState conn /\ session c' = session conn
      \/ discoveryState c' = STATE_SESSION
         /\ exists packet len,
              In (packet, len) (inbox w)
              /\ pads_guards conn packet len = true
              /\ existsb is_error_tag (tlv_stream packet) = false
              /\ session c' = pkt_session packet).
Proof.
  intros Hns H. now destruct (waitForPADS_verdict _ _ _ _ _ _ _ Hns H) as (_ & Hp & Hv).
Qed.

(** The verdict of [waitForPADO] on a frame outside probe mode. *)
Lemma waitForPADO_frame_verdict (PLUGIN : bool) (conn : PPPoEConnection)
    (packet : PPPoEPacket) (len : Z) (w : World) ctl c1 w1 :
  printACNames conn = false ->
  waitForPADO_frame PLUGIN conn packet len w = (Ok (ctl, c1), w1) ->
  config c1 = config conn
  /\ (ctl = LBreak /\ discoveryState c1 = STATE_RECEIVED_PADO
      /\ pado_acceptable PLUGIN conn packet len = true
      /\ peerEth c1 = memcpy (peerEth conn) (h_source (ethHdr packet)) ETH_ALEN
      \/ ctl = LContinue /\ discoveryState c1 = discoveryState conn
         /\ peerEth c1 = peerEth conn).
Proof.
  intros Hprobe H.
  pose proof (quietly_waitForPADO_frame PLUGIN conn packet len w _ _ H) as (_ & _ & Hcfg).
  specialize (Hcfg _ eq_refl). cbn [snd] in Hcfg. split; [exact Hcfg|].
  destruct ctl.
  - right. split; [reflexivity|].
    destruct (pado_guards PLUGIN conn packet len) eqn:G.
    2:{ destruct (waitForPADO_frame_unguarded PLUGIN conn packet len w G) as (w' & H').
        rewrite H' in H. apply Ok_inv in H as [H _]. injection H as ->. now split. }
    rewrite waitForPADO_frame_guarded in H by assumption.
    destruct (pado_after_guards_verdict _ _ _ _ _ _ _ H) as (pc & c & w2 & _ & Hp & Hv).
    destruct Hp as (_ & Hs & Hpeer & _).
    rewrite Hprobe in Hv.
    destruct (gotError pc || negb (seenACName pc) || negb (seenServiceName pc));
      [destruct Hv as [_ ->]; now split|].
    destruct (acNameOK pc && serviceNameOK pc); destruct Hv as [Hc ->];
      [discriminate|now split].
  - left. split; [reflexivity|].
    assert (Hb : exists c1' w1',
               waitForPADO_frame PLUGIN conn packet len w = (Ok (LBreak, c1'), w1'))
      by (now exists c1, w1).
    destruct (waitForPADO_frame_accepted _ _ _ _ _ _ _ H) as (_ & _ & Hs & Hpeer & _).
    split; [assumption|]. split; [|assumption].
    apply (waitForPADO_frame_break PLUGIN conn packet len w).
    exists c1, w1. split; [assumption|]. split; [assumption|]. split; [assumption|].
    rewrite (waitForPADO_frame_numPADOs _ _ _ _ _ _ _ _ H).
    destruct (pado_counted PLUGIN conn packet len) eqn:Ec; [reflexivity|].
    exfalso.
    destruct (waitForPADO_frame_accepted _ _ _ _ _ _ _ H) as (G & _).
    rewrite waitForPADO_frame_guarded in H by assumption.
    destruct (pado_after_guards_verdict _ _ _ _ _ _ _ H) as (pc & c & w2 & Hv & _ & Hverdict).
    destruct (visit_PADO_criteria _ _ _ _ _ _ _ _ Hv) as (S1 & S2 & _ & _ & S5).
    cbn [initial_criteria seenACName seenServiceName gotError orb] in S1, S2, S5.
    unfold pado_counted in Ec. rewrite G, Hprobe in Ec. rewrite Hprobe in S5.
    cbn [andb orb negb] in *.
    rewrite S1, S2, S5, Hprobe in Hverdict.
    destruct (existsb is_error_tag (tlv_stream packet)); cbn [negb andb orb] in *;
      [destruct Hverdict; discriminate|].
    destruct (has_tag TAG_AC_NAME (tlv_stream packet)); cbn [negb andb orb] in *;
      [|destruct Hverdict; discriminate].
    destruct (has_tag TAG_SERVICE_NAME (tlv_stream packet)); cbn [negb andb orb] in *;
      [discriminate|destruct Hverdict; discriminate].
  - exfalso.
    destruct (pado_guards PLUGIN conn packet len) eqn:G.
    2:{ destruct (waitForPADO_frame_unguarded PLUGIN conn packet len w G) as (w' & H').
        rewrite H' in H. apply Ok_inv in H as [H _]. discriminate. }
    rewrite waitForPADO_frame_guarded in H by assumption.
    destruct (pado_after_guards_verdict _ _ _ _ _ _ _ H) as (pc & c & w2 & _ & _ & Hv).
    rewrite Hprobe in Hv.
    destruct (gotError pc || negb (seenACName pc) || negb (seenServiceName pc));
      [destruct Hv; discriminate|].
    destruct (acNameOK pc && serviceNameOK pc); destruct Hv; discriminate.
Qed.

(** One iteration of the loop of [waitForPADO] outside probe mode. *)
Lemma waitForPADO_body_verdict (PLUGIN : bool) (fuel : nat) (expire_at : timeval)
    (conn : PPPoEConnection) (w : World) ctl c1 w1 :
  printACNames conn = false ->
  waitForPADO_body PLUGIN fuel expire_at conn w = (Ok (ctl, c1), w1) ->
  (forall x, In x (inbox w1) -> In x (inbox w))
  /\ config c1 = config conn
  /\ (ctl = LReturn /\ c1 = conn
      \/ exists packet len,
           In (packet, len) (inbox w)
           /\ (ctl = LBreak /\ discoveryState c1 = STATE_RECEIVED_PADO
               /\ pado_acceptable PLUGIN conn packet len = true
               /\ peerEth c1 = memcpy (peerEth conn) (h_source (ethHdr packet)) ETH_ALEN
               \/ ctl = LContinue /\ discoveryState c1 = discoveryState conn
                  /\ peerEth c1 = peerEth conn)).
Proof.
  intros Hprobe H.
  assert (Hin : forall x, In x (inbox w1) -> In x (inbox w)).
  { intros x. eapply evolves_inbox.
    exact (proj1 (within_waitForPADO_body PLUGIN any_event any_outcome any_outcome_other
                    any_event_other _ _ _ _ _ _ H)). }
  split; [exact Hin|].
  unfold waitForPADO_body in H.
  apply bind_Ok in H as ([remaining tv] & w2 & H2 & H).
  destruct (remaining =? 0).
  { apply Ok_inv in H as [H _]. injection H as -> ->. split; [reflexivity|now left]. }
  apply bind_Ok in H as (r & w3 & H3 & H).
  destruct (r <? 0); [discriminate|].
  destruct (r =? 0).
  { apply Ok_inv in H as [H _]. injection H as -> ->. split; [reflexivity|now left]. }
  apply bind_Ok in H as ([packet len] & w4 & H4 & H).
  destruct (waitForPADO_frame_verdict _ _ _ _ _ _ _ _ Hprobe H) as (Hcfg & Hv).
  split; [assumption|]. right. exists packet, len. split; [|exact Hv].
  assert (Hhead : In (packet, len) (inbox w3)).
  { unfold receivePacket in H4. destruct (inbox w3) as [|p rest]; [discriminate|].
    apply Ok_inv in H4 as [-> _]. now left. }
  eapply evolves_inbox;
    [exact (proj1 (within_time_left PLUGIN any_event any_outcome any_outcome_other _ _ _ _ H2))|].
  eapply evolves_inbox;
    [exact (proj1 (within_select_retry PLUGIN any_event any_outcome any_outcome_other
                     any_event_other _ _ _ _ _ H3))|].
  exact Hhead.
Qed.

(** The loop of [waitForPADO] outside probe mode, entered in a state other
    than [STATE_RECEIVED_PADO]. *)
Lemma waitForPADO_loop_verdict (PLUGIN : bool) (expire_at : timeval) (fuel : nat) :
  forall (conn : PPPoEConnection) (w : World) c' w',
    printACNames conn = false ->
    waitForPADO_loop PLUGIN fuel expire_at conn w = (Ok c', w') ->
    discoveryState conn <> STATE_RECEIVED_PADO ->
    config c' = config conn
    /\ (discoveryState c' = discoveryState conn /\ peerEth c' = peerEth conn
        \/ exists packet len,
             In (packet, len) (inbox w)
             /\ discoveryState c' = STATE_RECEIVED_PADO
             /\ pado_acceptable PLUGIN conn packet len = true
             /\ peerEth c' = memcpy (peerEth conn) (h_source (ethHdr packet)) ETH_ALEN).
Proof.
  induction fuel as [|fuel IH]; intros conn w c' w' Hprobe H Hns; [discriminate|].
  cbn [waitForPADO_loop] in H.
  apply bind_Ok in H as ([ctl c1] & w1 & H1 & H).
  destruct (waitForPADO_body_verdict _ _ _ _ _ _ _ _ Hprobe H1) as (Hin & Hcfg & Hv).
  destruct Hv as [(-> & ->)|(packet & len & Hpk & [(-> & Hs & Ha & Hpe)|(-> & Hs & Hpe)])].
  - apply Ok_inv in H as [-> _]. split; [reflexivity|]. now left.
  - apply Ok_inv in H as [-> _]. split; [assumption|]. right. now exists packet, len.
  - assert (Hns1 : discoveryState c1 <> STATE_RECEIVED_PADO) by congruence.
    destruct (state_eqb (discoveryState c1) STATE_RECEIVED_PADO) eqn:E;
      [apply state_eqb_eq in E; contradiction|].
    cbn [negb] in H.
    destruct (config_names _ _ Hcfg) as (_ & _ & Hpr).
    assert (Hprobe1 : printACNames c1 = false) by congruence.
    destruct (IH _ _ _ _ Hprobe1 H Hns1) as (Hcfg2 & Hv2).
    split; [congruence|].
    destruct Hv2 as [(Hs2 & Hpe2)|(packet2 & len2 & Hpk2 & Hs2 & Ha2 & Hpe2)].
    + left. split; congruence.
    + right. exists packet2, len2. split; [now apply Hin|]. split; [assumption|].
      split; [|congruence].
      now rewrite <- (pado_acceptable_config PLUGIN conn c1 packet2 len2 Hcfg).
Qed.

Lemma waitForPADO_verdict (PLUGIN : bool) (fuel : nat) (conn : PPPoEConnection)
    (timeout : Z) (w : World) c' w' :
  printACNames conn = false ->
  discoveryState conn <> STATE_RECEIVED_PADO ->
  waitForPADO PLUGIN fuel conn timeout w = (Ok c', w') ->
  config c' = config conn
  /\ (discoveryState c' = discoveryState conn /\ peerEth c' = peerEth conn
      \/ discoveryState c' = STATE_RECEIVED_PADO
         /\ exists packet len,
              In (packet, len) (inbox w)
              /\ pado_acceptable PLUGIN conn packet len = true
              /\ peerEth c' = memcpy (peerEth conn) (h_source (ethHdr packet)) ETH_ALEN).
Proof.
  intros Hprobe Hns H. unfold waitForPADO in H.
  apply bind_Ok in H as ([] & w0 & H0 & H).
  apply Ok_inv in H0 as [_ ->].
  apply bind_Ok in H as (r & w1 & H1 & H).
  assert (Hi1 : inbox w1 = inbox w).
  { unfold gettimeofday in H1. cbn [clock set_trace] in H1.
    destruct (clock w); [discriminate|]. apply Ok_inv in H1 as [_ ->]. reflexivity. }
  destruct r as [now|]; [|discriminate].
  set (conn1 := if PLUGIN then set_seenMaxPayload false conn else conn) in *.
  assert (Hc1 : config conn1 = config conn /\ discoveryState conn1 = discoveryState conn
                /\ peerEth conn1 = peerEth conn)
    by (unfold conn1; destruct PLUGIN; repeat split).
  destruct Hc1 as (Hcfg1 & Hs1 & Hpe1).
  destruct (config_names _ _ Hcfg1) as (_ & _ & Hpr1).
  assert (Hprobe1 : printACNames conn1 = false) by congruence.
  assert (Hns1 : discoveryState conn1 <> STATE_RECEIVED_PADO) by congruence.
  destruct (waitForPADO_loop_verdict _ _ _ _ _ _ _ Hprobe1 H Hns1) as (Hcfg & Hv).
  split; [congruence|].
  destruct Hv as [(Hs & Hpe)|(packet & len & Hpk & Hs & Ha & Hpe)].
  - left. split; congruence.
  - right. split; [assumption|]. exists packet, len. rewrite <- Hi1.
    split; [assumption|]. split; [|congruence].
    now rewrite <- (pado_acceptable_config PLUGIN conn conn1 packet len Hcfg1).
Qed.

(** X11: outside probe mode [waitForPADO], entered in a state other than
    [STATE_RECEIVED_PADO], either returns with state and peer address as
    they were, or with state [STATE_RECEIVED_PADO] and as peer the source
    of a frame it received, which was an acceptable PADO. *)
Theorem waitForPADO_takes_peer_from_offer (PLUGIN : bool) (fuel : nat)
    (conn : PPPoEConnection) (timeout : Z) (w : World) c' w' :
  printACNames conn = false ->
  discoveryState conn <> STATE_RECEIVED_PADO ->
  waitForPADO PLUGIN fuel conn timeout w = (Ok c', w') ->
  discoveryState c' = discoveryState conn /\ peerEth c' = peerEth conn
  \/ discoveryState c' = STATE_RECEIVED_PADO
     /\ exists packet len,
          In (packet, len) (inbox w)
          /\ pado_acceptable PLUGIN conn packet len = true
          /\ peerEth c' = memcpy (peerEth conn) (h_source (ethHdr packet)) ETH_ALEN.
Proof.
  intros Hprobe Hns H. now destruct (waitForPADO_verdict _ _ _ _ _ _ _ Hprobe Hns H).
Qed.

Lemma waitForPADO_takes_peer_from_offer_witness :
  exists c' w',
    waitForPADO false 5 (with_acName gold conn_sent_padi) 5 two_offers = (Ok c', w')
    /\ (discoveryState c' = discoveryState (with_acName gold conn_sent_padi)
        /\ peerEth c' = peerEth (with_acName gold conn_sent_padi)
        \/ discoveryState c' = STATE_RECEIVED_PADO
           /\ exists packet len,
                In (packet, len) (inbox two_offers)
                /\ pado_acceptable false (with_acName gold conn_sent_padi) packet len = true
                /\ peerEth c' = memcpy (peerEth (with_acName gold conn_sent_padi))
                                  (h_source (ethHdr packet)) ETH_ALEN).
Proof.
  eexists _, _. split; [vm_compute; reflexivity|].
  eapply (waitForPADO_takes_peer_from_offer false 5 (with_acName gold conn_sent_padi) 5
            two_offers).
  - reflexivity.
  - discriminate.
  - vm_compute. reflexivity.
Defined.

Lemma waitForPADS_takes_session_from_peer_witness :
  exists c' w',
    waitForPADS false 5 conn_waiting 5
      (world [clock_at 100 0; clock_at 101 0] [ready] [pads_relay] false) = (Ok c', w')
    /\ peerEth c' = peerEth conn_waiting
    /\ (discoveryState c' = discoveryState conn_waiting /\ session c' = session conn_waiting
        \/ discoveryState c' = STATE_SESSION
           /\ exists packet len,
                In (packet, len)
                   (inbox (world [clock_at 100 0; clock_at 101 0] [ready] [pads_relay] false))
                /\ pads_guards conn_waiting packet len = true
                /\ existsb is_error_tag (tlv_stream packet) = false
                /\ session c' = pkt_session packet).
Proof.
  eexists _, _. split; [vm_compute; reflexivity|].
  eapply (waitForPADS_takes_session_from_peer false 5 conn_waiting 5
            (world [clock_at 100 0; clock_at 101 0] [ready] [pads_relay] false)).
  - discriminate.
  - vm_compute. reflexivity.
Defined.

(* ------------------------------------------------------------------ *)
(** ** Where the session comes from *)

Lemma pads_guards_state (s : DiscoveryState) (c : PPPoEConnection) (packet : PPPoEPacket)
    (len : Z) :
  pads_guards (set_discoveryState s c) packet len = pads_guards c packet len.
Proof. reflexivity. Qed.

(** A PADR attempt that ends the PADR loop has accepted a PADS. *)
Lemma padr_attempt_session (PLUGIN : bool) (fuel : nat) (a t : Z) (conn : PPPoEConnection)
    (w : World) l' c1 w1 :
  padr_attempt PLUGIN fuel a t conn w = (Ok (l', c1), w1) ->
  l' = PADR_LOOP a (t * 2) /\ discoveryState c1 = STATE_SENT_PADR
  \/ l' = PADR_DONE /\ discoveryState c1 = STATE_SESSION
     /\ exists packet len,
          In (packet, len) (inbox w)
          /\ pads_guards c1 packet len = true
          /\ existsb is_error_tag (tlv_stream packet) = false
          /\ session c1 = pkt_session packet.
Proof.
  unfold padr_attempt. intros H.
  apply bind_Ok in H as ([] & w2 & H2 & H).
  pose proof (proj1 (within_sendPADR PLUGIN any_event (sender conn)
                       (fun dst => any_event_frame _ _ dst) conn eq_refl _ _ _ H2)) as Hev2.
  apply bind_Ok in H as (c2 & w3 & H3 & H).
  assert (Hns : discoveryState (set_discoveryState STATE_SENT_PADR conn) <> STATE_SESSION)
    by discriminate.
  destruct (waitForPADS_verdict _ _ _ _ _ _ _ Hns H3) as (Hcfg & Hpeer & Hv).
  apply bind_Ok in H as (t' & w4 & H4 & H).
  destruct (double_timeout_spec _ _ _ _ H4) as (-> & -> & _).
  destruct Hv as [(Hs & _)|(Hs & packet & len & Hin & Hg & He & Hsess)].
  - cbn [discoveryState set_discoveryState] in Hs. rewrite Hs in H. cbn [state_eqb] in H.
    apply Ok_inv in H as [H _]. injection H as -> ->. now left.
  - rewrite Hs in H. cbn [state_eqb] in H.
    apply Ok_inv in H as [H _]. injection H as -> ->. right.
    split; [reflexivity|]. split; [assumption|]. exists packet, len.
    split; [eapply evolves_inbox; eassumption|].
    split; [|now split].
    rewrite (pads_guards_parsed (set_discoveryState STATE_SENT_PADR conn) c2 packet len Hcfg Hpeer).
    exact Hg.
Qed.

(** X22: when [discovery] (not skipped, with at least one attempt allowed)
    returns with a session, the session id is that of a frame it received
    which passed the checks of [waitForPADS] for the connection as
    returned (its source is the peer, it is for this engine, its code is
    PADS) and held no error tag. *)
Theorem discovery_session_comes_from_peer (PLUGIN : bool) (MAX : Z) (fuel : nat)
    (conn : PPPoEConnection) (w : World) c' w' :
  skipDiscovery conn = false -> 1 <= MAX ->
  discovery PLUGIN MAX fuel conn w = (Ok c', w') ->
  discoveryState c' = STATE_SESSION ->
  exists packet len,
    In (packet, len) (inbox w)
    /\ pads_guards c' packet len = true
    /\ existsb is_error_tag (tlv_stream packet) = false
    /\ session c' = pkt_session packet.
Proof.
  intros Hskip HM H Hsession. unfold discovery in H. rewrite Hskip in H.
  set (P := fun c : PPPoEConnection =>
         exists packet len,
           In (packet, len) (inbox w)
           /\ pads_guards c packet len = true
           /\ existsb is_error_tag (tlv_stream packet) = false
           /\ session c = pkt_session packet).
  cut (discoveryState c' = STATE_SESSION -> P c'); [intros Hc; exact (Hc Hsession)|].
  refine (discovery_from_inv PLUGIN MAX
            (fun l c w1 =>
               (forall x, In x (inbox w1) -> In x (inbox w))
               /\ match l with
                  | PADR_LOOP a _ => a = 0 \/ 1 <= a /\ discoveryState c = STATE_SENT_PADR
                  | PADR_DONE => P c
                  | RETURNED => discoveryState c = STATE_SESSION -> P c
                  | _ => True
                  end)
            (fun r _ => match r with
                        | Ok c => discoveryState c = STATE_SESSION -> P c
                        | Stop _ => True
                        end)
            _ _ _ fuel _ conn w (Ok c') w' _ H).
  - intros f l c w0 r0 w1 Hl (Hin & Hinv) Hs.
    pose proof (proj1 (discovery_step_evolves PLUGIN MAX any_event (sender c) any_event_other
                         (any_event_frame _ _ _) (fun dst => any_event_frame _ _ dst)
                         _ _ _ _ _ _ eq_refl Hs)) as Hev.
    assert (Hin1 : forall x, In x (inbox w1) -> In x (inbox w))
      by (intros x Hx; apply Hin; eapply evolves_inbox; eassumption).
    destruct r0 as [[l' c1]|o]; [|exact I]. split; [exact Hin1|].
    destruct l as [t|a t| |a t| | ]; try congruence.
    + apply Ok_inv in Hs as [Hs _]. injection Hs as -> ->. exact I.
    + destruct (step_PADI_LOOP_spec PLUGIN any_event (sender c) any_event_other
                  (any_event_frame _ _ _) MAX _ _ _ _ _ _ _ eq_refl Hs)
        as (_ & t0 & a' & _ & _ & [->|[-> _]]); exact I.
    + cbn [discovery_step] in Hs.
      destruct (printACNames c); [destruct (negb (numPADOs c =? 0)); discriminate|].
      apply Ok_inv in Hs as [Hs _]. injection Hs as -> ->. now left.
    + cbn [discovery_step] in Hs. cbv zeta in Hs.
      destruct (MAX <? a + 1) eqn:Emax.
      * apply Z.ltb_lt in Emax.
        revert Hs. run_M2. cbn [persist set_trace].
        destruct (persist w0); intros Hs; apply Ok_inv in Hs as [Hs _];
          injection Hs as -> ->; [exact I|].
        intros Hsess. destruct Hinv as [->|[_ Hst]]; [lia|congruence].
      * fold (padr_attempt PLUGIN f (a + 1) t c) in Hs.
        destruct (padr_attempt_session _ _ _ _ _ _ _ _ _ Hs)
          as [(-> & Hst)|(-> & _ & packet & len & Hpk & Hrest)].
        -- right. split; [|assumption]. destruct Hinv as [->|[Ha _]]; lia.
        -- exists packet, len. split; [now apply Hin|exact Hrest].
    + destruct (step_PADR_DONE_spec PLUGIN MAX any_event _ _ _ _ _ Hs) as (Hr & _).
      injection Hr as -> ->. intros _. exact Hinv.
  - intros c w0 [_ Hr]. exact Hr.
  - intros l c w0 _. exact I.
  - split; [auto|exact I].
Qed.

Lemma discovery_session_comes_from_peer_witness :
  exists c' w',
    discovery false 3 20 conn0 S1_network = (Ok c', w')
    /\ exists packet len,
         In (packet, len) (inbox S1_network)
         /\ pads_guards c' packet len = true
         /\ existsb is_error_tag (tlv_stream packet) = false
         /\ session c' = pkt_session packet.
Proof.
  eexists _, _. split; [vm_compute; reflexivity|].
  eapply (discovery_session_comes_from_peer false 3 20 conn0 S1_network).
  - reflexivity.
  - lia.
  - vm_compute. reflexivity.
  - reflexivity.
Defined.

Lemma take_bytes_memcpy (dst src : list byte) (n : Z) :
  take_bytes n (memcpy dst src n) = take_bytes n src.
Proof.
  unfold memcpy. apply take_bytes_app_exact. symmetry. apply take_bytes_length.
Qed.

(** A PADI attempt outside probe mode that ends the PADI loop has accepted a
    PADO. *)
Lemma padi_attempt_offer (PLUGIN : bool) (fuel : nat) (a t : Z) (conn : PPPoEConnection)
    (w : World) l' c1 w1 :
  printACNames conn = false ->
  padi_attempt PLUGIN fuel a t conn w = (Ok (l', c1), w1) ->
  config c1 = config conn
  /\ (l' = PADI_LOOP a (t * 2) /\ discoveryState c1 = STATE_SENT_PADI
      \/ l' = PADI_DONE /\ discoveryState c1 = STATE_RECEIVED_PADO
         /\ exists packet len,
              In (packet, len) (inbox w)
              /\ pado_acceptable PLUGIN conn packet len = true
              /\ take_bytes ETH_ALEN (peerEth c1)
                 = take_bytes ETH_ALEN (h_source (ethHdr packet))).
Proof.
  unfold padi_attempt. intros Hprobe H.
  apply bind_Ok in H as ([] & w2 & H2 & H).
  pose proof (proj1 (within_sendPADI PLUGIN any_event (sender conn)
                       (any_event_frame _ _ _) conn eq_refl _ _ _ H2)) as Hev2.
  apply bind_Ok in H as (c2 & w3 & H3 & H).
  assert (Hns : discoveryState (set_discoveryState STATE_SENT_PADI conn)
                <> STATE_RECEIVED_PADO) by discriminate.
  destruct (waitForPADO_verdict PLUGIN fuel (set_discoveryState STATE_SENT_PADI conn) t
              w2 c2 w3 Hprobe Hns H3) as (Hcfg & Hv).
  change (config (set_discoveryState STATE_SENT_PADI conn)) with (config conn) in Hcfg.
  destruct (config_names _ _ Hcfg) as (_ & _ & Hpr). rewrite Hprobe in Hpr.
  rewrite Hpr in H. cbn [negb andb] in H.
  apply bind_Ok in H as (t' & w4 & H4 & H).
  destruct (double_timeout_spec _ _ _ _ H4) as (-> & -> & _).
  destruct Hv as [(Hs & _)|(Hs & packet & len & Hin & Ha & Hpe)].
  - cbn [discoveryState set_discoveryState] in Hs. rewrite Hs in H. cbn [state_eqb] in H.
    apply Ok_inv in H as [H _]. injection H as -> ->. split; [assumption|]. now left.
  - rewrite Hs in H. cbn [state_eqb] in H.
    apply Ok_inv in H as [H _]. injection H as -> ->. split; [assumption|]. right.
    split; [reflexivity|]. split; [assumption|]. exists packet, len.
    split; [eapply evolves_inbox; eassumption|].
    split; [exact Ha|]. rewrite Hpe. apply take_bytes_memcpy.
Qed.

(** X23: in persistent mode, outside probe mode, when [discovery] (not
    skipped) returns, the peer address of the connection is the source of a
    frame it received which was an acceptable PADO for the configuration. *)
Theorem persist_peer_made_acceptable_offer (PLUGIN : bool) (MAX : Z) (fuel : nat)
    (conn : PPPoEConnection) (w : World) c' w' :
  skipDiscovery conn = false -> printACNames conn = false -> persist w = true ->
  discovery PLUGIN MAX fuel conn w = (Ok c', w') ->
  exists packet len,
    In (packet, len) (inbox w)
    /\ pado_acceptable PLUGIN conn packet len = true
    /\ take_bytes ETH_ALEN (peerEth c')
       = take_bytes ETH_ALEN (h_source (ethHdr packet)).
Proof.
  intros Hskip Hprobe Hper H. unfold discovery in H. rewrite Hskip in H.
  set (Q := fun c : PPPoEConnection =>
         exists packet len,
           In (packet, len) (inbox w)
           /\ pado_acceptable PLUGIN conn packet len = true
           /\ take_bytes ETH_ALEN (peerEth c)
              = take_bytes ETH_ALEN (h_source (ethHdr packet))).
  refine (discovery_from_inv PLUGIN MAX
            (fun l c w1 =>
               (forall x, In x (inbox w1) -> In x (inbox w))
               /\ persist w1 = true /\ config c = config conn
               /\ match l with
                  | SEND_PADI _ | PADI_LOOP _ _ => True
                  | _ => Q c
                  end)
            (fun r _ => match r with Ok c => Q c | Stop _ => True end)
            _ _ _ fuel _ conn w (Ok c') w' _ H).
  - intros f l c w0 r0 w1 Hl (Hin & Hp & Hcfg & Hinv) Hs.
    pose proof (discovery_step_evolves PLUGIN MAX any_event (sender c) any_event_other
                  (any_event_frame _ _ _) (fun dst => any_event_frame _ _ dst)
                  _ _ _ _ _ _ eq_refl Hs) as (Hev & Hcfg1).
    assert (Hin1 : forall x, In x (inbox w1) -> In x (inbox w))
      by (intros x Hx; apply Hin; eapply evolves_inbox; eassumption).
    assert (Hp1 : persist w1 = true) by (destruct Hev as (_ & _ & Hpe & _); congruence).
    destruct r0 as [[l' c1]|o]; [|exact I].
    split; [exact Hin1|]. split; [exact Hp1|]. split; [congruence|].
    destruct (config_names _ _ Hcfg) as (_ & _ & Hpr). rewrite Hprobe in Hpr.
    destruct l as [t|a t| |a t| | ]; try congruence.
    + apply Ok_inv in Hs as [Hs _]. injection Hs as -> ->. exact I.
    + cbn [discovery_step] in Hs. cbv zeta in Hs. unfold bind at 1 in Hs.
      assert (Hatt : forall a0 t0 w2,
                 (forall x, In x (inbox w2) -> In x (inbox w)) ->
                 padi_attempt PLUGIN f a0 t0 c w2 = (Ok (l', c1), w1) ->
                 match l' with SEND_PADI _ | PADI_LOOP _ _ => True | _ => Q c1 end).
      { intros a0 t0 w2 Hin2 Ha.
        destruct (padi_attempt_offer _ _ _ _ _ _ _ _ _ Hpr Ha)
          as (_ & [(-> & _)|(-> & _ & packet & len & Hpk & Hacc & Hpe)]); [exact I|].
        exists packet, len. split; [now apply Hin2|]. split; [|assumption].
        now rewrite <- (pado_acceptable_config PLUGIN conn c packet len Hcfg). }
      destruct (MAX <? a + 1).
      * revert Hs. unfold bind at 1. unfold printErr, emit. unfold bind at 1.
        unfold get_persist at 1. cbn [persist set_trace]. rewrite Hp.
        unfold ret at 1. cbv beta iota. cbn [negb].
        intros Hs. fold (padi_attempt PLUGIN f 0 (discoveryTimeout c) c) in Hs.
        eapply Hatt; [|exact Hs]. exact Hin.
      * unfold ret at 1 in Hs. cbv beta iota in Hs. cbn [negb] in Hs.
        fold (padi_attempt PLUGIN f (a + 1) t c) in Hs.
        eapply Hatt; [|exact Hs]. exact Hin.
    + cbn [discovery_step] in Hs. rewrite Hpr in Hs.
      apply Ok_inv in Hs as [Hs _]. injection Hs as -> ->. exact Hinv.
    + cbn [discovery_step] in Hs. cbv zeta in Hs.
      destruct (MAX <? a + 1).
      * revert Hs. run_M2. cbn [persist set_trace]. rewrite Hp.
        intros Hs. apply Ok_inv in Hs as [Hs _]. injection Hs as -> ->. exact I.
      * fold (padr_attempt PLUGIN f (a + 1) t c) in Hs.
        assert (Hpe : peerEth c1 = peerEth c).
        { unfold padr_attempt in Hs.
          apply bind_Ok in Hs as ([] & w2 & _ & Hs).
          apply bind_Ok in Hs as (c2 & w3 & H3 & Hs).
          assert (Hns : discoveryState (set_discoveryState STATE_SENT_PADR c) <> STATE_SESSION)
            by discriminate.
          destruct (waitForPADS_verdict _ _ _ _ _ _ _ Hns H3) as (_ & Hpeer & _).
          apply bind_Ok in Hs as (t' & w4 & _ & Hs).
          destruct (state_eqb (discoveryState c2) STATE_SENT_PADR);
            apply Ok_inv in Hs as [Hs _]; injection Hs as _ ->; exact Hpeer. }
        assert (Hq : Q c1).
        { destruct Hinv as (packet & len & Hpk & Hacc & Hsrc).
          exists packet, len. rewrite Hpe. now split. }
        destruct (padr_attempt_session _ _ _ _ _ _ _ _ _ Hs) as [(-> & _)|(-> & _)];
          exact Hq.
    + destruct (step_PADR_DONE_spec PLUGIN MAX any_event _ _ _ _ _ Hs) as (Hr & _).
      injection Hr as -> ->. exact Hinv.
  - intros c w0 (_ & _ & _ & Hr). exact Hr.
  - intros l c w0 _. exact I.
  - split; [auto|]. split; [assumption|]. split; [reflexivity|exact I].
Qed.

Lemma persist_peer_made_acceptable_offer_witness :
  exists c' w',
    discovery false 3 20 conn0 persistent_offer = (Ok c', w')
    /\ exists packet len,
         In (packet, len) (inbox persistent_offer)
         /\ pado_acceptable false conn0 packet len = true
         /\ take_bytes ETH_ALEN (peerEth c')
            = take_bytes ETH_ALEN (h_source (ethHdr packet)).
Proof.
  eexists _, _. split; [vm_compute; reflexivity|].
  eapply (persist_peer_made_acceptable_offer false 3 20 conn0 persistent_offer).
  - reflexivity.
  - reflexivity.
  - reflexivity.
  - vm_compute. reflexivity.
Defined.

(* ------------------------------------------------------------------ *)
(** ** When a frame is sent *)

Lemma tlv_bytes_nonneg (tags : list TagView) :
  Forall wf_view tags -> 0 <= tlv_bytes tags.
Proof.
  intros H. rewrite <- tlv_bytes_flat by assumption. apply strlen_nonneg.
Qed.

Lemma tlv_bytes_one (v : TagView) : tlv_bytes [v] = TAG_HDR_SIZE + snd (fst v).
Proof. unfold tlv_bytes. cbn [fold_right]. lia. Qed.

Lemma enc_ok_cursor (e : Encoder) (tags : list TagView) :
  enc_ok e tags -> cursor e = tlv_bytes tags.
Proof.
  intros He. destruct (enc_ok_size e tags He) as [Hp _].
  destruct He as (_ & _ & Hpc & _). congruence.
Qed.

(** With room left, a tag is appended. *)
Lemma copy_tag_room (tag : PPPoETag) (n : Z) (e : Encoder) (w : World) :
  cursor e + (n + TAG_HDR_SIZE) <= MAX_PPPOE_PAYLOAD ->
  exists e', copy_tag tag n e w = (Ok e', w).
Proof.
  intros H. unfold copy_tag, CHECK_ROOM, payload_memcpy, bind, ret.
  apply Z.ltb_ge in H. rewrite H. eexists. reflexivity.
Qed.

(** Without room, nothing is appended. *)
Lemma copy_tag_full (tag : PPPoETag) (n : Z) (e : Encoder) (w : World) :
  MAX_PPPOE_PAYLOAD < cursor e + (n + TAG_HDR_SIZE) ->
  copy_tag tag n e w = (Stop (FatalError "frame too large"), w).
Proof.
  intros H. unfold copy_tag, CHECK_ROOM, bind, stop.
  apply Z.ltb_lt in H. now rewrite H.
Qed.

Lemma host_uniq_tag_bytes (conn : PPPoEConnection) :
  tlv_bytes (host_uniq_tag conn)
  = match hostUniq conn with Some hu => TAG_HDR_SIZE + strlen hu | None => 0 end.
Proof. unfold host_uniq_tag. destruct (hostUniq conn); [apply tlv_bytes_one|reflexivity]. Qed.

Lemma max_payload_tags_bytes (PLUGIN : bool) (w : World) :
  tlv_bytes (max_payload_tags PLUGIN w)
  = if PLUGIN && (ETH_PPPOE_MTU <? Z.min (lcp_allow_mru w) (lcp_want_mru w))
    then TAG_HDR_SIZE + 2 else 0.
Proof.
  unfold max_payload_tags.
  destruct (PLUGIN && (ETH_PPPOE_MTU <? Z.min (lcp_allow_mru w) (lcp_want_mru w)));
    [apply tlv_bytes_one|reflexivity].
Qed.

Lemma stored_tag_bytes (tag : PPPoETag) :
  tlv_bytes (stored_tag tag)
  = if be16_is_zero (tag_type tag) then 0 else TAG_HDR_SIZE + ntohs (tag_length tag).
Proof.
  unfold stored_tag. destruct (be16_is_zero (tag_type tag)); [reflexivity|apply tlv_bytes_one].
Qed.

Lemma enc_ok_not_overran (e : Encoder) (tags : list TagView) :
  enc_ok e tags -> overran (buf e) = false.
Proof.
  intros (_ & Hc & _ & Hm & _). unfold overran. apply Z.ltb_ge. lia.
Qed.

(** Each block of the encoders either appends its tag, when the tag fits,
    or ends the run with nothing changed. *)
Lemma add_hostUniq_cases (conn : PPPoEConnection) (e : Encoder) (tags : list TagView)
    (w : World) :
  enc_ok e tags ->
  if tlv_bytes (tags ++ host_uniq_tag conn) <=? MAX_PPPOE_PAYLOAD
  then exists e', add_hostUniq conn e w = (Ok e', w) /\ enc_ok e' (tags ++ host_uniq_tag conn)
  else exists o, add_hostUniq conn e w = (Stop o, w).
Proof.
  intros He. pose proof (enc_ok_cursor _ _ He) as Hc.
  rewrite tlv_bytes_app, host_uniq_tag_bytes.
  destruct (_ <=? MAX_PPPOE_PAYLOAD) eqn:E.
  - apply Z.leb_le in E.
    assert (Hex : exists e', add_hostUniq conn e w = (Ok e', w)).
    { unfold add_hostUniq. destruct (hostUniq conn) as [hu|]; [|eexists; reflexivity].
      apply copy_tag_room. lia. }
    destruct Hex as (e' & H). exists e'. split; [assumption|].
    now destruct (add_hostUniq_ok _ _ _ _ _ _ He H).
  - apply Z.leb_gt in E. unfold add_hostUniq.
    destruct (hostUniq conn) as [hu|].
    + eexists. apply copy_tag_full. lia.
    + destruct (enc_ok_size _ _ He). lia.
Qed.

Lemma add_maxPayload_cases (PLUGIN : bool) (e : Encoder) (tags : list TagView) (w : World) :
  enc_ok e tags ->
  if tlv_bytes (tags ++ max_payload_tags PLUGIN w) <=? MAX_PPPOE_PAYLOAD
  then exists e', add_maxPayload PLUGIN e w = (Ok e', w)
                  /\ enc_ok e' (tags ++ max_payload_tags PLUGIN w)
  else exists o, add_maxPayload PLUGIN e w = (Stop o, w).
Proof.
  intros He. pose proof (enc_ok_cursor _ _ He) as Hc.
  rewrite tlv_bytes_app, max_payload_tags_bytes.
  destruct (_ <=? MAX_PPPOE_PAYLOAD) eqn:E.
  - apply Z.leb_le in E.
    assert (Hex : exists e', add_maxPayload PLUGIN e w = (Ok e', w)).
    { unfold add_maxPayload. destruct PLUGIN; [|eexists; reflexivity].
      cbn [andb] in E. unfold bind, get_min_mru.
      destruct (ETH_PPPOE_MTU <? Z.min (lcp_allow_mru w) (lcp_want_mru w));
        [|eexists; reflexivity].
      apply copy_tag_room. lia. }
    destruct Hex as (e' & H). exists e'. split; [assumption|].
    now destruct (add_maxPayload_ok _ _ _ _ _ _ He H).
  - apply Z.leb_gt in E. unfold add_maxPayload.
    destruct PLUGIN; cbn [andb] in E.
    + unfold bind, get_min_mru.
      destruct (ETH_PPPOE_MTU <? Z.min (lcp_allow_mru w) (lcp_want_mru w)).
      * eexists. apply copy_tag_full. lia.
      * destruct (enc_ok_size _ _ He). lia.
    + destruct (enc_ok_size _ _ He). lia.
Qed.

Lemma stored_tag_cases (tag : PPPoETag) (e : Encoder) (tags : list TagView) (w : World) :
  enc_ok e tags ->
  if tlv_bytes (tags ++ stored_tag tag) <=? MAX_PPPOE_PAYLOAD
  then exists e',
         (if negb (be16_is_zero (tag_type tag))
          then copy_tag tag (ntohs (tag_length tag)) e else ret e) w = (Ok e', w)
         /\ enc_ok e' (tags ++ stored_tag tag)
  else exists o,
         (if negb (be16_is_zero (tag_type tag))
          then copy_tag tag (ntohs (tag_length tag)) e else ret e) w = (Stop o, w).
Proof.
  intros He. pose proof (enc_ok_cursor _ _ He) as Hc.
  rewrite tlv_bytes_app, stored_tag_bytes.
  destruct (_ <=? MAX_PPPOE_PAYLOAD) eqn:E.
  - apply Z.leb_le in E.
    assert (Hex : exists e',
               (if negb (be16_is_zero (tag_type tag))
                then copy_tag tag (ntohs (tag_length tag)) e else ret e) w = (Ok e', w)).
    { destruct (be16_is_zero (tag_type tag)); cbn [negb]; [eexists; reflexivity|].
      apply copy_tag_room. lia. }
    destruct Hex as (e' & H). exists e'. split; [assumption|].
    now destruct (stored_tag_ok _ _ _ _ _ _ He H).
  - apply Z.leb_gt in E.
    destruct (be16_is_zero (tag_type tag)); cbn [negb].
    + destruct (enc_ok_size _ _ He). lia.
    + eexists. apply copy_tag_full. lia.
Qed.

Lemma service_tag_PADI_cases (conn : PPPoEConnection) (w : World) :
  let m :=
    (let namelen := match serviceName conn with Some s => u16 (strlen s) | None => 0 end in
     let omit_service_name :=
       match serviceName conn with Some s => bytes_eqb s NO_SERVICE_NAME | None => false end in
     if negb omit_service_name then
       let plen0 := u16 (TAG_HDR_SIZE + namelen) in
       CHECK_ROOM 0 plen0 ;;;
       let b := be16_bytes (htons TAG_SERVICE_NAME) ++ be16_bytes (htons namelen) in
       b <- match serviceName conn with
            | Some s => payload_memcpy b TAG_HDR_SIZE s (strlen s)
            | None => ret b
            end ;;
       ret (mkEnc b (namelen + TAG_HDR_SIZE) plen0)
     else ret (mkEnc [] 0 0)) in
  name_fits conn = true ->
  if tlv_bytes (service_tag_PADI conn) <=? MAX_PPPOE_PAYLOAD
  then exists e, m w = (Ok e, w) /\ enc_ok e (service_tag_PADI conn)
  else exists o, m w = (Stop o, w).
Proof.
  intros m Hfits.
  assert (Hok : forall e w', m w = (Ok e, w') -> w' = w /\ enc_ok e (service_tag_PADI conn)).
  { intros e w' H. destruct (service_tag_PADI_ok conn e w w' H) as [Hw He].
    destruct (service_tag_PADI_run conn w _ _ H) as [_ Hov].
    split; [assumption|]. apply He, Hov, Hfits. }
  assert (Hcase : (exists e, m w = (Ok e, w))
                  \/ (exists o, m w = (Stop o, w))
                     /\ MAX_PPPOE_PAYLOAD < tlv_bytes (service_tag_PADI conn)).
  { subst m. cbv zeta. unfold service_tag_PADI.
    destruct (serviceName conn) as [s|].
    - destruct (bytes_eqb s NO_SERVICE_NAME); cbn [negb]; [left; eexists; reflexivity|].
      unfold CHECK_ROOM, payload_memcpy, bind, ret, stop.
      rewrite tlv_bytes_one. cbn [fst snd].
      destruct (MAX_PPPOE_PAYLOAD <? 0 + u16 (TAG_HDR_SIZE + u16 (strlen s))) eqn:E1.
      + right. split; [eexists; reflexivity|].
        apply Z.ltb_lt in E1. pose proof (strlen_nonneg s).
        unfold u16, MAX_PPPOE_PAYLOAD, TAG_HDR_SIZE in *.
        destruct (Z_lt_le_dec 1484 (4 + strlen s)); [assumption|].
        rewrite (Z.mod_small (strlen s)) in E1 by lia.
        rewrite Z.mod_small in E1 by lia. lia.
      + left. eexists. reflexivity.
    - left. cbn [negb]. vm_compute. eexists. reflexivity. }
  destruct (tlv_bytes (service_tag_PADI conn) <=? MAX_PPPOE_PAYLOAD) eqn:E.
  - apply Z.leb_le in E. destruct Hcase as [(e & He)|[_ Hgt]]; [|lia].
    exists e. split; [assumption|]. now destruct (Hok _ _ He).
  - apply Z.leb_gt in E. destruct Hcase as [(e & He)|[Hs _]]; [|assumption].
    destruct (Hok _ _ He) as [_ Henc]. destruct (enc_ok_size _ _ Henc). lia.
Qed.

Lemma padi_tags_prefix (PLUGIN : bool) (conn : PPPoEConnection) (w : World) :
  tlv_bytes (service_tag_PADI conn) <= tlv_bytes (service_tag_PADI conn ++ host_uniq_tag conn)
  /\ tlv_bytes (service_tag_PADI conn ++ host_uniq_tag conn)
     <= tlv_bytes (padi_tags PLUGIN conn w).
Proof.
  unfold padi_tags. rewrite app_assoc, !tlv_bytes_app, host_uniq_tag_bytes, max_payload_tags_bytes.
  pose proof (strlen_nonneg). unfold TAG_HDR_SIZE.
  destruct (hostUniq conn) as [hu|];
    destruct (PLUGIN && (ETH_PPPOE_MTU <? Z.min (lcp_allow_mru w) (lcp_want_mru w)));
    try specialize (H hu); lia.
Qed.

(** X4: when the service name fits the 16 bits of its tag length (it is
    shorter than 65532 bytes), [sendPADI] sends its frame exactly when the
    tags it is to carry (Service-Name unless the sentinel is configured,
    Host-Uniq if configured, PPP-Max-Payload in the PLUGIN build when the
    MRU exceeds 1492) fit the payload window; the frame then carries
    exactly these tags, in this order, to the broadcast address.  Otherwise
    nothing is sent: the world is left as it was. *)
Theorem sendPADI_sends_iff_tags_fit (PLUGIN : bool) (conn : PPPoEConnection) (w : World) :
  name_fits conn = true ->
  if tlv_bytes (padi_tags PLUGIN conn w) <=? MAX_PPPOE_PAYLOAD
  then sendPADI PLUGIN conn w
       = (Ok tt,
          set_trace
            (EvSendPacket
               (frame_of (repeat Byte.xff 6) (take_bytes ETH_ALEN (myEth conn)) CODE_PADI
                  (padi_tags PLUGIN conn w))
               (tlv_bytes (padi_tags PLUGIN conn w) + HDR_SIZE) :: trace w) w)
  else snd (sendPADI PLUGIN conn w) = w.
Proof.
  intros Hfits.
  destruct (padi_tags_prefix PLUGIN conn w) as [Hp1 Hp2].
  assert (Hcase : (exists w', sendPADI PLUGIN conn w = (Ok tt, w'))
                  \/ (exists o, sendPADI PLUGIN conn w = (Stop o, w))
                     /\ MAX_PPPOE_PAYLOAD < tlv_bytes (padi_tags PLUGIN conn w)).
  { unfold sendPADI. cbv zeta.
    pose proof (service_tag_PADI_cases conn w Hfits) as H1. cbv zeta in H1.
    destruct (tlv_bytes (service_tag_PADI conn) <=? MAX_PPPOE_PAYLOAD) eqn:E1.
    2:{ apply Z.leb_gt in E1. destruct H1 as (o & H1). right.
        split; [|lia]. exists o. now apply bind_Stop_eq. }
    destruct H1 as (e1 & H1 & He1). rewrite (bind_Ok_eq _ _ _ _ _ H1).
    rewrite (enc_ok_not_overran _ _ He1), undefined_after_defined.
    pose proof (add_hostUniq_cases conn e1 _ w He1) as H2.
    destruct (tlv_bytes (service_tag_PADI conn ++ host_uniq_tag conn) <=? MAX_PPPOE_PAYLOAD)
      eqn:E2.
    2:{ apply Z.leb_gt in E2. destruct H2 as (o & H2). right.
        split; [|lia]. exists o. now apply bind_Stop_eq. }
    destruct H2 as (e2 & H2 & He2). rewrite (bind_Ok_eq _ _ _ _ _ H2).
    pose proof (add_maxPayload_cases PLUGIN e2 _ w He2) as H3.
    rewrite <- app_assoc in H3. fold (padi_tags PLUGIN conn w) in H3.
    destruct (tlv_bytes (padi_tags PLUGIN conn w) <=? MAX_PPPOE_PAYLOAD) eqn:E3.
    2:{ apply Z.leb_gt in E3. destruct H3 as (o & H3). right.
        split; [|lia]. exists o. now apply bind_Stop_eq. }
    destruct H3 as (e3 & H3 & He3). rewrite (bind_Ok_eq _ _ _ _ _ H3).
    left. eexists. reflexivity. }
  destruct (tlv_bytes (padi_tags PLUGIN conn w) <=? MAX_PPPOE_PAYLOAD) eqn:E.
  - apply Z.leb_le in E. destruct Hcase as [(w' & H)|[_ Hgt]]; [|lia].
    rewrite H. now destruct (sendPADI_sent _ _ _ _ H) as (-> & _).
  - apply Z.leb_gt in E. destruct Hcase as [(w' & H)|[(o & Hs) _]]; [|now rewrite Hs].
    destruct (sendPADI_sent _ _ _ _ H) as (_ & _ & Hsz). lia.
Qed.

Lemma sendPADI_sends_iff_tags_fit_witness :
  if tlv_bytes (padi_tags false (with_hostUniq abc conn0) (world [] [] [] false))
     <=? MAX_PPPOE_PAYLOAD
  then sendPADI false (with_hostUniq abc conn0) (world [] [] [] false)
       = (Ok tt,
          set_trace
            (EvSendPacket
               (frame_of (repeat Byte.xff 6)
                  (take_bytes ETH_ALEN (myEth (with_hostUniq abc conn0))) CODE_PADI
                  (padi_tags false (with_hostUniq abc conn0) (world [] [] [] false)))
               (tlv_bytes (padi_tags false (with_hostUniq abc conn0) (world [] [] [] false))
                + HDR_SIZE)
             :: trace (world [] [] [] false)) (world [] [] [] false))
  else snd (sendPADI false (with_hostUniq abc conn0) (world [] [] [] false))
       = world [] [] [] false.
Proof.
  apply (sendPADI_sends_iff_tags_fit false (with_hostUniq abc conn0) (world [] [] [] false)).
  reflexivity.
Defined.

Lemma service_tag_PADR_cases (conn : PPPoEConnection) (w : World) :
  let namelen := match serviceName conn with Some s => u16 (strlen s) | None => 0 end in
  let m :=
    (CHECK_ROOM 0 (u16 (TAG_HDR_SIZE + namelen)) ;;;
     match serviceName conn with
     | Some s =>
         payload_memcpy (be16_bytes (htons TAG_SERVICE_NAME) ++ be16_bytes (htons namelen))
           TAG_HDR_SIZE s namelen
     | None => ret (be16_bytes (htons TAG_SERVICE_NAME) ++ be16_bytes (htons namelen))
     end) in
  namelen_fits conn = true ->
  if tlv_bytes (service_tag_PADR conn) <=? MAX_PPPOE_PAYLOAD
  then exists b, m w = (Ok b, w)
                 /\ enc_ok (mkEnc b (namelen + TAG_HDR_SIZE) (u16 (TAG_HDR_SIZE + namelen)))
                      (service_tag_PADR conn)
  else exists o, m w = (Stop o, w).
Proof.
  intros namelen m Hfits.
  assert (Hok : forall b w', m w = (Ok b, w') ->
                  w' = w
                  /\ enc_ok (mkEnc b (namelen + TAG_HDR_SIZE) (u16 (TAG_HDR_SIZE + namelen)))
                       (service_tag_PADR conn)).
  { intros b w' H. subst m. apply bind_Ok in H as ([] & w0 & H0 & H).
    destruct (service_tag_PADR_ok conn b w w0 w' H0 H) as [Hw He].
    destruct (service_tag_PADR_run conn w w0 _ w' H0 H) as (_ & b' & Hb & Hov).
    injection Hb as <-. split; [assumption|]. apply He, Hov, Hfits. }
  assert (Hcase : (exists b, m w = (Ok b, w))
                  \/ (exists o, m w = (Stop o, w))
                     /\ MAX_PPPOE_PAYLOAD < tlv_bytes (service_tag_PADR conn)).
  { subst m namelen. unfold service_tag_PADR.
    destruct (serviceName conn) as [s|].
    - unfold CHECK_ROOM, payload_memcpy, bind, ret, stop.
      rewrite tlv_bytes_one. cbn [fst snd].
      pose proof (u16_range (strlen s)) as Hr.
      destruct (MAX_PPPOE_PAYLOAD <? 0 + u16 (TAG_HDR_SIZE + u16 (strlen s))) eqn:E1.
      + right. split; [eexists; reflexivity|].
        apply Z.ltb_lt in E1.
        unfold MAX_PPPOE_PAYLOAD, TAG_HDR_SIZE in *.
        destruct (Z_lt_le_dec 1484 (4 + u16 (strlen s))); [assumption|].
        unfold u16 at 1 in E1. rewrite Z.mod_small in E1 by lia. lia.
      + left. eexists. reflexivity.
    - left. vm_compute. eexists. reflexivity. }
  destruct (tlv_bytes (service_tag_PADR conn) <=? MAX_PPPOE_PAYLOAD) eqn:E.
  - apply Z.leb_le in E. destruct Hcase as [(b & Hb)|[_ Hgt]]; [|lia].
    exists b. split; [assumption|]. now destruct (Hok _ _ Hb).
  - apply Z.leb_gt in E. destruct Hcase as [(b & Hb)|[Hs _]]; [|assumption].
    destruct (Hok _ _ Hb) as [_ Henc]. destruct (enc_ok_size _ _ Henc). lia.
Qed.

Lemma bytes_nonneg_stored (tag : PPPoETag) : 0 <= tlv_bytes (stored_tag tag).
Proof.
  rewrite stored_tag_bytes. pose proof (ntohs_range (tag_length tag)).
  unfold TAG_HDR_SIZE. destruct (be16_is_zero (tag_type tag)); lia.
Qed.

Lemma bytes_nonneg_hostUniq (conn : PPPoEConnection) : 0 <= tlv_bytes (host_uniq_tag conn).
Proof.
  rewrite host_uniq_tag_bytes. unfold TAG_HDR_SIZE.
  destruct (hostUniq conn) as [hu|]; [pose proof (strlen_nonneg hu)|]; lia.
Qed.

Lemma bytes_nonneg_maxPayload (PLUGIN : bool) (w : World) :
  0 <= tlv_bytes (max_payload_tags PLUGIN w).
Proof.
  rewrite max_payload_tags_bytes. unfold TAG_HDR_SIZE.
  destruct (PLUGIN && (ETH_PPPOE_MTU <? Z.min (lcp_allow_mru w) (lcp_want_mru w))); lia.
Qed.

(** X6: when the length [sendPADR] copies of the service name (the length
    truncated to 16 bits) is below 65532, [sendPADR] sends its frame
    exactly when the tags it is to carry (Service-Name, Host-Uniq if
    configured, the stored cookie and relay id when their type is not zero,
    PPP-Max-Payload) fit the payload window; the frame then carries exactly
    these tags, in this order, to the peer.  Otherwise nothing is sent: the
    world is left as it was. *)
Theorem sendPADR_sends_iff_tags_fit (PLUGIN : bool) (conn : PPPoEConnection) (w : World) :
  namelen_fits conn = true ->
  if tlv_bytes (padr_tags PLUGIN conn w) <=? MAX_PPPOE_PAYLOAD
  then sendPADR PLUGIN conn w
       = (Ok tt,
          set_trace
            (EvSendPacket
               (frame_of (take_bytes ETH_ALEN (peerEth conn))
                  (take_bytes ETH_ALEN (myEth conn)) CODE_PADR (padr_tags PLUGIN conn w))
               (tlv_bytes (padr_tags PLUGIN conn w) + HDR_SIZE) :: trace w) w)
  else snd (sendPADR PLUGIN conn w) = w.
Proof.
  intros Hfits.
  set (t1 := service_tag_PADR conn).
  set (t2 := t1 ++ host_uniq_tag conn).
  set (t3 := t2 ++ stored_tag (cookie conn)).
  set (t4 := t3 ++ stored_tag (relayId conn)).
  assert (Ht5 : padr_tags PLUGIN conn w = t4 ++ max_payload_tags PLUGIN w)
    by (unfold padr_tags, t4, t3, t2, t1; now rewrite <- !app_assoc).
  pose proof (bytes_nonneg_hostUniq conn) as N2.
  pose proof (bytes_nonneg_stored (cookie conn)) as N3.
  pose proof (bytes_nonneg_stored (relayId conn)) as N4.
  pose proof (bytes_nonneg_maxPayload PLUGIN w) as N5.
  assert (Hp : tlv_bytes t1 <= tlv_bytes t2 /\ tlv_bytes t2 <= tlv_bytes t3
               /\ tlv_bytes t3 <= tlv_bytes t4
               /\ tlv_bytes t4 <= tlv_bytes (padr_tags PLUGIN conn w)).
  { rewrite Ht5. unfold t4, t3, t2. rewrite !tlv_bytes_app. lia. }
  destruct Hp as (P1 & P2 & P3 & P4).
  assert (Hcase : (exists w', sendPADR PLUGIN conn w = (Ok tt, w'))
                  \/ (exists o, sendPADR PLUGIN conn w = (Stop o, w))
                     /\ MAX_PPPOE_PAYLOAD < tlv_bytes (padr_tags PLUGIN conn w)).
  { unfold sendPADR. cbv zeta.
    pose proof (service_tag_PADR_cases conn w Hfits) as H1. cbv zeta in H1. fold t1 in H1.
    destruct (tlv_bytes t1 <=? MAX_PPPOE_PAYLOAD) eqn:E1.
    2:{ apply Z.leb_gt in E1. destruct H1 as (o & H1). right. split; [|lia]. exists o.
        apply bind_cases in H1 as [(o1 & Ho & H1)|([] & w0 & H0 & H1)].
        - injection Ho as <-. now apply bind_Stop_eq.
        - rewrite (bind_Ok_eq _ _ _ _ _ H0). now apply bind_Stop_eq. }
    destruct H1 as (b & H1 & He1).
    apply bind_Ok in H1 as ([] & w0 & H0 & H1).
    rewrite (bind_Ok_eq _ _ _ _ _ H0), (bind_Ok_eq _ _ _ _ _ H1).
    pose proof (enc_ok_not_overran _ _ He1) as Hov. cbn [buf] in Hov.
    cbn [buf]. rewrite Hov, undefined_after_defined.
    pose proof (add_hostUniq_cases conn _ _ w He1) as H2. fold t2 in H2.
    destruct (tlv_bytes t2 <=? MAX_PPPOE_PAYLOAD) eqn:E2.
    2:{ apply Z.leb_gt in E2. destruct H2 as (o & H2). right.
        split; [|lia]. exists o. now apply bind_Stop_eq. }
    destruct H2 as (e2 & H2 & He2). rewrite (bind_Ok_eq _ _ _ _ _ H2).
    pose proof (stored_tag_cases (cookie conn) e2 _ w He2) as H3. fold t3 in H3.
    destruct (tlv_bytes t3 <=? MAX_PPPOE_PAYLOAD) eqn:E3.
    2:{ apply Z.leb_gt in E3. destruct H3 as (o & H3). right.
        split; [|lia]. exists o. now apply bind_Stop_eq. }
    destruct H3 as (e3 & H3 & He3). rewrite (bind_Ok_eq _ _ _ _ _ H3).
    pose proof (stored_tag_cases (relayId conn) e3 _ w He3) as H4. fold t4 in H4.
    destruct (tlv_bytes t4 <=? MAX_PPPOE_PAYLOAD) eqn:E4.
    2:{ apply Z.leb_gt in E4. destruct H4 as (o & H4). right.
        split; [|lia]. exists o. now apply bind_Stop_eq. }
    destruct H4 as (e4 & H4 & He4). rewrite (bind_Ok_eq _ _ _ _ _ H4).
    pose proof (add_maxPayload_cases PLUGIN e4 _ w He4) as H5. rewrite <- Ht5 in H5.
    destruct (tlv_bytes (padr_tags PLUGIN conn w) <=? MAX_PPPOE_PAYLOAD) eqn:E5.
    2:{ apply Z.leb_gt in E5. destruct H5 as (o & H5). right.
        split; [|lia]. exists o. now apply bind_Stop_eq. }
    destruct H5 as (e5 & H5 & He5). rewrite (bind_Ok_eq _ _ _ _ _ H5).
    left. eexists. reflexivity. }
  destruct (tlv_bytes (padr_tags PLUGIN conn w) <=? MAX_PPPOE_PAYLOAD) eqn:E.
  - apply Z.leb_le in E. destruct Hcase as [(w' & H)|[_ Hgt]]; [|lia].
    rewrite H. now destruct (sendPADR_sent _ _ _ _ H) as (-> & _).
  - apply Z.leb_gt in E. destruct Hcase as [(w' & H)|[(o & Hs) _]]; [|now rewrite Hs].
    destruct (sendPADR_sent _ _ _ _ H) as (_ & _ & Hsz). lia.
Qed.

Lemma sendPADR_sends_iff_tags_fit_witness :
  if tlv_bytes (padr_tags false conn_echo (world [] [] [] false)) <=? MAX_PPPOE_PAYLOAD
  then sendPADR false conn_echo (world [] [] [] false)
       = (Ok tt,
          set_trace
            (EvSendPacket
               (frame_of (take_bytes ETH_ALEN (peerEth conn_echo))
                  (take_bytes ETH_ALEN (myEth conn_echo)) CODE_PADR
                  (padr_tags false conn_echo (world [] [] [] false)))
               (tlv_bytes (padr_tags false conn_echo (world [] [] [] false)) + HDR_SIZE)
             :: trace (world [] [] [] false)) (world [] [] [] false))
  else snd (sendPADR false conn_echo (world [] [] [] false)) = world [] [] [] false.
Proof.
  apply (sendPADR_sends_iff_tags_fit false conn_echo (world [] [] [] false)).
  reflexivity.
Defined.

(* ------------------------------------------------------------------ *)
(** ** What a PADS leaves in the connection *)

Lemma parsePADSTags_keeps (PLUGIN : bool) (t l : Z) (d : list byte) (conn : PPPoEConnection)
    (w : World) c' w' :
  parsePADSTags PLUGIN t l d conn w = (Ok c', w') ->
  cookie c' = cookie conn /\ inbox w' = inbox w.
Proof.
  unfold parsePADSTags, max_payload_tag. run_M2.
  split_cases; intros H; apply Ok_inv in H as [-> ->]; split; reflexivity.
Qed.

Lemma visit_PADS_keeps (PLUGIN : bool) (tags : list TagView) :
  forall conn w c' w',
    visit_tags (parsePADSTags PLUGIN) tags conn w = (Ok c', w') ->
    cookie c' = cookie conn /\ inbox w' = inbox w.
Proof.
  induction tags as [|[[t l] d] tags IH]; intros conn w c' w' H.
  - apply Ok_inv in H as [-> ->]. split; reflexivity.
  - cbn [visit_tags] in H. apply bind_Ok in H as (c1 & w1 & H1 & H2).
    apply IH in H2 as [Hc2 Hi2]. apply parsePADSTags_keeps in H1 as [Hc1 Hi1].
    split; congruence.
Qed.

(** X13: [waitForPADS] never ends the process on a frame, reads no further
    frame, and never changes the stored cookie, the offer count, the peer
    address or the session id (which is written after the loop).  A frame
    that fails the checks leaves the stored relay id alone; a frame that
    passes them overwrites it with its last Relay-Session-Id tag, if it has
    one, also when the frame is then rejected for an error tag. *)
Theorem pads_frame_effects (PLUGIN : bool) (conn : PPPoEConnection)
    (packet : PPPoEPacket) (len : Z) (w : World) :
  exists ctl c1 w1,
    waitForPADS_frame PLUGIN conn packet len w = (Ok (ctl, c1), w1)
    /\ inbox w1 = inbox w
    /\ cookie c1 = cookie conn /\ numPADOs c1 = numPADOs conn
    /\ peerEth c1 = peerEth conn /\ session c1 = session conn
    /\ relayId c1
       = if pads_guards conn packet len
         then capture TAG_RELAY_SESSION_ID (tlv_stream packet) (relayId conn)
         else relayId conn.
Proof.
  rewrite waitForPADS_frame_eq.
  destruct (pads_guards conn packet len).
  2:{ destruct (len <? ntohs (pkt_length packet) + HDR_SIZE);
        eexists _, _, _; (split; [reflexivity|]); repeat split. }
  unfold parsePacket, bind.
  destruct (visit_PADS_result PLUGIN (tlv_stream packet) (set_PADSHadError false conn) w)
    as (c & w' & Hv & Hr & _).
  rewrite Hv.
  pose proof (quietly_visit_PADS PLUGIN _ _ _ _ _ Hv) as (_ & _ & Hp).
  destruct (Hp c eq_refl) as (_ & _ & Hpeer & Hn & Hsess).
  destruct (visit_PADS_keeps _ _ _ _ _ _ Hv) as [Hc Hin].
  cbn [cookie set_PADSHadError peerEth numPADOs session relayId] in *.
  destruct (negb (PADSHadError c)); eexists _, _, _; (split; [reflexivity|]);
    cbn [cookie peerEth numPADOs session relayId set_discoveryState];
    repeat split; assumption.
Qed.

(* ------------------------------------------------------------------ *)
(** ** A service name too long for its length field *)

(** [sendPADI] with a service name of 65532 bytes or more whose truncated
    tag length passes CHECK_ROOM: all bytes of the name are copied, past
    the end of [packet.payload], and the function goes on.  Without
    Host-Uniq and outside the PLUGIN build it hands this frame to
    [sendPacket]. *)
Lemma sendPADI_overrun (PLUGIN : bool) (conn : PPPoEConnection) (s : list byte) (w : World) :
  serviceName conn = Some s ->
  bytes_eqb s NO_SERVICE_NAME = false ->
  65532 <= strlen s ->
  u16 (TAG_HDR_SIZE + u16 (strlen s)) <= MAX_PPPOE_PAYLOAD ->
  fst (sendPADI PLUGIN conn w) = Stop (Undefined "write past the end of packet.payload")
  /\ (hostUniq conn = None -> PLUGIN = false ->
      snd (sendPADI PLUGIN conn w)
      = set_trace
          (EvSendPacket
             (mkPacket
                (mkEthhdr (repeat Byte.xff 6) (take_bytes ETH_ALEN (myEth conn))
                   (htons Eth_PPPOE_Discovery))
                PPPOE_VER_TYPE_1_1 CODE_PADI (htons 0)
                (htons (u16 (TAG_HDR_SIZE + u16 (strlen s))))
                ((be16_bytes (htons TAG_SERVICE_NAME) ++ be16_bytes (htons (u16 (strlen s))))
                   ++ s))
             (u16 (TAG_HDR_SIZE + u16 (strlen s)) + HDR_SIZE) :: trace w) w).
Proof.
  intros Hs Hne Hlen Hroom. unfold sendPADI. cbv zeta. rewrite Hs, Hne. cbn [negb].
  apply Z.leb_le in Hroom. rewrite Z.leb_antisym in Hroom. apply negb_true_iff in Hroom.
  erewrite bind_Ok_eq.
  2:{ unfold CHECK_ROOM, payload_memcpy, bind, ret.
      change (0 + u16 (TAG_HDR_SIZE + u16 (strlen s)))
        with (u16 (TAG_HDR_SIZE + u16 (strlen s))).
      rewrite Hroom. reflexivity. }
  cbn [buf].
  assert (Hbuf : write_at (be16_bytes (htons TAG_SERVICE_NAME)
                             ++ be16_bytes (htons (u16 (strlen s))))
                   TAG_HDR_SIZE (take_bytes (strlen s) s)
                 = (be16_bytes (htons TAG_SERVICE_NAME)
                      ++ be16_bytes (htons (u16 (strlen s)))) ++ s).
  { change TAG_HDR_SIZE
      with (strlen (be16_bytes (htons TAG_SERVICE_NAME)
                      ++ be16_bytes (htons (u16 (strlen s))))).
    now rewrite write_at_end, take_bytes_strlen. }
  rewrite Hbuf.
  assert (Hov : overran ((be16_bytes (htons TAG_SERVICE_NAME)
                            ++ be16_bytes (htons (u16 (strlen s)))) ++ s) = true).
  { unfold overran. apply Z.ltb_lt. rewrite strlen_app.
    pose proof (strlen_nonneg (be16_bytes (htons TAG_SERVICE_NAME)
                                 ++ be16_bytes (htons (u16 (strlen s))))).
    unfold MAX_PPPOE_PAYLOAD. lia. }
  rewrite Hov. unfold undefined_after. cbn [fst snd]. split; [reflexivity|].
  intros Hhu ->. unfold add_hostUniq, add_maxPayload. rewrite Hhu.
  unfold bind, ret, sendPacket, emit. cbn [snd buf plen]. reflexivity.
Qed.

(** The same in [sendPADR], which copies the truncated length: a name whose
    truncated length is 65532 or more passes CHECK_ROOM, is copied past
    the end of [packet.payload], and the function goes on.  With nothing
    else to add it hands this frame to [sendPacket]. *)
Lemma sendPADR_overrun (PLUGIN : bool) (conn : PPPoEConnection) (s : list byte) (w : World) :
  serviceName conn = Some s ->
  65532 <= u16 (strlen s) ->
  fst (sendPADR PLUGIN conn w) = Stop (Undefined "write past the end of packet.payload")
  /\ (hostUniq conn = None -> be16_is_zero (tag_type (cookie conn)) = true ->
      be16_is_zero (tag_type (relayId conn)) = true -> PLUGIN = false ->
      snd (sendPADR PLUGIN conn w)
      = set_trace
          (EvSendPacket
             (mkPacket
                (mkEthhdr (take_bytes ETH_ALEN (peerEth conn))
                   (take_bytes ETH_ALEN (myEth conn)) (htons Eth_PPPOE_Discovery))
                PPPOE_VER_TYPE_1_1 CODE_PADR (htons 0)
                (htons (u16 (TAG_HDR_SIZE + u16 (strlen s))))
                ((be16_bytes (htons TAG_SERVICE_NAME) ++ be16_bytes (htons (u16 (strlen s))))
                   ++ take_bytes (u16 (strlen s)) s))
             (u16 (TAG_HDR_SIZE + u16 (strlen s)) + HDR_SIZE) :: trace w) w).
Proof.
  intros Hs Hlen. unfold sendPADR. cbv zeta. rewrite Hs.
  pose proof (u16_range (strlen s)) as Hr.
  set (n := u16 (strlen s)) in *.
  assert (Hroom : (MAX_PPPOE_PAYLOAD <? 0 + u16 (TAG_HDR_SIZE + n)) = false).
  { apply Z.ltb_ge. unfold u16 at 1. unfold TAG_HDR_SIZE, MAX_PPPOE_PAYLOAD.
    replace (4 + n) with ((4 + n - 65536) + 1 * 65536) by lia.
    rewrite Z.mod_add by lia. rewrite Z.mod_small by lia. lia. }
  erewrite bind_Ok_eq; [|unfold CHECK_ROOM; rewrite Hroom; reflexivity].
  erewrite bind_Ok_eq; [|unfold payload_memcpy, ret; reflexivity].
  cbn [buf].
  assert (Htk : strlen (take_bytes n s) = n)
    by (unfold strlen; rewrite take_bytes_length; lia).
  assert (Hbuf' : write_at (be16_bytes (htons TAG_SERVICE_NAME) ++ be16_bytes (htons n))
                    TAG_HDR_SIZE (take_bytes n s)
                  = (be16_bytes (htons TAG_SERVICE_NAME) ++ be16_bytes (htons n))
                      ++ take_bytes n s).
  { change TAG_HDR_SIZE
      with (strlen (be16_bytes (htons TAG_SERVICE_NAME) ++ be16_bytes (htons n))).
    now rewrite write_at_end. }
  rewrite Hbuf'.
  assert (Hov : overran ((be16_bytes (htons TAG_SERVICE_NAME) ++ be16_bytes (htons n))
                           ++ take_bytes n s) = true).
  { unfold overran. apply Z.ltb_lt. rewrite strlen_app, Htk.
    pose proof (strlen_nonneg (be16_bytes (htons TAG_SERVICE_NAME)
                                 ++ be16_bytes (htons n))).
    unfold MAX_PPPOE_PAYLOAD. lia. }
  rewrite Hov. unfold undefined_after. cbn [fst snd]. split; [reflexivity|].
  intros Hhu Hck Hrl ->. unfold add_hostUniq, add_maxPayload. rewrite Hhu, Hck, Hrl.
  unfold bind, ret, sendPacket, emit. cbn [negb snd buf plen]. reflexivity.
Qed.

Lemma strlen_name_65533 : strlen name_65533 = 65533.
Proof. unfold strlen, name_65533. rewrite repeat_length. now rewrite Z2Nat.id by lia. Qed.

(** C8, as the code has it: with a service name of 65533 bytes the 16-bit
    length of the Service-Name tag wraps around to 1, CHECK_ROOM lets it
    pass, and the name is copied past the end of [packet.payload], in
    [sendPADI] (all 65533 bytes) and in [sendPADR] alike.  The behaviour is
    undefined from there; neither function stops, and the frame each hands
    to [sendPacket] declares a payload length that is not the sum of its
    tags, and has a size that is not 14 + 6 + that sum. *)
Theorem long_service_name_breaks_frame_lengths :
  (fst (sendPADI false (with_serviceName name_65533 conn0) (world [] [] [] false))
   = Stop (Undefined "write past the end of packet.payload")
   /\ exists pkt size,
        trace (snd (sendPADI false (with_serviceName name_65533 conn0)
                      (world [] [] [] false)))
        = [EvSendPacket pkt size]
        /\ MAX_PPPOE_PAYLOAD < strlen (payload pkt)
        /\ ntohs (pkt_length pkt) <> tlv_bytes (tlv_stream pkt)
        /\ size <> 14 + 6 + tlv_bytes (tlv_stream pkt))
  /\ (fst (sendPADR false (with_serviceName name_65533 conn0) (world [] [] [] false))
      = Stop (Undefined "write past the end of packet.payload")
      /\ exists pkt size,
           trace (snd (sendPADR false (with_serviceName name_65533 conn0)
                         (world [] [] [] false)))
           = [EvSendPacket pkt size]
           /\ MAX_PPPOE_PAYLOAD < strlen (payload pkt)
           /\ ntohs (pkt_length pkt) <> tlv_bytes (tlv_stream pkt)
           /\ size <> 14 + 6 + tlv_bytes (tlv_stream pkt)).
Proof.
  pose proof strlen_name_65533 as Hlen.
  assert (Hne : bytes_eqb name_65533 NO_SERVICE_NAME = false) by (vm_compute; reflexivity).
  split.
  - destruct (sendPADI_overrun false (with_serviceName name_65533 conn0) name_65533
                (world [] [] [] false) eq_refl Hne) as [Hfst Hsnd].
    + rewrite Hlen. lia.
    + rewrite Hlen. vm_compute. discriminate.
    + split; [exact Hfst|]. rewrite (Hsnd eq_refl eq_refl). rewrite Hlen.
      eexists _, _. split; [reflexivity|].
      cbn [payload pkt_length]. split; [|split].
      * rewrite strlen_app, Hlen. vm_compute. reflexivity.
      * vm_compute. discriminate.
      * vm_compute. discriminate.
  - destruct (sendPADR_overrun false (with_serviceName name_65533 conn0) name_65533
                (world [] [] [] false) eq_refl) as [Hfst Hsnd].
    + rewrite Hlen. vm_compute. discriminate.
    + split; [exact Hfst|]. rewrite (Hsnd eq_refl eq_refl eq_refl eq_refl). rewrite Hlen.
      eexists _, _. split; [reflexivity|].
      cbn [payload pkt_length]. split; [|split].
      * rewrite strlen_app. unfold strlen at 2. rewrite take_bytes_length.
        vm_compute. reflexivity.
      * vm_compute. discriminate.
      * vm_compute. discriminate.
Qed.

(** X5: when the configured service name is so long (65532 bytes or more)
    that the 16-bit tag length computed by [sendPADI] wraps around and
    passes CHECK_ROOM, the [memcpy] of the whole name writes past the end of
    [packet.payload]: undefined behaviour.  The function is not stopped
    there: it goes on to the other tags and, when no Host-Uniq is
    configured (outside the PLUGIN build), hands a frame to [sendPacket]
    whose payload buffer holds the tag header and all bytes of the name. *)
Theorem sendPADI_long_service_name_overruns (PLUGIN : bool) (conn : PPPoEConnection)
    (s : list byte) (w : World) :
  serviceName conn = Some s ->
  bytes_eqb s NO_SERVICE_NAME = false ->
  65532 <= strlen s ->
  u16 (TAG_HDR_SIZE + u16 (strlen s)) <= MAX_PPPOE_PAYLOAD ->
  fst (sendPADI PLUGIN conn w) = Stop (Undefined "write past the end of packet.payload")
  /\ (hostUniq conn = None -> PLUGIN = false ->
      exists pkt size,
        snd (sendPADI PLUGIN conn w) = set_trace (EvSendPacket pkt size :: trace w) w
        /\ code pkt = CODE_PADI
        /\ strlen (payload pkt) = TAG_HDR_SIZE + strlen s
        /\ MAX_PPPOE_PAYLOAD < strlen (payload pkt)).
Proof.
  intros Hs Hne Hlen Hroom.
  destruct (sendPADI_overrun PLUGIN conn s w Hs Hne Hlen Hroom) as [Hfst Hsnd].
  split; [exact Hfst|]. intros Hhu HP. eexists _, _. split; [exact (Hsnd Hhu HP)|].
  cbn [code payload]. split; [reflexivity|].
  rewrite strlen_app.
  change (strlen (be16_bytes (htons TAG_SERVICE_NAME)
                    ++ be16_bytes (htons (u16 (strlen s))))) with 4.
  unfold TAG_HDR_SIZE, MAX_PPPOE_PAYLOAD. split; lia.
Qed.

Lemma sendPADI_long_service_name_overruns_witness :
  fst (sendPADI false (with_serviceName long_name conn0) (world [] [] [] false))
  = Stop (Undefined "write past the end of packet.payload")
  /\ (hostUniq (with_serviceName long_name conn0) = None -> false = false ->
      exists pkt size,
        snd (sendPADI false (with_serviceName long_name conn0) (world [] [] [] false))
        = set_trace (EvSendPacket pkt size :: trace (world [] [] [] false))
            (world [] [] [] false)
        /\ code pkt = CODE_PADI
        /\ strlen (payload pkt) = TAG_HDR_SIZE + strlen long_name
        /\ MAX_PPPOE_PAYLOAD < strlen (payload pkt)).
Proof.
  apply (sendPADI_long_service_name_overruns false (with_serviceName long_name conn0)
           long_name).
  - reflexivity.
  - vm_compute. reflexivity.
  - unfold strlen, long_name. rewrite repeat_length. lia.
  - unfold strlen, long_name. rewrite repeat_length.
    rewrite Z2Nat.id by lia. vm_compute. discriminate.
Defined.
